(* ===== verification/_CoqProject ===== *)
-Q . S2P
Prelude.v
GoStrings.v
Strconv.v
Base64.v
Netip.v
Pagination.v
Retry.v
Breaker.v
Lifecycle.v
Pool.v
Cache.v
Postgres.v
TaskSQL.v
Task.v
TaskStore.v
Queue.v
Worker.v
Dispatch.v
Delivery.v
Scheduler.v
IamSQL.v
Redis.v
RedisKeys.v
RateLimit.v
RefreshStore.v
Sessions.v
Token.v
Iam.v
Mailer.v
Password.v
AuthCache.v
Totp.v
IamStore.v
Admin.v
AuditTrail.v
IamService.v
AuthenticationService.v
Identity.v
Application.v
Scheduling.v
Http.v
RequestMeta.v
Middleware.v
Metrics.v
Router.v
IamHttp.v
Platform.v
Journey.v
Config.v
Runtime.v
Api.v
Command.v
Script.v
