(* ===== verification/Prelude.v ===== *)
(** * A verification library for backend-infrastructure-go

    The repository is a backend in Go: an HTTP API with an identity module
    (accounts, roles, sessions, second factors), an audit trail and a task
    module (submissions, a broker, a worker, schedules), on PostgreSQL and
    Redis.  This library models its packages and proves what makes them
    correct, one by one and composed.  Paths below are relative to [src/].

    ** How the code is read

    A Go function that touches the world and returns [(T, error)] is an action
    [M W T] of the monad of this file: it threads the world [W], which keeps
    its changes when the function returns an error, and it may panic.  Errors
    are the values of [error]: sentinels, wrapped and joined errors, and the
    structured errors the code inspects; [errors_is] is [errors.Is].  An [int]
    is a [Z], with its wrap-around ([int64], [int32]) where the code converts
    or computes without a bound; an instant is its nanoseconds.  A string is
    its bytes ([GoStrings]).  [within R m] says that every run of [m] moves the
    world along the preorder [R], [wp] is the weakest precondition; the hint
    database [within] proves the first for programs made of known steps.

    Concurrency is explicit.  Critical sections, Redis scripts, statements and
    transactions are atomic, and the theorems quantify over histories or step
    relations that interleave them with the steps of other requests, with
    faults and with the expiry of keys.  Goroutines that talk over channels
    ([Lifecycle.Run], [Dispatch], [Scheduling]) are machines whose steps are
    the choices of their [select]s.  A row lock ([FOR UPDATE]) is held to the
    end of its transaction: transactions run one after the other.

    ** The parts

    - The libraries the code rests on, translated as far as it uses them:
      [GoStrings] (strings, unicode/utf8, encoding/hex), [Strconv], [Base64],
      [Netip] (net/netip).
    - Small packages: [Pagination] (pkg/pagination), [Retry] and [Breaker]
      (pkg/platform/resilience), [Lifecycle] (pkg/lifecycle and the stack of
      internal/app), [Pool] (opening the pool, pkg/postgres), [Cache]
      (pkg/platform/cache).
    - PostgreSQL: [Postgres] is the interface to the server ([Pg], with the
      laws [PgLaws] and a concrete server [Conn] with injected faults) and
      [RunInTx]; [TaskSQL], [IamSQL] and the first half of [AuditTrail] are the
      tables and the generated statements (pkg/platform/database/dbgen).
    - Tasks: [Task] (pkg/modules/task: state machine, registry, catalog,
      submission service, processor), [TaskStore] (taskstore), [Queue]
      (pkg/platform/queue: publisher, handlers, outbox), [Worker] (a delivery
      on a server that answers), [Dispatch] (the dispatch loop of
      internal/app/tasks.go), [Delivery] (both processes, from a submission
      to its execution), [Journey] (from the POST of a task to the end of its
      execution), [Scheduler] (pkg/platform/scheduler) and [Scheduling] (the
      broker task of a schedule and the loop of the scheduler process).
    - Redis: [Redis] and [RedisKeys] are the interfaces to the server, with
      laws and a concrete keyspace with expiry; [RateLimit] (both limiters),
      [RefreshStore] (pkg/modules/iam/refresh.go) with [Sessions], the table
      it refines, and [AuthCache] (pkg/platform/authcache).
    - Identity: [Iam] (data, validation, interfaces), [Token], [Password],
      [Totp] (pkg/platform/authcrypto), [Mailer], [IamStore] (both stores),
      [IamService], [AuthenticationService]; [Identity] composes them as
      internal/app/api.go does; [Admin] seeds the administrator.
    - Audit: [AuditTrail] (pkg/modules/audit and its store); [Application] are
      the interfaces of the handlers and the decorators that record events.
    - HTTP: [Http] (pkg/apikit: a handler is a program over a trace of writer
      operations), [RequestMeta], [Middleware] and [Router] (pkg/httpkit),
      [Metrics], [IamHttp], [Platform] (internal/app/platform_http.go).
    - Processes: [Config] (pkg/config), [Runtime] (what the processes build,
      run and release), [Api] (the handler the API serves), [Command] (the
      commands under cmd/, up to their exit status), [Script]
      (scripts/verification).

    The interfaces of the code are classes or records of operations, and a
    client is proved against the interface: [Pg], [RedisStrings],
    [RedisKeysLaws], the stores and publishers of [Task], the records of
    [Iam], [PartsLaws], [RecorderLaws], [Chi], [ResourceLaws].  The
    implementation of the repository, or a concrete one in a module [Example],
    discharges it.

    ** What is shown

    - Tasks: an outbox message is marked published only when the broker has its
      task or the execution is past the queue, whatever fails and in any order;
      every entry point moves the tables along the state machine; an attempt is
      claimed once; a delivery has its outcome on every path; the dispatch loop
      drains a backlog in as many ticks as it has batches, so that a POST the
      API answers with 202 is executed when the servers answer; the registrar
      converges to the enabled schedules, and a schedule is submitted as it was
      written.
    - Identity: the guards of the stores hold under every sequence of service
      operations (an active administrator remains, versions only grow); a
      challenge buys one session; a second factor stays until its owner
      disables it; a reset revokes the sessions; what a login proves; what a
      registration satisfied; seeding binds one administrator.
    - Secrets: refresh tokens are used once and their store refines a table of
      at most one session per user; codes and challenges survive a
      bounded number of guesses, tokens round-trip and are signed, one time
      codes are accepted once in their window, nothing secret is mailed in the
      clear.
    - HTTP: on the assembled API every request gets one answer of a known form,
      panics included; an effect on a guarded route needs a token of an active
      user with the permission; handlers call what their route allows; errors
      map to their class; a client cannot choose its address; the wrappers of
      the audit trail are transparent and the trail is append-only.
    - Infrastructure: transactions are all or nothing; the breaker lets one
      probe through; retries wait the capped backoff; the limiters are sliding
      windows and agree; metrics are bounded; a configuration that passes its
      checks builds the server; [Run] terminates within its timeout and shuts
      down in reverse order; a process exits with 0 only after a clean
      shutdown; no process leaks its connections; cache keys round-trip.

    ** Bounds and fuel

    Recursion is structural except where noted.  Printing an integer has fuel
    for 20 decimal digits, an [int64] has at most 19 and a sign; the base 36
    request identifiers have 13, enough for 64 bits; an IPv6 address has fuel
    for its 8 groups.  The rate limit middleware computes the seconds of
    Retry-After as a float64: the model rounds up exactly, as the code does
    below 2^23 seconds.

    ** Parameters

    Code that is not in the repository is an argument of the definitions, with
    what is relied on as laws next to it: cryptographic functions and random
    sources, [encoding/json], [fmt.Sscanf], base 32, the case tables of
    Unicode, [time.ParseDuration], [net/url], the date parser, the UUID
    packages, chi, the SMTP peer, the broker and its scheduler, the drivers of
    PostgreSQL and Redis, golang-migrate, HTTP servers and the metrics client.
    Each theorem that has hypotheses is applied to concrete inputs beside it.

    ** Not modelled

    The output of the loggers, the exposition of metrics and the sockets are
    I/O.  The migrations are run by golang-migrate;
    their tables and constraints are in the SQL files above.  The packages
    under pkg/shared, pkg/platform/httpserver (middleware, router, jsonbody),
    pkg/platform/database, pkg/platform/logging and internal/bootstrap forward
    to packages that are modelled.  Test support and the web client are left
    out.  Deactivating a user with [store_SetActive] has no
    guard of its own: the service only does it when no management repository
    is attached, which is never the case in the composition.  The
    text of errors matters to the code in a few places only and is otherwise
    not compared. *)
From Stdlib Require Export ZArith Lia Bool.
From stdpp Require Export base tactics option numbers sets strings gmap fin_maps sorting list.

#[global] Set Default Goal Selector "!".

Declare Scope go_scope.
Delimit Scope go_scope with go.
#[global] Open Scope Z_scope.

(** ** Go errors

    A Go [error] is an open interface.  The modelled code builds errors from
    package-level sentinels ([errors.New] stored in a variable), wraps them
    ([fmt.Errorf] with [%w]), joins them ([errors.Join]), and returns four
    structured errors that callers inspect with [errors.As]. *)

(** The sentinels of [pkg/modules/iam/model.go].
    @src pkg/modules/iam/model.go:10-22 IamErr *)
Inductive IamErr :=
  | ErrNotFound | ErrInvalidCredentials | ErrInactiveUser | ErrDuplicateIdentity
  | ErrInvalidRefreshToken | ErrPermissionDenied | ErrInvalidUserInput
  | ErrCannotDeactivateSelf | ErrLastActiveAdministrator | ErrSystemRoleProtected
  | ErrManagementUnavailable.

(** The sentinels of [pkg/modules/iam/authentication.go].
    @src pkg/modules/iam/authentication.go:13-19 AuthErr *)
Inductive AuthErr :=
  | ErrAuthenticationForbidden | ErrEmailNotVerified | ErrInvalidCode
  | ErrEmailCodeRequired | ErrSecurityConflict | ErrAuthenticationUnavailable
  | ErrMailRejected.

(** The sentinels of [pkg/modules/task/service.go] and of the task registry,
    catalog and state machine.
    @src pkg/modules/task/service.go:11-17 TaskErr *)
Inductive TaskErr :=
  | ErrDuplicateSubmission | ErrDefinitionNotFound | ErrExecutionNotFound
  | ErrExecutionConflict | ErrInvalidSubmission.
Inductive TaskKindErr :=
  | ErrInvalidTransition | ErrHandlerRegistered | ErrHandlerNotFound
  | ErrInvalidTaskCatalog | ErrSystemTestFailure.

(** Sentinels of the standard library and of the drivers the code compares
    against with [errors.Is]. *)
Inductive LibErr :=
  | ContextCanceled | ContextDeadlineExceeded | PgxNoRows
  | AsynqTaskIDConflict | AsynqDuplicateTask | AsynqSkipRetry | AsynqRevokeTask | RedisNil.

(** The two sentinels of [pkg/platform/resilience]. *)
Inductive ResilienceErr := ErrInvalidRetryPolicy | ErrCircuitOpen.

(** The sentinel of [pkg/modules/audit/audit.go].
    @src pkg/modules/audit/audit.go:21-21 ErrInvalidEvent *)
Inductive AuditErr := ErrInvalidEvent.

Inductive sentinel :=
  | SIam (e : IamErr) | SAuth (e : AuthErr) | STask (e : TaskErr)
  | STaskKind (e : TaskKindErr) | SLib (e : LibErr) | SRes (e : ResilienceErr) | SAudit (e : AuditErr).

Inductive error :=
  | ESentinel (s : sentinel)
  | EText (msg : string)
  | EWrap (msg : string) (cause : error)
  | EJoin (e1 e2 : error)
  | EPg (code : string)
  | EFields (fields : list (string * string))
  | ERateLimit (retryAfter : Z).

Coercion SIam : IamErr >-> sentinel.
Coercion SAuth : AuthErr >-> sentinel.
Coercion STask : TaskErr >-> sentinel.
Coercion STaskKind : TaskKindErr >-> sentinel.
Coercion SLib : LibErr >-> sentinel.
Coercion SRes : ResilienceErr >-> sentinel.
Coercion SAudit : AuditErr >-> sentinel.
Coercion ESentinel : sentinel >-> error.

#[global] Instance IamErr_eq_dec : EqDecision IamErr. Proof. solve_decision. Defined.
#[global] Instance AuthErr_eq_dec : EqDecision AuthErr. Proof. solve_decision. Defined.
#[global] Instance TaskErr_eq_dec : EqDecision TaskErr. Proof. solve_decision. Defined.
#[global] Instance TaskKindErr_eq_dec : EqDecision TaskKindErr. Proof. solve_decision. Defined.
#[global] Instance LibErr_eq_dec : EqDecision LibErr. Proof. solve_decision. Defined.
#[global] Instance ResilienceErr_eq_dec : EqDecision ResilienceErr. Proof. solve_decision. Defined.
#[global] Instance AuditErr_eq_dec : EqDecision AuditErr. Proof. solve_decision. Defined.
#[global] Instance sentinel_eq_dec : EqDecision sentinel. Proof. solve_decision. Defined.
#[global] Instance error_eq_dec : EqDecision error. Proof. solve_decision. Defined.

(** [ErrEmailNotVerified] is itself built with [%w] around
    [ErrAuthenticationForbidden]. *)
Definition sentinel_cause (s : sentinel) : option sentinel :=
  match s with
  | SAuth ErrEmailNotVerified => Some (SAuth ErrAuthenticationForbidden)
  | _ => None
  end.

(** [errors.Is]: the error itself, or anything in its chain of causes. *)
Fixpoint errors_is (target : sentinel) (e : error) : bool :=
  match e with
  | ESentinel s =>
      bool_decide (s = target) || bool_decide (sentinel_cause s = Some target)
  | EWrap _ cause => errors_is target cause
  | EJoin e1 e2 => errors_is target e1 || errors_is target e2
  | _ => false
  end.

(** [errors.Is] against an optional target, as in [errors.Is(err, ctx.Err())];
    a context error is one of the two sentinels of [context]. *)
Definition is_context_error (ctx_err : option LibErr) (e : error) : bool :=
  match ctx_err with
  | Some c => errors_is (SLib c) e
  | None => false
  end.

(** [errors.As] for [*pgconn.PgError]. *)
Fixpoint pg_code (e : error) : option string :=
  match e with
  | EPg code => Some code
  | EWrap _ cause => pg_code cause
  | EJoin e1 e2 => match pg_code e1 with Some c => Some c | None => pg_code e2 end
  | _ => None
  end.

(** [errors.Join] drops nil errors and is nil when all of them are. *)
Definition errors_join (e1 e2 : option error) : option error :=
  match e1, e2 with
  | None, e => e
  | e, None => e
  | Some a, Some b => Some (EJoin a b)
  end.

(** The text of an error, [err.Error()]: what the libraries put in theirs is
    not modelled. *)
Class ErrorText := Error : error -> string.

(** ** Results and the state and error monad

    A Go function that touches the world and returns [(T, error)] is a
    function of type [M W T]: it threads the world [W], whose changes persist
    when it returns an error, and it may panic. *)
Inductive res (A : Type) :=
  | Ok (a : A)
  | Err (e : error)
  | Panic.
Arguments Ok {A} a.
Arguments Err {A} e.
Arguments Panic {A}.

#[global] Instance res_eq_dec {A} `{EqDecision A} : EqDecision (res A).
Proof. solve_decision. Defined.

Definition is_ok {A} (r : res A) : bool :=
  match r with Ok _ => true | _ => false end.

Definition is_err {A} (r : res A) : bool :=
  match r with Err _ => true | _ => false end.

#[global] Instance res_ret : MRet res := @Ok.
#[global] Instance res_bind : MBind res := fun A B k m =>
  match m with Ok a => k a | Err e => Err e | Panic => Panic end.

Definition M (W A : Type) : Type := W -> res A * W.

#[global] Instance M_ret {W} : MRet (M W) := fun A a w => (Ok a, w).
#[global] Instance M_bind {W} : MBind (M W) := fun A B k m w =>
  match m w with
  | (Ok a, w') => k a w'
  | (Err e, w') => (Err e, w')
  | (Panic, w') => (Panic, w')
  end.

Definition throw {W A} (e : error) : M W A := fun w => (Err e, w).
Definition panic {W A} : M W A := fun w => (Panic, w).
(** [value, err := m(...)]: the error becomes a value; a panic propagates. *)
Definition try {W A} (m : M W A) : M W (res A) := fun w =>
  match m w with
  | (Panic, w') => (Panic, w')
  | (r, w') => (Ok r, w')
  end.
(** The callee's error is dropped ([_ = f(...)]). *)
Definition ignore {W A} (m : M W A) : M W unit := fun w =>
  match m w with
  | (Panic, w') => (Panic, w')
  | (_, w') => (Ok tt, w')
  end.
(** [if err := f(...); err != nil { return fmt.Errorf("msg: %w", err) }] *)
Definition wrap {W A} (msg : string) (m : M W A) : M W A := fun w =>
  match m w with
  | (Err e, w') => (Err (EWrap msg e), w')
  | (r, w') => (r, w')
  end.
Definition of_res {W A} (r : res A) : M W A := fun w => (r, w).
Definition of_option_error {W} (e : option error) : M W unit :=
  match e with Some e => throw e | None => mret tt end.
Definition get_world {W} : M W W := fun w => (Ok w, w).
Definition gets {W A} (f : W -> A) : M W A := fun w => (Ok (f w), w).
Definition modify {W} (f : W -> W) : M W unit := fun w => (Ok tt, f w).

(** A Go [for range] loop whose body may return an error. *)
Fixpoint for_each {W A} (l : list A) (body : A -> M W unit) : M W unit :=
  match l with
  | [] => mret tt
  | x :: rest => _ ← body x; for_each rest body
  end.

(** The same, collecting the values the body produces. *)
Fixpoint map_each {W A B} (l : list A) (body : A -> M W B) : M W (list B) :=
  match l with
  | [] => mret []
  | x :: rest => y ← body x; ys ← map_each rest body; mret (y :: ys)
  end.

Definition when {W} (b : bool) (m : M W unit) : M W unit :=
  if b then m else mret tt.

(** ** Machine integers *)
Definition int64 (z : Z) : Z := (z + 2 ^ 63) mod 2 ^ 64 - 2 ^ 63.
Definition int32 (z : Z) : Z := (z + 2 ^ 31) mod 2 ^ 32 - 2 ^ 31.
Definition uint64 (z : Z) : Z := z mod 2 ^ 64.
Definition uint32 (z : Z) : Z := z mod 2 ^ 32.
Definition max_int64 : Z := 2 ^ 63 - 1.
Definition min_int64 : Z := - 2 ^ 63.

Definition in_int64 (z : Z) : Prop := min_int64 <= z <= max_int64.
Definition in_int32 (z : Z) : Prop := - 2 ^ 31 <= z <= 2 ^ 31 - 1.

(** ** Time

    An instant is its number of nanoseconds since the Unix epoch; a
    [time.Duration] is an [int64] of nanoseconds. *)
Definition Second : Z := 1000000000.
Definition Millisecond : Z := 1000000.
Definition Minute : Z := 60 * Second.
Definition Hour : Z := 60 * Minute.

(** [Time.Sub] saturates at the bounds of [Duration]. *)
Definition time_sub (t u : Z) : Z :=
  Z.max min_int64 (Z.min max_int64 (t - u)).
(** [Time.After] *)
Definition after (t u : Z) : bool := u <? t.

(** ** Reasoning about the monad

    [wp m Q w] states that [Q] holds of the result and of the final world of
    [m] started in [w]; [within R m] that every run of [m] moves the world
    along [R], whatever its result. *)
Definition wp {W A} (m : M W A) (Q : res A -> W -> Prop) (w : W) : Prop :=
  Q (m w).1 (m w).2.

Definition within {W A} (R : W -> W -> Prop) (m : M W A) : Prop :=
  forall w, R w (m w).2.

(** Preservation of an invariant and of a projection of the world are the two
    preorders the components use. *)
Definition keeps {W} (P : W -> Prop) : W -> W -> Prop := fun w w' => P w -> P w'.
Definition same {W B} (f : W -> B) : W -> W -> Prop := fun w w' => f w' = f w.

#[global] Instance keeps_preorder {W} (P : W -> Prop) : PreOrder (keeps P).
Proof. split; unfold keeps; repeat intro; eauto. Qed.

#[global] Instance same_preorder {W B} (f : W -> B) : PreOrder (same f).
Proof. split; unfold same; repeat intro; congruence. Qed.

Create HintDb within discriminated.
#[export] Hint Constants Opaque : within.
#[export] Hint Variables Opaque : within.
#[export] Hint Projections Opaque : within.

(** *** Inversion of runs *)
Section Runs.
Context {W A B : Type}.

Lemma M_bind_run (m : M W A) (k : A -> M W B) w :
  (m ≫= k) w =
    match m w with
    | (Ok a, w') => k a w'
    | (Err e, w') => (Err e, w')
    | (Panic, w') => (Panic, w')
    end.
Proof. reflexivity. Qed.

Lemma M_bind_inv (m : M W A) (k : A -> M W B) w r w'' :
  (m ≫= k) w = (r, w'') ->
  (exists a w', m w = (Ok a, w') /\ k a w' = (r, w'')) \/
  (exists e, m w = (Err e, w'') /\ r = Err e) \/
  (m w = (Panic, w'') /\ r = Panic).
Proof.
  rewrite M_bind_run. destruct (m w) as [[a|e|] w'] eqn:E; intros H.
  - left; eauto.
  - right; left. injection H as <- <-; eauto.
  - right; right. injection H as <- <-; eauto.
Qed.

Lemma M_bind_Ok_inv (m : M W A) (k : A -> M W B) w b w'' :
  (m ≫= k) w = (Ok b, w'') ->
  exists a w', m w = (Ok a, w') /\ k a w' = (Ok b, w'').
Proof. intros [H|[(e & _ & H)|(_ & H)]]%M_bind_inv; [done | discriminate | discriminate]. Qed.

Lemma M_bind_Ok (m : M W A) (k : A -> M W B) w a w' :
  m w = (Ok a, w') -> (m ≫= k) w = k a w'.
Proof. intros H. by rewrite M_bind_run, H. Qed.

Lemma M_bind_Err (m : M W A) (k : A -> M W B) w e w' :
  m w = (Err e, w') -> (m ≫= k) w = (Err e, w').
Proof. intros H. by rewrite M_bind_run, H. Qed.

Lemma try_inv (m : M W A) w r w' :
  try m w = (r, w') ->
  (r = Panic /\ m w = (Panic, w')) \/ (exists x, r = Ok x /\ x <> Panic /\ m w = (x, w')).
Proof.
  unfold try. destruct (m w) as [[a|e|] w1] eqn:E; intros H; injection H as <- <-;
    [right; eexists; split_and!; [done| |done]; discriminate ..|left; done].
Qed.

Lemma try_run (m : M W A) w x w' :
  m w = (x, w') -> x <> Panic -> try m w = (Ok x, w').
Proof. unfold try. intros -> Hx. by destruct x. Qed.

Lemma wrap_Ok_inv msg (m : M W A) w a w' : wrap msg m w = (Ok a, w') -> m w = (Ok a, w').
Proof. unfold wrap. destruct (m w) as [[] ?]; by intros [= <- <-]. Qed.

Lemma wrap_Ok msg (m : M W A) w a w' : m w = (Ok a, w') -> wrap msg m w = (Ok a, w').
Proof. unfold wrap. by intros ->. Qed.

Lemma wrap_Err msg (m : M W A) w e w' :
  m w = (Err e, w') -> wrap msg m w = (Err (EWrap msg e), w').
Proof. unfold wrap. by intros ->. Qed.

Lemma ignore_run (m : M W A) w : (ignore m w).2 = (m w).2.
Proof. unfold ignore. by destruct (m w) as [[] ?]. Qed.
End Runs.

(** *** Weakest preconditions *)
Section WP.
Context {W A B : Type}.

Lemma wp_ret (a : A) (Q : res A -> W -> Prop) w : Q (Ok a) w -> wp (mret a) Q w.
Proof. done. Qed.

Lemma wp_throw e (Q : res A -> W -> Prop) w : Q (Err e) w -> wp (throw e) Q w.
Proof. done. Qed.

Lemma wp_bind (m : M W A) (k : A -> M W B) (Q : res B -> W -> Prop) w :
  wp m (fun r w' => match r with
                    | Ok a => wp (k a) Q w'
                    | Err e => Q (Err e) w'
                    | Panic => Q Panic w' end) w ->
  wp (m ≫= k) Q w.
Proof. unfold wp. rewrite M_bind_run. by destruct (m w) as [[] ?]. Qed.

Lemma wp_mono (m : M W A) (P Q : res A -> W -> Prop) w :
  wp m P w -> (forall r w', P r w' -> Q r w') -> wp m Q w.
Proof. unfold wp; eauto. Qed.

Lemma wp_try (m : M W A) (Q : res (res A) -> W -> Prop) w :
  wp m (fun r w' => match r with Panic => Q Panic w' | _ => Q (Ok r) w' end) w ->
  wp (try m) Q w.
Proof. unfold wp, try. by destruct (m w) as [[] ?]. Qed.

Lemma wp_gets (f : W -> A) (Q : res A -> W -> Prop) w : Q (Ok (f w)) w -> wp (gets f) Q w.
Proof. done. Qed.

Lemma wp_run (m : M W A) (Q : res A -> W -> Prop) w r w' :
  m w = (r, w') -> wp m Q w -> Q r w'.
Proof. unfold wp. by intros ->. Qed.
End WP.

(** *** Steps along a preorder *)
Section Within.
Context {W : Type} (R : W -> W -> Prop) `{!PreOrder R}.

Lemma within_run {A} (m : M W A) w r w' : within R m -> m w = (r, w') -> R w w'.
Proof. intros H E. specialize (H w). by rewrite E in H. Qed.

Lemma within_ret {A} (a : A) : within R (mret a).
Proof. intros w. reflexivity. Qed.

Lemma within_throw {A} e : within R (throw (A := A) e).
Proof. intros w. reflexivity. Qed.

Lemma within_panic {A} : within R (panic (A := A)).
Proof. intros w. reflexivity. Qed.

Lemma within_gets {A} (f : W -> A) : within R (gets f).
Proof. intros w. reflexivity. Qed.

Lemma within_of_res {A} (r : res A) : within R (of_res r).
Proof. intros w. reflexivity. Qed.

Lemma within_of_option_error e : within R (of_option_error e).
Proof. intros w. by destruct e. Qed.

Lemma within_bind {A B} (m : M W A) (k : A -> M W B) :
  within R m -> (forall a, within R (k a)) -> within R (m ≫= k).
Proof.
  intros Hm Hk w. rewrite M_bind_run. specialize (Hm w).
  destruct (m w) as [[a|e|] w']; [|done|done].
  etransitivity; [exact Hm | apply Hk].
Qed.

Lemma within_bind_ok {A B} (m : M W A) (k : A -> M W B) :
  within R m -> (forall a w w', m w = (Ok a, w') -> within R (k a)) -> within R (m ≫= k).
Proof.
  intros Hm Hk w. rewrite M_bind_run. specialize (Hm w).
  destruct (m w) as [[a|e|] w'] eqn:E; [|done|done].
  etransitivity; [exact Hm | by eapply Hk].
Qed.

Lemma within_bind_res {A B} (r : res A) (k : A -> M W B) :
  (forall a, r = Ok a -> within R (k a)) -> within R (of_res r ≫= k).
Proof. intros Hk w. rewrite M_bind_run. destruct r; simpl; [by apply Hk|done|done]. Qed.

Lemma within_try {A} (m : M W A) : within R m -> within R (try m).
Proof. intros Hm w. specialize (Hm w). unfold try. by destruct (m w) as [[] ?]. Qed.

Lemma within_ignore {A} (m : M W A) : within R m -> within R (ignore m).
Proof. intros Hm w. rewrite ignore_run. apply Hm. Qed.

Lemma within_wrap {A} msg (m : M W A) : within R m -> within R (wrap msg m).
Proof. intros Hm w. specialize (Hm w). unfold wrap. by destruct (m w) as [[] ?]. Qed.

Lemma within_when b (m : M W unit) : within R m -> within R (when b m).
Proof. intros Hm. destruct b; [exact Hm | apply within_ret]. Qed.

Lemma within_for_each {A} (l : list A) (body : A -> M W unit) :
  (forall x, within R (body x)) -> within R (for_each l body).
Proof.
  intros Hb. induction l as [|x l IH]; simpl; [apply within_ret|].
  apply within_bind; [apply Hb | intros _; exact IH].
Qed.

Lemma within_for_each_keeps {A} (P : W -> Prop) (l : list A) (body : A -> M W unit) :
  (forall x, x ∈ l -> within (keeps P) (body x)) -> within (keeps P) (for_each l body).
Proof.
  intros Hb. induction l as [|x l IH]; simpl; intros w Hw; [done|].
  rewrite M_bind_run. pose proof (Hb x ltac:(left) w Hw) as Hx.
  destruct (body x w) as [[a|e|] w1]; simpl in *; [|done|done].
  apply IH; [|done]. intros y Hy. apply Hb. by right.
Qed.

Lemma within_map_each {A B} (l : list A) (body : A -> M W B) :
  (forall x, within R (body x)) -> within R (map_each l body).
Proof.
  intros Hb. induction l as [|x l IH]; simpl; [apply within_ret|].
  apply within_bind; [apply Hb | intros y].
  apply within_bind; [exact IH | intros ys; apply within_ret].
Qed.
End Within.

#[export] Hint Resolve within_ret within_throw within_panic within_gets within_of_res
  within_of_option_error within_bind within_try within_ignore within_wrap within_when
  within_for_each within_map_each : within.
#[export] Hint Extern 1 (within _ (match ?x with _ => _ end)) => destruct x : within.
#[export] Hint Extern 1 (within _ (let _ := _ in _)) => cbv zeta : within.

Ltac solve_within :=
  repeat first
    [ progress intros
    | apply within_ret; [tc_solve] | apply within_throw; [tc_solve] | apply within_gets; [tc_solve]
    | apply within_panic; [tc_solve] | apply within_of_res; [tc_solve] | apply within_of_option_error; [tc_solve]
    | solve [eauto with within]
    | apply within_bind; [tc_solve | | ]
    | apply within_try | apply within_ignore | apply within_wrap
    | apply within_when; [tc_solve | ]
    | apply within_for_each; [tc_solve | ] | apply within_map_each; [tc_solve | ]
    | progress cbv beta zeta
    | case_match ].

(** *** Tactics

    [go_inv H] takes apart an equation [m w = (r, w')] about a Go body: binds,
    returns, tried calls and the branches of [if] and [match]. *)
Ltac go_inv_step H :=
  lazymatch type of H with
  | (_ ≫= _) _ = (Ok _, _) =>
      let a := fresh "a" in let w := fresh "w" in let E := fresh "E" in
      apply M_bind_Ok_inv in H as (a & w & E & H)
  | (_ ≫= _) _ = (_, _) =>
      let a := fresh "a" in let w := fresh "w" in let E := fresh "E" in
      let e := fresh "e" in let Hr := fresh "Hr" in
      apply M_bind_inv in H as [(a & w & E & H)|[(e & E & Hr)|(E & Hr)]]
  | mret _ _ = (_, _) => injection H as ? ?; subst
  | throw _ _ = (_, _) => injection H as ? ?; subst
  | (Ok _, _) = (_, _) => injection H as ? ?; subst
  | (Err _, _) = (_, _) => first [discriminate H | injection H as ? ?; subst]
  | (Panic, _) = (_, _) => first [discriminate H | injection H as ? ?; subst]
  | (if ?b then _ else _) _ = (_, _) => let E := fresh "Hb" in destruct b eqn:E
  | (match ?x with _ => _ end) _ = (_, _) => let E := fresh "Hm" in destruct x eqn:E
  end.

Tactic Notation "go_inv" hyp(H) := repeat (go_inv_step H; try discriminate).

Lemma res_bind_Ok_inv {A B} (m : res A) (k : A -> res B) b :
  (m ≫= k) = Ok b -> exists a, m = Ok a /\ k a = Ok b.
Proof. destruct m as [a|e|]; simpl; [eauto|discriminate|discriminate]. Qed.

(** The same for a chain of binds in [res]. *)
Ltac res_inv H :=
  repeat lazymatch type of H with
  | (_ ≫= _) = Ok _ =>
      let a := fresh "a" in let E := fresh "E" in
      apply res_bind_Ok_inv in H as (a & E & H)
  end.

(** Booleans of the source as propositions. *)
Ltac bool_prop :=
  repeat match goal with
  | H : _ && _ = true |- _ => apply andb_true_iff in H as [? ?]
  | H : _ || _ = false |- _ => apply orb_false_iff in H as [? ?]
  | H : _ && _ = false |- _ => apply andb_false_iff in H
  | H : _ || _ = true |- _ => apply orb_true_iff in H
  | H : negb _ = true |- _ => apply negb_true_iff in H
  | H : negb _ = false |- _ => apply negb_false_iff in H
  | H : bool_decide _ = true |- _ => apply bool_decide_eq_true in H
  | H : bool_decide _ = false |- _ => apply bool_decide_eq_false in H
  | H : (_ <? _) = true |- _ => apply Z.ltb_lt in H
  | H : (_ <? _) = false |- _ => apply Z.ltb_ge in H
  | H : (_ <=? _) = true |- _ => apply Z.leb_le in H
  | H : (_ <=? _) = false |- _ => apply Z.leb_gt in H
  | H : (_ =? _) = true |- _ => apply Z.eqb_eq in H
  | H : (_ =? _) = false |- _ => apply Z.eqb_neq in H
  end.

(** ** Machine integers: the values that fit are unchanged *)
Lemma int64_id z : in_int64 z -> int64 z = z.
Proof.
  unfold in_int64, int64, min_int64, max_int64. intros H.
  rewrite Z.mod_small; lia.
Qed.

Lemma int32_id z : in_int32 z -> int32 z = z.
Proof. unfold in_int32, int32. intros H. rewrite Z.mod_small; lia. Qed.

Lemma int64_range z : in_int64 (int64 z).
Proof.
  unfold in_int64, int64, min_int64, max_int64.
  pose proof (Z.mod_pos_bound (z + 2 ^ 63) (2 ^ 64) ltac:(lia)). lia.
Qed.

Lemma uint64_id z : 0 <= z < 2 ^ 64 -> uint64 z = z.
Proof. apply Z.mod_small. Qed.

Lemma uint32_id z : 0 <= z < 2 ^ 32 -> uint32 z = z.
Proof. apply Z.mod_small. Qed.

Lemma time_sub_id t u : in_int64 (t - u) -> time_sub t u = t - u.
Proof. unfold in_int64, time_sub. lia. Qed.
