(* ===== verification/GoStrings.v ===== *)
(** * Go strings

    A Go string is its bytes.  What the modelled code uses of packages
    [strings], [unicode/utf8] and [encoding/hex] is defined here on bytes;
    only the case mapping of text beyond ASCII, which is a table of the
    Unicode standard, is a parameter ([Unicode]). *)
From S2P Require Import Prelude.
From Stdlib Require Export Ascii Wf_nat.

Definition bytes (s : string) : list ascii := String.list_ascii_of_string s.
Definition of_bytes (l : list ascii) : string := String.string_of_list_ascii l.
Definition len (s : string) : Z := Z.of_nat (String.length s).
Definition code (a : ascii) : Z := Z.of_N (N_of_ascii a).
Definition of_code (z : Z) : ascii := ascii_of_N (Z.to_N z).
Definition in_range (lo hi : Z) (a : ascii) : bool := (lo <=? code a) && (code a <=? hi).

(** ** [strings.TrimSpace]

    A leading or trailing rune is dropped when it is white space: one of six
    ASCII bytes, or the two or three byte encoding of U+0085, U+00A0, U+1680,
    U+2000 to U+200A, U+2028, U+2029, U+202F, U+205F or U+3000. *)
Definition space1 (a : ascii) : bool := in_range 9 13 a || (code a =? 32).
Definition space2 (a b : ascii) : bool :=
  (code a =? 194) && ((code b =? 133) || (code b =? 160)).
Definition space3 (a b c : ascii) : bool :=
  ((code a =? 225) && (code b =? 154) && (code c =? 128)) ||
  ((code a =? 226) && (code b =? 128) &&
     (in_range 128 138 c || (code c =? 168) || (code c =? 169) || (code c =? 175))) ||
  ((code a =? 226) && (code b =? 129) && (code c =? 159)) ||
  ((code a =? 227) && (code b =? 128) && (code c =? 128)).

Fixpoint drop_spaces (s2 : ascii -> ascii -> bool) (s3 : ascii -> ascii -> ascii -> bool)
    (l : list ascii) : list ascii :=
  match l with
  | [] => []
  | a :: l1 =>
      if space1 a then drop_spaces s2 s3 l1
      else match l1 with
           | [] => l
           | b :: l2 =>
               if s2 a b then drop_spaces s2 s3 l2
               else match l2 with
                    | [] => l
                    | c :: l3 => if s3 a b c then drop_spaces s2 s3 l3 else l
                    end
           end
  end.

Definition trim_left : list ascii -> list ascii := drop_spaces space2 space3.
Definition trim_right (l : list ascii) : list ascii :=
  rev (drop_spaces (fun a b => space2 b a) (fun a b c => space3 c b a) (rev l)).

Definition TrimSpace (s : string) : string := of_bytes (trim_right (trim_left (bytes s))).

(** ** Case mapping *)
Definition is_ascii (s : string) : bool := forallb (fun a => code a <? 128) (bytes s).

(** Lower-casing and case folding of strings with a byte outside ASCII. *)
Class Unicode := {
  unicode_lower : string -> string;
  unicode_equal_fold : string -> string -> bool;
}.

Definition lower_byte (a : ascii) : ascii :=
  if in_range 65 90 a then of_code (code a + 32) else a.

Definition ToLower `{Unicode} (s : string) : string :=
  if is_ascii s then of_bytes (map lower_byte (bytes s)) else unicode_lower s.

Definition EqualFold `{Unicode} (s t : string) : bool :=
  if is_ascii s && is_ascii t
  then String.eqb (of_bytes (map lower_byte (bytes s))) (of_bytes (map lower_byte (bytes t)))
  else unicode_equal_fold s t.

(** ** Searching and splitting *)
Definition is_empty (s : string) : bool := String.eqb s "".

Fixpoint split_on (sep : ascii) (l : list ascii) : list (list ascii) :=
  match l with
  | [] => [[]]
  | a :: l =>
      if bool_decide (a = sep) then [] :: split_on sep l
      else match split_on sep l with
           | [] => [[a]]
           | w :: ws => (a :: w) :: ws
           end
  end.

(** [strings.Split(s, sep)] for a one byte separator. *)
Definition Split (s : string) (sep : ascii) : list string := map of_bytes (split_on sep (bytes s)).

(** [strings.Cut(s, sep)] for a one byte separator: before, after, found. *)
Fixpoint cut_on (sep : ascii) (l : list ascii) : option (list ascii * list ascii) :=
  match l with
  | [] => None
  | a :: l =>
      if bool_decide (a = sep) then Some ([], l)
      else match cut_on sep l with
           | None => None
           | Some (x, y) => Some (a :: x, y)
           end
  end.

Definition Cut (s : string) (sep : ascii) : string * string * bool :=
  match cut_on sep (bytes s) with
  | Some (x, y) => (of_bytes x, of_bytes y, true)
  | None => (s, "", false)
  end.

Definition HasPrefix (s prefix : string) : bool := String.prefix prefix s.
Definition HasSuffix (s suffix : string) : bool :=
  String.prefix (of_bytes (rev (bytes suffix))) (of_bytes (rev (bytes s))).

(** ** [utf8.RuneCountInString]

    The number of runes, an invalid byte counting as one: the table of first
    bytes of [unicode/utf8] gives the size of a sequence and the range of its
    second byte. *)
Definition continuation (a : ascii) : bool := in_range 128 191 a.

Definition second_range (a : ascii) : Z * Z :=
  if code a =? 224 then (160, 191) else if code a =? 237 then (128, 159)
  else if code a =? 240 then (144, 191) else if code a =? 244 then (128, 143)
  else (128, 191).

Definition second_ok (a b : ascii) : bool :=
  let '(lo, hi) := second_range a in in_range lo hi b.

Fixpoint rune_count (l : list ascii) : Z :=
  match l with
  | [] => 0
  | a :: l1 =>
      1 + match l1 with
          | b :: l2 =>
              if in_range 194 223 a && second_ok a b then rune_count l2
              else match l2 with
                   | c :: l3 =>
                       if in_range 224 239 a && second_ok a b && continuation c then rune_count l3
                       else match l3 with
                            | d :: l4 =>
                                if in_range 240 244 a && second_ok a b && continuation c && continuation d
                                then rune_count l4 else rune_count l1
                            | [] => rune_count l1
                            end
                   | [] => rune_count l1
                   end
          | [] => 0
          end
  end.

Definition RuneCountInString (s : string) : Z := rune_count (bytes s).

(** [utf8.ValidString] *)
Fixpoint valid_utf8 (l : list ascii) : bool :=
  match l with
  | [] => true
  | a :: l1 =>
      if code a <? 128 then valid_utf8 l1
      else match l1 with
           | b :: l2 =>
               if in_range 194 223 a then second_ok a b && valid_utf8 l2
               else match l2 with
                    | c :: l3 =>
                        if in_range 224 239 a then second_ok a b && continuation c && valid_utf8 l3
                        else match l3 with
                             | d :: l4 => in_range 240 244 a && second_ok a b && continuation c && continuation d && valid_utf8 l4
                             | [] => false
                             end
                    | [] => false
                    end
           | [] => false
           end
  end.

(** ** [encoding/hex] *)
Definition hex_digit (z : Z) : ascii := of_code (if z <? 10 then 48 + z else 87 + z).
Definition hex_value (a : ascii) : option Z :=
  if in_range 48 57 a then Some (code a - 48)
  else if in_range 97 102 a then Some (code a - 87)
  else if in_range 65 70 a then Some (code a - 55)
  else None.

Fixpoint hex_encode (l : list ascii) : list ascii :=
  match l with
  | [] => []
  | a :: l => hex_digit (code a / 16) :: hex_digit (code a mod 16) :: hex_encode l
  end.

(** [None] on an odd length or a byte that is no hexadecimal digit. *)
Fixpoint hex_decode (l : list ascii) : option (list ascii) :=
  match l with
  | [] => Some []
  | a :: b :: l =>
      match hex_value a, hex_value b, hex_decode l with
      | Some x, Some y, Some r => Some (of_code (16 * x + y) :: r)
      | _, _, _ => None
      end
  | [_] => None
  end.

Definition hex_EncodeToString (s : string) : string := of_bytes (hex_encode (bytes s)).

(** A slice [l[lo:hi]]. *)
Definition slice {A} (lo hi : nat) (l : list A) : list A := take (hi - lo) (drop lo l).

(** The hexadecimal digits of a UUID with its dashes. *)
Definition format_bytes (hexValue : list ascii) : list ascii :=
  slice 0 8 hexValue ++ "-"%char :: slice 8 12 hexValue ++ "-"%char :: slice 12 16 hexValue ++
  "-"%char :: slice 16 20 hexValue ++ "-"%char :: slice 20 32 hexValue.

(** [strings.ReplaceAll(value, "-", "")] *)
Definition remove_dashes (l : list ascii) : list ascii :=
  List.filter (fun a => negb (Ascii.eqb a "-")) l.

(** Decimal digits, as accepted by the regular expression [[0-9]]. *)
Definition is_digit (a : ascii) : bool := in_range 48 57 a.
Definition is_hex_digit (a : ascii) : bool :=
  is_digit a || in_range 65 70 a || in_range 97 102 a.
Definition is_alnum (a : ascii) : bool :=
  is_digit a || in_range 65 90 a || in_range 97 122 a.

(** ** Lemmas *)
Lemma of_bytes_bytes s : of_bytes (bytes s) = s.
Proof. apply String.string_of_list_ascii_of_string. Qed.

Lemma bytes_of_bytes l : bytes (of_bytes l) = l.
Proof. apply String.list_ascii_of_string_of_list_ascii. Qed.

Lemma code_range a : 0 <= code a < 256.
Proof. unfold code. pose proof (N_ascii_bounded a). lia. Qed.

Lemma code_of_code z : 0 <= z < 256 -> code (of_code z) = z.
Proof. intros H. unfold code, of_code. rewrite N_ascii_embedding; lia. Qed.

Lemma of_code_code a : of_code (code a) = a.
Proof. unfold code, of_code. rewrite N2Z.id. apply ascii_N_embedding. Qed.

Lemma len_bytes s : len s = Z.of_nat (length (bytes s)).
Proof. unfold len, bytes. f_equal. induction s; simpl; congruence. Qed.

Lemma bytes_app s t : bytes (s ++ t) = bytes s ++ bytes t.
Proof. unfold bytes. induction s as [|a s IH]; [done|]. exact (f_equal (cons a) IH). Qed.

Lemma is_empty_true s : is_empty s = true <-> s = "".
Proof. apply String.eqb_eq. Qed.

Lemma string_app_assoc a b c : (a +:+ b) +:+ c = a +:+ b +:+ c.
Proof. induction a as [|x a IH]; [done|]. exact (f_equal (String x) IH). Qed.

Lemma is_empty_false s : is_empty s = false <-> s <> "".
Proof. apply String.eqb_neq. Qed.

(** Trimming is idempotent: what is left neither starts nor ends with white
    space. *)
Lemma drop_spaces_suffix s2 s3 l : exists p, l = p ++ drop_spaces s2 s3 l.
Proof.
  induction l as [l IH] using (induction_ltof1 _ (@length ascii)). unfold ltof in IH.
  destruct l as [|a l1]; [by exists []|]. simpl.
  case_match.
  { destruct (IH l1) as [p Hp]; [simpl; lia|]. exists (a :: p). simpl. by f_equal. }
  destruct l1 as [|b l2]; [by exists []|]. case_match.
  { destruct (IH l2) as [p Hp]; [simpl; lia|]. exists (a :: b :: p). simpl. by do 2 f_equal. }
  destruct l2 as [|c l3]; [by exists []|]. case_match; [|by exists []].
  destruct (IH l3) as [p Hp]; [simpl; lia|]. exists (a :: b :: c :: p). simpl. by do 3 f_equal.
Qed.

Lemma drop_spaces_fixed s2 s3 l :
  drop_spaces s2 s3 l = l ->
  forall k, drop_spaces s2 s3 (take k l) = take k l.
Proof.
  intros H k. destruct l as [|a l1]; [by rewrite take_nil|].
  destruct k as [|k]; [done|]. simpl in *.
  assert (Hlen : forall l', (length l' < length (a :: l1))%nat -> drop_spaces s2 s3 l' <> a :: l1).
  { intros l' Hl' E. destruct (drop_spaces_suffix s2 s3 l') as [p Hp].
    apply (f_equal length) in Hp. rewrite length_app, E in Hp. simpl in *. lia. }
  case_match; [by exfalso; eapply Hlen; [|exact H]; simpl; lia|].
  destruct l1 as [|b l2]; [by rewrite take_nil|]. destruct k as [|k]; [done|]. simpl in *.
  case_match; [by exfalso; eapply Hlen; [|exact H]; simpl; lia|].
  destruct l2 as [|c l3]; [by rewrite take_nil|]. destruct k as [|k]; [done|]. simpl in *.
  case_match; [by exfalso; eapply Hlen; [|exact H]; simpl; lia|]. done.
Qed.

Lemma drop_spaces_idem s2 s3 l :
  drop_spaces s2 s3 (drop_spaces s2 s3 l) = drop_spaces s2 s3 l.
Proof.
  induction l as [l IH] using (induction_ltof1 _ (@length ascii)). unfold ltof in IH.
  destruct l as [|a l1]; [done|]. simpl.
  destruct (space1 a) eqn:Ea; [apply IH; simpl; lia|].
  destruct l1 as [|b l2]; [simpl; by rewrite Ea|].
  destruct (s2 a b) eqn:Eb; [apply IH; simpl; lia|].
  destruct l2 as [|c l3]; [simpl; by rewrite Ea, Eb|].
  destruct (s3 a b c) eqn:Ec; [apply IH; simpl; lia|].
  simpl. by rewrite Ea, Eb, Ec.
Qed.

Lemma trim_right_prefix l : exists k, trim_right l = take k l.
Proof.
  unfold trim_right. destruct (drop_spaces_suffix (fun a b => space2 b a)
    (fun a b c => space3 c b a) (rev l)) as [p Hp].
  set (d := drop_spaces _ _ _) in *. exists (length (rev d)).
  rewrite <- (rev_involutive l), Hp, rev_app_distr. by rewrite take_app_length.
Qed.

Lemma TrimSpace_idem s : TrimSpace (TrimSpace s) = TrimSpace s.
Proof.
  unfold TrimSpace. rewrite bytes_of_bytes. f_equal.
  set (l := trim_left (bytes s)).
  assert (Hl : trim_left (trim_right l) = trim_right l).
  { destruct (trim_right_prefix l) as [k ->]. apply drop_spaces_fixed. apply drop_spaces_idem. }
  rewrite Hl. unfold trim_right at 1 2. rewrite rev_involutive. by rewrite drop_spaces_idem.
Qed.

(** ** The hexadecimal round trip *)
Lemma hex_value_digit z : 0 <= z < 16 -> hex_value (hex_digit z) = Some z.
Proof.
  intros H.
  assert (z = 0 \/ z = 1 \/ z = 2 \/ z = 3 \/ z = 4 \/ z = 5 \/ z = 6 \/ z = 7 \/ z = 8 \/
          z = 9 \/ z = 10 \/ z = 11 \/ z = 12 \/ z = 13 \/ z = 14 \/ z = 15) as Hz by lia.
  repeat (destruct Hz as [->|Hz]; [reflexivity|]). by subst.
Qed.

Lemma hex_decode_encode l : hex_decode (hex_encode l) = Some l.
Proof.
  induction l as [|a l IH]; [done|]. simpl.
  pose proof (code_range a).
  rewrite !hex_value_digit, IH.
  - f_equal. f_equal. rewrite <- Z.div_mod by lia. apply of_code_code.
  - apply Z.mod_pos_bound. lia.
  - split; [apply Z.div_pos; lia | apply Z.div_lt_upper_bound; lia].
Qed.

Lemma length_hex_encode l : length (hex_encode l) = (2 * length l)%nat.
Proof. induction l as [|a l IH]; simpl; lia. Qed.

Lemma hex_EncodeToString_inj s t : hex_EncodeToString s = hex_EncodeToString t -> s = t.
Proof.
  unfold hex_EncodeToString. intros E%(f_equal bytes). rewrite !bytes_of_bytes in E.
  apply (f_equal hex_decode) in E. rewrite !hex_decode_encode in E. injection E as E.
  by rewrite <- (of_bytes_bytes s), <- (of_bytes_bytes t), E.
Qed.

Lemma slice_app {A} lo mid hi (l : list A) :
  (lo <= mid <= hi)%nat -> slice lo mid l ++ slice mid hi l = slice lo hi l.
Proof.
  intros Hle. unfold slice. replace (drop mid l) with (drop (mid - lo) (drop lo l)).
  - rewrite <- (take_drop (mid - lo) (take (hi - lo) (drop lo l))).
    rewrite take_take, Nat.min_l by lia. f_equal.
    rewrite skipn_firstn_comm. f_equal. lia.
  - rewrite drop_drop. f_equal. lia.
Qed.

Lemma remove_dashes_id l : Forall (fun a => a <> "-"%char) l -> remove_dashes l = l.
Proof.
  induction 1 as [|a l Ha _ IH]; [done|]. unfold remove_dashes in *. simpl.
  destruct (Ascii.eqb_spec a "-"); [done|]. simpl. by rewrite IH.
Qed.

Lemma hex_digit_not_dash z : hex_digit z <> "-"%char \/ z < 0 \/ 16 <= z.
Proof.
  destruct (decide (0 <= z < 16)) as [Hz|Hz]; [left|lia].
  intros E. pose proof (hex_value_digit z Hz) as Hv. by rewrite E in Hv.
Qed.

Lemma hex_encode_no_dash l : Forall (fun a => a <> "-"%char) (hex_encode l).
Proof.
  induction l as [|a l IH]; simpl; [constructor|]. pose proof (code_range a).
  repeat constructor; [| |done].
  - destruct (hex_digit_not_dash (code a / 16)) as [?|Hb]; [done|exfalso].
    pose proof (Z.div_pos (code a) 16). pose proof (Z.div_lt_upper_bound (code a) 16 16). lia.
  - destruct (hex_digit_not_dash (code a mod 16)) as [?|Hb]; [done|exfalso].
    pose proof (Z.mod_pos_bound (code a) 16). lia.
Qed.

Lemma remove_dashes_format h :
  length h = 32%nat -> Forall (fun a => a <> "-"%char) h -> remove_dashes (format_bytes h) = h.
Proof.
  intros Hlen Hh. unfold format_bytes, remove_dashes.
  assert (forall lo hi, List.filter (fun a => negb (Ascii.eqb a "-")) (slice lo hi h) = slice lo hi h) as Hs.
  { intros. apply remove_dashes_id. unfold slice. by apply Forall_take, Forall_drop. }
  rewrite List.filter_app, Hs. simpl. rewrite List.filter_app, Hs. simpl.
  rewrite List.filter_app, Hs. simpl. rewrite List.filter_app, Hs. simpl. rewrite Hs.
  rewrite !slice_app by lia. unfold slice. simpl. rewrite drop_0. by apply take_ge; lia.
Qed.

(** ** Splitting *)
Lemma split_on_no_sep sep l : Forall (fun c => c <> sep) l -> split_on sep l = [l].
Proof.
  induction 1 as [|c l Hc _ IH]; [done|]. simpl. rewrite bool_decide_eq_false_2 by done. by rewrite IH.
Qed.

Lemma split_on_app sep l rest :
  Forall (fun c => c <> sep) l -> split_on sep (l ++ sep :: rest) = l :: split_on sep rest.
Proof.
  induction 1 as [|c l Hc _ IH]; simpl.
  - by rewrite bool_decide_eq_true_2.
  - rewrite bool_decide_eq_false_2 by done. by rewrite IH.
Qed.
