(* ===== verification/Strconv.v ===== *)
(** * Decimal integers ([strconv])

    What the modelled code uses of package [strconv]: the decimal text of an
    [int64] and its parser, with the round trip. *)
From S2P Require Import Prelude GoStrings.

(** ** [strconv.FormatInt(z, 10)] *)
Definition dec_digit (z : Z) : ascii := of_code (48 + z).
Definition dec_value (a : ascii) : option Z := if is_digit a then Some (code a - 48) else None.

(** The digits of [n], most significant first, in front of [acc]. *)
Fixpoint digits (fuel : nat) (n : Z) (acc : list ascii) : list ascii :=
  match fuel with
  | O => acc
  | S fuel =>
      let acc := dec_digit (n mod 10) :: acc in
      if n / 10 =? 0 then acc else digits fuel (n / 10) acc
  end.

(** Twenty digits are enough for 64 bits. *)
Definition format_digits (n : Z) : list ascii := digits 20 n [].
Definition FormatInt (z : Z) : string :=
  of_bytes (if z <? 0 then "-"%char :: format_digits (- z) else format_digits z).

(** [fmt.Sprintf] with the verb [%06d] for [z >= 0] *)
Definition pad6 (z : Z) : string :=
  let l := format_digits z in of_bytes (replicate (6 - length l) "0"%char ++ l).

(** ** [strconv.ParseInt(s, 10, 64)]: [None] is an error *)
Fixpoint parse_digits (acc : Z) (l : list ascii) : option Z :=
  match l with
  | [] => Some acc
  | a :: l => match dec_value a with Some d => parse_digits (10 * acc + d) l | None => None end
  end.

Definition parse_unsigned (l : list ascii) : option Z :=
  match l with [] => None | _ => parse_digits 0 l end.

Definition check_int64 (z : Z) : option Z := if (min_int64 <=? z) && (z <=? max_int64) then Some z else None.

Definition ParseInt (s : string) : option Z :=
  match bytes s with
  | "-"%char :: l => z ← parse_unsigned l; check_int64 (- z)
  | "+"%char :: l => z ← parse_unsigned l; check_int64 z
  | l => z ← parse_unsigned l; check_int64 z
  end.

(** ** The round trip *)
Lemma dec_digit_code d : 0 <= d < 10 -> code (dec_digit d) = 48 + d.
Proof. intros Hd. apply code_of_code. lia. Qed.

Lemma dec_value_digit d : 0 <= d < 10 -> dec_value (dec_digit d) = Some d.
Proof.
  intros Hd. unfold dec_value, is_digit, in_range. rewrite (dec_digit_code _ Hd).
  replace ((48 <=? 48 + d) && (48 + d <=? 57)) with true by lia. f_equal. lia.
Qed.

Lemma parse_digits_app acc l m v :
  parse_digits acc l = Some v -> parse_digits acc (l ++ m) = parse_digits v m.
Proof.
  revert acc. induction l as [|a l IH]; intros acc; simpl; [by intros [= ->]|].
  destruct (dec_value a); [apply IH|done].
Qed.

(** Parsing what [digits] puts in front of [acc] amounts to reading [acc]
    after [n]. *)
Lemma parse_digits_digits fuel n acc :
  0 <= n < 10 ^ Z.of_nat fuel -> (0 < fuel)%nat ->
  parse_digits 0 (digits fuel n acc) = parse_digits n acc.
Proof.
  revert n acc. induction fuel as [|fuel IH]; intros n acc Hn Hf; [lia|].
  rewrite Nat2Z.inj_succ, Z.pow_succ_r in Hn by lia.
  pose proof (Z.mod_pos_bound n 10). pose proof (Z.div_mod n 10).
  assert (parse_digits (n / 10) (dec_digit (n mod 10) :: acc) = parse_digits n acc) as Hstep.
  { cbn [parse_digits]. rewrite dec_value_digit by lia. f_equal. lia. }
  cbn [digits]. destruct (n / 10 =? 0) eqn:Hz.
  - rewrite <- Hstep. bool_prop. by rewrite Hz.
  - bool_prop. assert (0 <= n / 10) by (apply Z.div_pos; lia).
    assert (n / 10 < 10 ^ Z.of_nat fuel) by (apply Z.div_lt_upper_bound; lia).
    rewrite IH; [exact Hstep|lia|]. destruct fuel; [simpl in *; lia|lia].
Qed.

Lemma digits_cons fuel n acc : (0 < fuel)%nat -> 0 <= n ->
  exists d l, 0 <= d < 10 /\ digits fuel n acc = dec_digit d :: l.
Proof.
  revert n acc. induction fuel as [|fuel IH]; intros n acc Hf Hn; [lia|]. cbn [digits].
  assert (0 <= n mod 10 < 10) by (apply Z.mod_pos_bound; lia).
  destruct (n / 10 =? 0); [by eauto|]. destruct fuel; [by cbn [digits]; eauto|].
  apply IH; [lia|]. apply Z.div_pos; lia.
Qed.

Lemma parse_format_digits n : 0 <= n < 10 ^ 20 -> parse_unsigned (format_digits n) = Some n.
Proof.
  intros Hn. unfold format_digits. destruct (digits_cons 20 n []) as (d & l & _ & E); [lia|lia|].
  unfold parse_unsigned. rewrite E, <- E. by apply parse_digits_digits; [|lia].
Qed.

Lemma ParseInt_FormatInt z : in_int64 z -> ParseInt (FormatInt z) = Some z.
Proof.
  unfold in_int64, min_int64, max_int64. intros Hz. unfold ParseInt, FormatInt. rewrite bytes_of_bytes.
  assert (check_int64 z = Some z) as Hc.
  { unfold check_int64, min_int64, max_int64. by replace ((_ <=? z) && (z <=? _)) with true by lia. }
  destruct (z <? 0) eqn:Hs; bool_prop.
  - rewrite parse_format_digits by lia. simpl. by rewrite Z.opp_involutive.
  - pose proof (parse_format_digits z ltac:(lia)) as Hp.
    destruct (digits_cons 20 z []) as (d & l & Hd & E); [lia|lia|].
    unfold format_digits in *. rewrite E in *.
    assert (dec_digit d <> "-"%char /\ dec_digit d <> "+"%char) as [H1 H2].
    { split; intros Ec; apply (f_equal code) in Ec; rewrite dec_digit_code in Ec by done;
        [change (code "-"%char) with 45 in Ec|change (code "+"%char) with 43 in Ec]; lia. }
    assert (forall a, a <> "-"%char -> a <> "+"%char ->
      match a :: l with
      | "-"%char :: l => z ← parse_unsigned l; check_int64 (- z)
      | "+"%char :: l => z ← parse_unsigned l; check_int64 z
      | l => z ← parse_unsigned l; check_int64 z
      end = (z ← parse_unsigned (a :: l); check_int64 z)) as Hm.
    { intros a Ha Hb. destruct a as [[] [] [] [] [] [] [] []]; try reflexivity; done. }
    rewrite Hm by done. rewrite Hp. exact Hc.
Qed.

Lemma FormatInt_inj y z : in_int64 y -> in_int64 z -> FormatInt y = FormatInt z -> y = z.
Proof.
  intros Hy Hz E. apply (f_equal ParseInt) in E. rewrite !ParseInt_FormatInt in E by done. by injection E.
Qed.

(** The text of a natural number is made of digits. *)
Lemma digits_are_digits fuel n acc : 0 <= n -> Forall (fun a => is_Some (dec_value a)) acc ->
  Forall (fun a => is_Some (dec_value a)) (digits fuel n acc).
Proof.
  revert n acc. induction fuel as [|fuel IH]; intros n acc Hn Hacc; cbn [digits]; [done|].
  assert (Forall (fun a => is_Some (dec_value a)) (dec_digit (n mod 10) :: acc)) as Hc.
  { apply Forall_cons. split; [|done]. rewrite dec_value_digit; [by eauto|]. apply Z.mod_pos_bound. lia. }
  destruct (n / 10 =? 0); [done|]. apply IH; [|done]. apply Z.div_pos; lia.
Qed.

Lemma FormatInt_no_sep sep z : dec_value sep = None -> 0 <= z -> Forall (fun a => a <> sep) (bytes (FormatInt z)).
Proof.
  intros Hsep Hz. unfold FormatInt. rewrite bytes_of_bytes. rewrite (proj2 (Z.ltb_ge z 0)) by done.
  eapply Forall_impl; [apply digits_are_digits; [done|constructor]|].
  intros a [d Hd] ->. simpl in Hd. congruence.
Qed.
