(* ===== verification/Base64.v ===== *)
(** * Base 64 without padding ([encoding/base64])

    The raw URL and raw standard encodings: the encoder, and the decoder as
    the library has it, which skips carriage returns and line feeds and
    ignores the bits left over in the last character. *)
From S2P Require Import Prelude GoStrings.

Record alphabet := mkAlphabet { char62 : ascii; char63 : ascii }.
Definition RawURL : alphabet := mkAlphabet "-" "_".
Definition RawStd : alphabet := mkAlphabet "+" "/".

Section Base64.
Variable a : alphabet.

Definition char_of (z : Z) : ascii :=
  if z <? 26 then of_code (65 + z) else if z <? 52 then of_code (71 + z)
  else if z <? 62 then of_code (z - 4) else if z =? 62 then char62 a else char63 a.

Definition value_of (c : ascii) : option Z :=
  if in_range 65 90 c then Some (code c - 65) else if in_range 97 122 c then Some (code c - 71)
  else if in_range 48 57 c then Some (code c + 4)
  else if Ascii.eqb c (char62 a) then Some 62 else if Ascii.eqb c (char63 a) then Some 63 else None.

Fixpoint encode (l : list ascii) : list ascii :=
  match l with
  | x :: y :: z :: rest =>
      char_of (code x / 4) :: char_of (code x mod 4 * 16 + code y / 16) ::
      char_of (code y mod 16 * 4 + code z / 64) :: char_of (code z mod 64) :: encode rest
  | [x; y] => [char_of (code x / 4); char_of (code x mod 4 * 16 + code y / 16); char_of (code y mod 16 * 4)]
  | [x] => [char_of (code x / 4); char_of (code x mod 4 * 16)]
  | [] => []
  end.

Fixpoint assemble (l : list Z) : option (list ascii) :=
  match l with
  | v :: w :: x :: y :: rest =>
      r ← assemble rest;
      Some (of_code (v * 4 + w / 16) :: of_code (w mod 16 * 16 + x / 4) :: of_code (x mod 4 * 64 + y) :: r)
  | [v; w; x] => Some [of_code (v * 4 + w / 16); of_code (w mod 16 * 16 + x / 4)]
  | [v; w] => Some [of_code (v * 4 + w / 16)]
  | [_] => None
  | [] => Some []
  end.

Definition skipped (c : ascii) : bool := (code c =? 10) || (code c =? 13).

Definition decode (l : list ascii) : option (list ascii) :=
  values ← mapM value_of (List.filter (fun c => negb (skipped c)) l);
  assemble values.

Definition EncodeToString (s : string) : string := of_bytes (encode (bytes s)).
Definition DecodeString (s : string) : option string := of_bytes <$> decode (bytes s).

(** Every value has a character of its own, which is not skipped. *)
Definition alphabet_ok : bool :=
  forallb (fun z => bool_decide (value_of (char_of z) = Some z) && negb (skipped (char_of z)) &&
                    negb (Ascii.eqb (char_of z) ".") && negb (Ascii.eqb (char_of z) "$")) (seqZ 0 64).

Section Round.
Hypothesis Ha : alphabet_ok = true.

Lemma char_ok z : 0 <= z < 64 -> value_of (char_of z) = Some z /\ skipped (char_of z) = false /\
  char_of z <> "."%char /\ char_of z <> "$"%char.
Proof.
  intros Hz. unfold alphabet_ok in Ha. rewrite forallb_forall in Ha.
  specialize (Ha z). rewrite <- list_elem_of_In, elem_of_seqZ in Ha. specialize (Ha ltac:(lia)).
  apply andb_true_iff in Ha as [[[H1 H2]%andb_true_iff H3]%andb_true_iff H4].
  bool_prop. split_and!; [done|done| |]; intros E; rewrite E in *; done.
Qed.

(** A list of values, as the encoder writes it, is read back. *)
Lemma read_chars l : Forall (fun z => 0 <= z < 64) l ->
  mapM value_of (List.filter (fun c => negb (skipped c)) (map char_of l)) = Some l.
Proof.
  induction 1 as [|z l Hz _ IH]; [done|]. destruct (char_ok z Hz) as (Hv & Hs & _).
  simpl. rewrite Hs. simpl. rewrite Hv. simpl. by rewrite IH.
Qed.

(** The values of the characters of an encoding. *)
Fixpoint values (l : list ascii) : list Z :=
  match l with
  | x :: y :: z :: rest =>
      code x / 4 :: code x mod 4 * 16 + code y / 16 :: code y mod 16 * 4 + code z / 64 :: code z mod 64 :: values rest
  | [x; y] => [code x / 4; code x mod 4 * 16 + code y / 16; code y mod 16 * 4]
  | [x] => [code x / 4; code x mod 4 * 16]
  | [] => []
  end.

Lemma three_ind (P : list ascii -> Prop) :
  P [] -> (forall x, P [x]) -> (forall x y, P [x; y]) -> (forall x y z l, P l -> P (x :: y :: z :: l)) ->
  forall l, P l.
Proof.
  intros H0 H1 H2 H3 l. induction l as [l IH] using (induction_ltof1 _ (@length ascii)). unfold ltof in IH.
  destruct l as [|x [|y [|z l]]]; auto. apply H3, IH. simpl. lia.
Qed.

Lemma encode_values l : encode l = map char_of (values l).
Proof. induction l as [| | |x y z l IH] using three_ind; [done|done|done|]. simpl. by rewrite IH. Qed.

Lemma values_range l : Forall (fun z => 0 <= z < 64) (values l).
Proof.
  induction l as [|x|x y|x y z l IH] using three_ind; simpl; rewrite ?Forall_cons; split_and?; try done.
  all: repeat match goal with x : ascii |- _ => pose proof (code_range x); generalize dependent (code x); clear x end;
    intros; Z.to_euclidean_division_equations; lia.
Qed.

Lemma byte_split x q : q = code x -> of_code q = x.
Proof. intros ->. apply of_code_code. Qed.

Lemma assemble_values l : assemble (values l) = Some l.
Proof.
  induction l as [|x|x y|x y z l IH] using three_ind; simpl; [done|..].
  all: rewrite ?IH; simpl; repeat f_equal; apply byte_split.
  all: repeat match goal with x : ascii |- _ => pose proof (code_range x); generalize dependent (code x); clear x end; intros; Z.to_euclidean_division_equations; lia.
Qed.

Lemma decode_encode l : decode (encode l) = Some l.
Proof.
  unfold decode. rewrite encode_values, read_chars by apply values_range. apply assemble_values.
Qed.

Lemma DecodeString_EncodeToString s : DecodeString (EncodeToString s) = Some s.
Proof. unfold DecodeString, EncodeToString. rewrite bytes_of_bytes, decode_encode. simpl. by rewrite of_bytes_bytes. Qed.

(** The separators of tokens and of password hashes are no characters of an
    encoding. *)
Lemma encode_no_sep l : Forall (fun c => c <> "."%char /\ c <> "$"%char) (encode l).
Proof.
  rewrite encode_values. apply Forall_map. eapply Forall_impl; [apply values_range|].
  intros z Hz. by destruct (char_ok z Hz) as (_ & _ & ? & ?).
Qed.
End Round.
End Base64.

Lemma RawURL_ok : alphabet_ok RawURL = true.
Proof. vm_compute. reflexivity. Qed.
Lemma RawStd_ok : alphabet_ok RawStd = true.
Proof. vm_compute. reflexivity. Qed.

Lemma EncodeToString_inj a s t : alphabet_ok a = true -> EncodeToString a s = EncodeToString a t -> s = t.
Proof.
  intros Ha E. apply (f_equal (DecodeString a)) in E. rewrite !DecodeString_EncodeToString in E by done.
  by injection E.
Qed.
