(* ===== verification/Netip.v ===== *)
(** * IP addresses

    What the code uses of [net/netip] and of [net.SplitHostPort]: parsing and
    printing addresses, prefixes and membership.  An address is its number; a
    field that is malformed makes the whole text malformed, as in the library. *)
From S2P Require Import Prelude GoStrings Strconv.

Inductive Addr := V4 (n : Z) | V6 (n : Z) (zone : string).
#[global] Instance Addr_eq_dec : EqDecision Addr.
Proof. solve_decision. Defined.

Record Prefix := mkPrefix { p_addr : Addr; p_bits : Z }.

(** ** Parsing *)
Definition octet (l : list ascii) : option Z :=
  match l with
  | ["0"%char] => Some 0
  | "0"%char :: _ => None
  | _ => n ← parse_unsigned l; if n <=? 255 then Some n else None
  end.

Definition parseIPv4 (l : list ascii) : option Z :=
  match map octet (split_on "."%char l) with
  | [Some a; Some b; Some c; Some d] => Some (((a * 256 + b) * 256 + c) * 256 + d)
  | _ => None
  end.

Definition hex_digit_value (a : ascii) : option Z :=
  if in_range 48 57 a then Some (code a - 48)
  else if in_range 97 102 a then Some (code a - 87)
  else if in_range 65 70 a then Some (code a - 55)
  else None.

(** The leading hexadecimal digits: how many, their value and the rest. *)
Fixpoint scan_hex (acc : Z) (n : nat) (l : list ascii) : nat * Z * list ascii :=
  match l with
  | a :: rest =>
      match hex_digit_value a with
      | Some d => scan_hex (16 * acc + d) (S n) rest
      | None => (n, acc, l)
      end
  | [] => (n, acc, l)
  end.

(** The groups of an IPv6 address from [s], [groups] being the ones before in
    reverse and [ellipsis] how many came before the double colon.  One group
    is read per round and a round stops at eight, so eight rounds are enough. *)
Fixpoint ipv6_groups (fuel : nat) (s : list ascii) (groups : list Z) (ellipsis : option nat) :
    option (list Z * option nat * list ascii) :=
  match fuel with
  | O => Some (groups, ellipsis, s)
  | S fuel =>
      let '(n, acc, rest) := scan_hex 0 0 s in
      if (n =? 0)%nat || (4 <? n)%nat then None
      else
        match rest with
        | "."%char :: _ =>
            if (match ellipsis with None => negb (length groups =? 6)%nat | Some _ => false end)
               || (6 <? length groups)%nat then None
            else
              match parseIPv4 s with
              | Some v => Some (v mod 65536 :: v / 65536 :: groups, ellipsis, [])
              | None => None
              end
        | [] => Some (acc :: groups, ellipsis, [])
        | ":"%char :: [] => None
        | ":"%char :: ":"%char :: more =>
            match ellipsis with
            | Some _ => None
            | None =>
                let groups := acc :: groups in
                match more with
                | [] => Some (groups, Some (length groups), [])
                | _ => ipv6_groups fuel more groups (Some (length groups))
                end
            end
        | ":"%char :: more => ipv6_groups fuel more (acc :: groups) ellipsis
        | _ => None
        end
  end.

Definition of_groups (l : list Z) : Z := foldl (fun acc g => acc * 65536 + g) 0 l.

Definition parseIPv6 (l : list ascii) : option Addr :=
  let '(s, zone, ok) :=
    match cut_on "%"%char l with
    | Some (s, []) => (s, "", false)
    | Some (s, z) => (s, of_bytes z, true)
    | None => (l, "", true)
    end in
  if negb ok then None
  else
    match s with
    | [":"%char; ":"%char] => Some (V6 0 zone)
    | _ =>
        let '(s, ellipsis) := match s with ":"%char :: ":"%char :: s => (s, Some O) | _ => (s, None) end in
        match ipv6_groups 8 s [] ellipsis with
        | Some (groups, ellipsis, []) =>
            let l := rev groups in
            match ellipsis with
            | None => if (length l =? 8)%nat then Some (V6 (of_groups l) zone) else None
            | Some k =>
                if (length l <? 8)%nat
                then Some (V6 (of_groups (take k l ++ replicate (8 - length l) 0 ++ drop k l)) zone)
                else None
            end
        | _ => None
        end
    end.

(** [netip.ParseAddr]: the first of these separators decides the family. *)
Fixpoint parse_addr_at (rest s : list ascii) : option Addr :=
  match rest with
  | "."%char :: _ => V4 <$> parseIPv4 s
  | ":"%char :: _ => parseIPv6 s
  | "%"%char :: _ => None
  | _ :: rest => parse_addr_at rest s
  | [] => None
  end.
Definition ParseAddr (s : string) : option Addr := parse_addr_at (bytes s) (bytes s).

(** [Addr.Unmap] *)
Definition Unmap (a : Addr) : Addr :=
  match a with
  | V6 n _ => if n / 2 ^ 32 =? 65535 then V4 (n mod 2 ^ 32) else a
  | V4 _ => a
  end.

(** ** Prefixes *)
Definition bit_len (a : Addr) : Z := match a with V4 _ => 32 | V6 _ _ => 128 end.
Definition number (a : Addr) : Z := match a with V4 n => n | V6 n _ => n end.
Definition has_zone (a : Addr) : bool := match a with V6 _ z => negb (is_empty z) | V4 _ => false end.

(** [Prefix.Contains] for a valid prefix *)
Definition Contains (p : Prefix) (a : Addr) : bool :=
  negb (has_zone a) && (bit_len (p_addr p) =? bit_len a) &&
  (number a / 2 ^ (bit_len a - p_bits p) =? number (p_addr p) / 2 ^ (bit_len a - p_bits p)).

(** [netip.ParsePrefix]: no sign, no leading zero and no zone. *)
Definition LastIndex (c : ascii) (l : list ascii) : option (list ascii * list ascii) :=
  match cut_on c (rev l) with Some (x, y) => Some (rev y, rev x) | None => None end.

Definition ParsePrefix (s : string) : option Prefix :=
  '(a, b) ← LastIndex "/"%char (bytes s);
  addr ← ParseAddr (of_bytes a);
  if has_zone addr then None
  else
    bits ← match b with
           | ["0"%char] => Some 0
           | "0"%char :: _ => None
           | _ => parse_unsigned b
           end;
    if bits <=? bit_len addr then Some (mkPrefix addr bits) else None.

(** [Prefix.Masked] *)
Definition Masked (p : Prefix) : Prefix :=
  let d := 2 ^ (bit_len (p_addr p) - p_bits p) in
  mkPrefix (match p_addr p with V4 n => V4 (n / d * d) | V6 n z => V6 (n / d * d) z end) (p_bits p).

(** ** Printing *)
Definition dotted (n : Z) : list ascii :=
  format_digits (n / 2 ^ 24) ++ "."%char :: format_digits (n / 2 ^ 16 mod 256) ++ "."%char ::
  format_digits (n / 2 ^ 8 mod 256) ++ "."%char :: format_digits (n mod 256).

(** The digits of [n] in base 16 without leading zeros. *)
Definition hex16 (n : Z) : list ascii :=
  let ds := [n / 4096; n / 256 mod 16; n / 16 mod 16; n mod 16] in
  map hex_digit (match ds with
                 | [0; 0; 0; d] => [d] | [0; 0; c; d] => [c; d] | [0; b; c; d] => [b; c; d] | _ => ds
                 end).

Definition groups_of (n : Z) : list Z := map (fun i => n / 2 ^ (16 * (7 - Z.of_nat i)) mod 65536) (seq 0 8).

(** The first longest run of at least two zero groups: where, how long. *)
Fixpoint zeros (l : list Z) : nat := match l with 0 :: l => S (zeros l) | _ => O end.
Fixpoint longest_run (i : nat) (l : list Z) (best : nat * nat) : nat * nat :=
  match l with
  | [] => best
  | _ :: rest =>
      let z := zeros l in
      longest_run (S i) rest (if (1 <? z)%nat && (best.2 <? z)%nat then (i, z) else best)
  end.

Fixpoint join_colons (l : list (list ascii)) : list ascii :=
  match l with [] => [] | [x] => x | x :: l => x ++ ":"%char :: join_colons l end.

Definition colons (n : Z) : list ascii :=
  let l := groups_of n in
  let '(i, z) := longest_run 0 l (O, O) in
  if (z =? 0)%nat then join_colons (map hex16 l)
  else join_colons (map hex16 (take i l)) ++ ":"%char :: ":"%char :: join_colons (map hex16 (drop (i + z) l)).

(** [Addr.String] *)
Definition Addr_String (a : Addr) : string :=
  match a with
  | V4 n => of_bytes (dotted n)
  | V6 n zone =>
      let text := if n / 2 ^ 32 =? 65535 then bytes "::ffff:" ++ dotted (n mod 2 ^ 32) else colons n in
      of_bytes (text ++ (if is_empty zone then [] else "%"%char :: bytes zone))
  end.

(** ** [net.SplitHostPort] *)
Definition has_byte (c : ascii) (l : list ascii) : bool := existsb (fun a => bool_decide (a = c)) l.

Definition SplitHostPort (hostport : string) : option (string * string) :=
  match LastIndex ":"%char (bytes hostport) with
  | None => None
  | Some (before, port) =>
      match before with
      | "["%char :: inside =>
          match cut_on "]"%char inside with
          | Some (host, []) =>
              if has_byte "["%char (inside ++ port) || has_byte "]"%char port then None
              else Some (of_bytes host, of_bytes port)
          | _ => None
          end
      | _ =>
          if has_byte ":"%char before || has_byte "["%char (before ++ port) || has_byte "]"%char (before ++ port) then None
          else Some (of_bytes before, of_bytes port)
      end
  end.

(** ** Addresses read back *)
Lemma octet_digits n : 0 <= n <= 255 -> octet (format_digits n) = Some n.
Proof.
  intros Hn. set (ok k := bool_decide (octet (format_digits (Z.of_nat k)) = Some (Z.of_nat k))).
  assert (forallb ok (seq 0 256) = true) as Hall by (vm_compute; reflexivity).
  rewrite forallb_forall in Hall. specialize (Hall (Z.to_nat n)). unfold ok in Hall. rewrite Z2Nat.id in Hall by lia.
  eapply bool_decide_eq_true_1, Hall, in_seq. lia.
Qed.

Lemma digits_no_dot n : 0 <= n -> Forall (fun c => c <> "."%char) (format_digits n).
Proof.
  intros Hn. eapply Forall_impl; [apply digits_are_digits; [done|constructor]|]. intros a [d Hd] ->. by vm_compute in Hd.
Qed.

Lemma parse_dotted n : 0 <= n < 2 ^ 32 -> parseIPv4 (dotted n) = Some n.
Proof.
  intros Hn. unfold parseIPv4, dotted.
  rewrite !split_on_app, split_on_no_sep by (apply digits_no_dot; Z.to_euclidean_division_equations; lia).
  simpl. rewrite !octet_digits by (Z.to_euclidean_division_equations; lia). f_equal.
  Z.to_euclidean_division_equations; lia.
Qed.

(** The first byte of a dotted address that is not a digit is a dot. *)
Lemma parse_addr_dotted l m s : Forall (fun a => is_Some (dec_value a)) l ->
  parse_addr_at (l ++ "."%char :: m) s = V4 <$> parseIPv4 s.
Proof.
  induction 1 as [|a l [d Hd] _ IH]; [done|]. simpl.
  destruct (decide (a = "."%char)) as [->|H1]; [by vm_compute in Hd|].
  destruct (decide (a = ":"%char)) as [->|H2]; [by vm_compute in Hd|].
  destruct (decide (a = "%"%char)) as [->|H3]; [by vm_compute in Hd|].
  destruct a as [[] [] [] [] [] [] [] []]; try done.
Qed.

Lemma ParseAddr_String n : 0 <= n < 2 ^ 32 -> ParseAddr (Addr_String (V4 n)) = Some (V4 n).
Proof.
  intros Hn. unfold ParseAddr. simpl. rewrite bytes_of_bytes. unfold dotted at 1.
  rewrite parse_addr_dotted; [by rewrite parse_dotted|]. apply digits_are_digits; [|constructor].
  Z.to_euclidean_division_equations; lia.
Qed.

Example parse_examples :
  map ParseAddr ["10.0.0.1"; "::1"; "2001:db8::8a2e:370:7334"; "::ffff:1.2.3.4"; "1.2.3"; "01.2.3.4"; "::"; "1::2::3"; "fe80::1%eth0"] =
    [Some (V4 167772161); Some (V6 1 ""); Some (V6 42540766411282592856904136881884656436 ""); Some (V6 281470698652420 ""); None; None; Some (V6 0 ""); None; Some (V6 338288524927261089654018896841347694593 "eth0")].
Proof. vm_compute. reflexivity. Qed.

Example print_examples :
  map Addr_String [V4 167772161; V6 1 ""; V6 42540766411282592856904136881884656436 ""; V6 281470698652420 ""; V6 0 ""] =
    ["10.0.0.1"; "::1"; "2001:db8::8a2e:370:7334"; "::ffff:1.2.3.4"; "::"].
Proof. vm_compute. reflexivity. Qed.
