(* ===== verification/Pagination.v ===== *)
(** * Pagination ([pkg/pagination])

    Page and size normalisation and the metadata every listing returns.  Go's
    [int] and [int64] are the 64-bit integers of the deployment platforms. *)
From S2P Require Import Prelude.

(** @src pkg/pagination/pagination.go:5-5 DefaultSize *)
Definition DefaultSize : Z := 20.
(** @src pkg/pagination/pagination.go:7-7 MaxSize *)
Definition MaxSize : Z := 100.

(** @src pkg/pagination/pagination.go:11-24 Meta *)
Record Meta := mkMeta {
  Page : Z;
  Size : Z;
  Total : Z;
  Pages : Z;
  HasNext : bool;
  HasPrev : bool;
}.

(** [Items] is never nil, so it is a plain list.
    @src pkg/pagination/pagination.go:27-32 Page *)
Record PageOf (T : Type) := mkPage { Items : list T; PageMeta : Meta }.
Arguments mkPage {T} _ _.
Arguments Items {T} _.
Arguments PageMeta {T} _.

(** @src pkg/pagination/pagination.go:35-46 Normalize *)
Definition Normalize (page size : Z) : Z * Z :=
  let page := if page <? 1 then 1 else page in
  let size := if size <? 1 then DefaultSize else size in
  let size := if MaxSize <? size then MaxSize else size in
  (page, size).

(** @src pkg/pagination/pagination.go:49-75 NewMeta *)
Definition NewMeta (page size total : Z) : Meta :=
  let '(page, size) := Normalize page size in
  let total := if total <? 0 then 0 else total in
  let pages :=
    if 0 <? total then
      let pageCount := Z.quot total size in
      let pageCount := if negb (Z.rem total size =? 0) then pageCount + 1 else pageCount in
      let maximum := Z.shiftr (2 ^ 64 - 1) 1 in
      if maximum <? pageCount then maximum else pageCount
    else 0 in
  {| Page := page; Size := size; Total := total; Pages := pages;
     HasNext := page <? pages; HasPrev := (1 <? page) && (0 <? pages) |}.

(** A nil slice is [None].
    @src pkg/pagination/pagination.go:78-83 New *)
Definition New {T} (items : option (list T)) (page size total : Z) : PageOf T :=
  let items := match items with None => [] | Some items => items end in
  {| Items := items; PageMeta := NewMeta page size total |}.

(** The rows a listing of [l] returns for a page: SQL's [LIMIT size OFFSET
    (page-1)*size]. *)
Definition window {T} (page size : Z) (l : list T) : list T :=
  take (Z.to_nat size) (drop (Z.to_nat ((page - 1) * size)) l).

(** ** Properties *)
Lemma Normalize_bounds page size :
  let '(p, s) := Normalize page size in 1 <= p /\ 1 <= s <= MaxSize.
Proof.
  unfold Normalize, DefaultSize, MaxSize.
  repeat case_match; bool_prop; lia.
Qed.

Lemma Normalize_fixed page size :
  1 <= page -> 1 <= size <= MaxSize -> Normalize page size = (page, size).
Proof.
  unfold Normalize, DefaultSize, MaxSize. intros.
  repeat case_match; bool_prop; first [exfalso; lia | done].
Qed.

Lemma Normalize_idempotent page size :
  let '(p, s) := Normalize page size in Normalize p s = (p, s).
Proof.
  pose proof (Normalize_bounds page size) as H.
  destruct (Normalize page size) as [p s]. destruct H. by apply Normalize_fixed.
Qed.

Lemma page_count_ceil total size :
  0 < total -> 0 < size ->
  let q := Z.quot total size in
  let c := if negb (Z.rem total size =? 0) then q + 1 else q in
  (c - 1) * size < total <= c * size.
Proof.
  intros Ht Hs. cbv zeta.
  rewrite Z.quot_div_nonneg, Z.rem_mod_nonneg by lia.
  pose proof (Z.div_mod total size ltac:(lia)).
  pose proof (Z.mod_pos_bound total size ltac:(lia)).
  case_match; bool_prop; nia.
Qed.

(** The number of announced pages, from which the rest of the metadata follows. *)
Lemma NewMeta_pages page size total :
  in_int64 total ->
  let m := NewMeta page size total in
  0 <= Pages m <= Total m /\
  (Pages m = 0 <-> Total m = 0) /\
  (0 < Total m -> (Pages m - 1) * Size m < Total m <= Pages m * Size m).
Proof.
  unfold NewMeta. intros Hmax. pose proof (Normalize_bounds page size) as Hn.
  destruct (Normalize page size) as [p s]. destruct Hn as [Hp Hs].
  set (t := if total <? 0 then 0 else total).
  assert (Ht : 0 <= t <= max_int64).
  { unfold in_int64, min_int64, max_int64 in *. subst t. case_match; bool_prop; lia. }
  clearbody t. destruct (0 <? t) eqn:Hpos; bool_prop; simpl.
  2: { split_and!; lia. }
  pose proof (page_count_ceil t s Hpos ltac:(lia)) as Hc. cbv zeta in Hc.
  set (c := if negb _ then _ else _) in *. clearbody c.
  change (Z.shiftr (2 ^ 64 - 1) 1) with max_int64.
  assert (0 < c <= t) by nia.
  rewrite (proj2 (Z.ltb_ge max_int64 c)) by lia. split_and!; lia.
Qed.

Lemma NewMeta_fields page size total :
  let m := NewMeta page size total in
  (Page m, Size m) = Normalize page size /\ Total m = Z.max 0 total /\
  HasNext m = (Page m <? Pages m) /\ HasPrev m = (1 <? Page m) && (0 <? Pages m).
Proof.
  unfold NewMeta. destruct (Normalize page size) as [p s]. simpl.
  split_and!; try done. case_match; bool_prop; lia.
Qed.

(** [NewMeta] on any arguments normalises page and size into their
    bounds, and reports exactly [ceil (Total / Size)] pages: the last page is
    not empty and no item lies beyond it; [HasNext] holds exactly when an item
    lies beyond the requested page, and [HasPrev] exactly when the page is not
    the first one of a non-empty listing. *)
Theorem NewMeta_correct page size total :
  in_int64 total ->
  let m := NewMeta page size total in
  1 <= Page m /\ 1 <= Size m <= MaxSize /\ Total m = Z.max 0 total /\
  (Pages m = 0 <-> Total m = 0) /\
  (0 < Total m -> (Pages m - 1) * Size m < Total m <= Pages m * Size m) /\
  (HasNext m = true <-> Page m * Size m < Total m) /\
  (HasPrev m = true <-> 1 < Page m /\ 0 < Total m).
Proof.
  intros H64 m. pose proof (NewMeta_pages page size total H64) as (Hp & H0 & Hc).
  pose proof (NewMeta_fields page size total) as (Hn & Ht & Hnext & Hprev).
  pose proof (Normalize_bounds page size) as Hb. fold m in Hp, H0, Hc, Hn, Ht, Hnext, Hprev.
  rewrite <- Hn in Hb. clearbody m. rewrite Hnext, Hprev, andb_true_iff, !Z.ltb_lt.
  split_and!; try lia; split; nia.
Qed.

Lemma NewMeta_correct_witness :
  in_int64 45 /\
  let m := NewMeta 2 20 45 in Pages m = 3 /\ (HasNext m = true <-> 40 < 45).
Proof.
  assert (H : in_int64 45) by (unfold in_int64, min_int64, max_int64; lia).
  destruct (NewMeta_correct 2 20 45 H) as (_ & _ & _ & _ & _ & Hnext & _).
  split; [exact H|]. split; [reflexivity | exact Hnext].
Defined.

Lemma concat_chunks {T} (l : list T) s n :
  concat (map (fun k => take s (drop (k * s)%nat l)) (seq 0 n)) = take (n * s)%nat l.
Proof.
  induction n as [|n IH]; [done|].
  rewrite seq_S, map_app, concat_app, IH. simpl. rewrite app_nil_r.
  rewrite (Nat.add_comm s). by rewrite take_take_drop.
Qed.

(** The pages a listing announces partition it: reading every page from
    the first to the announced last one, in order, returns every row exactly
    once and in order. *)
Theorem pages_partition {T} (l : list T) size :
  1 <= size <= MaxSize -> Z.of_nat (length l) <= max_int64 ->
  concat (map (fun p => window (Z.of_nat p) size l)
            (seq 1 (Z.to_nat (Pages (NewMeta 1 size (Z.of_nat (length l))))))) = l.
Proof.
  intros Hs Hl.
  assert (H64 : in_int64 (Z.of_nat (length l)))
    by (unfold in_int64, min_int64, max_int64 in *; lia).
  pose proof (NewMeta_pages 1 size _ H64) as (Hp & H0 & Hc).
  pose proof (NewMeta_fields 1 size (Z.of_nat (length l))) as (Hn & Ht & _).
  set (m := NewMeta _ _ _) in *. rewrite Normalize_fixed in Hn by lia.
  clearbody m. injection Hn as Hpage Hsize.
  rewrite <- seq_shift, map_map.
  erewrite map_ext; [rewrite concat_chunks|].
  2: { intros k. unfold window. f_equal. f_equal.
       rewrite Nat2Z.inj_succ. replace (Z.succ (Z.of_nat k) - 1) with (Z.of_nat k) by lia.
       rewrite Z2Nat.inj_mul, Nat2Z.id by lia. reflexivity. }
  apply take_ge. nia.
Qed.

Lemma pages_partition_witness :
  1 <= 2 <= MaxSize /\
  concat (map (fun p => window (Z.of_nat p) 2 [7; 8; 9])
            (seq 1 (Z.to_nat (Pages (NewMeta 1 2 3))))) = [7; 8; 9].
Proof.
  split; [unfold MaxSize; lia|].
  apply (pages_partition [7; 8; 9] 2); unfold MaxSize, max_int64; simpl; lia.
Defined.
