(* ===== verification/Retry.v ===== *)
(** * Retries with exponential backoff ([pkg/platform/resilience/retry.go])

    The operation, the caller's context and the timer are parameters: an
    operation is an action on a world [W], [ctx_err] reads [ctx.Err()], and
    [wait d] is the [select] between the context and a timer of duration [d],
    true when the timer fires first. *)
From S2P Require Import Prelude.

(** @src pkg/platform/resilience/retry.go:11-16 RetryPolicy *)
Record RetryPolicy := mkPolicy {
  MaxAttempts : Z;
  InitialBackoff : Z;
  MaxBackoff : Z;
  RetryIf : option (error -> bool);
}.

(** @src pkg/platform/resilience/retry.go:59-71 nextBackoff *)
Definition nextBackoff (current maximum : Z) : Z :=
  if current =? 0 then 0
  else if (0 <? maximum) && (maximum <=? current) then maximum
  else
    let next := int64 (current * 2) in
    if (next <? current) || ((0 <? maximum) && (maximum <? next)) then maximum
    else next.

Section Retry.
Context {W : Type} (ctx_err : W -> option LibErr) (wait : Z -> W -> bool * W).
Context (policy : RetryPolicy) (operation : M W unit).

(** The error [err] of an attempt ends the loop. *)
Definition gives_up (attempt : Z) (err : error) : bool :=
  (attempt =? MaxAttempts policy) ||
  match RetryIf policy with Some f => negb (f err) | None => false end.

(** The loop from [attempt] on; [fuel] is the number of attempts left, so
    that [attempt = MaxAttempts - fuel + 1].
    @src pkg/platform/resilience/retry.go:23-46 Retry *)
Fixpoint retry_loop (fuel : nat) (attempt delay : Z) : M W unit :=
  match fuel with
  | O => mret tt
  | S fuel => fun w =>
      match ctx_err w with
      | Some e => (Err (SLib e), w)
      | None =>
          match operation w with
          | (Ok tt, w) => (Ok tt, w)
          | (Panic, w) => (Panic, w)
          | (Err err, w) =>
              if gives_up attempt err then (Err err, w)
              else if 0 <? delay then
                match wait delay w with
                | (false, w) =>
                    (match ctx_err w with Some e => Err (SLib e) | None => Ok tt end, w)
                | (true, w) =>
                    retry_loop fuel (attempt + 1) (nextBackoff delay (MaxBackoff policy)) w
                end
              else retry_loop fuel (attempt + 1) (nextBackoff delay (MaxBackoff policy)) w
          end
      end
  end.

(** @src pkg/platform/resilience/retry.go:18-47 Retry *)
Definition Retry : M W unit :=
  if (MaxAttempts policy <=? 0) || (InitialBackoff policy <? 0) || (MaxBackoff policy <? 0)
  then throw ErrInvalidRetryPolicy
  else retry_loop (Z.to_nat (MaxAttempts policy)) 1 (InitialBackoff policy).
End Retry.

(** A scripted world: the number of attempts made so far and the delays
    waited for; attempt number [k] (from 0) has the outcome [outcomes k], the
    context is never cancelled. *)
Definition script_op (outcomes : nat -> res unit) : M (nat * list Z) unit :=
  fun w => (outcomes w.1, (S w.1, w.2)).
Definition script_wait (d : Z) (w : nat * list Z) : bool * (nat * list Z) :=
  (true, (w.1, w.2 ++ [d])).
Definition run_script (policy : RetryPolicy) (outcomes : nat -> res unit) :
    res unit * (nat * list Z) :=
  Retry (fun _ => None) script_wait policy (script_op outcomes) (0%nat, []).

(** The [i]-th delay of a capped exponential backoff. *)
Definition backoff (policy : RetryPolicy) (i : nat) : Z :=
  Z.min (MaxBackoff policy) (InitialBackoff policy * 2 ^ Z.of_nat i).

(** ** Properties *)

Lemma int64_double c :
  0 <= c <= max_int64 ->
  int64 (c * 2) = if 2 * c <=? max_int64 then 2 * c else 2 * c - 2 ^ 64.
Proof.
  intros Hc. case_match; bool_prop; unfold max_int64 in *.
  - rewrite int64_id; [lia|]. unfold in_int64, min_int64, max_int64. lia.
  - unfold int64. replace (c * 2 + 2 ^ 63) with (2 * c - 2 ^ 63 + 1 * 2 ^ 64) by lia.
    rewrite Z.mod_add, Z.mod_small; lia.
Qed.

(** The next delay never overflows: it stays between zero and the maximum
    when there is one; below the maximum it is the double, capped; without a
    maximum it doubles until the double no longer fits in 64 bits, and is then
    zero. *)
Theorem nextBackoff_spec current maximum :
  0 <= current <= max_int64 -> 0 <= maximum <= max_int64 ->
  let next := nextBackoff current maximum in
  in_int64 next /\ 0 <= next /\
  (0 < maximum -> next = if current =? 0 then 0 else Z.min maximum (2 * current)) /\
  (maximum = 0 -> next = if 2 * current <=? max_int64 then 2 * current else 0).
Proof.
  intros Hc Hm. unfold nextBackoff. rewrite int64_double by done. cbv zeta.
  unfold in_int64, min_int64, max_int64 in *.
  repeat case_match; bool_prop; split_and!; lia.
Qed.

Lemma nextBackoff_spec_witness :
  nextBackoff 5 8 = 8 /\ nextBackoff (2 ^ 62) 0 = 0 /\ nextBackoff 3 8 = Z.min 8 6.
Proof.
  pose proof (nextBackoff_spec 3 8) as H. unfold max_int64 in H.
  destruct H as (_ & _ & H & _); [lia | lia |].
  split_and!; [reflexivity | reflexivity | exact (H ltac:(lia))].
Defined.

(** Every world, every timer and every context: at most [MaxAttempts] calls. *)
Lemma retry_loop_calls {W} ctx_err wait policy (operation : M W unit) (calls : W -> nat) :
  (forall w, calls (operation w).2 <= S (calls w))%nat ->
  (forall d w, calls (wait d w).2 = calls w) ->
  forall fuel attempt delay w,
  (calls (retry_loop ctx_err wait policy operation fuel attempt delay w).2 <= calls w + fuel)%nat.
Proof.
  intros Hop Hwait. induction fuel as [|fuel IH]; intros attempt delay w; simpl; [lia|].
  destruct (ctx_err w); [simpl; lia|]. specialize (Hop w).
  destruct (operation w) as [[[]|err|] w1]; simpl in *; [lia| |lia].
  destruct (gives_up _ _ _); [simpl; lia|].
  destruct (0 <? delay); [|specialize (IH (attempt + 1) (nextBackoff delay (MaxBackoff policy)) w1); lia].
  specialize (Hwait delay w1). destruct (wait delay w1) as [[] w2]; simpl in *; [|lia].
  specialize (IH (attempt + 1) (nextBackoff delay (MaxBackoff policy)) w2). lia.
Qed.

Lemma backoff_next policy i :
  0 < InitialBackoff policy -> 0 < MaxBackoff policy <= max_int64 ->
  nextBackoff (backoff policy i) (MaxBackoff policy) = backoff policy (S i).
Proof.
  intros Hi Hm. unfold backoff.
  assert (Hpow : 1 <= 2 ^ Z.of_nat i) by (pose proof (Z.pow_pos_nonneg 2 (Z.of_nat i)); lia).
  rewrite Nat2Z.inj_succ, Z.pow_succ_r by lia.
  set (d := InitialBackoff policy) in *. set (p := 2 ^ Z.of_nat i) in *.
  set (mx := MaxBackoff policy) in *. clearbody d p mx.
  unfold nextBackoff. rewrite int64_double by nia. unfold max_int64 in *. cbv zeta.
  repeat case_match; bool_prop; nia.
Qed.

Lemma script_prefix policy outcomes k :
  0 < InitialBackoff policy -> 0 < MaxBackoff policy <= max_int64 ->
  (forall j, (j < k)%nat -> exists e, outcomes j = Err e /\
     gives_up policy (Z.of_nat j + 1) e = false) ->
  forall fuel ws, (k < fuel)%nat ->
  retry_loop (fun _ => None) script_wait policy (script_op outcomes) fuel 1
    (backoff policy 0) (0%nat, ws) =
  retry_loop (fun _ => None) script_wait policy (script_op outcomes) (fuel - k)
    (Z.of_nat k + 1) (backoff policy k) (k, ws ++ map (backoff policy) (seq 0 k)).
Proof.
  intros Hi Hm. induction k as [|k IH]; intros Hfail fuel ws Hlt.
  { simpl. by rewrite app_nil_r, Nat.sub_0_r. }
  rewrite IH; [|intros j Hj; apply Hfail; lia|lia].
  destruct (Hfail k ltac:(lia)) as (e & He & Hgo).
  destruct (fuel - k)%nat as [|f] eqn:Hf; [lia|]. replace (fuel - S k)%nat with f by lia.
  cbn [retry_loop]. unfold script_op. cbn [fst snd]. rewrite He, Hgo.
  assert (Hpos : 0 < backoff policy k).
  { unfold backoff. pose proof (Z.pow_pos_nonneg 2 (Z.of_nat k)). nia. }
  rewrite (proj2 (Z.ltb_lt _ _)) by done.
  unfold script_wait at 1. cbn [fst snd]. rewrite backoff_next by done.
  rewrite seq_S, map_app, app_assoc. f_equal. lia.
Qed.

(** C29: with an uncancelled context, [Retry] calls the operation until its
    first success, its first non-retryable error, or its [MaxAttempts]-th
    call, and returns that call's outcome; between the calls it has waited
    exactly the delays of the exponential backoff, [InitialBackoff] doubled
    and capped at [MaxBackoff]. *)
Theorem Retry_runs_until_decided policy outcomes k :
  0 < InitialBackoff policy <= MaxBackoff policy -> MaxBackoff policy <= max_int64 ->
  Z.of_nat k < MaxAttempts policy ->
  (forall j, (j < k)%nat -> exists e, outcomes j = Err e /\
     match RetryIf policy with Some f => f e = true | None => True end) ->
  match outcomes k with
  | Err e => Z.of_nat k + 1 = MaxAttempts policy \/
      match RetryIf policy with Some f => f e = false | None => False end
  | _ => True
  end ->
  run_script policy outcomes = (outcomes k, (S k, map (backoff policy) (seq 0 k))).
Proof.
  intros Hi Hm Hk Hfail Hlast. unfold run_script, Retry.
  rewrite (proj2 (Z.leb_gt _ _)), (proj2 (Z.ltb_ge (InitialBackoff policy) 0)),
    (proj2 (Z.ltb_ge (MaxBackoff policy) 0)) by lia. cbn [orb].
  assert (H0 : InitialBackoff policy = backoff policy 0) by (unfold backoff; lia).
  assert (Hgo : forall j, (j < k)%nat -> exists e, outcomes j = Err e /\
     gives_up policy (Z.of_nat j + 1) e = false).
  { intros j Hj. destruct (Hfail j Hj) as (e & He & Hr). exists e. split; [done|].
    unfold gives_up. rewrite (proj2 (Z.eqb_neq _ _)) by lia.
    by destruct (RetryIf policy); [rewrite Hr|]. }
  rewrite H0, (script_prefix _ _ k) by (lia || done).
  destruct (Z.to_nat (MaxAttempts policy) - k)%nat as [|f] eqn:Hf; [lia|].
  cbn [retry_loop]. unfold script_op. cbn [fst snd app].
  destruct (outcomes k) as [[]|e|]; [done| |done].
  assert (gives_up policy (Z.of_nat k + 1) e = true) as ->; [|done].
  unfold gives_up. apply orb_true_iff. destruct Hlast as [->|Hr]; [left; apply Z.eqb_refl|right].
  by destruct (RetryIf policy); [rewrite Hr|].
Qed.

Lemma Retry_runs_until_decided_witness :
  run_script (mkPolicy 5 10 25 None)
    (fun k => if (k <? 3)%nat then Err (EText "down") else Ok tt) =
  (Ok tt, (4%nat, [10; 20; 25])).
Proof.
  apply (Retry_runs_until_decided (mkPolicy 5 10 25 None)
    (fun k => if (k <? 3)%nat then Err (EText "down") else Ok tt) 3);
    simpl; try (unfold max_int64; lia).
  intros j Hj. exists (EText "down"). split; [|exact I].
  by rewrite (proj2 (Nat.ltb_lt _ _) Hj).
Defined.
