(* ===== verification/Breaker.v ===== *)
(** * The circuit breaker ([pkg/platform/resilience/breaker.go])

    The breaker's fields are a record; every critical section of its mutex is
    a function.  [Execute] runs the protected operation outside the mutex, so
    several executions interleave: [step] lists the atomic steps, and a
    system state pairs the breaker with the generations handed to the
    operations still in flight. *)
From S2P Require Import Prelude.

(** @src pkg/platform/resilience/breaker.go:13-19 BreakerState *)
Inductive BreakerState := StateClosed | StateOpen | StateHalfOpen.

#[global] Instance BreakerState_eq_dec : EqDecision BreakerState.
Proof. solve_decision. Defined.

(** @src pkg/platform/resilience/breaker.go:21-32 BreakerState.String *)
Definition BreakerState_String (s : BreakerState) : string :=
  match s with
  | StateClosed => "closed"
  | StateOpen => "open"
  | StateHalfOpen => "half-open"
  end.

(** The mutex and the clock are not fields: each operation below is one
    critical section and receives the instant its clock reads.
    @src pkg/platform/resilience/breaker.go:42-52 CircuitBreaker *)
Record CircuitBreaker := mkBreaker {
  failureThreshold : Z;
  openTimeout : Z;
  state : BreakerState;
  generation : Z;
  failures : Z;
  openedAt : Z;
  probeInFlight : bool;
}.

(** The clock option is a parameter of the operations; the nil clock check
    concerns that option only.
    @src pkg/platform/resilience/breaker.go:54-74 NewCircuitBreaker *)
Definition NewCircuitBreaker (failureThreshold openTimeout : Z) : res CircuitBreaker :=
  if failureThreshold =? 0 then Err (EText "failure threshold must be positive")
  else if openTimeout <=? 0 then Err (EText "open timeout must be positive")
  else Ok {| failureThreshold := failureThreshold; openTimeout := openTimeout;
             state := StateClosed; generation := 0; failures := 0; openedAt := 0;
             probeInFlight := false |}.

(** @src pkg/platform/resilience/breaker.go:153-159 advanceState *)
Definition advanceState (now : Z) (b : CircuitBreaker) : CircuitBreaker :=
  if bool_decide (state b = StateOpen) && (openTimeout b <=? time_sub now (openedAt b)) then
    {| failureThreshold := failureThreshold b; openTimeout := openTimeout b;
       state := StateHalfOpen; generation := uint64 (generation b + 1);
       failures := failures b; openedAt := openedAt b; probeInFlight := false |}
  else b.

(** @src pkg/platform/resilience/breaker.go:161-167 open *)
Definition open (now : Z) (b : CircuitBreaker) : CircuitBreaker :=
  {| failureThreshold := failureThreshold b; openTimeout := openTimeout b;
     state := StateOpen; generation := uint64 (generation b + 1);
     failures := 0; openedAt := now; probeInFlight := false |}.

(** @src pkg/platform/resilience/breaker.go:76-81 State *)
Definition State (now : Z) (b : CircuitBreaker) : BreakerState * CircuitBreaker :=
  let b := advanceState now b in (state b, b).

(** @src pkg/platform/resilience/breaker.go:169-171 CircuitBreaker.String *)
Definition Breaker_String (now : Z) (b : CircuitBreaker) : string * CircuitBreaker :=
  let '(s, b) := State now b in
  (("circuit-breaker(" ++ BreakerState_String s ++ ")")%string, b).

Definition set_probe (v : bool) (b : CircuitBreaker) : CircuitBreaker :=
  {| failureThreshold := failureThreshold b; openTimeout := openTimeout b;
     state := state b; generation := generation b;
     failures := failures b; openedAt := openedAt b; probeInFlight := v |}.
Definition set_failures (n : Z) (b : CircuitBreaker) : CircuitBreaker :=
  {| failureThreshold := failureThreshold b; openTimeout := openTimeout b;
     state := state b; generation := generation b;
     failures := n; openedAt := openedAt b; probeInFlight := probeInFlight b |}.

(** @src pkg/platform/resilience/breaker.go:102-116 acquire *)
Definition acquire (now : Z) (b : CircuitBreaker) : res Z * CircuitBreaker :=
  let b := advanceState now b in
  match state b with
  | StateOpen => (Err ErrCircuitOpen, b)
  | StateHalfOpen =>
      if probeInFlight b then (Err ErrCircuitOpen, b)
      else (Ok (generation b), set_probe true b)
  | StateClosed => (Ok (generation b), b)
  end.

(** [ctx_err] is the caller's [ctx.Err()] when the operation returns and
    [err] what it returned.
    @src pkg/platform/resilience/breaker.go:118-151 record *)
Definition record (now : Z) (ctx_err : option LibErr) (gen : Z) (err : option error)
    (b : CircuitBreaker) : CircuitBreaker :=
  if negb (gen =? generation b) then b else
  let callerCancelled :=
    match err with Some e => is_context_error ctx_err e | None => false end in
  match state b with
  | StateHalfOpen =>
      let b := set_probe false b in
      if callerCancelled then b
      else match err with
           | None =>
               {| failureThreshold := failureThreshold b; openTimeout := openTimeout b;
                  state := StateClosed; generation := uint64 (generation b + 1);
                  failures := 0; openedAt := openedAt b; probeInFlight := probeInFlight b |}
           | Some _ => open now b
           end
  | _ =>
      match err with
      | None => set_failures 0 b
      | Some _ =>
          if callerCancelled then b
          else
            let b := set_failures (uint32 (failures b + 1)) b in
            if failureThreshold b <=? failures b then open now b else b
      end
  end.

(** One whole [Execute] whose operation is not interleaved with another:
    [operation] is the outcome of the operation, [Panic] included (a recovered
    panic is recorded as a failure and rethrown); [now1] is the instant of the
    acquisition, [now2] that of the record.
    @src pkg/platform/resilience/breaker.go:83-100 Execute *)
Definition Execute (now1 now2 : Z) (ctx_before ctx_after : option LibErr)
    (operation : res unit) (b : CircuitBreaker) : res unit * CircuitBreaker :=
  match ctx_before with
  | Some e => (Err (SLib e), b)
  | None =>
      match acquire now1 b with
      | (Ok gen, b) =>
          match operation with
          | Panic => (Panic, record now2 ctx_after gen (Some (EText "operation panicked")) b)
          | Ok tt => (Ok tt, record now2 ctx_after gen None b)
          | Err e => (Err e, record now2 ctx_after gen (Some e) b)
          end
      | (Err e, b) => (Err e, b)
      | (Panic, b) => (Panic, b)
      end
  end.

(** ** Interleaved executions

    [inflight] holds the generation of every operation acquired and not yet
    recorded. *)
Record System := mkSystem { breaker : CircuitBreaker; inflight : list Z }.

Inductive step : System -> System -> Prop :=
  | step_acquire now b b' fl gen :
      acquire now b = (Ok gen, b') ->
      step (mkSystem b fl) (mkSystem b' (gen :: fl))
  | step_reject now b b' fl e :
      acquire now b = (Err e, b') ->
      step (mkSystem b fl) (mkSystem b' fl)
  | step_record now ctx_err gen err b fl1 fl2 :
      step (mkSystem b (fl1 ++ gen :: fl2))
           (mkSystem (record now ctx_err gen err b) (fl1 ++ fl2))
  | step_state now b fl :
      step (mkSystem b fl) (mkSystem (State now b).2 fl).

(** [runs n s s']: exactly [n] steps lead from [s] to [s']. *)
Inductive runs : nat -> System -> System -> Prop :=
  | runs_done s : runs 0 s s
  | runs_step n s1 s2 s3 : runs n s1 s2 -> step s2 s3 -> runs (S n) s1 s3.

(** Operations in flight that hold the current generation. *)
Definition current (s : System) : nat :=
  length (filter (fun g => g = generation (breaker s)) (inflight s)).

(** The invariant after at most [n] steps: what every state satisfies, and
    what depends on the breaker's state. *)
Definition wf_base (n : nat) (s : System) : Prop :=
  let b := breaker s in
  0 < failureThreshold b < 2 ^ 32 /\ 0 < openTimeout b /\
  0 <= generation b <= Z.of_nat n /\
  Forall (fun g => g <= generation b) (inflight s).

Definition wf_state (s : System) : Prop :=
  let b := breaker s in
  match state b with
  | StateClosed => 0 <= failures b < failureThreshold b /\ probeInFlight b = false
  | StateOpen => failures b = 0 /\ probeInFlight b = false /\ current s = 0%nat
  | StateHalfOpen =>
      failures b = 0 /\ current s = (if probeInFlight b then 1%nat else 0%nat)
  end.

Definition wf (n : nat) (s : System) : Prop := wf_base n s /\ wf_state s.

(** ** The invariant of interleaved executions *)
Lemma wf_base_same n b b' fl fl' :
  wf_base n (mkSystem b fl) ->
  failureThreshold b' = failureThreshold b -> openTimeout b' = openTimeout b ->
  generation b' = generation b -> Forall (fun g => g <= generation b) fl' ->
  wf_base (S n) (mkSystem b' fl').
Proof.
  unfold wf_base. simpl. intros (? & ? & ? & _) -> -> -> ?. split_and!; done || lia.
Qed.

Lemma wf_mono n s : wf n s -> wf (S n) s.
Proof.
  intros [Hb Hs]. split; [|done]. destruct s as [b fl].
  by apply (wf_base_same n b b fl fl); [..|apply Hb].
Qed.

Lemma current_stale b b' fl :
  Forall (fun g => g <= generation b) fl -> generation b < generation b' ->
  current (mkSystem b' fl) = 0%nat.
Proof.
  intros Hle Hlt. unfold current. simpl.
  induction Hle as [|g fl Hg _ IH]; [done|].
  rewrite filter_cons. case_decide; [lia | exact IH].
Qed.

(** A change of generation leaves no current operation in flight. *)
Lemma wf_bump n b b' fl :
  wf_base n (mkSystem b fl) -> Z.of_nat (S n) < 2 ^ 64 ->
  failureThreshold b' = failureThreshold b -> openTimeout b' = openTimeout b ->
  generation b' = uint64 (generation b + 1) -> failures b' = 0 ->
  probeInFlight b' = false ->
  wf (S n) (mkSystem b' fl).
Proof.
  intros (Hth & Hto & Hg & Hle) Hn E1 E2 Eg Ef Ep. simpl in *.
  rewrite uint64_id in Eg by lia.
  assert (Hc : current (mkSystem b' fl) = 0%nat)
    by (eapply current_stale; [exact Hle | lia]).
  split; [unfold wf_base|unfold wf_state]; simpl; rewrite ?E1, ?E2, ?Ef, ?Ep, ?Eg.
  - split_and!; try lia. eapply Forall_impl; [exact Hle|]. simpl. lia.
  - rewrite Hc. case_match; split_and!; done || lia.
Qed.

Lemma wf_advance n now b fl :
  wf n (mkSystem b fl) -> Z.of_nat (S n) < 2 ^ 64 ->
  wf (S n) (mkSystem (advanceState now b) fl).
Proof.
  intros [Hb Hs] Hn. unfold advanceState. case_match eqn:E; [|by apply wf_mono].
  bool_prop. unfold wf_state in Hs. simpl in Hs. rewrite H in Hs.
  destruct Hs as (? & _ & _). by apply (wf_bump n b).
Qed.

Lemma advance_acquired now b :
  match acquire now b with
  | (Ok gen, b') =>
      gen = generation b' /\
      ((state b' = StateClosed /\ b' = advanceState now b) \/
       (state b' = StateHalfOpen /\ probeInFlight (advanceState now b) = false /\
        state (advanceState now b) = StateHalfOpen /\ b' = set_probe true (advanceState now b)))
  | (_, b') => b' = advanceState now b
  end.
Proof.
  unfold acquire. cbv zeta. destruct (state (advanceState now b)) eqn:Es; [by eauto|done|].
  destruct (probeInFlight _) eqn:Ep; [done|]. simpl. rewrite Es. naive_solver.
Qed.

Lemma current_cons b fl :
  current (mkSystem b (generation b :: fl)) = S (current (mkSystem b fl)).
Proof. unfold current. simpl. rewrite filter_cons_True; done. Qed.

Lemma current_generation b b' fl :
  generation b' = generation b -> current (mkSystem b' fl) = current (mkSystem b fl).
Proof. unfold current. simpl. by intros ->. Qed.

Lemma wf_acquire n now b b' fl gen :
  wf n (mkSystem b fl) -> Z.of_nat (S n) < 2 ^ 64 ->
  acquire now b = (Ok gen, b') -> wf (S n) (mkSystem b' (gen :: fl)).
Proof.
  intros Hwf Hn Ha. destruct (wf_advance n now b fl Hwf Hn) as [Hb Hst].
  pose proof (advance_acquired now b) as H. rewrite Ha in H.
  set (b1 := advanceState now b) in *. clearbody b1.
  assert (Hfl : Forall (fun g => g <= generation b1) (generation b1 :: fl))
    by (constructor; [done | apply Hb]).
  destruct Hb as (? & ? & ? & _); unfold wf_state in Hst; simpl in *.
  destruct H as (-> & [(Hs & ->)|(Hs & Hp & Hs' & ->)]).
  - split; [done|]. unfold wf_state. simpl. by rewrite Hs in Hst |- *.
  - split; [done|]. unfold wf_state. simpl. rewrite Hs' in Hst |- *. rewrite Hp in Hst.
    destruct Hst as [? Hc]. split; [done|].
    by rewrite <- Hc, <- current_cons.
Qed.

(** What a record of the current generation leaves: the same generation with
    one operation fewer, or the next generation. *)
Lemma current_remove b fl1 fl2 :
  current (mkSystem b (fl1 ++ generation b :: fl2)) =
  S (current (mkSystem b (fl1 ++ fl2))).
Proof.
  unfold current. simpl. rewrite !filter_app, filter_cons_True by done.
  rewrite !length_app. simpl. lia.
Qed.

Lemma current_remove_other b fl1 g fl2 :
  g <> generation b ->
  current (mkSystem b (fl1 ++ g :: fl2)) = current (mkSystem b (fl1 ++ fl2)).
Proof. intros Hg. unfold current. simpl. by rewrite !filter_app, filter_cons_False. Qed.

Lemma Forall_remove {A} (P : A -> Prop) l1 x l2 :
  Forall P (l1 ++ x :: l2) -> Forall P (l1 ++ l2).
Proof. rewrite !Forall_app, Forall_cons. tauto. Qed.

(** The record is ignored when the breaker has moved to another generation. *)
Lemma record_stale now ctx_err gen err b :
  gen <> generation b -> record now ctx_err gen err b = b.
Proof. unfold record. intros Hne. by rewrite (proj2 (Z.eqb_neq _ _) Hne). Qed.

Definition caller_cancelled (ctx_err : option LibErr) (err : option error) : bool :=
  match err with Some e => is_context_error ctx_err e | None => false end.

(** The current generation's record, one line per state and outcome. *)
Lemma record_current now ctx_err err b :
  record now ctx_err (generation b) err b =
    match state b, err with
    | StateHalfOpen, None =>
        {| failureThreshold := failureThreshold b; openTimeout := openTimeout b;
           state := StateClosed; generation := uint64 (generation b + 1);
           failures := 0; openedAt := openedAt b; probeInFlight := false |}
    | StateHalfOpen, Some _ =>
        if caller_cancelled ctx_err err then set_probe false b else open now b
    | _, None => set_failures 0 b
    | _, Some _ =>
        if caller_cancelled ctx_err err then b
        else if failureThreshold b <=? uint32 (failures b + 1) then open now b
        else set_failures (uint32 (failures b + 1)) b
    end.
Proof.
  unfold record, caller_cancelled. rewrite Z.eqb_refl. simpl.
  destruct (state b), err as [e|]; simpl; repeat case_match; done.
Qed.

Lemma wf_record n now ctx_err gen err b fl1 fl2 :
  wf n (mkSystem b (fl1 ++ gen :: fl2)) -> Z.of_nat (S n) < 2 ^ 64 ->
  wf (S n) (mkSystem (record now ctx_err gen err b) (fl1 ++ fl2)).
Proof.
  intros [Hb Hst] Hn.
  assert (Hb' : wf_base n (mkSystem b (fl1 ++ fl2))).
  { destruct Hb as (? & ? & ? & ?%Forall_remove). done. }
  pose proof Hb' as (Hth & _ & _ & Hfl). unfold wf_state in Hst. simpl in *.
  destruct (decide (gen = generation b)) as [->|Hne].
  2: { rewrite record_stale by done. apply wf_mono. split; [done|].
       unfold wf_state. simpl. by rewrite current_remove_other in Hst. }
  rewrite record_current, current_remove in *.
  destruct (state b) eqn:Hs.
  - destruct Hst as [Hf0 Hp0].
    assert (Hok : forall f, 0 <= f < failureThreshold b ->
                  wf (S n) (mkSystem (set_failures f b) (fl1 ++ fl2))).
    { intros f Hf. split; [by eapply wf_base_same|]. unfold wf_state. simpl.
      by rewrite Hs. }
    destruct err; [|apply Hok; lia].
    case_match; [apply wf_mono; split; [done|]; unfold wf_state; simpl; by rewrite Hs|].
    rewrite uint32_id by lia. case_match; bool_prop; [|apply Hok; lia].
    by apply (wf_bump n b).
  - by destruct Hst as (_ & _ & ?).
  - destruct Hst as [Hf Hc].
    destruct err; [destruct (caller_cancelled _ _)|]; [|by apply (wf_bump n b)..].
    split; [by eapply wf_base_same|]. unfold wf_state. simpl. rewrite Hs.
    split; [done|]. rewrite (current_generation b) by done. simpl.
    destruct (probeInFlight b); [congruence | done].
Qed.

Lemma wf_step n s s' :
  wf n s -> Z.of_nat (S n) < 2 ^ 64 -> step s s' -> wf (S n) s'.
Proof.
  intros Hwf Hn Hstep. destruct Hstep as [now b b' fl gen Ha|now b b' fl e Ha|now c g e b fl1 fl2|now b fl].
  - by eapply wf_acquire.
  - pose proof (advance_acquired now b) as H. rewrite Ha in H. subst. by apply wf_advance.
  - by apply wf_record.
  - by apply wf_advance.
Qed.

Lemma wf_runs n s s' :
  runs n s s' -> wf 0 s -> Z.of_nat n < 2 ^ 64 -> wf n s'.
Proof.
  induction 1 as [s|n s1 s2 s3 _ IH Hs]; intros H0 Hn; [done|].
  eapply wf_step; [apply IH; [done | lia] | lia | done].
Qed.

Lemma wf_new threshold timeout b :
  0 <= threshold < 2 ^ 32 -> NewCircuitBreaker threshold timeout = Ok b ->
  wf 0 (mkSystem b []).
Proof.
  unfold NewCircuitBreaker. intros Hth H. do 2 (case_match; [done|]). bool_prop.
  injection H as <-. split; [|simpl; unfold wf_state; simpl; lia].
  unfold wf_base; simpl. split_and!; try lia. constructor.
Qed.

(** The recorded failures of one generation, in order. *)
Definition record_failures (b : CircuitBreaker) (errs : list (Z * error)) : CircuitBreaker :=
  foldl (fun b '(now, e) => record now None (generation b) (Some e) b) b errs.

Lemma record_failures_closed b errs :
  state b = StateClosed -> 0 <= failures b -> failureThreshold b < 2 ^ 32 ->
  failures b + Z.of_nat (length errs) < failureThreshold b ->
  record_failures b errs = set_failures (failures b + Z.of_nat (length errs)) b.
Proof.
  revert b. induction errs as [|[now e] errs IH]; intros b Hs Hf Hth Hlt.
  - simpl. rewrite Z.add_0_r. by destruct b.
  - simpl in Hlt |- *. rewrite record_current, Hs. simpl.
    rewrite uint32_id by lia. rewrite (proj2 (Z.leb_gt _ _)) by lia.
    change (record_failures (set_failures (failures b + 1) b) errs =
      set_failures (failures b + Z.of_nat (S (length errs))) b).
    rewrite IH by (simpl; lia || done). unfold set_failures. simpl. f_equal. lia.
Qed.

(** C18: however the executions of a breaker interleave, while it is half-open
    at most one operation of the current generation is in flight, and only
    when the probe flag is set; while it is open none is; while it is closed
    it has counted fewer failures than its threshold.  The bound on the number
    of steps is the width of the generation counter. *)
Theorem breaker_single_probe threshold timeout b n s :
  0 <= threshold < 2 ^ 32 ->
  NewCircuitBreaker threshold timeout = Ok b ->
  runs n (mkSystem b []) s -> Z.of_nat n < 2 ^ 64 ->
  match state (breaker s) with
  | StateClosed => 0 <= failures (breaker s) < failureThreshold (breaker s)
  | StateOpen => current s = 0%nat
  | StateHalfOpen =>
      (current s <= 1)%nat /\ (current s = 1%nat <-> probeInFlight (breaker s) = true)
  end.
Proof.
  intros Hth Hnew Hrun Hn.
  destruct (wf_runs n _ s Hrun (wf_new _ _ _ Hth Hnew) Hn) as [_ Hs].
  unfold wf_state in Hs. destruct (state (breaker s)); [tauto|tauto|].
  destruct Hs as [_ ->]. destruct (probeInFlight _); (split; [lia | split; done]).
Qed.

Lemma breaker_single_probe_witness :
  exists b s, NewCircuitBreaker 1 5 = Ok b /\ runs 3 (mkSystem b []) s /\
    state (breaker s) = StateHalfOpen /\ (current s <= 1)%nat.
Proof.
  set (b := mkBreaker 1 5 StateClosed 0 0 0 false).
  assert (Hnew : NewCircuitBreaker 1 5 = Ok b) by reflexivity.
  assert (Hrun : runs 3 (mkSystem b []) (mkSystem (set_probe true (advanceState 20 (open 0 b))) [2])).
  { eapply runs_step; [eapply runs_step; [eapply runs_step; [apply runs_done|]|]|].
    - apply (step_acquire 0 b b [] 0). reflexivity.
    - apply (step_record 0 None 0 (Some (EText "down")) b [] []).
    - apply (step_acquire 20 (open 0 b) _ [] 2). reflexivity. }
  exists b, (mkSystem (set_probe true (advanceState 20 (open 0 b))) [2]).
  split; [exact Hnew|]. split; [exact Hrun|]. split; [reflexivity|].
  exact (proj1 (breaker_single_probe 1 5 b 3 _ ltac:(lia) Hnew Hrun ltac:(lia))).
Defined.

(** A closed breaker trips at exactly its threshold of consecutive
    failures: any shorter run of failures leaves it closed with the count
    advanced, the failure that reaches the threshold opens it at that instant
    in a new generation, and one success in between resets the count. *)
Theorem breaker_trips_at_threshold b errs now e :
  state b = StateClosed -> 0 <= failures b -> failureThreshold b < 2 ^ 32 ->
  failures b + Z.of_nat (length errs) < failureThreshold b ->
  let b1 := record_failures b errs in
  state b1 = StateClosed /\ failures b1 = failures b + Z.of_nat (length errs) /\
  generation b1 = generation b /\
  record now None (generation b) None b1 = set_failures 0 b1 /\
  (failures b1 + 1 = failureThreshold b ->
   record now None (generation b) (Some e) b1 = open now b1).
Proof.
  intros Hs Hf Hth Hlt b1. subst b1. rewrite record_failures_closed by done. simpl.
  set (b1 := set_failures _ b).
  change (generation b) with (generation b1). split_and!; try done.
  - by rewrite record_current; simpl; rewrite Hs.
  - intros Heq. rewrite record_current. simpl. rewrite Hs. unfold caller_cancelled. simpl.
    rewrite uint32_id by lia. by rewrite Heq, Z.leb_refl.
Qed.

Lemma breaker_trips_at_threshold_witness :
  let b := mkBreaker 3 5 StateClosed 7 0 0 false in
  record 9 None 7 (Some (EText "x")) (record_failures b [(1, EText "x"); (2, EText "x")]) =
  open 9 (record_failures b [(1, EText "x"); (2, EText "x")]).
Proof.
  intros b.
  apply (breaker_trips_at_threshold b [(1, EText "x"); (2, EText "x")] 9 (EText "x"));
    simpl; lia || reflexivity.
Defined.

(** An open breaker rejects every execution and does not change until its
    timeout has elapsed; the first execution after that is the probe: its
    success closes the breaker with the count reset, its failure opens it
    again from the instant of the record, and its cancellation by the caller
    leaves the breaker half-open with the probe slot free. *)
Theorem breaker_open_recovers b now1 now2 ctx e :
  state b = StateOpen -> in_int64 (now1 - openedAt b) ->
  let b1 := advanceState now1 b in
  (now1 - openedAt b < openTimeout b ->
   forall op, Execute now1 now2 None ctx op b = (Err ErrCircuitOpen, b)) /\
  (openTimeout b <= now1 - openedAt b ->
   state b1 = StateHalfOpen /\
   Execute now1 now2 None ctx (Ok tt) b =
     (Ok tt, mkBreaker (failureThreshold b) (openTimeout b) StateClosed
               (uint64 (generation b1 + 1)) 0 (openedAt b) false) /\
   Execute now1 now2 None ctx (Err e) b =
     (Err e, if is_context_error ctx e then b1 else open now2 b1)).
Proof.
  intros Hs H64 b1. assert (Hsub := time_sub_id _ _ H64).
  assert (Hadv : b1 = if openTimeout b <=? now1 - openedAt b
    then mkBreaker (failureThreshold b) (openTimeout b) StateHalfOpen
           (uint64 (generation b + 1)) (failures b) (openedAt b) false else b).
  { subst b1. unfold advanceState. by rewrite Hs, Hsub, bool_decide_true. }
  unfold Execute, acquire. fold b1. clearbody b1. split; intros Hlt.
  - rewrite (proj2 (Z.leb_gt _ _)) in Hadv by lia. subst b1. by rewrite Hs.
  - rewrite (proj2 (Z.leb_le _ _)) in Hadv by lia. subst b1. simpl.
    split_and!; [done| |].
    + unfold record. simpl. by rewrite Z.eqb_refl.
    + unfold record. simpl. rewrite Z.eqb_refl. simpl. by case_match.
Qed.

Lemma breaker_open_recovers_witness :
  let b := mkBreaker 3 5 StateOpen 7 0 100 false in
  (Execute 105 106 None None (Ok tt) b).2 = mkBreaker 3 5 StateClosed 9 0 100 false.
Proof.
  intros b.
  pose proof (proj2 (breaker_open_recovers b 105 106 None (EText "x") eq_refl
    ltac:(unfold in_int64, min_int64, max_int64; simpl; lia)) ltac:(simpl; lia)) as (_ & H & _).
  rewrite H. reflexivity.
Defined.
