(* ===== verification/Lifecycle.v ===== *)
(** * Running components and releasing resources
    ([pkg/lifecycle/lifecycle.go], [internal/app/stack.go])

    [Run] starts a goroutine per component and then talks to them over
    channels: it is a machine whose steps are the choices of its [select]s,
    interleaved with the steps of its environment, which are the components,
    the caller's context and the timer of the shutdown.  [Stack] is the list of
    resources both packages release in reverse order; a closer is an action on
    a world that holds everything but the stack. *)
From S2P Require Import Prelude.

Module Run.

(** Where the goroutine of [Run] is: in the loop over the results with
    [remaining] of them expected, in the [select] on the shutdown of the
    component [index], in the last [select], or done. *)
Inductive phase := Serving (remaining : nat) | Closing (index : nat) | Draining | Returned (err : option error).

(** [workers] are the components whose [Run] has not returned, [results] the
    buffered channel, [shutdowns] the calls of [Shutdown] in their order,
    [answer] the channel of the last one, [deadline] whether the context of
    the shutdown has expired.
    @src pkg/lifecycle/lifecycle.go:37-54 (Run) state *)
Record config := mkConfig {
  parentDone : bool;
  runCtxDone : bool;
  deadline : bool;
  workers : gset nat;
  results : list (option error);
  shutdowns : list nat;
  answer : option (option error);
  runErr : option error;
  shutdownErr : option error;
  at_ : phase;
}.

Inductive action :=
  (* the environment *)
  | ParentCancelled | CancelPropagates | WorkerReturns (i : nat) (err : option error)
  | ShutdownReturns (err : option error) | TimeoutFires
  (* the cases of the selects *)
  | TakeParent | TakeResult | TakeAnswer | TakeStopped | TakeDeadline.

Definition of_run (a : action) : bool :=
  match a with TakeParent | TakeResult | TakeAnswer | TakeStopped | TakeDeadline => true | _ => false end.

(** The arguments [Run] refuses; [None] stands for a nil component.
    @src pkg/lifecycle/lifecycle.go:29-36 (Run) guards *)
Definition refuses {A} (shutdownTimeout : Z) (components : list (option A)) : option error :=
  if shutdownTimeout <=? 0 then Some (EText "shutdown timeout must be positive")
  else if existsb (fun c => match c with None => true | Some _ => false end) components
  then Some (EText "lifecycle component is nil") else None.

(** @src pkg/lifecycle/lifecycle.go:40-48 (Run) start *)
Definition start (n : nat) : config :=
  mkConfig false false false (set_seq 0 n) [] [] None None None (Serving n).

(** The next turn of the loop over the components, from the last one down.
    @src pkg/lifecycle/lifecycle.go:74-79 (Run) shutdown loop *)
Definition close_next (index : nat) (c : config) : config :=
  match index with
  | O => mkConfig (parentDone c) (runCtxDone c) (deadline c) (workers c) (results c) (shutdowns c) None (runErr c) (shutdownErr c) Draining
  | S i => mkConfig (parentDone c) (runCtxDone c) (deadline c) (workers c) (results c) (shutdowns c ++ [i]) None (runErr c) (shutdownErr c) (Closing i)
  end.

(** [cancel()] and the first turn of that loop.
    @src pkg/lifecycle/lifecycle.go:69-75 (Run) cancel *)
Definition stop (n : nat) (err : option error) (c : config) : config :=
  close_next n (mkConfig (parentDone c) true (deadline c) (workers c) (results c) (shutdowns c) (answer c) err (shutdownErr c) (at_ c)).

(** @src pkg/lifecycle/lifecycle.go:61-61 (Run) unexpected *)
Definition unexpected (runCtxDone : bool) (err : option error) : option error :=
  match err with
  | Some e => if errors_is ContextCanceled e && runCtxDone then None else Some e
  | None => None
  end.

(** @src pkg/lifecycle/lifecycle.go:82-84 (Run) shutdown error *)
Definition shutdown_error (err : option error) : option error :=
  match err with
  | Some e => if errors_is ContextCanceled e then None else Some e
  | None => None
  end.

(** One step; [None] when it is not possible there.
    @src pkg/lifecycle/lifecycle.go:50-101 Run *)
Definition step (n : nat) (a : action) (c : config) : option config :=
  let 'mkConfig pd rd dl ws rs sh an re se at_ := c in
  match a, at_ with
  | ParentCancelled, _ => Some (mkConfig true rd dl ws rs sh an re se at_)
  | CancelPropagates, _ => if pd then Some (mkConfig pd true dl ws rs sh an re se at_) else None
  | WorkerReturns i err, _ =>
      if decide (i ∈ ws) then Some (mkConfig pd rd dl (ws ∖ {[i]}) (rs ++ [err]) sh an re se at_) else None
  | ShutdownReturns err, Closing _ =>
      match an with None => Some (mkConfig pd rd dl ws rs sh (Some err) re se at_) | Some _ => None end
  | TimeoutFires, (Closing _ | Draining) => Some (mkConfig pd rd true ws rs sh an re se at_)
  | TakeParent, Serving _ => if pd then Some (stop n re c) else None
  | TakeResult, Serving remaining =>
      match rs with
      | [] => None
      | err :: rs =>
          let c := mkConfig pd rd dl ws rs sh an re se (Serving (remaining - 1)) in
          match unexpected rd err with
          | Some e => Some (stop n (Some e) c)
          | None => Some (if (remaining - 1 =? 0)%nat then stop n re c else c)
          end
      end
  | TakeAnswer, Closing index =>
      match an with
      | Some err => Some (close_next index (mkConfig pd rd dl ws rs sh an re (errors_join se (shutdown_error err)) at_))
      | None => None
      end
  | TakeStopped, Draining =>
      if decide (ws = ∅) then Some (mkConfig pd rd dl ws rs sh an re se (Returned (errors_join re se))) else None
  | TakeDeadline, (Closing _ | Draining) =>
      if dl then Some (mkConfig pd rd dl ws rs sh an re se
                         (Returned (errors_join re (errors_join se (Some (ESentinel (SLib ContextDeadlineExceeded)))))))
      else None
  | _, _ => None
  end.

(** The executions of [Run] on [n] components. *)
Inductive execution (n : nat) : list action -> config -> Prop :=
  | execution_nil : execution n [] (start n)
  | execution_snoc acts a c c' : execution n acts c -> step n a c = Some c' -> execution n (acts ++ [a]) c'.

Definition run (n : nat) (acts : list action) : option config :=
  foldl (fun c a => c ≫= step n a) (Some (start n)) acts.

Lemma run_execution n acts c : run n acts = Some c -> execution n acts c.
Proof.
  revert c. induction acts as [|a acts IH] using rev_ind; intros c.
  - intros [= <-]. constructor.
  - unfold run. rewrite foldl_app. simpl. intros (c' & Hc' & Ha)%bind_Some. econstructor; [by apply IH | done].
Qed.

(** ** What an execution did *)

(** What the components returned from [Run] and from [Shutdown], in order. *)
Definition returned (a : action) : option (option error) := match a with WorkerReturns _ err => Some err | _ => None end.
Definition answered (a : action) : option (option error) := match a with ShutdownReturns err => Some err | _ => None end.
Definition worker_results (acts : list action) : list (option error) := omap returned acts.
Definition shutdown_answers (acts : list action) : list (option error) := omap answered acts.

(** The first error of a list and the errors of a shutdown, joined. *)
Definition first_error (l : list (option error)) : option error := head (omap id l).
Definition joined (l : list (option error)) : option error := foldl (fun acc err => errors_join acc (shutdown_error err)) None l.

(** The steps [Run] has left at most. *)
Definition measure (n : nat) (c : config) : nat :=
  match at_ c with Serving remaining => remaining + n + 2 | Closing index => index + 2 | Draining => 1 | Returned _ => 0 end.

Definition stopping (c : config) : bool := match at_ c with Serving _ => false | _ => true end.

(** Where [Run] can only wait: for its context or a component while it serves,
    for a shutdown or for the components that still run before its timer
    fires. *)
Definition waits (n : nat) (c : config) : Prop :=
  match at_ c with
  | Serving _ => parentDone c = false /\ results c = [] /\ (n = 0%nat \/ workers c <> ∅)
  | Closing _ => deadline c = false /\ answer c = None
  | Draining => deadline c = false /\ workers c <> ∅
  | Returned _ => False
  end.

Definition blocked (n : nat) (c : config) : Prop := forall a, of_run a = true -> step n a c = None.

Lemma close_next_measure n index c : (measure n (close_next index c) = index + 1)%nat.
Proof. destruct index; unfold measure; simpl; lia. Qed.

Lemma measure_stop n err c : (measure n (stop n err c) = n + 1)%nat.
Proof. apply close_next_measure. Qed.

(** The cases of a step that is possible. *)
Ltac step_cases c a H :=
  destruct c as [pd rd dl ws rs sh an re se p]; destruct a, p; simpl in H; try discriminate H;
  repeat (match type of H with context [match ?x with _ => _ end] => destruct x eqn:? end; try discriminate H);
  injection H as <-; subst.

(** Every step of [Run] uses one up, and no step of the environment gives it
    any. *)
Lemma step_measure n a c c' :
  step n a c = Some c' -> (measure n c' + (if of_run a then 1 else 0) <= measure n c)%nat.
Proof.
  intros H. step_cases c a H; rewrite ?measure_stop, ?close_next_measure; unfold measure; simpl; rewrite ?Nat.eqb_neq in *; lia.
Qed.

Lemma execution_steps n acts c :
  execution n acts c -> (length (filter of_run acts) + measure n c <= 2 * n + 2)%nat.
Proof.
  induction 1 as [|acts a c c' _ IH Ha]; [change (0 + (n + n + 2) <= 2 * n + 2)%nat; lia|]. apply step_measure in Ha.
  rewrite filter_app, length_app. unfold filter at 2. simpl. destruct (of_run a); simpl in *; lia.
Qed.

(** ** The invariants of an execution *)

(** The calls of [Shutdown] of [k] components, from the last one down. *)
Definition reverse_from (n k : nat) : list nat := take k (reverse (seq 0 n)).

(** What holds wherever [Run] is.  In the loop every component has returned,
    waits in the buffer or still runs, and nothing was shut down; later the
    context is cancelled and the calls of [Shutdown] go down from the last
    component to the one that is awaited. *)
Record wf (n : nat) (c : config) : Prop := {
  wf_workers : forall i, i ∈ workers c -> (i < n)%nat;
  wf_serving remaining : at_ c = Serving remaining ->
    shutdowns c = [] /\ runErr c = None /\ shutdownErr c = None /\ deadline c = false /\ answer c = None /\ (size (workers c) + length (results c) = remaining)%nat /\ (remaining = 0%nat -> n = 0%nat) /\ (runCtxDone c = true -> parentDone c = true);
  wf_stopping : stopping c = true -> runCtxDone c = true;
  wf_closing index : at_ c = Closing index -> (index < n)%nat /\ shutdowns c = reverse_from n (n - index);
  wf_draining : at_ c = Draining -> shutdowns c = reverse (seq 0 n) /\ answer c = None;
  wf_returned err : at_ c = Returned err ->
    exists k, shutdowns c = reverse_from n k /\ (deadline c = false -> workers c = ∅ /\ shutdowns c = reverse (seq 0 n));
}.

Lemma rev_seq_S n k : (k < n)%nat -> reverse_from n (n - k) = reverse_from n (n - S k) ++ [k].
Proof.
  intros H. unfold reverse_from. replace (n - k)%nat with (S (n - S k)) by lia. apply take_S_r.
  rewrite reverse_lookup by (rewrite length_seq; lia). rewrite length_seq.
  apply lookup_seq. lia.
Qed.

Lemma reverse_from_all n : reverse_from n n = reverse (seq 0 n).
Proof. unfold reverse_from. apply take_ge. by rewrite length_reverse, length_seq. Qed.

Lemma close_next_wf n index c :
  (forall i, i ∈ workers c -> (i < n)%nat) -> runCtxDone c = true -> (index <= n)%nat -> shutdowns c = reverse_from n (n - index) ->
  wf n (close_next index c).
Proof.
  intros Hw Hr Hi Hs. destruct index as [|i]; split; simpl; try done.
  - intros _. by rewrite Hs, Nat.sub_0_r, reverse_from_all.
  - intros index [= <-]. split; [lia|]. rewrite Hs, (rev_seq_S n i) by lia. done.
Qed.

Lemma stop_wf n err c :
  (forall i, i ∈ workers c -> (i < n)%nat) -> shutdowns c = [] -> wf n (stop n err c).
Proof. intros Hw Hs. apply close_next_wf; simpl; [done..|]. by rewrite Hs, Nat.sub_diag. Qed.

Lemma start_wf n : wf n (start n).
Proof.
  split; simpl; try done; [set_solver|]. intros remaining [= <-]. split_and!; try done.
  rewrite size_set_seq. lia.
Qed.

Lemma step_wf n a c c' : wf n c -> step n a c = Some c' -> wf n c'.
Proof.
  intros Hwf H. destruct Hwf as [Hw Hs Ht Hc Hd Hr]. 
  step_cases c a H; simpl in *;
    try (specialize (Hs _ eq_refl) as (-> & -> & -> & -> & -> & Hn & Hz & Hp)); try (specialize (Hc _ eq_refl) as [Hi ->]);
    try (specialize (Hd eq_refl) as [-> ->]);
    try (apply stop_wf; [done|done]); try (apply close_next_wf; [done|by apply Ht|simpl; lia|done]); 
    try (split; simpl; eauto 3; intros; simplify_eq/=; split_and?; eauto 3; fail);
    try (assert (forall j, j ∈ ws ∖ {[i]} -> (j < n)%nat) as Hw' by set_solver).
  - split; simpl; try done. intros remaining' [= <-]. rewrite length_app, size_difference, size_singleton by set_solver.
    assert (size ws <> 0%nat) by (rewrite size_non_empty_iff; set_solver). split_and!; try done. simpl. lia.
  - split; simpl; eauto 3; intros; simplify_eq/=; eauto 3.
  - split; simpl; eauto 3; intros; simplify_eq/=; eauto 3.
  - split; simpl; try done. intros err' [= <-]. destruct (Hr _ eq_refl) as (k & Hk & Hd'). exists k. split; [done|].
    intros Hdl. destruct (Hd' Hdl) as [-> ?]. set_solver.
  - rewrite Nat.eqb_neq in *. split; simpl; try done. intros remaining' [= <-]. simpl in *. split_and!; [done..|lia|lia|done].
  - split; simpl; try done. intros err [= <-]. exists n. by rewrite reverse_from_all.
  - split; simpl; try done. intros err [= <-]. by exists (n - index)%nat.
  - split; simpl; try done. intros err [= <-]. exists n. by rewrite reverse_from_all.
Qed.

Lemma execution_wf n acts c : execution n acts c -> wf n c.
Proof. induction 1; eauto using start_wf, step_wf. Qed.

(** Where no case of a [select] is ready. *)
Lemma blocked_waits n c : wf n c -> blocked n c -> waits n c \/ exists err, at_ c = Returned err.
Proof.
  intros Hwf Hb. destruct c as [pd rd dl ws rs sh an re se p]. unfold waits. destruct p; simpl; [left..|eauto].
  - destruct (wf_serving _ _ Hwf _ eq_refl) as (_ & _ & _ & _ & _ & Hn & Hz & _). simpl in *.
    specialize (Hb TakeParent eq_refl) as Hp. specialize (Hb TakeResult eq_refl) as Hq. simpl in *.
    destruct pd; [done|]. destruct rs; [|repeat case_match; done]. split_and!; [done..|].
    destruct (decide (ws = ∅)) as [->|]; [left; apply Hz; rewrite <- Hn; done|by right].
  - specialize (Hb TakeDeadline eq_refl) as Hp. specialize (Hb TakeAnswer eq_refl) as Hq. simpl in *.
    destruct dl; [done|]. by destruct an.
  - specialize (Hb TakeDeadline eq_refl) as Hp. specialize (Hb TakeStopped eq_refl) as Hq. simpl in *.
    destruct dl; [done|]. by case_decide.
Qed.

Lemma errors_join_is a b target : errors_is target b = true ->
  exists e, errors_join a (Some b) = Some e /\ errors_is target e = true.
Proof. intros Hb. destruct a as [a|]; simpl; eexists; split; try done. simpl. by rewrite Hb, orb_true_r. Qed.

(** Once the timer has fired one step returns. *)
Lemma deadline_returns n c : wf n c -> deadline c = true ->
  (exists err, at_ c = Returned err) \/
  exists c' err, step n TakeDeadline c = Some c' /\ at_ c' = Returned (Some err) /\ errors_is ContextDeadlineExceeded err = true.
Proof.
  intros Hwf Hd. destruct c as [pd rd dl ws rs sh an re se p]. simpl in Hd. subst dl.
  destruct (errors_join_is se (ESentinel (SLib ContextDeadlineExceeded)) ContextDeadlineExceeded eq_refl) as (e & He & Hi).
  destruct (errors_join_is re e ContextDeadlineExceeded Hi) as (e' & He' & Hi').
  destruct p; [destruct (wf_serving _ _ Hwf _ eq_refl) as (_ & _ & _ & ? & _); done|right..|left; eauto];
    (eexists _, e'; cbn [step]; split_and!; [done| |done]; cbn [at_]; by rewrite He, He').
Qed.

(** C17: [Run] always comes to an end.  On [n] components its goroutine takes at
    most [2n+2] steps, whatever the components, its context and its timer do.
    It only ever waits for a component that still runs or for its context
    while it serves, and afterwards, for no longer than the shutdown timeout,
    for a [Shutdown] or for the components that have not returned: when the
    timer has fired one more step returns an error that says so. *)
Theorem Run_terminates (n : nat) (acts : list action) (c : config) :
  execution n acts c ->
  (length (filter of_run acts) <= 2 * n + 2)%nat /\
  ((exists err, at_ c = Returned err) \/ waits n c \/ exists a c', of_run a = true /\ step n a c = Some c' /\ (measure n c' < measure n c)%nat) /\
  (deadline c = true -> (exists err, at_ c = Returned err) \/
     exists c' err, step n TakeDeadline c = Some c' /\ at_ c' = Returned (Some err) /\ errors_is ContextDeadlineExceeded err = true).
Proof.
  intros H. pose proof (execution_steps _ _ _ H). pose proof (execution_wf _ _ _ H) as Hwf.
  split_and!; [lia| |by apply deadline_returns].
  destruct (decide (Exists (fun a => is_Some (step n a c)) [TakeParent; TakeResult; TakeAnswer; TakeStopped; TakeDeadline])) as [He|He].
  - apply Exists_exists in He as (a & Ha & c' & Hc'). right; right. exists a, c'.
    assert (of_run a = true) as Ho by (repeat (apply elem_of_cons in Ha as [->|Ha]; [done|]); by apply elem_of_nil in Ha).
    pose proof (step_measure _ _ _ _ Hc') as Hm. rewrite Ho in Hm. split_and!; [done..|lia].
  - destruct (blocked_waits n c Hwf) as [?|?]; [|by right; left|by left].
    intros a Ho. destruct (step n a c) eqn:Ha; [|done]. exfalso. apply He, Exists_exists. exists a. split; [|by eexists].
    destruct a; try done; set_solver.
Qed.

(** *** What is returned *)

Lemma first_error_app l l' : first_error (l ++ l') = match first_error l with Some e => Some e | None => first_error l' end.
Proof. unfold first_error. rewrite omap_app. by destruct (omap id l). Qed.

Lemma joined_snoc l err : joined (l ++ [err]) = errors_join (joined l) (shutdown_error err).
Proof. unfold joined. by rewrite foldl_app. Qed.

Lemma errors_join_None_r e : errors_join e None = e.
Proof. by destruct e. Qed.

(** How the state of [Run] accounts for what the components answered. *)
Record accounts (n : nat) (acts : list action) (c : config) : Prop := {
  ac_parent : parentDone c = true -> ParentCancelled ∈ acts;
  ac_results err : err ∈ results c -> err ∈ worker_results acts;
  ac_runErr e : runErr c = Some e -> Some e ∈ worker_results acts;
  ac_serving remaining : at_ c = Serving remaining -> ParentCancelled ∉ acts -> first_error (worker_results acts) = first_error (results c);
  ac_stopping : stopping c = true -> ParentCancelled ∉ acts ->
    runErr c = first_error (worker_results acts) /\ (runErr c = None -> workers c = ∅);
  ac_answers : joined (shutdown_answers acts) = errors_join (shutdownErr c) (answer c ≫= shutdown_error);
  ac_returned err : at_ c = Returned err -> deadline c = false -> err = errors_join (runErr c) (shutdownErr c) /\ answer c = None;
}.

Lemma worker_results_snoc acts a :
  worker_results (acts ++ [a]) = worker_results acts ++ match returned a with Some err => [err] | None => [] end.
Proof. unfold worker_results. rewrite omap_app. simpl. by destruct (returned a). Qed.

Lemma shutdown_answers_snoc acts a :
  shutdown_answers (acts ++ [a]) = shutdown_answers acts ++ match answered a with Some err => [err] | None => [] end.
Proof. unfold shutdown_answers. rewrite omap_app. simpl. by destruct (answered a). Qed.

(** A step that is neither an answer of a component nor the end of the
    context adds nothing to account for. *)
Lemma accounts_silent n acts a c :
  returned a = None -> answered a = None -> a <> ParentCancelled -> accounts n acts c -> accounts n (acts ++ [a]) c.
Proof.
  intros Hr Ha Hp []. assert (ParentCancelled ∈ acts ++ [a] <-> ParentCancelled ∈ acts) as Hin.
  { rewrite elem_of_app, list_elem_of_singleton. split; [by intros [|]|by left]. }
  split; rewrite ?worker_results_snoc, ?shutdown_answers_snoc, ?Hr, ?Ha, ?app_nil_r, ?Hin; try done; intros; rewrite Hin in *; eauto 3.
Qed.

Lemma close_next_accounts n acts index c :
  (parentDone c = true -> ParentCancelled ∈ acts) -> (forall err, err ∈ results c -> err ∈ worker_results acts) ->
  (forall e, runErr c = Some e -> Some e ∈ worker_results acts) ->
  (ParentCancelled ∉ acts -> runErr c = first_error (worker_results acts) /\ (runErr c = None -> workers c = ∅)) ->
  joined (shutdown_answers acts) = shutdownErr c -> accounts n acts (close_next index c).
Proof. intros ???? Ha. destruct index; split; simpl; try done; by rewrite errors_join_None_r. Qed.

Ltac solve_accounts := split; simpl; intros; simplify_eq/=; eauto 4.

Lemma cancelled_accounts n acts pd rd dl ws rs sh an re se p :
  accounts n acts (mkConfig pd rd dl ws rs sh an re se p) ->
  accounts n (acts ++ [ParentCancelled]) (mkConfig true rd dl ws rs sh an re se p).
Proof.
  intros []. assert (ParentCancelled ∈ acts ++ [ParentCancelled]) by (rewrite elem_of_app; right; by left).
  split; rewrite ?worker_results_snoc, ?shutdown_answers_snoc; simpl in *; rewrite ?app_nil_r; try done; eauto.
Qed.

(** A worker that returns after [Run] has left its loop changes nothing: its
    result is dropped. *)
Lemma worker_accounts n acts i err pd rd dl ws rs sh an re se p :
  i ∈ ws -> accounts n acts (mkConfig pd rd dl ws rs sh an re se p) ->
  accounts n (acts ++ [WorkerReturns i err]) (mkConfig pd rd dl (ws ∖ {[i]}) (rs ++ [err]) sh an re se p).
Proof.
  intros Hi [Hp Hr He Hf Hst Ha Hret].
  assert (ParentCancelled ∈ acts ++ [WorkerReturns i err] <-> ParentCancelled ∈ acts) as Hin.
  { rewrite elem_of_app, list_elem_of_singleton. split; [by intros [|]|by left]. }
  split; rewrite ?worker_results_snoc, ?shutdown_answers_snoc; simpl in *; rewrite ?app_nil_r, ?Hin; try done.
  - intros err'. rewrite !elem_of_app. naive_solver.
  - intros e ->. rewrite elem_of_app. left. by apply He.
  - intros remaining -> Hpc. rewrite Hin in Hpc. by rewrite !first_error_app, (Hf _ eq_refl Hpc).
  - intros Hs Hpc. destruct (Hst Hs Hpc) as [Hre Hw]. rewrite first_error_app, <- Hre.
    destruct re; [done|]. specialize (Hw eq_refl). set_solver.
Qed.

Lemma answer_accounts n acts err pd rd dl ws rs sh re se index :
  accounts n acts (mkConfig pd rd dl ws rs sh None re se (Closing index)) ->
  accounts n (acts ++ [ShutdownReturns err]) (mkConfig pd rd dl ws rs sh (Some err) re se (Closing index)).
Proof.
  intros [Hp Hr He Hf Hst Ha Hret].
  assert (ParentCancelled ∈ acts ++ [ShutdownReturns err] <-> ParentCancelled ∈ acts) as Hin.
  { rewrite elem_of_app, list_elem_of_singleton. split; [by intros [|]|by left]. }
  split; rewrite ?worker_results_snoc, ?shutdown_answers_snoc; simpl in *; rewrite ?app_nil_r, ?Hin; try done.
  - by rewrite joined_snoc, Ha, errors_join_None_r.
Qed.

Lemma unexpected_Some rd err e : unexpected rd err = Some e -> err = Some e.
Proof. unfold unexpected. intros H. repeat case_match; by simplify_eq. Qed.

Lemma unexpected_None err : unexpected false err = None -> err = None.
Proof. unfold unexpected. destruct err as [e|]; [|done]. by rewrite andb_false_r. Qed.

Lemma step_accounts n acts a c c' : wf n c -> accounts n acts c -> step n a c = Some c' -> accounts n (acts ++ [a]) c'.
Proof.
  intros Hwf Hac H.
  assert (returned a = None -> answered a = None -> a <> ParentCancelled -> accounts n (acts ++ [a]) c) as Hsilent
    by (intros; by apply accounts_silent).
  destruct Hwf as [_ Hs Ht _ Hd _]. 
  step_cases c a H; simpl in *;
    try (specialize (Hsilent eq_refl eq_refl ltac:(done)); destruct Hsilent as [Hp Hr He Hf Hst Ha Hret]; simpl in *);
    try (by eauto using cancelled_accounts, worker_accounts, answer_accounts); try (solve_accounts; fail);
    try (destruct (Hs _ eq_refl) as (-> & -> & -> & -> & -> & Hn & Hz & Hrd); unfold stop).
  - apply close_next_accounts; simpl in *; try done. intros Hpc. by destruct (Hpc (Hp eq_refl)).
  - apply unexpected_Some in Heqo0 as ->. apply close_next_accounts; simpl in *; try done.
    + intros err Herr. apply Hr. by right.
    + intros e' [= <-]. apply Hr. by left.
    + intros Hpc. by rewrite (Hf _ eq_refl Hpc).
  - apply close_next_accounts; simpl in *; try done; [intros err Herr; apply Hr; by right|].
    intros Hpc. assert (pd = false) as -> by (destruct pd; [by destruct Hpc; apply Hp|done]).
    assert (rd = false) as -> by (destruct rd; [by specialize (Hrd eq_refl)|done]).
    apply unexpected_None in Heqo0 as ->. rewrite (Hf _ eq_refl Hpc). apply Nat.eqb_eq in Heqb.
    assert (l = []) as -> by (apply nil_length_inv; lia). split; [done|]. intros _. apply leibniz_equiv, size_empty_inv. lia.
  - split; simpl in *; try done; [intros err Herr; apply Hr; by right|].
    intros remaining' [= <-] Hpc. assert (pd = false) as -> by (destruct pd; [by destruct Hpc; apply Hp|done]).
    assert (rd = false) as -> by (destruct rd; [by specialize (Hrd eq_refl)|done]).
    apply unexpected_None in Heqo0 as ->. by rewrite (Hf _ eq_refl Hpc).
  - apply close_next_accounts; simpl in *; try done. by intros; apply Hst.
  - destruct (Hd eq_refl) as [-> ->]. split; simpl in *; try done. by intros err [= <-].
Qed.

Lemma start_accounts n : accounts n [] (start n).
Proof. by split; simpl. Qed.

Lemma execution_accounts n acts c : execution n acts c -> accounts n acts c.
Proof. induction 1; eauto using start_accounts, step_accounts, execution_wf. Qed.

(** C11: components are shut down once each, from the last one to the first,
    and only after [Run] has cancelled their context; the next one waits for
    the answer of the one before.  When [Run] returns before its timer has
    fired, every component was shut down and has returned, and the error is
    that of the first component that failed, unless the caller cancelled
    first, joined with those of the shutdowns, the cancellations apart. *)
Theorem Run_shuts_down (n : nat) (acts : list action) (c : config) :
  execution n acts c ->
  (exists k, shutdowns c = reverse_from n k /\ (shutdowns c <> [] -> runCtxDone c = true)) /\
  (forall err, at_ c = Returned err -> deadline c = false ->
     shutdowns c = reverse (seq 0 n) /\ workers c = ∅ /\
     exists failed, err = errors_join failed (joined (shutdown_answers acts)) /\
       (forall e, failed = Some e -> Some e ∈ worker_results acts) /\
       (ParentCancelled ∉ acts -> failed = first_error (worker_results acts))).
Proof.
  intros H. pose proof (execution_wf _ _ _ H) as [_ Hs Ht Hc Hd Hr]. pose proof (execution_accounts _ _ _ H) as [_ _ He _ Hst Ha Hret].
  split.
  - destruct (at_ c) as [remaining|index| |err] eqn:Hat.
    + exists 0%nat. destruct (Hs _ eq_refl) as [-> _]. done.
    + destruct (Hc _ eq_refl) as [_ ->]. exists (n - index)%nat. split; [done|]. intros _. apply Ht. unfold stopping. by rewrite Hat.
    + destruct (Hd eq_refl) as [-> _]. exists n. rewrite reverse_from_all. split; [done|]. intros _. apply Ht. unfold stopping. by rewrite Hat.
    + destruct (Hr _ eq_refl) as (k & -> & _). exists k. split; [done|]. intros _. apply Ht. unfold stopping. by rewrite Hat.
  - intros err Hat Hdl. destruct (Hr _ Hat) as (_ & _ & Hfin). destruct (Hfin Hdl) as [-> ->]. split_and!; [done..|].
    destruct (Hret _ Hat Hdl) as [-> Han]. rewrite Ha, Han, errors_join_None_r. exists (runErr c). split_and!; [done..|].
    intros Hpc. apply Hst; [|done]. unfold stopping. by rewrite Hat.
Qed.

(** Two components: the first one fails, both are shut down, and [Run] returns
    its error; with a third that never returns the timer ends the wait. *)
Definition failing : list action :=
  [WorkerReturns 0 (Some (EText "boom")); TakeResult; ShutdownReturns None; TakeAnswer;
   WorkerReturns 1 (Some (ESentinel (SLib ContextCanceled))); ShutdownReturns (Some (EText "flush")); TakeAnswer].

Lemma Run_terminates_witness :
  match run 2 (failing ++ [TimeoutFires]) with Some c =>
    deadline c = true /\
    ((exists err, at_ c = Returned err) \/
     exists c' err, step 2 TakeDeadline c = Some c' /\ at_ c' = Returned (Some err) /\ errors_is ContextDeadlineExceeded err = true)
  | None => False end.
Proof.
  destruct (run 2 (failing ++ [TimeoutFires])) as [c|] eqn:E; [|by vm_compute in E].
  pose proof (Run_terminates 2 _ c (run_execution _ _ _ E)) as (_ & _ & H).
  assert (deadline c = true) as Hd by (vm_compute in E; by simplify_eq). split; [done|by apply H].
Defined.

Lemma Run_shuts_down_witness :
  match run 2 (failing ++ [TakeStopped]) with Some c =>
    at_ c = Returned (Some (EJoin (EText "boom") (EText "flush"))) /\ shutdowns c = [1; 0]%nat /\ workers c = ∅
  | None => False end.
Proof.
  destruct (run 2 (failing ++ [TakeStopped])) as [c|] eqn:E; [|by vm_compute in E].
  pose proof (Run_shuts_down 2 _ c (run_execution _ _ _ E)) as (_ & H).
  assert (at_ c = Returned (Some (EJoin (EText "boom") (EText "flush"))) /\ deadline c = false) as [Hat Hd]
    by (vm_compute in E; by simplify_eq).
  destruct (H _ Hat Hd) as (Hs & Hw & _). split_and!; [done|by rewrite Hs|done].
Defined.

(** An error a component returns once the caller has cancelled is dropped. *)
Example late_error_dropped :
  at_ <$> run 1 [ParentCancelled; TakeParent; WorkerReturns 0 (Some (EText "flush failed")); ShutdownReturns None; TakeAnswer; TakeStopped]
  = Some (Returned None).
Proof. reflexivity. Qed.
End Run.

(** ** Stacks of resources *)
Module Stack.
Section Stack.
Context {W : Type}.

(** A value of an interface with a method [Close]: nil, an interface around a
    nil pointer or function, or a live closer.
    @src pkg/lifecycle/lifecycle.go:103-114 nilInterface *)
Inductive Closer := NilInterface | TypedNil | Closes (close : M W unit).
Definition nilInterface (closer : Closer) : bool := match closer with Closes _ => false | _ => true end.

(** Calling [Close] on a closer: a nil function of the type of
    [internal/app] panics, as a nil interface does. *)
Definition call_Close (closer : Closer) : M W unit := match closer with Closes close => close | _ => panic end.

(** @src pkg/lifecycle/lifecycle.go:122-131 CloserFunc *)
Definition CloserFunc_Close (closer : option (M W unit)) : M W unit := match closer with None => mret tt | Some f => f end.

(** @src pkg/lifecycle/lifecycle.go:134-138 Stack *)
Record Stack := mkStack { closers : list Closer; closed : bool }.

(** @src pkg/lifecycle/lifecycle.go:141-141 NewStack *)
Definition NewStack : Stack := mkStack [] false.

(** A nil stack stays one.
    @src pkg/lifecycle/lifecycle.go:144-153 Add *)
Definition Add (closer : Closer) (stack : option Stack) : option Stack :=
  match stack with
  | None => None
  | Some s => if nilInterface closer then Some s else if closed s then Some s else Some (mkStack (closers s ++ [closer]) false)
  end.

(** The loop over the closers, the last one first; a panic leaves the others
    open.
    @src pkg/lifecycle/lifecycle.go:172-176 (Close) loop *)
Fixpoint close_each (result : option error) (cs : list Closer) : M W unit :=
  match cs with
  | [] => of_option_error result
  | c :: cs => fun w =>
      match call_Close c w with
      | (Panic, w) => (Panic, w)
      | (Ok tt, w) => close_each (errors_join result None) cs w
      | (Err e, w) => close_each (errors_join result (Some e)) cs w
      end
  end.

(** Under the mutex [Close] only takes the closers; it releases them after.
    @src pkg/lifecycle/lifecycle.go:156-177 Close *)
Definition Close (stack : option Stack) : option Stack * M W unit :=
  match stack with
  | None => (None, mret tt)
  | Some s => if closed s then (Some s, mret tt) else (Some (mkStack (closers s) true), close_each None (reverse (closers s)))
  end.

(** The copy in [internal/app] only refuses nil interfaces.
    @src internal/app/stack.go:43-52 Add *)
Definition app_Add (closer : Closer) (s : Stack) : Stack :=
  match closer with NilInterface => s | _ => if closed s then s else mkStack (closers s ++ [closer]) false end.

(** @src internal/app/stack.go:53-67 Close *)
Definition app_Close (s : Stack) : Stack * M W unit :=
  if closed s then (s, mret tt) else (mkStack (closers s) true, close_each None (reverse (closers s))).

(** @src internal/app/stack.go:22-33 BuildResources *)
Fixpoint BuildResources (stack : Stack) (factories : list (M W Closer)) : M W Stack :=
  match factories with
  | [] => mret stack
  | factory :: factories => fun w =>
      match factory w with
      | (Panic, w) => (Panic, w)
      | (Err err, w) => (_ ← ignore (app_Close stack).2; throw err) w
      | (Ok resource, w) => BuildResources (app_Add resource stack) factories w
      end
  end.

(** @src internal/app/stack.go:37-42 closeBuildResources *)
Definition closeBuildResources (stack : option Stack) (buildErr : error) : M W unit :=
  match stack with
  | None => throw buildErr
  | Some s => fun w =>
      match (app_Close s).2 w with
      | (Panic, w) => (Panic, w)
      | (Ok tt, w) => (Err buildErr, w)
      | (Err e, w) => (Err (EJoin buildErr e), w)
      end
  end.

(** *** The life of a stack *)
Inductive op := OpAdd (closer : Closer) | OpClose.
Definition is_close (o : op) : bool := match o with OpClose => true | _ => false end.

(** A history of calls, with the results of the calls of [Close]. *)
Fixpoint history (ops : list op) (s : option Stack) (w : W) : list (res unit) * (option Stack * W) :=
  match ops with
  | [] => ([], (s, w))
  | OpAdd c :: ops => history ops (Add c s) w
  | OpClose :: ops =>
      let '(s, close) := Close s in let '(r, w) := close w in
      let '(rs, out) := history ops s w in (r :: rs, out)
  end.

Definition live (ops : list op) : list Closer :=
  omap (fun o => match o with OpAdd c => if nilInterface c then None else Some c | OpClose => None end) ops.

(** Closing a list of closers: each one runs once, on the world the one before
    left, and returned [errs]. *)
Inductive released : list Closer -> W -> list (option error) -> W -> Prop :=
  | released_nil w : released [] w [] w
  | released_ok close cs w w1 errs w2 :
      close w = (Ok tt, w1) -> released cs w1 errs w2 -> released (Closes close :: cs) w (None :: errs) w2
  | released_err close cs w e w1 errs w2 :
      close w = (Err e, w1) -> released cs w1 errs w2 -> released (Closes close :: cs) w (Some e :: errs) w2.

Definition result_of (err : option error) : res unit := match err with None => Ok tt | Some e => Err e end.

Lemma close_each_released cs w errs w' result :
  released cs w errs w' -> close_each result cs w = (result_of (foldl errors_join result errs), w').
Proof.
  intros H. revert result. induction H as [w|close cs w w1 errs w2 E _ IH|close cs w e w1 errs w2 E _ IH]; intros result; simpl.
  - by destruct result.
  - by rewrite E, IH.
  - by rewrite E, IH.
Qed.

(** A closer that does not panic, whatever the world. *)
Definition closes_safely (c : Closer) : Prop := exists close, c = Closes close /\ forall w, (close w).1 <> Panic.

Lemma safely_released cs w : Forall closes_safely cs -> exists errs w', released cs w errs w' /\ length errs = length cs.
Proof.
  intros H. revert w. induction H as [|c cs (close & -> & Hc) _ IH]; intros w; [by eexists [], w; split; [constructor|]|].
  specialize (Hc w). destruct (close w) as [[[]|e|] w1] eqn:E; simpl in Hc; [| |done];
    destruct (IH w1) as (errs & w' & Hr & Hl); eexists (_ :: errs), w'; (split; [by econstructor|simpl; congruence]).
Qed.

Lemma history_closed ops cs w :
  history ops (Some (mkStack cs true)) w = (replicate (length (List.filter is_close ops)) (Ok tt), (Some (mkStack cs true), w)).
Proof.
  revert w. induction ops as [|[c|] ops IH]; intros w; [done|..].
  - simpl. destruct (nilInterface c); apply IH.
  - simpl. by rewrite IH.
Qed.

Lemma history_adds before after cs w :
  existsb is_close before = false ->
  history (before ++ after) (Some (mkStack cs false)) w = history after (Some (mkStack (cs ++ live before) false)) w.
Proof.
  revert cs. induction before as [|[c|] before IH]; intros cs Hb; simpl in *; [by rewrite app_nil_r| |done].
  unfold live. simpl. destruct (nilInterface c); simpl; rewrite IH by done; [done|]. by rewrite <- app_assoc.
Qed.

(** Resources are released exactly once, the last one acquired first.
    Whatever is added before and after, and however often a stack is closed,
    the first [Close] runs every closer that was added before it once, in
    reverse order, an error of one not keeping the others open, and returns
    their errors joined; nothing that follows runs a closer, and later calls
    of [Close] return nil. *)
Theorem Stack_closes_once (before after : list op) (w : W) :
  existsb is_close before = false -> Forall closes_safely (live before) ->
  exists errs w' s, released (reverse (live before)) w errs w' /\
    history (before ++ OpClose :: after) (Some NewStack) w =
      (result_of (foldl errors_join None errs) :: replicate (length (List.filter is_close after)) (Ok tt), (s, w')).
Proof.
  intros Hb Hs. destruct (safely_released (reverse (live before)) w) as (errs & w' & Hr & _); [by apply Forall_reverse|].
  exists errs, w', (Some (mkStack (live before) true)). split; [done|].
  unfold NewStack. rewrite history_adds by done. simpl. rewrite (close_each_released _ _ _ _ _ Hr). by rewrite history_closed.
Qed.

(** Running the factories one after the other up to a state. *)
Inductive acquired : list (M W Closer) -> W -> list Closer -> W -> Prop :=
  | acquired_nil w : acquired [] w [] w
  | acquired_cons factory factories w c w1 cs w2 :
      factory w = (Ok c, w1) -> acquired factories w1 cs w2 -> acquired (factory :: factories) w (c :: cs) w2.

Definition kept (c : Closer) : bool := match c with NilInterface => false | _ => true end.

Lemma BuildResources_acquired good rest w cs w1 old :
  acquired good w cs w1 ->
  BuildResources (mkStack old false) (good ++ rest) w = BuildResources (mkStack (old ++ List.filter kept cs) false) rest w1.
Proof.
  intros H. revert old. induction H as [w|factory factories w c w1 cs w2 E _ IH]; intros old; simpl; [by rewrite app_nil_r|].
  rewrite E. unfold app_Add. destruct c; simpl; rewrite IH; [done|by rewrite <- app_assoc..].
Qed.

(** Nothing leaks when a build fails.  When a factory fails, the resources
    of the factories before it are closed, once each and the last one first,
    the factories after it do not run, and the error is that of the factory,
    whatever closing said; when none fails the stack holds every resource in
    order. *)
Theorem BuildResources_releases (good rest : list (M W Closer)) (w w1 : W) (cs : list Closer) :
  acquired good w cs w1 ->
  BuildResources NewStack good w = (Ok (mkStack (List.filter kept cs) false), w1) /\
  (forall bad e w2, bad w1 = (Err e, w2) -> Forall closes_safely (List.filter kept cs) ->
     exists errs w3, released (reverse (List.filter kept cs)) w2 errs w3 /\ BuildResources NewStack (good ++ bad :: rest) w = (Err e, w3)).
Proof.
  intros H. unfold NewStack. split; [by rewrite <- (app_nil_r good), (BuildResources_acquired _ _ _ _ _ _ H)|].
  intros bad e w2 E Hs. destruct (safely_released (reverse (List.filter kept cs)) w2) as (errs & w3 & Hr & _); [by apply Forall_reverse|].
  exists errs, w3. split; [done|]. rewrite (BuildResources_acquired _ _ _ _ _ _ H). simpl. rewrite E.
  unfold app_Close. simpl. rewrite M_bind_run. unfold ignore. rewrite (close_each_released _ _ _ _ _ Hr).
  by destruct (foldl _ _ _).
Qed.
End Stack.
Arguments Closer : clear implicits.
Arguments Stack : clear implicits.
Arguments op : clear implicits.

(** Closers that write their name. *)
Module Example.
Definition named (name : string) (err : option error) : Closer (list string) := Closes (fun w => (result_of err, w ++ [name])).
Definition pool := named "pool" None.
Definition client := named "client" (Some (EText "busy")).
Definition server := named "server" None.

Lemma named_safely name err : closes_safely (named name err).
Proof. eexists. split; [done|]. intros w. by destruct err. Qed.

Lemma Stack_closes_once_witness :
  history [OpAdd pool; OpAdd TypedNil; OpAdd client; OpAdd server; OpClose; OpAdd pool; OpClose] (Some NewStack) [] =
    ([Err (EText "busy"); Ok tt], (Some (mkStack [pool; client; server] true), ["server"; "client"; "pool"])) /\
  exists errs w' s, released [server; client; pool] [] errs w' /\
    history [OpAdd pool; OpAdd TypedNil; OpAdd client; OpAdd server; OpClose; OpAdd pool; OpClose] (Some NewStack) [] =
      ([result_of (foldl errors_join None errs); Ok tt], (s, w')).
Proof.
  split; [reflexivity|].
  apply (Stack_closes_once [OpAdd pool; OpAdd TypedNil; OpAdd client; OpAdd server] [OpAdd pool; OpClose] []); [done|].
  repeat (apply Forall_cons; split; [apply named_safely|]). constructor.
Defined.

Definition open_ (c : Closer (list string)) (name : string) : M (list string) (Closer (list string)) := fun w => (Ok c, w ++ [name]).

Lemma BuildResources_releases_witness :
  exists errs w3, released [client; pool] ["open"; "connect"] errs w3 /\
    BuildResources NewStack ([open_ pool "open"; open_ client "connect"] ++ throw (EText "no key") :: [open_ server "listen"]) [] = (Err (EText "no key"), w3).
Proof.
  pose proof (BuildResources_releases [open_ pool "open"; open_ client "connect"] [open_ server "listen"] []
    ["open"; "connect"] [pool; client]) as H.
  destruct H as [_ H]; [by repeat econstructor|]. apply (H (throw (EText "no key"))); [done|].
  repeat (apply Forall_cons; split; [apply named_safely|]). constructor.
Defined.
End Example.
End Stack.
