(* ===== verification/Pool.v ===== *)
(** * The PostgreSQL pool ([pkg/postgres/postgres.go])

    Opening the pool with its settings and probing it.  The driver and the
    parser of URLs are parameters. *)
From S2P Require Import Prelude GoStrings.

(** @src pkg/postgres/postgres.go:16-29 Config *)
Record Config := mkConfig {
  URL : string; MinConns : Z; MaxConns : Z; MaxConnLifetime : Z; MaxConnIdleTime : Z; HealthCheckPeriod : Z }.

(** The scheme of a URL, when it parses. *)
Class SchemeParser := url_scheme : string -> option string.

(** @src pkg/postgres/postgres.go:32-53 Validate *)
Definition Validate `{SchemeParser} (c : Config) : option error :=
  if is_empty (URL c) then Some (EText "database URL is required")
  else if bool_decide (url_scheme (URL c) ∉ [Some "postgres"; Some "postgresql"])
  then Some (EText "database URL must use postgres or postgresql scheme")
  else if MinConns c <? 0 then Some (EText "database MinConns must not be negative")
  else if MaxConns c <=? 0 then Some (EText "database MaxConns must be positive")
  else if MaxConns c <? MinConns c then Some (EText "database MinConns must not exceed MaxConns")
  else if (MaxConnLifetime c <? 0) || (MaxConnIdleTime c <? 0) || (HealthCheckPeriod c <? 0)
  then Some (EText "database durations must not be negative") else None.

(** The settings of the driver the code sets. *)
Record PoolConfig := mkPoolConfig {
  pc_MinConns : Z; pc_MaxConns : Z; pc_MaxConnLifetime : Z; pc_MaxConnIdleTime : Z; pc_HealthCheckPeriod : Z }.

(** The driver: parsing, creating a pool, probing and closing it. *)
Class Driver (W P : Type) := {
  drv_ParseConfig : string -> res PoolConfig;
  drv_NewWithConfig : PoolConfig -> M W P;
  drv_Ping : P -> M W unit;
  drv_Close : P -> M W unit;
}.

(** A zero duration keeps the default of the driver. *)
Definition override (value default : Z) : Z := if 0 <? value then value else default.

(** @src pkg/postgres/postgres.go:56-85 Open *)
Definition Open {W P} `{Driver W P, SchemeParser} (cfg : Config) : M W P :=
  match Validate cfg with
  | Some err => throw err
  | None =>
      d ← wrap "parse database configuration" (of_res (drv_ParseConfig (URL cfg)));
      pool ← wrap "create database pool" (drv_NewWithConfig
        (mkPoolConfig (MinConns cfg) (MaxConns cfg) (override (MaxConnLifetime cfg) (pc_MaxConnLifetime d))
           (override (MaxConnIdleTime cfg) (pc_MaxConnIdleTime d)) (override (HealthCheckPeriod cfg) (pc_HealthCheckPeriod d))));
      r ← try (drv_Ping pool);
      match r with
      | Err err => _ ← drv_Close pool; throw (EWrap "ping database" err)
      | _ => mret pool
      end
  end.

(** [None] stands for a nil pinger.
    @src pkg/postgres/postgres.go:94-102 Health *)
Definition Health {W} (pinger : option (M W unit)) : M W unit :=
  match pinger with
  | None => throw (EText "database pinger is nil")
  | Some ping => wrap "database health check" ping
  end.
