(* ===== verification/Cache.v ===== *)
(** * The Redis cache client ([pkg/platform/cache])

    The client with its keys, and the TLS settings of Redis.  The driver, the
    files and the certificates are parameters.  Every key of [KeyBuilder] splits
    back into the namespace, the environment and the segments it was built
    from. *)
From S2P Require Import Prelude GoStrings.

(** @src pkg/platform/cache/cache.go:13-21 Config *)
Record Config := mkConfig {
  Addr : string; Username : string; Password : string; DB : Z; DialTimeout : Z; ReadTimeout : Z; WriteTimeout : Z }.

(** @src pkg/platform/cache/cache.go:23-40 Validate *)
Definition Validate (c : Config) : option error :=
  if is_empty (TrimSpace (Addr c)) then Some (EText "redis Addr is required")
  else if DB c <? 0 then Some (EText "redis DB must not be negative")
  else if DialTimeout c <? 0 then Some (EText "redis DialTimeout must not be negative")
  else if ReadTimeout c <? 0 then Some (EText "redis ReadTimeout must not be negative")
  else if WriteTimeout c <? 0 then Some (EText "redis WriteTimeout must not be negative") else None.

(** The client of the driver. *)
Record RedisClient (W : Type) := mkRedisClient {
  rc_Ping : M W unit; rc_Close : M W unit; rc_Set : string -> string -> Z -> M W unit; rc_Get : string -> M W string;
  rc_TTL : string -> M W Z; rc_Del : list string -> M W Z }.
Arguments mkRedisClient {W}. Arguments rc_Ping {W}. Arguments rc_Close {W}. Arguments rc_Set {W}. Arguments rc_Get {W}.
Arguments rc_TTL {W}. Arguments rc_Del {W}.

Section Client.
Context {W : Type}.
(** [None] stands for a nil client.
    @src pkg/platform/cache/cache.go:42-44 Client *)
Definition Client : Type := option (RedisClient W).

(** @src pkg/platform/cache/cache.go:74-82 Health *)
Definition Health (c : Client) : M W unit :=
  match c with None => throw (EText "redis client is nil") | Some c => wrap "redis health check" (rc_Ping c) end.

(** @src pkg/platform/cache/cache.go:46-65 Open *)
Definition Open (NewClient : Config -> RedisClient W) (cfg : Config) : M W Client :=
  match Validate cfg with
  | Some err => throw err
  | None =>
      let rdb := NewClient cfg in
      r ← try (Health (Some rdb));
      match r with Err err => _ ← ignore (rc_Close rdb); throw err | _ => mret (Some rdb) end
  end.

(** @src pkg/platform/cache/cache.go:67-72 Close *)
Definition Close (c : Client) : M W unit := match c with None => mret tt | Some c => rc_Close c end.

(** @src pkg/platform/cache/cache.go:118-123 ValidateTTL *)
Definition ValidateTTL (ttl : Z) : option error := if ttl <=? 0 then Some (EText "redis TTL must be positive") else None.

(** @src pkg/platform/cache/cache.go:84-92 Set *)
Definition Set_ (c : RedisClient W) (key value : string) (ttl : Z) : M W unit :=
  match ValidateTTL ttl with Some err => throw err | None => wrap "set redis key" (rc_Set c key value ttl) end.

(** @src pkg/platform/cache/cache.go:94-100 Get *)
Definition Get (c : RedisClient W) (key : string) : M W string := wrap "get redis key" (rc_Get c key).

(** @src pkg/platform/cache/cache.go:102-108 TTL *)
Definition TTL (c : RedisClient W) (key : string) : M W Z := wrap "get redis key TTL" (rc_TTL c key).

(** @src pkg/platform/cache/cache.go:110-116 Delete *)
Definition Delete (c : RedisClient W) (keys : list string) : M W Z := wrap "delete redis keys" (rc_Del c keys).
End Client.

(** *** Keys *)

(** @src pkg/platform/cache/cache.go:154-159 validateSegment *)
Definition validateSegment (segment : string) : option error :=
  if is_empty segment || negb (String.eqb (TrimSpace segment) segment) || existsb (fun a => code a =? 58) (bytes segment)
  then Some (EText ("unsafe key segment " +:+ segment)) else None.

(** @src pkg/platform/cache/cache.go:125-127 KeyBuilder *)
Record KeyBuilder := mkKeyBuilder { prefix : string }.

(** @src pkg/platform/cache/cache.go:129-137 NewKeyBuilder *)
Definition NewKeyBuilder (namespace environment : string) : res KeyBuilder :=
  match validateSegment namespace, validateSegment environment with
  | Some err, _ => Err (EWrap "namespace" err)
  | None, Some err => Err (EWrap "environment" err)
  | None, None => Ok (mkKeyBuilder (namespace +:+ ":" +:+ environment))
  end.

(** [strings.Join(segments, ":")] *)
Fixpoint join (segments : list string) : string :=
  match segments with
  | [] => ""
  | [s] => s
  | s :: rest => s +:+ ":" +:+ join rest
  end.

Fixpoint first_unsafe (segments : list string) : option error :=
  match segments with
  | [] => None
  | s :: rest => match validateSegment s with Some err => Some err | None => first_unsafe rest end
  end.

(** @src pkg/platform/cache/cache.go:139-152 Build *)
Definition Build (b : KeyBuilder) (segments : list string) : res string :=
  if is_empty (prefix b) then Err (EText "key builder is not initialized")
  else match segments with
  | [] => Err (EText "at least one key segment is required")
  | _ => match first_unsafe segments with
         | Some err => Err err
         | None => Ok (prefix b +:+ ":" +:+ join segments)
         end
  end.

Definition colon : ascii := of_code 58.

Lemma segment_safe s : validateSegment s = None -> Forall (fun a => a <> colon) (bytes s).
Proof.
  unfold validateSegment. intros H. destruct (_ || _) eqn:E; [done|]. apply orb_false_iff in E as [_ E].
  apply Forall_forall. intros a Ha ->.
  assert (existsb (fun a => code a =? 58) (bytes s) = true) as Ht; [|congruence].
  apply existsb_exists. exists colon. split; [by apply list_elem_of_In|done].
Qed.

Lemma validateSegment_spec s :
  validateSegment s = None <-> s <> "" /\ TrimSpace s = s /\ Forall (fun a => a <> colon) (bytes s).
Proof.
  split.
  - intros H. split_and!; [..|by apply segment_safe]; unfold validateSegment in H.
    + by intros ->.
    + destruct (is_empty s); [done|]. by destruct (String.eqb_spec (TrimSpace s) s).
  - intros (Hne & Ht & Hc). unfold validateSegment. rewrite (proj2 (is_empty_false s) Hne), Ht, String.eqb_refl. simpl.
    destruct (existsb _ _) eqn:E; [|done]. apply existsb_exists in E as (a & Ha & Hcode). apply Z.eqb_eq in Hcode.
    rewrite Forall_forall in Hc. destruct (Hc a); [by apply list_elem_of_In|]. unfold colon. rewrite <- Hcode. symmetry. apply of_code_code.
Qed.

Lemma split_join segments : segments <> [] -> Forall (fun s => Forall (fun a => a <> colon) (bytes s)) segments ->
  Split (join segments) colon = segments.
Proof.
  intros Hne Hs. unfold Split. induction Hs as [|s rest Hsafe Hrest IH]; [done|]. destruct rest as [|s' rest].
  - simpl. rewrite split_on_no_sep by done. simpl. by rewrite of_bytes_bytes.
  - cbn [join]. rewrite !bytes_app. change (bytes ":") with [colon]. simpl ([colon] ++ _). rewrite split_on_app by done.
    cbn [map]. rewrite of_bytes_bytes. f_equal. by apply IH.
Qed.
Lemma NewKeyBuilder_Ok namespace environment b : NewKeyBuilder namespace environment = Ok b ->
  validateSegment namespace = None /\ validateSegment environment = None /\ b = mkKeyBuilder (join [namespace; environment]).
Proof. unfold NewKeyBuilder. intros H. repeat case_match; by simplify_eq. Qed.

Lemma first_unsafe_None segments : first_unsafe segments = None <-> Forall (fun s => validateSegment s = None) segments.
Proof.
  induction segments as [|s rest IH]; [by split|]. rewrite Forall_cons. simpl.
  destruct (validateSegment s); naive_solver.
Qed.

Lemma safe_not_empty s : validateSegment s = None -> is_empty s = false.
Proof. unfold validateSegment. by destruct (is_empty s). Qed.

(** A builder joins everything; it fails on no segment and on an unsafe one. *)
Lemma Build_spec namespace environment b segments : NewKeyBuilder namespace environment = Ok b ->
  Build b segments =
    match segments with
    | [] => Err (EText "at least one key segment is required")
    | _ => match first_unsafe segments with Some err => Err err | None => Ok (join (namespace :: environment :: segments)) end
    end.
Proof.
  intros (Hn & _ & ->)%NewKeyBuilder_Ok. unfold Build. cbn [prefix].
  assert (is_empty (join [namespace; environment]) = false) as ->.
  { apply safe_not_empty in Hn. by destruct namespace. }
  destruct segments as [|s rest]; [done|]. destruct (first_unsafe _); [done|]. f_equal.
  cbn [join]. by rewrite !string_app_assoc.
Qed.

Lemma Build_Split namespace environment b segments key : NewKeyBuilder namespace environment = Ok b ->
  Build b segments = Ok key -> Split key colon = namespace :: environment :: segments.
Proof.
  intros Hb. rewrite (Build_spec _ _ _ _ Hb). apply NewKeyBuilder_Ok in Hb as (Hn & He & _).
  intros H. destruct segments as [|s rest]; [done|]. destruct (first_unsafe _) eqn:E; [done|]. injection H as <-.
  apply first_unsafe_None in E. apply (split_join (namespace :: environment :: s :: rest)); [done|]. apply (Forall_impl (fun s => validateSegment s = None)); [|exact segment_safe].
  by do 2 (apply Forall_cons; split; [done|]).
Qed.

(** C39: cache keys round-trip.  A key a builder makes splits at its colons into
    the namespace, the environment and the segments it was built from, so two
    builders never make the same key for different ones; and a builder makes a
    key exactly when there is at least one segment and each is non-empty, has
    no space around it and no colon in it. *)
Theorem keys_roundtrip (namespace environment : string) (b : KeyBuilder) (segments : list string) :
  NewKeyBuilder namespace environment = Ok b ->
  (forall key, Build b segments = Ok key -> Split key colon = namespace :: environment :: segments) /\
  (forall key namespace' environment' b' segments', NewKeyBuilder namespace' environment' = Ok b' ->
     Build b segments = Ok key -> Build b' segments' = Ok key ->
     namespace' = namespace /\ environment' = environment /\ segments' = segments) /\
  (is_ok (Build b segments) = true <->
     segments <> [] /\ Forall (fun s => s <> "" /\ TrimSpace s = s /\ Forall (fun a => a <> colon) (bytes s)) segments).
Proof.
  intros Hb. split_and!.
  - intros key. by apply Build_Split.
  - intros key namespace' environment' b' segments' Hb' Hk Hk'.
    pose proof (Build_Split _ _ _ _ _ Hb Hk) as E. rewrite (Build_Split _ _ _ _ _ Hb' Hk') in E. by simplify_eq.
  - rewrite (Build_spec _ _ _ _ Hb). assert (is_ok match segments with [] => Err (EText "at least one key segment is required")
      | _ => match first_unsafe segments with Some err => Err err | None => Ok (join (namespace :: environment :: segments)) end end = true
      <-> segments <> [] /\ first_unsafe segments = None) as ->.
    { destruct segments as [|s rest]; [naive_solver|]. destruct (first_unsafe _); naive_solver. }
    rewrite first_unsafe_None. f_equiv. apply Forall_proper; [|done]. intros s. apply validateSegment_spec.
Qed.

Lemma keys_roundtrip_witness :
  exists b, NewKeyBuilder "app" "prod" = Ok b /\ Build b ["user"; "42"] = Ok "app:prod:user:42" /\
    Split "app:prod:user:42" colon = ["app"; "prod"; "user"; "42"].
Proof.
  destruct (NewKeyBuilder "app" "prod") as [b| |] eqn:E; [|by vm_compute in E..].
  assert (Build b ["user"; "42"] = Ok "app:prod:user:42") as Hk by (vm_compute in E; simplify_eq; vm_compute; reflexivity).
  exists b. split; [done|]. split; [exact Hk|]. by apply (proj1 (keys_roundtrip _ _ _ ["user"; "42"] E)).
Defined.

(** ** TLS settings of Redis *)
Module Tls.
(** The certificate pools of [crypto/x509] and the files. *)
Class Certificates (W Pool : Type) := {
  os_ReadFile : string -> M W string;
  SystemCertPool : M W (option Pool);
  NewCertPool : Pool;
  AppendCertsFromPEM : Pool -> string -> option Pool;
}.

(** [MinVersion] as the numbers of [crypto/tls]. *)
Record TLSConfig (Pool : Type) := mkTLSConfig { MinVersion : Z; ServerName : string; RootCAs : option Pool }.
Arguments mkTLSConfig {Pool}. Arguments RootCAs {Pool}.
Definition VersionTLS12 : Z := 0x0303.

(** @src pkg/platform/cache/tls.go:10-34 NewTLSConfig *)
Definition NewTLSConfig {W Pool} `{Certificates W Pool} (enabled : bool) (serverName caFile : string) : M W (option (TLSConfig Pool)) :=
  if negb enabled then mret None
  else if is_empty caFile then mret (Some (mkTLSConfig VersionTLS12 serverName None))
  else
    encoded ← wrap "read Redis TLS CA" (os_ReadFile caFile);
    r ← try SystemCertPool;
    let roots := match r with Ok (Some roots) => roots | _ => NewCertPool end in
    match AppendCertsFromPEM roots encoded with
    | None => throw (EText "redis TLS CA file contains no certificates")
    | Some roots => mret (Some (mkTLSConfig VersionTLS12 serverName (Some roots)))
    end.
End Tls.
