(* ===== verification/Postgres.v ===== *)
(** * PostgreSQL and transactions ([pkg/postgres/postgres.go])

    The server and the driver are parameters: [Pg W D] gives the operations
    that run a statement and begin, commit or roll back a transaction on a
    world [W] whose tables are a [D], and [PgLaws] what their documentation
    promises.  The statements themselves, whose SQL text is in the
    repository, are functions of type [stmt D A], written in the files of the
    stores.  [RunInTx] is translated on top of this interface.

    [Conn] is a concrete implementation with injected faults; the witnesses of
    the whole development run on it. *)
From S2P Require Import Prelude GoStrings.

(** What a statement reads besides the tables: the transaction's time, which
    [NOW()] returns, and the value [gen_random_uuid()] draws. *)
Record PgEnv := mkPgEnv { pg_NOW : Z; pg_gen_random_uuid : string }.

Definition uuid_ok (u : string) : Prop := String.length u = 16%nat.
Definition env_ok (env : PgEnv) : Prop := uuid_ok (pg_gen_random_uuid env).

(** A statement either changes the tables and returns a value, or fails and
    leaves them; it never panics. *)
Definition stmt (D A : Type) : Type := PgEnv -> D -> res (A * D).

(** A [timestamptz] column holds microseconds. *)
Definition timestamptz (t : Z) : Z := t / 1000 * 1000.

(** The SQLSTATE codes the code distinguishes or the schema can raise. *)
Definition unique_violation : error := EPg "23505".
Definition foreign_key_violation : error := EPg "23503".
Definition check_violation : error := EPg "23514".
Definition not_null_violation : error := EPg "23502".
Definition numeric_out_of_range : error := EPg "22003".
Definition invalid_text_representation : error := EPg "22P02".
Definition invalid_limit : error := EPg "2201W".
Definition invalid_offset : error := EPg "2201X".
Definition in_failed_transaction : error := EPg "25P02".

(** [btrim(x) <> ''] *)
Definition not_blank (s : string) : bool :=
  negb (forallb (fun a => code a =? 32) (bytes s)).

(** The input conversion of a [jsonb] column: [None] for a text that is not
    JSON, and otherwise the text the server gives back. *)
Class Jsonb := jsonb_in : string -> option string.

(** The order of the database's collation on text. *)
Class Collation := collate_leb : string -> string -> bool.

(** [LIMIT] and [OFFSET] reject negative counts. *)
Definition limit_offset {A} (limit offset : Z) (rows : list A) : res (list A) :=
  if limit <? 0 then Err invalid_limit
  else if offset <? 0 then Err invalid_offset
  else Ok (take (Z.to_nat limit) (drop (Z.to_nat offset) rows)).

(** [WHERE] and [ORDER BY] on a table keyed by its primary key. *)
Definition rows {A} (table : gmap string A) : list A := (map_to_list table).*2.
Definition where_ {A} (f : A -> bool) (l : list A) : list A := List.filter f l.
Definition order_by {A} (leb : A -> A -> bool) (l : list A) : list A :=
  merge_sort (fun x y => Is_true (leb x y)) l.
(** A comparison by a first key, ties broken by a second. *)
Definition then_by {A} (cmp1 : A -> A -> comparison) (leb2 : A -> A -> bool) (x y : A) : bool :=
  match cmp1 x y with Lt => true | Gt => false | Eq => leb2 x y end.
(** [COALESCE(x, y)] *)
Definition coalesce {A} (x y : option A) : option A :=
  match x with Some _ => x | None => y end.

Class Pg (W D : Type) := {
  pg_tables : W -> D;
  (** the tables when the open transaction began *)
  pg_saved : W -> option D;
  (** the server answers, and has no reason of its own to refuse a statement *)
  pg_up : W -> Prop;
  pg_exec : forall {A : Type}, stmt D A -> M W A;
  pg_begin : M W unit;
  pg_commit : M W unit;
  pg_rollback : M W unit;
}.

(** What a run of a statement may do.  A failed statement outside a
    transaction may still have taken effect, when only its acknowledgement
    was lost. *)
Definition exec_outcome {W D A} `{Pg W D} (s : stmt D A) (w : W) (r : res A) (w' : W) : Prop :=
  match r with
  | Ok a => exists env, env_ok env /\ s env (pg_tables w) = Ok (a, pg_tables w')
  | Err _ => pg_tables w' = pg_tables w \/
             exists env a, env_ok env /\ s env (pg_tables w) = Ok (a, pg_tables w')
  | Panic => False
  end.

Class PgLaws (W D : Type) `{Pg W D} := {
  pg_exec_outcome : forall A (s : stmt D A) w r w',
    pg_exec s w = (r, w') -> exec_outcome s w r w';
  pg_exec_saved : forall A (s : stmt D A) w, pg_saved (pg_exec s w).2 = pg_saved w;
  pg_exec_up : forall A (s : stmt D A) w, pg_up w ->
    exists env, env_ok env /\
      match s env (pg_tables w) with
      | Ok (a, d) => exists w', pg_exec s w = (Ok a, w') /\ pg_tables w' = d /\ pg_up w'
      | Err e => exists w', pg_exec s w = (Err e, w') /\ pg_tables w' = pg_tables w /\
                            (pg_saved w = None \/ e = PgxNoRows -> pg_up w')
      | Panic => True
      end;
  pg_begin_outcome : forall w r w', pg_begin w = (r, w') ->
    pg_tables w' = pg_tables w /\
    match r with
    | Ok _ => pg_saved w' = Some (pg_tables w)
    | Err _ => pg_saved w' = pg_saved w
    | Panic => False
    end;
  pg_begin_up : forall w, pg_up w -> exists w', pg_begin w = (Ok tt, w') /\ pg_up w';
  pg_commit_outcome : forall w r w' d, pg_saved w = Some d -> pg_commit w = (r, w') ->
    pg_saved w' = None /\
    match r with
    | Ok _ => pg_tables w' = pg_tables w
    | Err _ => pg_tables w' = pg_tables w \/ pg_tables w' = d
    | Panic => False
    end;
  pg_commit_up : forall w, pg_up w -> exists w', pg_commit w = (Ok tt, w') /\ pg_up w';
  pg_rollback_outcome : forall w r w' d, pg_saved w = Some d -> pg_rollback w = (r, w') ->
    pg_saved w' = None /\ pg_tables w' = d /\ r <> Panic;
}.

(** ** [RunInTx] *)
Section RunInTx.
Context {W D : Type} `{Pg W D}.

(** A nil [Beginner] and a nil callback are rejected.  The deferred recovery
    rolls back and panics again.
    @src pkg/postgres/postgres.go:112-139 RunInTx *)
Definition RunInTx {A} (beginner : bool) (fn : option (M W A)) : M W A :=
  if negb beginner then throw (EText "transaction beginner is nil")
  else match fn with
  | None => throw (EText "transaction callback is nil")
  | Some fn => fun w =>
      match pg_begin w with
      | (Err e, w) => (Err (EWrap "begin transaction" e), w)
      | (Panic, w) => (Panic, w)
      | (Ok tt, w) =>
          match fn w with
          | (Panic, w) => (Panic, (pg_rollback w).2)
          | (Err err, w) =>
              match pg_rollback w with
              | (Err rollbackErr, w) =>
                  (Err (EJoin err (EWrap "rollback transaction" rollbackErr)), w)
              | (Ok tt, w) => (Err err, w)
              | (Panic, w) => (Panic, (pg_rollback w).2)
              end
          | (Ok a, w) =>
              match pg_commit w with
              | (Err err, w) => (Err (EWrap "commit transaction" err), w)
              | (Ok tt, w) => (Ok a, w)
              | (Panic, w) => (Panic, (pg_rollback w).2)
              end
          end
      end
  end.
End RunInTx.

(** ** Reading a table *)
Lemma elem_of_rows {A} (t : gmap string A) x : x ∈ rows t <-> exists k, t !! k = Some x.
Proof.
  unfold rows. rewrite list_elem_of_fmap. split.
  - intros ([k y] & -> & Hk). apply elem_of_map_to_list in Hk. by exists k.
  - intros [k Hk]. exists (k, x). by rewrite elem_of_map_to_list.
Qed.

Lemma elem_of_where {A} (f : A -> bool) l x : x ∈ where_ f l <-> x ∈ l /\ f x = true.
Proof. unfold where_. by rewrite !list_elem_of_In, filter_In. Qed.

Lemma elem_of_order_by {A} (leb : A -> A -> bool) l x : x ∈ order_by leb l <-> x ∈ l.
Proof. unfold order_by. by rewrite merge_sort_Permutation. Qed.

Lemma length_order_by {A} (leb : A -> A -> bool) l : length (order_by leb l) = length l.
Proof. unfold order_by. by rewrite merge_sort_Permutation. Qed.

Lemma limit_offset_inv {A} limit offset (l page : list A) :
  limit_offset limit offset l = Ok page ->
  0 <= limit /\ 0 <= offset /\ page = take (Z.to_nat limit) (drop (Z.to_nat offset) l).
Proof. unfold limit_offset. repeat case_match; intros [= <-]; bool_prop; lia || auto. Qed.

Lemma elem_of_limit_offset {A} limit offset (l page : list A) x :
  limit_offset limit offset l = Ok page -> x ∈ page -> x ∈ l.
Proof.
  intros (_ & _ & ->)%limit_offset_inv Hx.
  by apply (subseteq_drop (Z.to_nat offset)), (subseteq_take (Z.to_nat limit)).
Qed.

(** ** A server with a fault schedule

    Before every operation the next element of the schedule decides whether
    it fails; a failed statement aborts the open transaction, whose later
    statements and commit are refused. *)
Record Conn (D : Type) := mkConn {
  conn_tables : D;
  conn_saved : option D;
  conn_aborted : bool;
  conn_faults : list (option error);
  conn_now : Z;
  conn_draws : Z;
}.
Arguments mkConn {D}.
Arguments conn_tables {D}.
Arguments conn_saved {D}.
Arguments conn_aborted {D}.
Arguments conn_faults {D}.
Arguments conn_now {D}.
Arguments conn_draws {D}.

Definition fresh_uuid (n : Z) : string :=
  of_bytes (replicate 12 (of_code 0) ++
            [of_code (n / 16777216 mod 256); of_code (n / 65536 mod 256);
             of_code (n / 256 mod 256); of_code (n mod 256)]).

Section Conn.
Context {D : Type}.

Definition conn (d : D) : Conn D := mkConn d None false [] 0 1.
Definition conn_env (c : Conn D) : PgEnv := mkPgEnv (conn_now c) (fresh_uuid (conn_draws c)).

Definition conn_pop (c : Conn D) : option error * Conn D :=
  match conn_faults c with
  | [] => (None, c)
  | f :: fs => (f, mkConn (conn_tables c) (conn_saved c) (conn_aborted c) fs (conn_now c) (conn_draws c))
  end.

(** The clock moves by a millisecond per statement. *)
Definition conn_set (d : D) (aborted : bool) (c : Conn D) : Conn D :=
  mkConn d (conn_saved c) aborted (conn_faults c) (conn_now c + 1000000) (conn_draws c + 1).
Definition conn_close (d : D) (c : Conn D) : Conn D :=
  mkConn d None false (conn_faults c) (conn_now c) (conn_draws c).
Definition in_tx (c : Conn D) : bool := match conn_saved c with Some _ => true | None => false end.

(** A query without rows is no error of the server: the transaction goes on. *)
Definition aborts (e : error) : bool := negb (bool_decide (e = PgxNoRows)).

Definition conn_exec {A} (s : stmt D A) : M (Conn D) A := fun c =>
  let '(f, c) := conn_pop c in
  if conn_aborted c then (Err in_failed_transaction, c)
  else match f with
       | Some e => (Err e, conn_set (conn_tables c) (in_tx c) c)
       | None =>
           match s (conn_env c) (conn_tables c) with
           | Ok (a, d) => (Ok a, conn_set d false c)
           | Err e => (Err e, conn_set (conn_tables c) (in_tx c && aborts e) c)
           | Panic => (Err (EText "statement"), conn_set (conn_tables c) (in_tx c) c)
           end
       end.

Definition conn_begin : M (Conn D) unit := fun c =>
  let '(f, c) := conn_pop c in
  match f with
  | Some e => (Err e, c)
  | None => (Ok tt, mkConn (conn_tables c) (Some (conn_tables c)) false
                      (conn_faults c) (conn_now c) (conn_draws c))
  end.

Definition conn_restore (c : Conn D) : Conn D :=
  conn_close (default (conn_tables c) (conn_saved c)) c.

Definition conn_commit : M (Conn D) unit := fun c =>
  let '(f, c) := conn_pop c in
  match f with
  | Some e => (Err e, conn_restore c)
  | None => if conn_aborted c then (Err (EText "commit unexpectedly resulted in rollback"), conn_restore c)
            else (Ok tt, conn_close (conn_tables c) c)
  end.

Definition conn_rollback : M (Conn D) unit := fun c =>
  let '(f, c) := conn_pop c in
  (match f with Some e => Err e | None => Ok tt end, conn_restore c).

(** Up: no fault is scheduled and no transaction is aborted. *)
Definition conn_up (c : Conn D) : Prop := conn_faults c = [] /\ conn_aborted c = false.

#[global] Instance Conn_Pg : Pg (Conn D) D := {
  pg_tables := conn_tables; pg_saved := conn_saved; pg_up := conn_up;
  pg_exec := @conn_exec; pg_begin := conn_begin; pg_commit := conn_commit;
  pg_rollback := conn_rollback;
}.
End Conn.

(** ** Lemmas *)
Lemma fresh_uuid_ok n : uuid_ok (fresh_uuid n).
Proof. reflexivity. Qed.

Section ConnLaws.
Context {D : Type}.
Implicit Types c : Conn D.

Lemma conn_pop_same c f c' :
  conn_pop c = (f, c') ->
  conn_tables c' = conn_tables c /\ conn_saved c' = conn_saved c /\
  conn_aborted c' = conn_aborted c /\ (conn_faults c = [] -> f = None /\ c' = c).
Proof. unfold conn_pop. destruct (conn_faults c); intros [= <- <-]; by auto. Qed.

Lemma conn_pop_up c : conn_up c -> conn_pop c = (None, c).
Proof. unfold conn_pop. by intros [-> _]. Qed.
End ConnLaws.


#[global] Instance Conn_PgLaws {D} : PgLaws (Conn D) D.
Proof.
  split; simpl; unfold conn_begin, conn_commit, conn_rollback, conn_exec, conn_restore.
  - intros A s c r c'. destruct (conn_pop c) as [f c1] eqn:Ep.
    apply conn_pop_same in Ep as (Ht & _). unfold exec_outcome. simpl.
    case_match; [intros [= <- <-]; auto|].
    destruct f; [intros [= <- <-]; auto|].
    destruct (s (conn_env c1) (conn_tables c1)) as [[a d]|e|] eqn:E; intros [= <- <-]; simpl; auto.
    exists (conn_env c1). rewrite <- Ht. split; [apply fresh_uuid_ok|done].
  - intros A s c. destruct (conn_pop c) as [f c1] eqn:Ep.
    apply conn_pop_same in Ep as (_ & Hs & _).
    repeat case_match; simpl; congruence.
  - intros A s c Hup. rewrite (conn_pop_up _ Hup). destruct Hup as [Hf Ha]. rewrite Ha.
    exists (conn_env c). split; [apply fresh_uuid_ok|].
    destruct (s (conn_env c) (conn_tables c)) as [[a d]|e|]; [| |done].
    + eexists; split_and!; [reflexivity|reflexivity|by split].
    + eexists; split_and!; [reflexivity|reflexivity|]. intros [Hs| ->]; split; try done; simpl; unfold in_tx; [by rewrite Hs|by destruct (conn_saved c)].
  - intros c r c'. destruct (conn_pop c) as [f c1] eqn:Ep.
    apply conn_pop_same in Ep as (Ht & Hs & _).
    destruct f; intros [= <- <-]; simpl; split; congruence.
  - intros c Hup. rewrite (conn_pop_up _ Hup). eexists; split; [reflexivity|].
    destruct Hup. by split.
  - intros c r c' d Hsd. destruct (conn_pop c) as [f c1] eqn:Ep.
    apply conn_pop_same in Ep as (Ht & Hs & _). rewrite Hs, Hsd, <- Ht.
    repeat case_match; intros [= <- <-]; simpl; auto.
  - intros c Hup. rewrite (conn_pop_up _ Hup). destruct Hup as [Hf Ha]. rewrite Ha.
    eexists; split; [reflexivity|by split].
  - intros c r c' d Hsd. destruct (conn_pop c) as [f c1] eqn:Ep.
    apply conn_pop_same in Ep as (Ht & Hs & _). rewrite Hs, Hsd.
    intros [= <- <-]. simpl. split_and!; [done|done|]. by destruct f.
Qed.

(** A server beside other state. *)
Definition on_fst {W B A} (m : M W A) : M (W * B) A := fun w =>
  let '(r, w1) := m w.1 in (r, (w1, w.2)).

#[global] Instance Pg_fst {W B D} `{Pg W D} : Pg (W * B) D := {
  pg_tables w := pg_tables w.1; pg_saved w := pg_saved w.1; pg_up w := pg_up w.1;
  pg_exec A s := on_fst (pg_exec s); pg_begin := on_fst pg_begin; pg_commit := on_fst pg_commit;
  pg_rollback := on_fst pg_rollback;
}.

Lemma on_fst_inv {W B A} (m : M W A) (w : W * B) r w' :
  on_fst m w = (r, w') -> m w.1 = (r, w'.1) /\ w'.2 = w.2.
Proof. unfold on_fst. destruct (m w.1) as [r1 w1] eqn:E. by intros [= <- <-]. Qed.

Lemma on_fst_run {W B A} (m : M W A) (w : W * B) r w1 :
  m w.1 = (r, w1) -> on_fst m w = (r, (w1, w.2)).
Proof. unfold on_fst. by intros ->. Qed.

#[global] Instance Pg_fst_laws {W B D} `{PgLaws W D} : PgLaws (W * B) D.
Proof.
  split; simpl.
  - intros A s w r w' [E _]%on_fst_inv. by apply pg_exec_outcome in E.
  - intros A s w. destruct (on_fst _ _) as [r w'] eqn:E. apply on_fst_inv in E as [E _].
    simpl. rewrite <- (pg_exec_saved A s w.1), E. done.
  - intros A s w Hup. destruct (pg_exec_up A s w.1 Hup) as (env & Henv & Hs).
    exists env. split; [done|]. destruct (s env (pg_tables w.1)) as [[a d]|e|]; [| |done].
    + destruct Hs as (w1 & E & Hd & Hu). eexists. split; [by apply on_fst_run|done].
    + destruct Hs as (w1 & E & Hd & Hu). eexists. split; [by apply on_fst_run|done].
  - intros w r w' [E _]%on_fst_inv. by apply pg_begin_outcome in E.
  - intros w (w1 & E & Hu)%pg_begin_up. eexists. split; [by apply on_fst_run|done].
  - intros w r w' d Hd [E _]%on_fst_inv. by eapply pg_commit_outcome in E.
  - intros w (w1 & E & Hu)%pg_commit_up. eexists. split; [by apply on_fst_run|done].
  - intros w r w' d Hd [E _]%on_fst_inv. by eapply pg_rollback_outcome in E.
Qed.

(** *** What every client of the server uses *)
Section Clients.
Context {W D : Type} `{PgLaws W D}.

(** A property every statement preserves is preserved by [pg_exec], whatever
    its outcome. *)
Lemma exec_keeps {A} (P : D -> Prop) (s : stmt D A) :
  (forall env d a d', env_ok env -> P d -> s env d = Ok (a, d') -> P d') ->
  within (keeps (fun w => P (pg_tables w))) (pg_exec s).
Proof.
  intros Hs w Hw. destruct (pg_exec s w) as [r w'] eqn:E. simpl.
  apply pg_exec_outcome in E. destruct r as [a|e|]; simpl in E; [| |done].
  - destruct E as (env & Henv & E). eauto.
  - destruct E as [->|(env & a & Henv & E)]; eauto.
Qed.

(** The same for a relation between the tables before and after. *)
Lemma exec_within {A} (R : D -> D -> Prop) `{!Reflexive R} (s : stmt D A) :
  (forall env d a d', env_ok env -> s env d = Ok (a, d') -> R d d') ->
  within (fun w w' => R (pg_tables w) (pg_tables w')) (pg_exec s).
Proof.
  intros Hs w. destruct (pg_exec s w) as [r w'] eqn:E. simpl.
  apply pg_exec_outcome in E. destruct r as [a|e|]; simpl in E; [| |done].
  - destruct E as (env & Henv & E). eauto.
  - destruct E as [->|(env & a & Henv & E)]; eauto.
Qed.

Lemma exec_Ok_inv {A} (s : stmt D A) w a w' :
  pg_exec s w = (Ok a, w') ->
  exists env, env_ok env /\ s env (pg_tables w) = Ok (a, pg_tables w').
Proof. apply (pg_exec_outcome _ _ _ (Ok a)). Qed.

Lemma exec_no_panic {A} (s : stmt D A) w w' : pg_exec s w <> (Panic, w').
Proof. by intros E%pg_exec_outcome. Qed.

(** A read only statement that succeeds leaves the tables. *)
Lemma exec_read_only {A} (s : stmt D A) :
  (forall env d a d', s env d = Ok (a, d') -> d' = d) ->
  within (fun w w' => pg_tables w' = pg_tables w) (pg_exec s).
Proof.
  intros Hs. apply (exec_within (fun d d' => d' = d)). eauto.
Qed.

(** The callbacks passed to [RunInTx] only run statements: they leave the
    snapshot of the open transaction. *)
Definition tx_body {A} (m : M W A) : Prop := within (same (B := option D) pg_saved) m.

Lemma exec_same_saved {A} (s : stmt D A) : within (same (B := option D) pg_saved) (pg_exec s).
Proof. intros w. apply pg_exec_saved. Qed.

Lemma exec_tx_body {A} (s : stmt D A) : tx_body (pg_exec s).
Proof. intros w. apply pg_exec_saved. Qed.

(** [RunInTx] moves the tables along what a successful run of its callback
    moves them along. *)
Lemma RunInTx_ok_within {A} (R : D -> D -> Prop) `{!Reflexive R} b (fn : M W A) :
  tx_body fn ->
  (forall w a w', fn w = (Ok a, w') -> R (pg_tables w) (pg_tables w')) ->
  within (fun w w' => R (pg_tables w) (pg_tables w')) (RunInTx b (Some fn)).
Proof.
  intros Hbody Hfn w. unfold RunInTx. destruct b; simpl; [|done].
  destruct (pg_begin w) as [r w1] eqn:Eb. apply pg_begin_outcome in Eb as [Ht Hr].
  destruct r as [[]|e|]; simpl; [|by rewrite Ht|done].
  specialize (Hfn w1). specialize (Hbody w1). unfold same in Hbody.
  destruct (fn w1) as [r2 w2] eqn:Ef; simpl in *. rewrite Hr in Hbody.
  destruct r2 as [a|e|].
  - specialize (Hfn _ _ eq_refl). rewrite Ht in Hfn.
    destruct (pg_commit w2) as [r3 w3] eqn:Ec.
    eapply pg_commit_outcome in Ec as [_ Ec]; [|exact Hbody].
    destruct r3 as [[]|e|]; simpl; [by rewrite Ec| |done]. by destruct Ec as [->| ->].
  - destruct (pg_rollback w2) as [r3 w3] eqn:Er.
    eapply pg_rollback_outcome in Er as (_ & Er & Hp); [|exact Hbody].
    destruct r3 as [[]|e'|]; simpl; [by rewrite Er|by rewrite Er|done].
  - destruct (pg_rollback w2) as [r3 w3] eqn:Er. simpl.
    eapply pg_rollback_outcome in Er as (_ & -> & _); [done|exact Hbody].
Qed.

Lemma RunInTx_within {A} (R : D -> D -> Prop) `{!Reflexive R} b (fn : M W A) :
  tx_body fn ->
  within (fun w w' => R (pg_tables w) (pg_tables w')) fn ->
  within (fun w w' => R (pg_tables w) (pg_tables w')) (RunInTx b (Some fn)).
Proof.
  intros Hbody Hfn. apply RunInTx_ok_within; [done|done|]. intros w a w' E.
  specialize (Hfn w). by rewrite E in Hfn.
Qed.

(** [RunInTx] preserves what its callback preserves. *)
Lemma RunInTx_keeps {A} (P : D -> Prop) b (fn : M W A) :
  tx_body fn ->
  within (keeps (fun w => P (pg_tables w))) fn ->
  within (keeps (fun w => P (pg_tables w))) (RunInTx b (Some fn)).
Proof. apply (RunInTx_within (fun d d' => P d -> P d')). Qed.

(** A successful [RunInTx] ran its callback to success from the same tables. *)
Lemma RunInTx_Ok_inv {A} b (fn : M W A) w a w' :
  tx_body fn -> RunInTx b (Some fn) w = (Ok a, w') ->
  exists w1 w2, pg_tables w1 = pg_tables w /\ fn w1 = (Ok a, w2) /\ pg_tables w' = pg_tables w2.
Proof.
  intros Hbody. unfold RunInTx. destruct b; simpl; [|done].
  destruct (pg_begin w) as [r w1] eqn:Eb. apply pg_begin_outcome in Eb as [Ht Hr].
  destruct r as [[]|e|]; [|done|done].
  specialize (Hbody w1). unfold same in Hbody. rewrite Hr in Hbody.
  destruct (fn w1) as [r2 w2] eqn:Ef; simpl in *.
  destruct r2 as [a2|e|]; [|by destruct (pg_rollback w2) as [[[]| |] ?]|done].
  destruct (pg_commit w2) as [r3 w3] eqn:Ec.
  eapply pg_commit_outcome in Ec as [_ Ec]; [|exact Hbody].
  destruct r3 as [[]|e|]; [|done|done]. intros [= <- <-]. eauto.
Qed.

(** A statement that failed may have taken effect. *)
Lemma exec_point {A} (s : stmt D A) w r w' :
  pg_exec s w = (r, w') ->
  pg_tables w' = pg_tables w \/
  exists env a, env_ok env /\ s env (pg_tables w) = Ok (a, pg_tables w').
Proof.
  intros E%pg_exec_outcome. destruct r as [a|e|]; simpl in E; [|exact E|done].
  destruct E as (env & Henv & Hs). right. by exists env, a.
Qed.
End Clients.
#[export] Hint Resolve exec_tx_body exec_same_saved : within.

(** C19: a transaction is all or nothing.  Whatever the callback does, and
    whatever the server answers: a success means that the callback succeeded
    and the tables are those it left; an error means that the tables are
    unchanged, unless the callback succeeded and the commit's outcome is
    unknown; a panic of the callback is rethrown with the tables unchanged.
    No transaction stays open. *)
Theorem RunInTx_atomic {W D A} `{PgLaws W D} (fn : M W A) (w w' : W) (r : res A) :
  tx_body fn ->
  pg_saved w = None ->
  RunInTx true (Some fn) w = (r, w') ->
  pg_saved w' = None /\
  match r with
  | Ok a => exists w1 w2, pg_tables w1 = pg_tables w /\ fn w1 = (Ok a, w2) /\
                          pg_tables w' = pg_tables w2
  | Err e => pg_tables w' = pg_tables w \/
      exists w1 w2 a, pg_tables w1 = pg_tables w /\ fn w1 = (Ok a, w2) /\
                      pg_tables w' = pg_tables w2 /\ exists c, e = EWrap "commit transaction" c
  | Panic => pg_tables w' = pg_tables w /\
      exists w1 w2, pg_tables w1 = pg_tables w /\ fn w1 = (Panic, w2)
  end.
Proof.
  intros Hbody Hw. unfold RunInTx. simpl.
  destruct (pg_begin w) as [r1 w1] eqn:Eb. apply pg_begin_outcome in Eb as [Ht Hr].
  destruct r1 as [[]|e|]; [|intros [= <- <-]; split; [congruence|by left]|done].
  specialize (Hbody w1). unfold same in Hbody. rewrite Hr in Hbody.
  destruct (fn w1) as [r2 w2] eqn:Ef; simpl in *. destruct r2 as [a|e|].
  - destruct (pg_commit w2) as [r3 w3] eqn:Ec.
    eapply pg_commit_outcome in Ec as [Hs Ec]; [|exact Hbody].
    destruct r3 as [[]|e|]; [| |done]; intros [= <- <-]; (split; [done|]).
    + exists w1, w2. by rewrite Ec.
    + destruct Ec as [Ec|Ec]; [|by left]. right. exists w1, w2, a. eauto.
  - destruct (pg_rollback w2) as [r3 w3] eqn:Er.
    eapply pg_rollback_outcome in Er as (Hs & Er & Hp); [|exact Hbody].
    destruct r3 as [[]|e'|]; [| |done]; intros [= <- <-]; by auto.
  - destruct (pg_rollback w2) as [r3 w3] eqn:Er.
    eapply pg_rollback_outcome in Er as (Hs & Er & Hp); [|exact Hbody].
    intros [= <- <-]; simpl. by eauto 10.
Qed.

(** Two statements, the second of which fails: the first is undone. *)
Lemma RunInTx_atomic_witness :
  let incr : stmt Z unit := fun _ d => Ok (tt, d + 1) in
  let body := _ ← pg_exec incr; pg_exec incr in
  let w := mkConn 5 None false [None; None; Some (EPg "08006")] 0 1 in
  exists w', RunInTx true (Some body) w = (Err (EPg "08006"), w') /\
             pg_saved w' = None /\ pg_tables w' = 5.
Proof.
  intros incr body w. eexists. split; [reflexivity|].
  destruct (RunInTx_atomic body w (RunInTx true (Some body) w).2 (Err (EPg "08006")))
    as [Hs [Ht|Ht]]; [|reflexivity|reflexivity|split; [exact Hs|exact Ht]|].
  - unfold body, tx_body. apply within_bind; [apply same_preorder|apply exec_tx_body|intros; apply exec_tx_body].
  - destruct Ht as (? & ? & ? & _ & _ & _ & c & Hc). discriminate.
Defined.
