(* ===== verification/TaskSQL.v ===== *)
(** * The task tables and their statements
    ([pkg/platform/database/dbgen/tasks.sql.go], with the schema of
    [pkg/migrations/000003_tasks.up.sql] and [000005_task_outbox.up.sql])

    A nullable column, a [pgtype.UUID], a [pgtype.Text] and a
    [pgtype.Timestamptz] are options; a UUID is its sixteen bytes.  A [jsonb]
    parameter is the text of the Go [[]byte], the empty text being the nil
    slice, which is sent as NULL. *)
From S2P Require Import Prelude GoStrings Postgres.

(** @src pkg/platform/database/dbgen/models.go:64-75 TaskDefinition *)
Record TaskDefinition := mkTaskDefinition {
  td_ID : string;
  td_Name : string;
  td_TaskType : string;
  td_Description : string;
  td_DefaultPayload : string;
  td_MaxRetries : Z;
  td_TimeoutSeconds : Z;
  td_IsActive : bool;
  td_CreatedAt : Z;
  td_UpdatedAt : Z;
}.

(** @src pkg/platform/database/dbgen/models.go:77-93 TaskExecution *)
Record TaskExecution := mkTaskExecution {
  te_ID : string;
  te_DefinitionID : option string;
  te_TaskType : string;
  te_QueueID : option string;
  te_IdempotencyKey : option string;
  te_Payload : string;
  te_Status : string;
  te_Attempt : Z;
  te_ProcessedRows : Z;
  te_ErrorSummary : option string;
  te_QueuedAt : Z;
  te_StartedAt : option Z;
  te_FinishedAt : option Z;
  te_CreatedAt : Z;
  te_UpdatedAt : Z;
}.

(** @src pkg/platform/database/dbgen/models.go:95-107 TaskOutboxMessage *)
Record TaskOutboxMessage := mkTaskOutboxMessage {
  om_QueueID : string;
  om_ExecutionID : string;
  om_TaskType : string;
  om_Payload : string;
  om_MaxRetries : Z;
  om_TimeoutSeconds : Z;
  om_UniqueForSeconds : Z;
  om_ProcessAfterSeconds : Z;
  om_PublishedAt : option Z;
  om_CreatedAt : Z;
  om_UpdatedAt : Z;
}.

(** @src pkg/platform/database/dbgen/models.go:109-119 TaskSchedule *)
Record TaskSchedule := mkTaskSchedule {
  ts_ID : string;
  ts_DefinitionID : string;
  ts_CronExpression : string;
  ts_Timezone : string;
  ts_Payload : string;
  ts_IsEnabled : bool;
  ts_LastEnqueuedAt : option Z;
  ts_CreatedAt : Z;
  ts_UpdatedAt : Z;
}.

(** The tables, keyed by their primary keys. *)
Record TaskDB := mkTaskDB {
  task_definitions : gmap string TaskDefinition;
  task_executions : gmap string TaskExecution;
  task_outbox_messages : gmap string TaskOutboxMessage;
  task_schedules : gmap string TaskSchedule;
}.

Definition empty_db : TaskDB := mkTaskDB ∅ ∅ ∅ ∅.

Definition with_definitions f (d : TaskDB) : TaskDB :=
  mkTaskDB (f (task_definitions d)) (task_executions d) (task_outbox_messages d) (task_schedules d).
Definition with_executions f (d : TaskDB) : TaskDB :=
  mkTaskDB (task_definitions d) (f (task_executions d)) (task_outbox_messages d) (task_schedules d).
Definition with_outbox f (d : TaskDB) : TaskDB :=
  mkTaskDB (task_definitions d) (task_executions d) (f (task_outbox_messages d)) (task_schedules d).

(** ** The constraints of the schema *)
Definition status_valid (s : string) : bool :=
  bool_decide (s ∈ ["queued"; "running"; "succeeded"; "failed"; "cancelled"]).

Definition execution_checks (e : TaskExecution) : bool :=
  not_blank (te_TaskType e) && status_valid (te_Status e) &&
  (0 <=? te_Attempt e) && (0 <=? te_ProcessedRows e).

Definition outbox_checks (m : TaskOutboxMessage) : bool :=
  not_blank (om_QueueID m) && not_blank (om_TaskType m) &&
  (0 <=? om_MaxRetries m) && (0 <=? om_TimeoutSeconds m) &&
  (0 <=? om_UniqueForSeconds m) && (0 <=? om_ProcessAfterSeconds m).

Definition definition_checks (t : TaskDefinition) : bool :=
  not_blank (td_Name t) && not_blank (td_TaskType t) &&
  (0 <=? td_MaxRetries t) && (0 <? td_TimeoutSeconds t).

(** [UNIQUE (task_type, idempotency_key)]: NULL keys never conflict. *)
Definition same_idempotency (taskType : string) (key : option string) (e : TaskExecution) : bool :=
  match key with
  | None => false
  | Some _ => bool_decide (te_TaskType e = taskType) && bool_decide (te_IdempotencyKey e = key)
  end.

Section Statements.
Context `{Jsonb} `{Collation}.
Notation "x ← m ; k" := (mbind (M := res) (fun x => k) m)
  (at level 20, m at level 100, k at level 200, only parsing).

Definition require (b : bool) (e : error) : res unit := if b then Ok tt else Err e.

(** A [jsonb] parameter of a [NOT NULL] column. *)
Definition jsonb_param (payload : string) : res string :=
  if is_empty payload then Err not_null_violation
  else match jsonb_in payload with
       | Some text => Ok text
       | None => Err invalid_text_representation
       end.

(** @src pkg/platform/database/dbgen/tasks.sql.go:20-24 ClaimTaskExecutionParams *)
Record ClaimTaskExecutionParams := mkClaim {
  claim_ID : string; claim_Attempt : Z; claim_StartedAt : option Z }.

(** The row an execution becomes when it is claimed. *)
Definition claimed (p : ClaimTaskExecutionParams) (now : Z) (e : TaskExecution) : TaskExecution :=
  mkTaskExecution (te_ID e) (te_DefinitionID e) (te_TaskType e) (te_QueueID e)
    (te_IdempotencyKey e) (te_Payload e) "running" (claim_Attempt p) (te_ProcessedRows e)
    (te_ErrorSummary e) (te_QueuedAt e)
    (coalesce (te_StartedAt e) (timestamptz <$> claim_StartedAt p))
    (te_FinishedAt e) (te_CreatedAt e) now.

Definition claimable (p : ClaimTaskExecutionParams) (e : TaskExecution) : bool :=
  bool_decide (te_Status e ∈ ["queued"; "running"]) && (te_Attempt e <? claim_Attempt p).

(** @src pkg/platform/database/dbgen/tasks.sql.go:14-32 ClaimTaskExecution *)
Definition ClaimTaskExecution (p : ClaimTaskExecutionParams) : stmt TaskDB Z := fun env d =>
  match task_executions d !! claim_ID p with
  | Some e =>
      if claimable p e then
        let e' := claimed p (pg_NOW env) e in
        _ ← require (execution_checks e') check_violation;
        Ok (1, with_executions <[claim_ID p := e']> d)
      else Ok (0, d)
  | None => Ok (0, d)
  end.

(** @src pkg/platform/database/dbgen/tasks.sql.go:432-442 UpdateTaskExecutionStatusParams *)
Record UpdateTaskExecutionStatusParams := mkUpdate {
  upd_Status : string;
  upd_StartedAt : option Z;
  upd_FinishedAt : option Z;
  upd_ErrorSummary : option string;
  upd_ProcessedRows : Z;
  upd_Attempt : Z;
  upd_ID : string;
  upd_ExpectedStatus : string;
  upd_ExpectedAttempt : Z;
}.

Definition updated (p : UpdateTaskExecutionStatusParams) (now : Z) (e : TaskExecution) : TaskExecution :=
  mkTaskExecution (te_ID e) (te_DefinitionID e) (te_TaskType e) (te_QueueID e)
    (te_IdempotencyKey e) (te_Payload e) (upd_Status p) (upd_Attempt p) (upd_ProcessedRows p)
    (upd_ErrorSummary p) (te_QueuedAt e)
    (coalesce (timestamptz <$> upd_StartedAt p) (te_StartedAt e))
    (coalesce (timestamptz <$> upd_FinishedAt p) (te_FinishedAt e)) (te_CreatedAt e) now.

Definition updatable (p : UpdateTaskExecutionStatusParams) (e : TaskExecution) : bool :=
  bool_decide (te_Status e = upd_ExpectedStatus p) && (te_Attempt e =? upd_ExpectedAttempt p).

(** @src pkg/platform/database/dbgen/tasks.sql.go:418-460 UpdateTaskExecutionStatus *)
Definition UpdateTaskExecutionStatus (p : UpdateTaskExecutionStatusParams) : stmt TaskDB Z := fun env d =>
  match task_executions d !! upd_ID p with
  | Some e =>
      if updatable p e then
        let e' := updated p (pg_NOW env) e in
        _ ← require (execution_checks e') check_violation;
        Ok (1, with_executions <[upd_ID p := e']> d)
      else Ok (0, d)
  | None => Ok (0, d)
  end.

(** @src pkg/platform/database/dbgen/tasks.sql.go:99-105 CreateTaskExecutionParams *)
Record CreateTaskExecutionParams := mkCreate {
  cre_DefinitionID : option string;
  cre_TaskType : string;
  cre_QueueID : option string;
  cre_IdempotencyKey : option string;
  cre_Payload : string;
}.

Definition new_execution (p : CreateTaskExecutionParams) (payload : string) (env : PgEnv) : TaskExecution :=
  mkTaskExecution (pg_gen_random_uuid env) (cre_DefinitionID p) (cre_TaskType p) (cre_QueueID p)
    (cre_IdempotencyKey p) payload "queued" 0 0 None (pg_NOW env) None None (pg_NOW env) (pg_NOW env).

(** @src pkg/platform/database/dbgen/tasks.sql.go:93-134 CreateTaskExecution *)
Definition CreateTaskExecution (p : CreateTaskExecutionParams) : stmt TaskDB TaskExecution := fun env d =>
  payload ← jsonb_param (cre_Payload p);
  let e := new_execution p payload env in
  _ ← require (execution_checks e) check_violation;
  _ ← require (bool_decide (task_executions d !! te_ID e = None)) unique_violation;
  _ ← require (negb (existsb (same_idempotency (cre_TaskType p) (cre_IdempotencyKey p))
                             (rows (task_executions d)))) unique_violation;
  _ ← require (match cre_DefinitionID p with
               | Some id => bool_decide (is_Some (task_definitions d !! id))
               | None => true
               end) foreign_key_violation;
  Ok (e, with_executions <[te_ID e := e]> d).

(** @src pkg/platform/database/dbgen/tasks.sql.go:151-161 CreateTaskExecutionWithPendingPublishParams *)
Record CreateTaskExecutionWithPendingPublishParams := mkCreatePending {
  pen_create : CreateTaskExecutionParams;
  pen_MaxRetries : Z;
  pen_TimeoutSeconds : Z;
  pen_UniqueForSeconds : Z;
  pen_ProcessAfterSeconds : Z;
}.

Definition new_outbox (p : CreateTaskExecutionWithPendingPublishParams) (queueID : string)
    (e : TaskExecution) (now : Z) : TaskOutboxMessage :=
  mkTaskOutboxMessage queueID (te_ID e) (te_TaskType e) (te_Payload e) (pen_MaxRetries p)
    (pen_TimeoutSeconds p) (pen_UniqueForSeconds p) (pen_ProcessAfterSeconds p) None now now.

(** One statement inserts the execution and its outbox message.
    @src pkg/platform/database/dbgen/tasks.sql.go:136-212 CreateTaskExecutionWithPendingPublish *)
Definition CreateTaskExecutionWithPendingPublish (p : CreateTaskExecutionWithPendingPublishParams) :
    stmt TaskDB TaskExecution := fun env d =>
  '(e, d) ← CreateTaskExecution (pen_create p) env d;
  match cre_QueueID (pen_create p) with
  | None => Err not_null_violation
  | Some queueID =>
      let m := new_outbox p queueID e (pg_NOW env) in
      _ ← require (outbox_checks m) check_violation;
      _ ← require (bool_decide (task_outbox_messages d !! queueID = None)) unique_violation;
      _ ← require (negb (existsb (fun m => bool_decide (om_ExecutionID m = te_ID e))
                                 (rows (task_outbox_messages d)))) unique_violation;
      Ok (e, with_outbox <[queueID := m]> d)
  end.

(** @src pkg/platform/database/dbgen/tasks.sql.go:59-66 CreateTaskDefinitionParams *)
Record CreateTaskDefinitionParams := mkCreateDefinition {
  def_Name : string;
  def_TaskType : string;
  def_Description : string;
  def_DefaultPayload : string;
  def_MaxRetries : Z;
  def_TimeoutSeconds : Z;
}.

(** @src pkg/platform/database/dbgen/tasks.sql.go:52-91 CreateTaskDefinition *)
Definition CreateTaskDefinition (p : CreateTaskDefinitionParams) : stmt TaskDB TaskDefinition := fun env d =>
  payload ← jsonb_param (def_DefaultPayload p);
  let t := mkTaskDefinition (pg_gen_random_uuid env) (def_Name p) (def_TaskType p) (def_Description p)
             payload (def_MaxRetries p) (def_TimeoutSeconds p) true (pg_NOW env) (pg_NOW env) in
  _ ← require (definition_checks t) check_violation;
  _ ← require (bool_decide (task_definitions d !! td_ID t = None)) unique_violation;
  _ ← require (negb (existsb (fun t => bool_decide (td_Name t = def_Name p))
                             (rows (task_definitions d)))) unique_violation;
  Ok (t, with_definitions <[td_ID t := t]> d).

(** @src pkg/platform/database/dbgen/tasks.sql.go:214-239 GetTaskExecution *)
Definition GetTaskExecution (id : string) : stmt TaskDB TaskExecution := fun _ d =>
  match task_executions d !! id with
  | Some e => Ok (e, d)
  | None => Err PgxNoRows
  end.

Record ExecutionFilterParams := mkFilterParams {
  flt_TaskType : option string; flt_Status : option string }.

Definition execution_matches (p : ExecutionFilterParams) (e : TaskExecution) : bool :=
  match flt_TaskType p with Some t => bool_decide (te_TaskType e = t) | None => true end &&
  match flt_Status p with Some s => bool_decide (te_Status e = s) | None => true end.

(** @src pkg/platform/database/dbgen/tasks.sql.go:34-50 CountTaskExecutions *)
Definition CountTaskExecutions (p : ExecutionFilterParams) : stmt TaskDB Z := fun _ d =>
  Ok (Z.of_nat (length (where_ (execution_matches p) (rows (task_executions d)))), d).

(** [ORDER BY created_at DESC, id DESC] *)
Definition newest_first (x y : TaskExecution) : bool :=
  then_by (fun x y => Z.compare (te_CreatedAt y) (te_CreatedAt x))
          (fun x y => String.leb (te_ID y) (te_ID x)) x y.

(** @src pkg/platform/database/dbgen/tasks.sql.go:351-405 ListTaskExecutions *)
Definition ListTaskExecutions (p : ExecutionFilterParams) (offset limit : Z) :
    stmt TaskDB (list TaskExecution) := fun _ d =>
  page ← limit_offset limit offset
           (order_by newest_first (where_ (execution_matches p) (rows (task_executions d))));
  Ok (page, d).

Definition pending (m : TaskOutboxMessage) : bool := bool_decide (om_PublishedAt m = None).

Definition oldest_first (x y : TaskOutboxMessage) : bool :=
  then_by (fun x y => Z.compare (om_CreatedAt x) (om_CreatedAt y))
          (fun x y => collate_leb (om_QueueID x) (om_QueueID y)) x y.

(** A pending message with the status of its execution.
    @src pkg/platform/database/dbgen/tasks.sql.go:298-349 ListPendingTaskOutboxMessages *)
Definition ListPendingTaskOutboxMessages (limit : Z) : stmt TaskDB (list (string * TaskOutboxMessage)) :=
  fun _ d =>
  messages ← limit_offset limit 0
    (omap (fun m => e ← task_executions d !! om_ExecutionID m; Some (te_Status e, m))
          (order_by oldest_first (where_ pending (rows (task_outbox_messages d)))))%stdpp;
  Ok (messages, d).

Definition published (now : Z) (m : TaskOutboxMessage) : TaskOutboxMessage :=
  mkTaskOutboxMessage (om_QueueID m) (om_ExecutionID m) (om_TaskType m) (om_Payload m)
    (om_MaxRetries m) (om_TimeoutSeconds m) (om_UniqueForSeconds m) (om_ProcessAfterSeconds m)
    (Some now) (om_CreatedAt m) now.

(** @src pkg/platform/database/dbgen/tasks.sql.go:407-416 MarkTaskOutboxMessagePublished *)
Definition MarkTaskOutboxMessagePublished (queueID : string) : stmt TaskDB unit := fun env d =>
  match task_outbox_messages d !! queueID with
  | Some m =>
      if pending m then Ok (tt, with_outbox <[queueID := published (pg_NOW env) m]> d) else Ok (tt, d)
  | None => Ok (tt, d)
  end.

Definition schedule_order (x y : TaskSchedule * TaskDefinition) : bool :=
  then_by (fun x y => Z.compare (ts_CreatedAt x.1) (ts_CreatedAt y.1))
          (fun x y => String.leb (ts_ID x.1) (ts_ID y.1)) x y.

(** @src pkg/platform/database/dbgen/tasks.sql.go:241-296 ListEnabledTaskSchedules *)
Definition ListEnabledTaskSchedules : stmt TaskDB (list (TaskSchedule * TaskDefinition)) := fun _ d =>
  Ok (order_by schedule_order
        (where_ (fun r => ts_IsEnabled r.1 && td_IsActive r.2)
           (omap (fun s => t ← task_definitions d !! ts_DefinitionID s; Some (s, t))
                 (rows (task_schedules d))))%stdpp, d).
End Statements.

(** ** What the writes do to the executions *)
Lemma require_Ok b e u : require b e = Ok u -> b = true.
Proof. by destruct b. Qed.

Section Effects.
Context `{Jsonb} `{Collation}.

Lemma CreateTaskExecution_effect p env d e d' :
  CreateTaskExecution p env d = Ok (e, d') ->
  te_ID e = pg_gen_random_uuid env /\ te_Status e = "queued" /\ te_Attempt e = 0 /\
  task_executions d !! te_ID e = None /\
  d' = with_executions <[te_ID e := e]> d.
Proof.
  unfold CreateTaskExecution. intros H1. res_inv H1.
  apply require_Ok in E1. bool_prop. injection H1 as <- <-. done.
Qed.

Lemma CreatePending_effect p env d e d' :
  CreateTaskExecutionWithPendingPublish p env d = Ok (e, d') ->
  exists d1 queueID, CreateTaskExecution (pen_create p) env d = Ok (e, d1) /\
    cre_QueueID (pen_create p) = Some queueID /\ task_outbox_messages d !! queueID = None /\
    d' = with_outbox <[queueID := new_outbox p queueID e (pg_NOW env)]> d1.
Proof.
  unfold CreateTaskExecutionWithPendingPublish. intros H1.
  apply res_bind_Ok_inv in H1 as ([e1 d1] & Hc & H1).
  destruct (cre_QueueID (pen_create p)) as [queueID|] eqn:Hq; [|discriminate].
  res_inv H1. injection H1 as <- <-. exists d1, queueID. split_and!; try done.
  apply require_Ok in E0. bool_prop.
  apply CreateTaskExecution_effect in Hc as (_ & _ & _ & _ & ->). done.
Qed.

Lemma ClaimTaskExecution_effect p env d n d' :
  ClaimTaskExecution p env d = Ok (n, d') ->
  (n = 0 /\ d' = d /\ forall e, task_executions d !! claim_ID p = Some e -> claimable p e = false) \/
  (exists e, n = 1 /\ task_executions d !! claim_ID p = Some e /\ claimable p e = true /\
     d' = with_executions <[claim_ID p := claimed p (pg_NOW env) e]> d).
Proof.
  unfold ClaimTaskExecution.
  destruct (task_executions d !! claim_ID p) as [e|] eqn:E; [|intros [= <- <-]; by left].
  destruct (claimable p e) eqn:Ec; [|intros [= <- <-]; left; split_and!; [done|done|]; by intros ? [= <-]].
  intros H1. res_inv H1. injection H1 as <- <-. right. eauto.
Qed.

Lemma UpdateTaskExecutionStatus_effect p env d n d' :
  UpdateTaskExecutionStatus p env d = Ok (n, d') ->
  (n = 0 /\ d' = d /\ forall e, task_executions d !! upd_ID p = Some e -> updatable p e = false) \/
  (exists e, n = 1 /\ task_executions d !! upd_ID p = Some e /\ updatable p e = true /\
     d' = with_executions <[upd_ID p := updated p (pg_NOW env) e]> d).
Proof.
  unfold UpdateTaskExecutionStatus.
  destruct (task_executions d !! upd_ID p) as [e|] eqn:E; [|intros [= <- <-]; by left].
  destruct (updatable p e) eqn:Ec; [|intros [= <- <-]; left; split_and!; [done|done|]; by intros ? [= <-]].
  intros H1. res_inv H1. injection H1 as <- <-. right. eauto.
Qed.

Lemma MarkPublished_effect queueID env d d' :
  MarkTaskOutboxMessagePublished queueID env d = Ok (tt, d') ->
  task_executions d' = task_executions d /\
  (d' = d \/ exists m, task_outbox_messages d !! queueID = Some m /\ om_PublishedAt m = None /\
     d' = with_outbox <[queueID := published (pg_NOW env) m]> d).
Proof.
  unfold MarkTaskOutboxMessagePublished.
  destruct (task_outbox_messages d !! queueID) as [m|] eqn:E; [|intros [= <-]; by auto].
  destruct (pending m) eqn:Ep; intros [= <-]; [|by auto]. split; [done|].
  unfold pending in Ep. bool_prop. eauto.
Qed.

Lemma CreateTaskDefinition_effect p env d t d' :
  CreateTaskDefinition p env d = Ok (t, d') ->
  task_executions d' = task_executions d /\ task_outbox_messages d' = task_outbox_messages d.
Proof. unfold CreateTaskDefinition. intros H1. res_inv H1. by injection H1 as <- <-. Qed.
End Effects.
