(* ===== verification/Task.v ===== *)
(** * The task module ([pkg/modules/task])

    The state machine of an execution, the registry and catalog of handlers,
    the submission service and the processor.  The stores and the publisher
    are interfaces, as in the code; their implementations are in [TaskStore]
    and [Queue].  The clock, the source of identifiers, the decoding of JSON
    payloads and the handlers are parameters. *)
From S2P Require Import Prelude GoStrings Postgres.

(** The context of a call: the one the operation was called with, one with a
    deadline of its own below it ([context.WithTimeout(ctx, d)]), or one
    detached from its cancellation with a deadline of its own
    ([context.WithTimeout(context.WithoutCancel(ctx), d)]). *)
Inductive Context := Caller | Detached (timeout : Z) | Bounded (timeout : Z).

(** ** Statuses ([model.go]) *)

(** @src pkg/modules/task/model.go:10-18 Status *)
Definition Status := string.
Definition StatusQueued : Status := "queued".
Definition StatusRunning : Status := "running".
Definition StatusSucceeded : Status := "succeeded".
Definition StatusFailed : Status := "failed".
Definition StatusCancelled : Status := "cancelled".

(** The transitions the table of the source allows. *)
Definition allowed : gmap Status (gset Status) :=
  {[ StatusQueued := {[ StatusRunning; StatusFailed; StatusCancelled ]};
     StatusRunning := {[ StatusSucceeded; StatusFailed; StatusCancelled ]} ]}.

(** @src pkg/modules/task/model.go:22-42 ValidateTransition *)
Definition ValidateTransition (from to : Status) : option error :=
  if bool_decide (from = to) && bool_decide (from = StatusRunning) then None
  else if bool_decide (to ∈ default ∅ (allowed !! from)) then None
  else Some (EWrap (from +:+ " -> " +:+ to) ErrInvalidTransition).

(** The statuses without outgoing transitions. *)
Definition terminal (s : Status) : bool :=
  bool_decide (s ∈ [StatusSucceeded; StatusFailed; StatusCancelled]).

(** @src pkg/modules/task/model.go:44-49 ParseStatus *)
Definition ParseStatus (value : string) : Status * bool :=
  (value, bool_decide (value ∈ [StatusQueued; StatusRunning; StatusSucceeded; StatusFailed; StatusCancelled])).

(** @src pkg/modules/task/model.go:51-60 ExecutionQuery *)
Record ExecutionQuery := mkExecutionQuery {
  query_TaskType : string; query_Status : Status; query_Page : Z; query_Size : Z }.

(** @src pkg/modules/task/model.go:62-64 Result *)
Record Result := mkResult { result_ProcessedRows : Z }.

(** @src pkg/modules/task/model.go:66-75 Definition *)
Record TDefinition := mkDefinition {
  defn_ID : string;
  defn_Name : string;
  defn_TaskType : string;
  defn_Description : string;
  defn_DefaultPayload : string;
  defn_MaxRetries : Z;
  defn_Timeout : Z;
  defn_Active : bool;
}.

(** @src pkg/modules/task/model.go:77-90 Execution *)
Record Execution := mkExecution {
  ex_ID : string;
  ex_DefinitionID : string;
  ex_TaskType : string;
  ex_QueueID : string;
  ex_IdempotencyKey : string;
  ex_Payload : string;
  ex_Status : Status;
  ex_Attempt : Z;
  ex_ProcessedRows : Z;
  ex_ErrorSummary : string;
  ex_StartedAt : option Z;
  ex_FinishedAt : option Z;
}.

(** @src pkg/modules/task/model.go:92-102 Schedule *)
Record Schedule := mkSchedule {
  sch_ID : string;
  sch_DefinitionID : string;
  sch_CronExpression : string;
  sch_Timezone : string;
  sch_Payload : string;
  sch_Enabled : bool;
  sch_TaskType : string;
  sch_MaxRetries : Z;
  sch_Timeout : Z;
}.

(** @src pkg/modules/task/model.go:104-108 Message *)
Record Message := mkMessage {
  msg_ExecutionID : string; msg_TaskType : string; msg_Payload : string }.

(** @src pkg/modules/task/model.go:110-116 PublishOptions *)
Record PublishOptions := mkPublishOptions {
  opt_QueueID : string;
  opt_MaxRetries : Z;
  opt_Timeout : Z;
  opt_UniqueFor : Z;
  opt_ProcessAfter : Z;
}.

(** ** Submissions ([service.go]) *)

(** @src pkg/modules/task/service.go:26-32 NewExecution *)
Record NewExecution := mkNewExecution {
  new_DefinitionID : string;
  new_TaskType : string;
  new_QueueID : string;
  new_IdempotencyKey : string;
  new_Payload : string;
}.

(** @src pkg/modules/task/service.go:34-44 ExecutionUpdate *)
Record ExecutionUpdate := mkExecutionUpdate {
  up_ID : string;
  up_Status : Status;
  up_StartedAt : option Z;
  up_FinishedAt : option Z;
  up_ErrorSummary : string;
  up_ProcessedRows : Z;
  up_Attempt : Z;
  up_ExpectedStatus : Status;
  up_ExpectedAttempt : Z;
}.

(** @src pkg/modules/task/service.go:53-57 PendingPublish *)
Record PendingPublish := mkPendingPublish {
  pp_ExecutionStatus : Status; pp_Message : Message; pp_Options : PublishOptions }.

(** @src pkg/modules/task/service.go:69-78 Submission *)
Record Submission := mkSubmission {
  sub_DefinitionID : string;
  sub_TaskType : string;
  sub_Payload : string;
  sub_IdempotencyKey : string;
  sub_MaxRetries : Z;
  sub_Timeout : Z;
  sub_UniqueFor : Z;
  sub_ProcessAfter : Z;
}.

(** @src pkg/modules/task/service.go:19-24 MaxSubmissionRetries *)
Definition MaxSubmissionRetries : Z := 25.
Definition MaxSubmissionTimeout : Z := 24 * Hour.
Definition MaxSubmissionUniqueFor : Z := 7 * 24 * Hour.
Definition MaxSubmissionProcessAfter : Z := 30 * 24 * Hour.

(** @src pkg/modules/task/service.go:266-287 ValidateSubmission *)
Definition ValidateSubmission (s : Submission) : option error :=
  let invalid msg := Some (EWrap msg ErrInvalidSubmission) in
  if sub_MaxRetries s <? 0 then invalid "retries must be non-negative"
  else if MaxSubmissionRetries <? sub_MaxRetries s then invalid "retries exceed 25"
  else if sub_Timeout s <=? 0 then invalid "timeout must be positive"
  else if MaxSubmissionTimeout <? sub_Timeout s then invalid "timeout exceeds 24h0m0s"
  else if sub_UniqueFor s <? 0 then invalid "unique window must be non-negative"
  else if MaxSubmissionUniqueFor <? sub_UniqueFor s then invalid "unique window exceeds 168h0m0s"
  else if sub_ProcessAfter s <? 0 then invalid "process-after delay must be non-negative"
  else if MaxSubmissionProcessAfter <? sub_ProcessAfter s then
    invalid "process-after delay exceeds 720h0m0s"
  else None.

(** The interfaces the services are written against. *)

(** @src pkg/modules/task/service.go:59-63 OutboxStore *)
Record OutboxStore (W : Type) := mkOutboxStore {
  CreateExecutionWithPendingPublish :
    Context -> NewExecution -> Message -> PublishOptions -> M W Execution;
  ListPendingPublishes : Context -> Z -> M W (list PendingPublish);
  MarkPublishSucceeded : Context -> string -> M W unit;
}.
Arguments CreateExecutionWithPendingPublish {W}.
Arguments ListPendingPublishes {W}.
Arguments MarkPublishSucceeded {W}.

(** [as_OutboxStore] is the outcome of the type assertion
    [store.(OutboxStore)].
    @src pkg/modules/task/service.go:46-51 ExecutionStore *)
Record ExecutionStore (W : Type) := mkExecutionStore {
  CreateExecution : Context -> NewExecution -> M W Execution;
  GetExecution : Context -> string -> M W Execution;
  ClaimExecution : Context -> string -> Z -> Z -> M W unit;
  UpdateExecution : Context -> ExecutionUpdate -> M W unit;
  as_OutboxStore : option (OutboxStore W);
}.
Arguments CreateExecution {W}.
Arguments GetExecution {W}.
Arguments ClaimExecution {W}.
Arguments UpdateExecution {W}.
Arguments as_OutboxStore {W}.

(** @src pkg/modules/task/service.go:65-67 Publisher *)
Definition Publisher (W : Type) : Type := Context -> Message -> PublishOptions -> M W unit.

(** @src pkg/modules/task/registry.go:16-18 Handler *)
Definition Handler (W : Type) : Type := Context -> string -> M W Result.

(** ** Handlers ([registry.go], [runtime_catalog.go])

    [H] is the type of non-nil handlers. *)
Section Catalog.
Context {H : Type}.

(** @src pkg/modules/task/registry.go:20-27 Registry *)
Definition Registry : Type := gmap string (option H).
Definition NewRegistry : Registry := ∅.

(** @src pkg/modules/task/registry.go:29-37 Register *)
Definition Register (taskType : string) (handler : option H) : M Registry unit := fun registry =>
  match registry !! taskType with
  | Some _ => (Err (EWrap taskType ErrHandlerRegistered), registry)
  | None => (Ok tt, <[taskType := handler]> registry)
  end.

(** @src pkg/modules/task/registry.go:39-47 Resolve *)
Definition Resolve (registry : Registry) (taskType : string) : res (option H) :=
  match registry !! taskType with
  | Some handler => Ok handler
  | None => Err (EWrap taskType ErrHandlerNotFound)
  end.

(** @src pkg/modules/task/runtime_catalog.go:12-15 TaskRegistration *)
Record TaskRegistration := mkRegistration { reg_TaskType : string; reg_Handler : option H }.

(** @src pkg/modules/task/runtime_catalog.go:17-20 TaskCatalog *)
Record TaskCatalog := mkCatalog { registrations : list TaskRegistration; types : gset string }.

(** The loop body of [NewTaskCatalog], on the catalog built so far. *)
Definition add_registration (r : TaskRegistration) : M TaskCatalog unit := fun catalog =>
  let taskType := TrimSpace (reg_TaskType r) in
  if is_empty taskType || bool_decide (reg_Handler r = None) then (Err ErrInvalidTaskCatalog, catalog)
  else if bool_decide (taskType ∈ types catalog) then
    (Err (EWrap ("duplicate task type " +:+ taskType) ErrInvalidTaskCatalog), catalog)
  else (Ok tt, mkCatalog (registrations catalog ++ [mkRegistration taskType (reg_Handler r)])
                 ({[ taskType ]} ∪ types catalog)).

(** @src pkg/modules/task/runtime_catalog.go:22-40 NewTaskCatalog *)
Definition NewTaskCatalog (rs : list TaskRegistration) : res TaskCatalog :=
  match for_each rs add_registration (mkCatalog [] ∅) with
  | (Ok _, catalog) => Ok catalog
  | (Err e, _) => Err e
  | (Panic, _) => Panic
  end.

(** @src pkg/modules/task/runtime_catalog.go:42-48 Contains *)
Definition Contains (catalog : option TaskCatalog) (taskType : string) : bool :=
  match catalog with
  | None => false
  | Some catalog => bool_decide (taskType ∈ types catalog)
  end.

(** @src pkg/modules/task/runtime_catalog.go:50-60 Types *)
Definition Types (catalog : option TaskCatalog) : list string :=
  match catalog with
  | None => []
  | Some catalog => order_by String.leb (map reg_TaskType (registrations catalog))
  end.

(** @src pkg/modules/task/runtime_catalog.go:62-72 RegisterHandlers *)
Definition RegisterHandlers (catalog : option TaskCatalog) (registry : option Registry) :
    res unit * option Registry :=
  match catalog, registry with
  | Some catalog, Some registry =>
      let '(r, registry) := for_each (registrations catalog)
        (fun r => Register (reg_TaskType r) (reg_Handler r)) registry in (r, Some registry)
  | _, _ => (Err ErrInvalidTaskCatalog, registry)
  end.

(** @src internal/app/task_catalog.go:21-27 newTaskRegistry *)
Definition newTaskRegistry (catalog : option TaskCatalog) : res Registry :=
  match RegisterHandlers catalog (Some NewRegistry) with
  | (Ok _, Some registry) => Ok registry
  | (Err e, _) => Err e
  | _ => Panic
  end.
End Catalog.
Arguments Registry : clear implicits.
Arguments TaskRegistration : clear implicits.
Arguments TaskCatalog : clear implicits.

(** ** The services *)
Section Services.
Context {W : Type} `{ErrorText}.
Variable ctx_err : Context -> W -> option LibErr.

(** @src pkg/modules/task/service.go:80-88 SubmissionService *)
Record SubmissionService := mkSubmissionService {
  svc_store : ExecutionStore W;
  svc_publisher : option (Publisher W);
  svc_newID : M W string;
  svc_now : M W Z;
}.

Definition call_publisher (p : option (Publisher W)) : Publisher W :=
  match p with Some p => p | None => fun _ _ _ => panic end.

(** @src pkg/modules/task/service.go:90-154 Submit *)
Definition Submit (service : SubmissionService) (ctx : Context) (s : Submission) : M W Execution :=
  _ ← of_option_error (ValidateSubmission s);
  queueID ← svc_newID service;
  let newExecution := mkNewExecution (sub_DefinitionID s) (sub_TaskType s) queueID
    (sub_IdempotencyKey s) (sub_Payload s) in
  let message id := mkMessage id (sub_TaskType s) (sub_Payload s) in
  let options := mkPublishOptions queueID (sub_MaxRetries s) (sub_Timeout s) (sub_UniqueFor s)
    (sub_ProcessAfter s) in
  match as_OutboxStore (svc_store service) with
  | Some outboxStore =>
      execution ← CreateExecutionWithPendingPublish outboxStore ctx newExecution (message "") options;
      _ ← match svc_publisher service with
          | Some publish =>
              r ← try (publish ctx (message (ex_ID execution)) options);
              when (is_ok r) (ignore (MarkPublishSucceeded outboxStore (Detached (5 * Second)) queueID))
          | None => mret tt
          end;
      mret execution
  | None =>
      execution ← CreateExecution (svc_store service) ctx newExecution;
      r ← try (call_publisher (svc_publisher service) ctx (message (ex_ID execution)) options);
      match r with
      | Err err =>
          match ValidateTransition (ex_Status execution) StatusFailed with
          | Some transitionErr => throw (EJoin (EWrap "publish task" err) transitionErr)
          | None =>
              finishedAt ← svc_now service;
              u ← try (UpdateExecution (svc_store service) (Detached (5 * Second))
                (mkExecutionUpdate (ex_ID execution) StatusFailed None (Some finishedAt) (Error err) 0 0
                   (ex_Status execution) (ex_Attempt execution)));
              match u with
              | Err updateErr =>
                  throw (EJoin (EWrap "publish task" err) (EWrap "mark task failed" updateErr))
              | _ => throw (EWrap "publish task" err)
              end
          end
      | _ => mret execution
      end
  end.

(** @src pkg/modules/task/service.go:156-173 Processor *)
Record Processor := mkProcessor {
  proc_store : ExecutionStore W;
  proc_registry : Registry (Handler W);
  proc_now : M W Z;
  proc_observer : option (string -> string -> Z -> M W unit);
}.

(** @src pkg/modules/task/service.go:260-264 observe *)
Definition observe (p : Processor) (taskType : string) (status : Status) (duration : Z) : M W unit :=
  match proc_observer p with
  | Some observer => observer taskType status duration
  | None => mret tt
  end.

(** A nil handler panics when it is called. *)
Definition Handle (handler : option (Handler W)) : Handler W :=
  match handler with Some h => h | None => fun _ _ => panic end.

(** The part of [Process] after the handler has returned [r].
    @src pkg/modules/task/service.go:193-229 Process *)
Definition finish (p : Processor) (ctx : Context) (message : Message) (attempt startedAt : Z)
    (r : res Result) : M W unit :=
  match r with
  | Ok result =>
      finishedAt ← proc_now p;
      _ ← wrap "mark task succeeded" (UpdateExecution (proc_store p) ctx
            (mkExecutionUpdate (msg_ExecutionID message) StatusSucceeded (Some startedAt)
               (Some finishedAt) "" (result_ProcessedRows result) attempt StatusRunning attempt));
      observe p (msg_TaskType message) StatusSucceeded (time_sub finishedAt startedAt)
  | Err err =>
      w ← get_world;
      if is_context_error (ctx_err ctx w) err then
        finishedAt ← proc_now p;
        u ← try (UpdateExecution (proc_store p) (Detached (5 * Second))
              (mkExecutionUpdate (msg_ExecutionID message) StatusCancelled None (Some finishedAt)
                 (Error err) 0 attempt StatusRunning attempt));
        match u with
        | Err updateErr => throw (EJoin err (EWrap "mark task cancelled" updateErr))
        | _ =>
            _ ← observe p (msg_TaskType message) StatusCancelled (time_sub finishedAt startedAt);
            throw err
        end
      else throw err
  | Panic => panic
  end.

(** @src pkg/modules/task/service.go:175-230 Process *)
Definition Process (p : Processor) (ctx : Context) (message : Message) (attempt : Z) : M W unit :=
  execution ← wrap "get task execution" (GetExecution (proc_store p) ctx (msg_ExecutionID message));
  _ ← of_option_error (ValidateTransition (ex_Status execution) StatusRunning);
  startedAt ← proc_now p;
  _ ← wrap "claim task execution"
        (ClaimExecution (proc_store p) ctx (msg_ExecutionID message) attempt startedAt);
  _ ← observe p (msg_TaskType message) StatusRunning 0;
  handler ← of_res (Resolve (proc_registry p) (msg_TaskType message));
  r ← try (Handle handler ctx (msg_Payload message));
  finish p ctx message attempt startedAt r.

(** @src pkg/modules/task/service.go:232-258 Fail *)
Definition Fail_ (p : Processor) (ctx : Context) (message : Message) (attempt : Z) (cause : error) :
    M W unit :=
  execution ← wrap "get task execution" (GetExecution (proc_store p) ctx (msg_ExecutionID message));
  _ ← of_option_error (ValidateTransition (ex_Status execution) StatusFailed);
  finishedAt ← proc_now p;
  _ ← wrap "mark task failed" (UpdateExecution (proc_store p) ctx
        (mkExecutionUpdate (msg_ExecutionID message) StatusFailed None (Some finishedAt)
           (Error cause) 0 attempt StatusRunning attempt));
  let duration := match ex_StartedAt execution with
                  | Some startedAt => time_sub finishedAt startedAt
                  | None => 0
                  end in
  observe p (msg_TaskType message) StatusFailed duration.

(** ** The two handlers of the repository *)

(** @src pkg/modules/task/scheduled_submission.go:12-18 ScheduledSubmission *)
Record ScheduledSubmission := mkScheduledSubmission {
  ss_DefinitionID : string;
  ss_TaskType : string;
  ss_Payload : string;
  ss_MaxRetries : Z;
  ss_Timeout : Z;
}.

(** What [encoding/json] makes of the payloads of these handlers. *)
Variable json_ScheduledSubmission : string -> res ScheduledSubmission.
Variable json_SystemTest : string -> res (Z * bool).

(** @src pkg/modules/task/scheduled_submission.go:25-35 Handle *)
Definition ScheduledSubmissionHandler_Handle (service : SubmissionService) : Handler W :=
  fun ctx payload =>
  request ← of_res (json_ScheduledSubmission payload);
  if is_empty (ss_DefinitionID request) || is_empty (ss_TaskType request) then
    throw (EText "scheduled submission requires definition and task type")
  else
    _ ← Submit service ctx (mkSubmission (ss_DefinitionID request) (ss_TaskType request)
          (ss_Payload request) "" (ss_MaxRetries request) (ss_Timeout request) 0 0);
    mret (mkResult 0).

(** @src pkg/modules/task/system_test_task.go:13-30 Handle *)
Definition SystemTestHandler_Handle : Handler W := fun ctx payload =>
  e ← gets (ctx_err ctx);
  match e with
  | Some e => throw (SLib e)
  | None =>
      request ← of_res (json_SystemTest payload);
      let '(processedRows, fail) := (request : Z * bool) in
      if fail then throw ErrSystemTestFailure else mret (mkResult processedRows)
  end.

(** ** The catalog of the processes ([task_catalog.go]) *)

(** @src pkg/modules/task/system_test_task.go:9-9 SystemTestTaskType *)
Definition SystemTestTaskType : string := "system.test".

(** The catalog is a package variable: an error is a panic when the process
    starts.
    @src internal/app/task_catalog.go:9-15 mustTaskCatalog *)
Definition mustTaskCatalog {H} (registrations : list (TaskRegistration H)) : res (TaskCatalog H) :=
  match NewTaskCatalog registrations with
  | Ok catalog => Ok catalog
  | _ => Panic
  end.

(** @src internal/app/task_catalog.go:5-7 runtimeTaskCatalog *)
Definition runtimeTaskCatalog : res (TaskCatalog (Handler W)) :=
  mustTaskCatalog [mkRegistration SystemTestTaskType (Some SystemTestHandler_Handle)].

(** @src internal/app/task_catalog.go:17-19 RuntimeTaskTypes *)
Definition RuntimeTaskTypes (catalog : TaskCatalog (Handler W)) : list string := Types (Some catalog).
End Services.
Arguments SubmissionService : clear implicits.
Arguments Processor : clear implicits.

(** ** The state machine *)

(** The transitions as a relation. *)
Inductive transition : Status -> Status -> Prop :=
  | queued_running : transition StatusQueued StatusRunning
  | queued_failed : transition StatusQueued StatusFailed
  | queued_cancelled : transition StatusQueued StatusCancelled
  | running_running : transition StatusRunning StatusRunning
  | running_succeeded : transition StatusRunning StatusSucceeded
  | running_failed : transition StatusRunning StatusFailed
  | running_cancelled : transition StatusRunning StatusCancelled.

Lemma allowed_lookup from to :
  to ∈ default ∅ (allowed !! from) <->
  (from = StatusQueued /\ to ∈ ({[ StatusRunning; StatusFailed; StatusCancelled ]} : gset Status)) \/
  (from = StatusRunning /\ to ∈ ({[ StatusSucceeded; StatusFailed; StatusCancelled ]} : gset Status)).
Proof.
  unfold allowed. destruct (decide (from = StatusQueued)) as [->|Hq].
  { split; [by left|]. by intros [[_ ?]|[? _]]. }
  rewrite lookup_insert_ne by congruence.
  destruct (decide (from = StatusRunning)) as [->|Hr].
  { rewrite lookup_singleton_eq. split; [by right|]. by intros [[? _]|[_ ?]]. }
  rewrite lookup_singleton_ne by congruence. simpl. split; [set_solver|]. by intros [[? _]|[? _]].
Qed.

Lemma ValidateTransition_transition from to :
  ValidateTransition from to = None <-> transition from to.
Proof.
  unfold ValidateTransition. split.
  - case_match eqn:E1; bool_prop; [|case_match eqn:E2; [|done]]; intros _.
    + simplify_eq. constructor.
    + bool_prop. apply allowed_lookup in E2 as [[-> Ht]|[-> Ht]];
        rewrite !elem_of_union, !elem_of_singleton in Ht;
        destruct Ht as [[-> | ->]| ->]; constructor.
  - destruct 1; reflexivity.
Qed.

Lemma ValidateTransition_error from to e :
  ValidateTransition from to = Some e -> e = EWrap (from +:+ " -> " +:+ to) ErrInvalidTransition.
Proof. unfold ValidateTransition. do 2 (case_match; [done|]). by intros [= <-]. Qed.

Lemma transition_not_terminal from to : transition from to -> terminal from = false.
Proof. by destruct 1. Qed.

Lemma transition_not_queued from to : transition from to -> to <> StatusQueued.
Proof. by destruct 1. Qed.

(** [ValidateTransition] accepts exactly the transitions of the execution
    state machine: queued to running, failed or cancelled, running to itself
    (a retry) or to a terminal status, and nothing from a terminal status or
    from a text that is no status; [ParseStatus] recognises exactly the
    statuses the machine moves between, and every rejection is an
    [ErrInvalidTransition]. *)
Theorem ValidateTransition_machine from to :
  (ValidateTransition from to = None <-> transition from to) /\
  (ValidateTransition from to = None -> (ParseStatus from).2 = true /\ (ParseStatus to).2 = true /\
     terminal from = false /\ to <> StatusQueued) /\
  ((ParseStatus from).2 = true -> terminal from = false -> exists to, ValidateTransition from to = None) /\
  (forall e, ValidateTransition from to = Some e -> errors_is ErrInvalidTransition e = true).
Proof.
  split_and!.
  - apply ValidateTransition_transition.
  - intros Ht%ValidateTransition_transition. destruct Ht; split_and!; reflexivity || discriminate.
  - unfold ParseStatus, terminal. simpl. intros Hp Ht. bool_prop.
    exists StatusFailed. apply ValidateTransition_transition.
    do 2 rewrite elem_of_cons in Hp.
    destruct Hp as [->|[->|Hp]]; [apply queued_failed|apply running_failed|done].
  - by intros e ->%ValidateTransition_error.
Qed.

Lemma ValidateTransition_machine_witness :
  ValidateTransition "running" "succeeded" = None /\ ValidateTransition "failed" "running" <> None /\
  exists to, ValidateTransition "running" to = None.
Proof.
  split_and!; [reflexivity|discriminate|].
  apply (ValidateTransition_machine "running" ""); reflexivity.
Defined.

(** ** Submissions fit the columns they are stored in *)
Lemma ValidateSubmission_bounds s :
  ValidateSubmission s = None ->
  0 <= sub_MaxRetries s <= 25 /\ 0 < sub_Timeout s <= MaxSubmissionTimeout /\
  0 <= sub_UniqueFor s <= MaxSubmissionUniqueFor /\ 0 <= sub_ProcessAfter s <= MaxSubmissionProcessAfter.
Proof.
  unfold ValidateSubmission, MaxSubmissionRetries. cbv zeta.
  repeat (case_match; [discriminate|]); bool_prop; intros _; lia.
Qed.

(** ** Catalogs and registries *)
Section Catalogs.
Context {H : Type}.

Record catalog_ok (c : TaskCatalog H) : Prop := {
  catalog_types : types c = list_to_set (map reg_TaskType (registrations c));
  catalog_nodup : NoDup (map reg_TaskType (registrations c));
  catalog_handlers : Forall (fun r => reg_Handler r <> None /\ reg_TaskType r <> "") (registrations c);
}.

Lemma add_registration_ok (r : TaskRegistration H) : within (keeps catalog_ok) (add_registration r).
Proof.
  intros c [Ht Hn Hh]. unfold add_registration.
  destruct (is_empty _) eqn:He; [done|]. apply is_empty_false in He. simpl.
  destruct (bool_decide_reflect (reg_Handler r = None)) as [Hr|Hr]; [done|].
  destruct (bool_decide_reflect (TrimSpace (reg_TaskType r) ∈ types c)) as [Hin|Hin]; [done|].
  rewrite Ht in Hin. apply not_elem_of_list_to_set in Hin. split; simpl.
  - rewrite map_app, list_to_set_app_L, Ht. simpl. by rewrite union_empty_r_L, union_comm_L.
  - rewrite map_app. simpl. apply NoDup_app. split_and!; [done| |apply NoDup_singleton].
    intros t Hin1 ->%list_elem_of_singleton. done.
  - apply Forall_app. split; [done|]. constructor; [done|constructor].
Qed.

Lemma NewTaskCatalog_ok rs (c : TaskCatalog H) : NewTaskCatalog rs = Ok c -> catalog_ok c.
Proof.
  unfold NewTaskCatalog. destruct (for_each _ _ _) as [[[]|e|] c1] eqn:E; intros [= <-].
  eapply (within_run (keeps catalog_ok)); [|exact E|].
  - apply within_for_each; [apply _|]. apply add_registration_ok.
  - split; [done|constructor|constructor].
Qed.

(** Registering a list of distinct types that are not registered yet. *)
Lemma Register_all (l : list (TaskRegistration H)) (registry : Registry H) :
  NoDup (map reg_TaskType l) -> (forall r, r ∈ l -> registry !! reg_TaskType r = None) ->
  exists registry', for_each l (fun r => Register (reg_TaskType r) (reg_Handler r)) registry =
      (Ok tt, registry') /\
    forall t, registry' !! t =
      match list_find (fun r => reg_TaskType r = t) l with
      | Some (_, r) => Some (reg_Handler r)
      | None => registry !! t
      end.
Proof.
  revert registry. induction l as [|r l IH]; intros registry Hn Hf; simpl; [by exists registry|].
  apply NoDup_cons in Hn as [Hr Hn]. rewrite M_bind_run. unfold Register at 1.
  rewrite Hf by left.
  destruct (IH (<[reg_TaskType r:=reg_Handler r]> registry)) as (registry' & E & Hl); [done| |].
  { intros r' Hr'. unfold Registry. rewrite lookup_insert_ne; [apply Hf; by right|].
    intros Heq. apply Hr. rewrite Heq. apply list_elem_of_fmap. eauto. }
  exists registry'. split; [exact E|]. intros t. rewrite Hl.
  destruct (decide (reg_TaskType r = t)) as [Ht|Ht].
  - assert (list_find (fun r => reg_TaskType r = t) l = None) as ->.
    { apply list_find_None, Forall_forall. intros r' Hr' Ht'. apply Hr.
      rewrite Ht, <- Ht'. apply list_elem_of_fmap. eauto. }
    unfold Registry. by rewrite Ht, lookup_insert_eq.
  - destruct (list_find _ l) as [[i r']|]; [done|]. simpl. unfold Registry. by rewrite lookup_insert_ne.
Qed.
End Catalogs.

(** A catalog that [NewTaskCatalog] accepts can always be registered, and
    the registry then resolves exactly the task types of the catalog, each to
    a handler that is not nil; its types are distinct and none is blank. *)
Theorem catalog_registers {H} (rs : list (TaskRegistration H)) c :
  NewTaskCatalog rs = Ok c ->
  NoDup (Types (Some c)) /\ ("" ∉ Types (Some c)) /\
  exists registry, newTaskRegistry (Some c) = Ok registry /\
    forall t, (t ∈ Types (Some c) <-> Contains (Some c) t = true) /\
      (Contains (Some c) t = true <-> (exists h, Resolve registry t = Ok (Some h))) /\
      (Contains (Some c) t = false <-> Resolve registry t = Err (EWrap t ErrHandlerNotFound)).
Proof.
  intros [Ht Hn Hh]%NewTaskCatalog_ok. simpl.
  assert (forall t, t ∈ order_by String.leb (map reg_TaskType (registrations c)) <->
            t ∈ map reg_TaskType (registrations c)) as Hin by (intros; apply elem_of_order_by).
  rewrite Forall_forall in Hh. split_and!.
  { unfold order_by. by rewrite merge_sort_Permutation. }
  { rewrite Hin, list_elem_of_fmap. intros (r & Hr & Hrin). by apply (Hh r Hrin). }
  destruct (Register_all (registrations c) NewRegistry Hn) as (registry & E & Hl).
  { by intros r _. }
  exists registry. unfold newTaskRegistry, RegisterHandlers. rewrite E. split; [done|].
  intros t. rewrite Ht, bool_decide_eq_true, bool_decide_eq_false, Hin, elem_of_list_to_set.
  split; [done|]. unfold Resolve. rewrite Hl.
  destruct (list_find _ (registrations c)) as [[i r]|] eqn:Ef.
  - apply list_find_Some in Ef as (Hi & Hr & _). apply list_elem_of_lookup_2 in Hi.
    assert (t ∈ map reg_TaskType (registrations c)) as Hint by (apply list_elem_of_fmap; eauto).
    destruct (Hh r Hi) as [Hnn _]. destruct (reg_Handler r) as [h|]; [|done].
    split; [split; [eauto|done]|]. by split.
  - assert (t ∉ map reg_TaskType (registrations c)) as Hnot.
    { intros (r & Hr & Hrin)%list_elem_of_fmap. apply list_find_None in Ef.
      rewrite Forall_forall in Ef. by apply (Ef r Hrin). }
    change (NewRegistry !! t) with (@None (option H)). split; split; try done. by intros [? ?].
Qed.

Lemma catalog_registers_witness :
  exists c, NewTaskCatalog [mkRegistration " system.test " (Some 1%Z); mkRegistration "a.b" (Some 2%Z)] = Ok c /\
    Types (Some c) = ["a.b"; "system.test"] /\
    exists registry, newTaskRegistry (Some c) = Ok registry /\ exists h, Resolve registry "a.b" = Ok (Some h).
Proof.
  eexists. split; [reflexivity|]. split; [reflexivity|].
  destruct (catalog_registers [mkRegistration " system.test " (Some 1%Z); mkRegistration "a.b" (Some 2%Z)] _
    eq_refl) as (_ & _ & registry & E & Hr).
  exists registry. split; [exact E|]. apply (Hr "a.b"). reflexivity.
Defined.
