(* ===== verification/TaskStore.v ===== *)
(** * The PostgreSQL stores of the task module
    ([pkg/platform/database/taskstore/postgres.go])

    The stores convert between the rows of [TaskSQL] and the records of
    [Task], and run one statement per operation on a server [Pg W TaskDB].
    The end of the file states what every statement the stores run does to an
    execution: the step relation [task_step]. *)
From S2P Require Import Prelude GoStrings Pagination Postgres TaskSQL Task.

(** ** Identifiers and nullable columns *)

(** @src pkg/platform/database/taskstore/postgres.go:315-324 parseUUID *)
Definition parseUUID (value : string) : res string :=
  match hex_decode (remove_dashes (bytes value)) with
  | Some decoded =>
      if (length decoded =? 16)%nat then Ok (of_bytes decoded) else Err (EText ("invalid UUID " +:+ value))
  | None => Err (EText ("invalid UUID " +:+ value))
  end.

(** @src pkg/platform/database/taskstore/postgres.go:326-331 nullableUUID *)
Definition nullableUUID (value : string) : res (option string) :=
  if is_empty value then Ok None
  else match parseUUID value with Ok id => Ok (Some id) | Err e => Err e | Panic => Panic end.

(** @src pkg/platform/database/taskstore/postgres.go:333-339 formatUUID *)
Definition formatUUID (value : option string) : string :=
  match value with
  | None => ""
  | Some id => of_bytes (format_bytes (hex_encode (bytes id)))
  end.

(** @src pkg/platform/database/taskstore/postgres.go:341-343 nullableText *)
Definition nullableText (value : string) : option string :=
  if is_empty value then None else Some value.

(** @src pkg/platform/database/taskstore/postgres.go:345-350 textValue *)
Definition textValue (value : option string) : string := default "" value.

(** @src pkg/platform/database/taskstore/postgres.go:302-313 mapExecutionWriteError *)
Definition mapExecutionWriteError (err : error) (idempotencyKey : string) : error :=
  match pg_code err with
  | Some "23505" => EWrap idempotencyKey ErrDuplicateSubmission
  | Some "23503" => ErrDefinitionNotFound
  | _ => err
  end.

(** Whole seconds of a duration as an [int32]: [int32(d / time.Second)]. *)
Definition seconds (d : Z) : Z := int32 (Z.quot d Second).
(** [time.Duration(n) * time.Second] *)
Definition from_seconds (n : Z) : Z := int64 (n * Second).

(** @src pkg/platform/database/taskstore/postgres.go:258-269 definitionFromRow *)
Definition definitionFromRow (row : TaskDefinition) : TDefinition :=
  mkDefinition (formatUUID (Some (td_ID row))) (td_Name row) (td_TaskType row) (td_Description row)
    (td_DefaultPayload row) (td_MaxRetries row) (from_seconds (td_TimeoutSeconds row)) (td_IsActive row).

(** @src pkg/platform/database/taskstore/postgres.go:271-286 executionFromRow *)
Definition executionFromRow (row : TaskExecution) : Execution :=
  mkExecution (formatUUID (Some (te_ID row))) (formatUUID (te_DefinitionID row)) (te_TaskType row)
    (textValue (te_QueueID row)) (textValue (te_IdempotencyKey row)) (te_Payload row) (te_Status row)
    (te_Attempt row) (te_ProcessedRows row) (textValue (te_ErrorSummary row)) (te_StartedAt row)
    (te_FinishedAt row).

(** @src pkg/platform/database/taskstore/postgres.go:288-300 createExecutionParams *)
Definition createExecutionParams (e : NewExecution) : res CreateTaskExecutionParams :=
  match nullableUUID (new_DefinitionID e) with
  | Ok definitionID => Ok (mkCreate definitionID (new_TaskType e) (nullableText (new_QueueID e))
                            (nullableText (new_IdempotencyKey e)) (new_Payload e))
  | Err err => Err err
  | Panic => Panic
  end.

(** A row of [ListPendingPublishes]. *)
Definition pendingFromRow (row : string * TaskOutboxMessage) : PendingPublish :=
  let '(status, m) := row in
  mkPendingPublish status
    (mkMessage (formatUUID (Some (om_ExecutionID m))) (om_TaskType m) (om_Payload m))
    (mkPublishOptions (om_QueueID m) (om_MaxRetries m) (from_seconds (om_TimeoutSeconds m))
       (from_seconds (om_UniqueForSeconds m)) (from_seconds (om_ProcessAfterSeconds m))).

Definition scheduleFromRow (row : TaskSchedule * TaskDefinition) : Schedule :=
  let '(s, t) := row in
  mkSchedule (formatUUID (Some (ts_ID s))) (formatUUID (Some (ts_DefinitionID s))) (ts_CronExpression s)
    (ts_Timezone s) (ts_Payload s) (ts_IsEnabled s) (td_TaskType t) (td_MaxRetries t)
    (from_seconds (td_TimeoutSeconds t)).

(** ** The stores *)
Section Stores.
Context {W : Type} `{Pg W TaskDB} `{Jsonb} `{Collation}.
Variable ctx_err : Context -> W -> option LibErr.

(** A query under a context: the driver refuses to start one that is done. *)
Definition query {A} (ctx : Context) (s : stmt TaskDB A) : M W A := fun w =>
  match ctx_err ctx w with
  | Some e => (Err (SLib e), w)
  | None => pg_exec s w
  end.

(** The error of a write, mapped. *)
Definition map_write_error {A} (idempotencyKey : string) (m : M W A) : M W A := fun w =>
  match m w with
  | (Err e, w') => (Err (mapExecutionWriteError e idempotencyKey), w')
  | (r, w') => (r, w')
  end.

(** @src pkg/modules/task/catalog.go:9-16 NewDefinition *)
Record NewDefinition := mkNewDefinition {
  nd_Name : string;
  nd_TaskType : string;
  nd_Description : string;
  nd_DefaultPayload : string;
  nd_MaxRetries : Z;
  nd_Timeout : Z;
}.

(** @src pkg/platform/database/taskstore/postgres.go:32-45 CreateDefinition *)
Definition CreateDefinition (ctx : Context) (d : NewDefinition) : M W TDefinition :=
  row ← query ctx (CreateTaskDefinition (mkCreateDefinition (nd_Name d) (nd_TaskType d)
          (nd_Description d) (nd_DefaultPayload d) (int32 (nd_MaxRetries d)) (seconds (nd_Timeout d))));
  mret (definitionFromRow row).

(** @src pkg/platform/database/taskstore/postgres.go:67-77 CreateExecution *)
Definition store_CreateExecution (ctx : Context) (e : NewExecution) : M W Execution :=
  params ← of_res (createExecutionParams e);
  row ← map_write_error (new_IdempotencyKey e) (query ctx (CreateTaskExecution params));
  mret (executionFromRow row).

(** @src pkg/platform/database/taskstore/postgres.go:83-108 CreateExecutionWithPendingPublish *)
Definition store_CreateExecutionWithPendingPublish (ctx : Context) (e : NewExecution) (_ : Message)
    (options : PublishOptions) : M W Execution :=
  definitionID ← of_res (nullableUUID (new_DefinitionID e));
  row ← map_write_error (new_IdempotencyKey e)
          (query ctx (CreateTaskExecutionWithPendingPublish
             (mkCreatePending
                (mkCreate definitionID (new_TaskType e) (nullableText (opt_QueueID options))
                   (nullableText (new_IdempotencyKey e)) (new_Payload e))
                (int32 (opt_MaxRetries options)) (seconds (opt_Timeout options))
                (seconds (opt_UniqueFor options)) (seconds (opt_ProcessAfter options)))));
  mret (executionFromRow row).

(** @src pkg/platform/database/taskstore/postgres.go:110-123 GetExecution *)
Definition store_GetExecution (ctx : Context) (id : string) : M W Execution :=
  match parseUUID id with
  | Ok executionID =>
      r ← try (query ctx (GetTaskExecution executionID));
      match r with
      | Ok row => mret (executionFromRow row)
      | Err err => if errors_is PgxNoRows err then throw ErrExecutionNotFound else throw err
      | Panic => panic
      end
  | _ => throw ErrExecutionNotFound
  end.

(** @src pkg/platform/database/taskstore/postgres.go:125-148 ListExecutions *)
Definition ListExecutions (ctx : Context) (q : ExecutionQuery) : M W (PageOf Execution) :=
  let '(page, size) := Normalize (query_Page q) (query_Size q) in
  let filter := mkFilterParams (nullableText (query_TaskType q)) (nullableText (query_Status q)) in
  rows ← query ctx (ListTaskExecutions filter (int32 (int64 ((page - 1) * size))) (int32 size));
  total ← query ctx (CountTaskExecutions filter);
  mret (New (Some (map executionFromRow rows)) page size total).

(** @src pkg/platform/database/taskstore/postgres.go:150-167 ClaimExecution *)
Definition store_ClaimExecution (ctx : Context) (id : string) (attempt startedAt : Z) : M W unit :=
  executionID ← of_res (parseUUID id);
  rows ← query ctx (ClaimTaskExecution (mkClaim executionID (int32 attempt) (Some startedAt)));
  if rows =? 0 then throw ErrExecutionConflict else mret tt.

(** @src pkg/platform/database/taskstore/postgres.go:169-192 UpdateExecution *)
Definition store_UpdateExecution (ctx : Context) (u : ExecutionUpdate) : M W unit :=
  executionID ← of_res (parseUUID (up_ID u));
  rows ← query ctx (UpdateTaskExecutionStatus
    (mkUpdate (up_Status u) (up_StartedAt u) (up_FinishedAt u) (nullableText (up_ErrorSummary u))
       (up_ProcessedRows u) (int32 (up_Attempt u)) executionID (up_ExpectedStatus u)
       (int32 (up_ExpectedAttempt u))));
  if rows =? 0 then throw ErrExecutionConflict else mret tt.

(** @src pkg/platform/database/taskstore/postgres.go:194-218 ListPendingPublishes *)
Definition store_ListPendingPublishes (ctx : Context) (limit : Z) : M W (list PendingPublish) :=
  rows ← query ctx (ListPendingTaskOutboxMessages (int32 limit));
  mret (map pendingFromRow rows).

(** @src pkg/platform/database/taskstore/postgres.go:220-222 MarkPublishSucceeded *)
Definition store_MarkPublishSucceeded (ctx : Context) (queueID : string) : M W unit :=
  query ctx (MarkTaskOutboxMessagePublished queueID).

(** @src pkg/platform/database/taskstore/postgres.go:236-256 ListEnabledSchedules *)
Definition ListEnabledSchedules (ctx : Context) : M W (list Schedule) :=
  rows ← query ctx ListEnabledTaskSchedules;
  mret (map scheduleFromRow rows).

(** The PostgreSQL store implements both interfaces of the service.
    @src pkg/platform/database/taskstore/postgres.go:59-65 PostgresExecutionStore *)
Definition PostgresOutboxStore : OutboxStore W :=
  mkOutboxStore W store_CreateExecutionWithPendingPublish store_ListPendingPublishes
    store_MarkPublishSucceeded.
Definition PostgresExecutionStore : ExecutionStore W :=
  mkExecutionStore W store_CreateExecution store_GetExecution store_ClaimExecution
    store_UpdateExecution (Some PostgresOutboxStore).
End Stores.

(** ** The steps of the task tables

    [task_step d d'] holds when one statement of the stores, run with
    parameters the services can pass it, changes the tables from [d] to
    [d'].  A status update is only issued for a pair of statuses that
    [ValidateTransition] accepts, the second of them terminal. *)
Inductive task_step `{Jsonb} : TaskDB -> TaskDB -> Prop :=
  | step_definition p env d t d' :
      CreateTaskDefinition p env d = Ok (t, d') -> task_step d d'
  | step_create p env d e d' : env_ok env ->
      CreateTaskExecution p env d = Ok (e, d') -> task_step d d'
  | step_create_pending p env d e d' : env_ok env ->
      CreateTaskExecutionWithPendingPublish p env d = Ok (e, d') -> task_step d d'
  | step_claim p env d n d' :
      ClaimTaskExecution p env d = Ok (n, d') -> task_step d d'
  | step_update p env d n d' :
      ValidateTransition (upd_ExpectedStatus p) (upd_Status p) = None ->
      terminal (upd_Status p) = true ->
      UpdateTaskExecutionStatus p env d = Ok (n, d') -> task_step d d'
  | step_mark queueID env d d' :
      MarkTaskOutboxMessagePublished queueID env d = Ok (tt, d') -> task_step d d'.

Definition task_steps `{Jsonb} : TaskDB -> TaskDB -> Prop := rtc task_step.

(** ** Lemmas *)
Lemma nullableText_Some v t : nullableText v = Some t -> t = v /\ t <> "".
Proof.
  unfold nullableText. destruct (is_empty v) eqn:E; [done|]. intros [= <-].
  by apply is_empty_false in E.
Qed.

(** *** Identifiers *)
Lemma parse_format id : uuid_ok id -> parseUUID (formatUUID (Some id)) = Ok id.
Proof.
  unfold uuid_ok. intros Hid. unfold parseUUID, formatUUID. rewrite bytes_of_bytes.
  assert (length (bytes id) = 16%nat) as Hl by (pose proof (len_bytes id); unfold len in *; lia).
  rewrite remove_dashes_format; [|rewrite length_hex_encode; lia|apply hex_encode_no_dash].
  rewrite hex_decode_encode, Hl. simpl. by rewrite of_bytes_bytes.
Qed.

(** Identifiers survive the round trip between the database and the
    services: parsing the text of a UUID gives it back, an accepted text
    always denotes sixteen bytes, whatever its dashes and the case of its
    digits, and a text with any other decoding is rejected. *)
Theorem uuid_roundtrip id value :
  (uuid_ok id -> parseUUID (formatUUID (Some id)) = Ok id /\ len (formatUUID (Some id)) = 36) /\
  match parseUUID value with
  | Ok id' => uuid_ok id' /\ hex_decode (remove_dashes (bytes value)) = Some (bytes id')
  | Err _ => forall l, hex_decode (remove_dashes (bytes value)) = Some l -> length l <> 16%nat
  | Panic => False
  end.
Proof.
  split.
  - intros Hid. split; [by apply parse_format|].
    unfold formatUUID. rewrite len_bytes, bytes_of_bytes. unfold uuid_ok in Hid.
    assert (length (hex_encode (bytes id)) = 32%nat) as Hl
      by (rewrite length_hex_encode; pose proof (len_bytes id); unfold len in *; lia).
    unfold format_bytes, slice.
    repeat first [rewrite length_app | rewrite length_cons | rewrite length_take | rewrite length_drop].
    by rewrite Hl.
  - unfold parseUUID. destruct (hex_decode _) as [l|]; [|done].
    destruct (length l =? 16)%nat eqn:E; [|intros ? [= <-]; by apply Nat.eqb_neq in E].
    apply Nat.eqb_eq in E. split; [|by rewrite bytes_of_bytes].
    unfold uuid_ok. pose proof (len_bytes (of_bytes l)) as Hl. rewrite bytes_of_bytes in Hl.
    unfold len in Hl. lia.
Qed.

Lemma uuid_roundtrip_witness :
  formatUUID (Some "0123456789abcdef") = "30313233-3435-3637-3839-616263646566" /\
  parseUUID (formatUUID (Some "0123456789abcdef")) = Ok "0123456789abcdef" /\
  is_err (parseUUID "30313233") = true.
Proof.
  split_and!; [reflexivity| |reflexivity].
  apply (uuid_roundtrip "0123456789abcdef" ""). reflexivity.
Defined.

(** An accepted submission fits the columns of the outbox: its retries
    and its durations, in whole seconds, are stored without overflow, and a
    redelivery from the outbox has the retries of the submission and its
    durations rounded down to the second. *)
Theorem submission_fits_outbox s q status eid taskType payload now :
  ValidateSubmission s = None ->
  let m := mkTaskOutboxMessage q eid taskType payload (int32 (sub_MaxRetries s)) (seconds (sub_Timeout s))
             (seconds (sub_UniqueFor s)) (seconds (sub_ProcessAfter s)) None now now in
  let o := pp_Options (pendingFromRow (status, m)) in
  opt_MaxRetries o = sub_MaxRetries s /\
  opt_Timeout o = sub_Timeout s - sub_Timeout s mod Second /\
  opt_UniqueFor o = sub_UniqueFor s - sub_UniqueFor s mod Second /\
  opt_ProcessAfter o = sub_ProcessAfter s - sub_ProcessAfter s mod Second.
Proof.
  intros Hv%ValidateSubmission_bounds. simpl.
  assert (forall d, 0 <= d <= MaxSubmissionProcessAfter -> from_seconds (seconds d) = d - d mod Second) as Hd.
  { intros d Hd. unfold from_seconds, seconds. unfold MaxSubmissionProcessAfter, Hour, Minute, Second in *.
    rewrite Z.quot_div_nonneg by lia.
    pose proof (Z.div_mod d 1000000000). pose proof (Z.mod_pos_bound d 1000000000).
    rewrite int32_id by (unfold in_int32; lia).
    rewrite int64_id by (unfold in_int64, min_int64, max_int64; lia). lia. }
  unfold MaxSubmissionTimeout, MaxSubmissionUniqueFor, MaxSubmissionProcessAfter, Hour, Minute, Second in *.
  split_and!; [apply int32_id; unfold in_int32; lia|apply Hd; lia..].
Qed.

Lemma submission_fits_outbox_witness :
  seconds 1500000000 = 1 /\
  from_seconds (seconds (MaxSubmissionProcessAfter + 999999999 - 1000000000)) =
    MaxSubmissionProcessAfter - Second.
Proof.
  split; [reflexivity|].
  destruct (submission_fits_outbox (mkSubmission "" "t" "{}" "" 3 Minute 0 (MaxSubmissionProcessAfter - 1))
    "q" "queued" "e" "t" "{}" 0) as (_ & _ & _ & H); [reflexivity|exact H].
Defined.

(** *** The life of an execution row *)
Definition identity (e : TaskExecution) :=
  (te_ID e, te_DefinitionID e, te_TaskType e, te_QueueID e, te_IdempotencyKey e, te_Payload e,
   te_QueuedAt e, te_CreatedAt e).

Record evolves (e e' : TaskExecution) : Prop := {
  evolves_identity : identity e' = identity e;
  evolves_status : rtc transition (te_Status e) (te_Status e');
  evolves_terminal : terminal (te_Status e) = true -> e' = e;
  evolves_attempt : terminal (te_Status e') = true \/ te_Attempt e <= te_Attempt e';
}.

#[export] Instance evolves_preorder : PreOrder evolves.
Proof.
  split.
  - intros e. split; [done|done|done|right; lia].
  - intros x y z [Hi1 Hs1 Ht1 Ha1] [Hi2 Hs2 Ht2 Ha2]. split.
    + congruence.
    + by etransitivity.
    + intros Ht. specialize (Ht1 Ht). subst y. by apply Ht2.
    + destruct Ha2 as [?|Ha2]; [by left|]. destruct Ha1 as [Ht|Ha1]; [|right; lia].
      left. by rewrite (Ht2 Ht).
Qed.

(** Every execution of [d] is in [d'], evolved. *)
Definition history (d d' : TaskDB) : Prop :=
  forall id e, task_executions d !! id = Some e ->
    exists e', task_executions d' !! id = Some e' /\ evolves e e'.

#[export] Instance history_preorder : PreOrder history.
Proof.
  split; [intros d id e; by exists e|]. intros x y z H1 H2 id e He.
  destruct (H1 id e He) as (e1 & He1 & Hev1). destruct (H2 id e1 He1) as (e2 & He2 & Hev2).
  exists e2. split; [done|by etransitivity].
Qed.

Lemma history_insert d id e' :
  (forall e, task_executions d !! id = Some e -> evolves e e') ->
  history d (with_executions <[id := e']> d).
Proof.
  intros Hev i e He. simpl. destruct (decide (i = id)) as [->|Hne].
  - rewrite lookup_insert_eq. eauto.
  - rewrite lookup_insert_ne by done. by exists e.
Qed.

Lemma history_executions d d' : task_executions d' = task_executions d -> history d d'.
Proof. intros E id e He. rewrite E. by exists e. Qed.

Lemma claimed_evolves p now e : claimable p e = true -> evolves e (claimed p now e).
Proof.
  unfold claimable. intros Hc. bool_prop.
  assert (transition (te_Status e) StatusRunning) as Ht.
  { rewrite !elem_of_cons in *. destruct H as [->|[->|?]]; [apply queued_running|apply running_running|].
    by apply not_elem_of_nil in H. }
  split; [done|by apply rtc_once| |right; simpl; lia].
  intros Hterm. apply transition_not_terminal in Ht. congruence.
Qed.

Lemma updated_evolves p now e :
  ValidateTransition (upd_ExpectedStatus p) (upd_Status p) = None ->
  terminal (upd_Status p) = true -> updatable p e = true -> evolves e (updated p now e).
Proof.
  unfold updatable. intros Ht%ValidateTransition_transition Hterm Hu. bool_prop. subst.
  rewrite <- H in Ht. split; [done|by apply rtc_once| |by left].
  intros Hterm'. apply transition_not_terminal in Ht. congruence.
Qed.

Lemma task_step_history `{Jsonb} d d' : task_step d d' -> history d d'.
Proof.
  destruct 1 as [p env d t d' Hs|p env d e d' _ Hs|p env d e d' _ Hs|p env d n d' Hs
    |p env d n d' Hv Ht Hs|queueID env d d' Hs].
  - apply CreateTaskDefinition_effect in Hs as [Hs _]. by apply history_executions.
  - apply CreateTaskExecution_effect in Hs as (_ & _ & _ & Hf & ->).
    apply history_insert. intros e1 He1. congruence.
  - apply CreatePending_effect in Hs as (d1 & q & Hs & _ & _ & ->).
    apply CreateTaskExecution_effect in Hs as (_ & _ & _ & Hf & ->).
    transitivity (with_executions <[te_ID e:=e]> d); [|by apply history_executions].
    apply history_insert. intros e1 He1. congruence.
  - apply ClaimTaskExecution_effect in Hs as [(-> & -> & _)|(e & -> & He & Hc & ->)]; [done|].
    apply history_insert. intros e1 He1. simplify_eq. by apply claimed_evolves.
  - apply UpdateTaskExecutionStatus_effect in Hs as [(-> & -> & _)|(e & -> & He & Hc & ->)]; [done|].
    apply history_insert. intros e1 He1. simplify_eq. by apply updated_evolves.
  - apply MarkPublished_effect in Hs as [Hs _]. by apply history_executions.
Qed.

Lemma task_steps_history `{Jsonb} d d' : task_steps d d' -> history d d'.
Proof. induction 1; [done|]. etransitivity; [by apply task_step_history|done]. Qed.

(** Under every interleaving of the statements the services issue, from
    any number of workers and API servers, an execution is never lost, its
    identity never changes, its status only moves along the transitions of the
    state machine, its attempt never decreases before it is done, and a done
    execution is frozen: no statement changes any column of its row. *)
Theorem execution_lifecycle `{Jsonb} d d' id e :
  task_steps d d' -> task_executions d !! id = Some e ->
  exists e', task_executions d' !! id = Some e' /\ identity e' = identity e /\
    rtc transition (te_Status e) (te_Status e') /\
    (terminal (te_Status e') = false -> te_Attempt e <= te_Attempt e') /\
    (terminal (te_Status e) = true -> e' = e).
Proof.
  intros Hs He. destruct (task_steps_history _ _ Hs id e He) as (e' & He' & [Hi Hst Ht Ha]).
  exists e'. split_and!; try done. intros Hf. destruct Ha; [congruence|done].
Qed.

(** C13: an attempt is claimed once.  When a claim of attempt [n] succeeded,
    every later claim of the same execution with an attempt up to [n], from
    whatever worker and after any interleaving of other statements, changes
    nothing and reports zero rows, which the store turns into
    [ErrExecutionConflict]. *)
Theorem claim_exclusive `{Jsonb} p1 env1 d d1 d2 p2 env2 n d3 :
  ClaimTaskExecution p1 env1 d = Ok (1, d1) ->
  task_steps d1 d2 ->
  claim_ID p2 = claim_ID p1 -> claim_Attempt p2 <= claim_Attempt p1 ->
  ClaimTaskExecution p2 env2 d2 = Ok (n, d3) ->
  n = 0 /\ d3 = d2.
Proof.
  intros Hc1 Hsteps Hid Hle Hc2.
  apply ClaimTaskExecution_effect in Hc1 as [(Hbad & _)|(e & _ & He & Hcl & ->)]; [done|].
  apply ClaimTaskExecution_effect in Hc2 as [(-> & -> & _)|(e2 & -> & He2 & Hcl2 & ->)]; [done|].
  exfalso. rewrite Hid in He2.
  destruct (task_steps_history _ _ Hsteps (claim_ID p1) (claimed p1 (pg_NOW env1) e))
    as (e' & He' & Hev); [apply lookup_insert_eq|]. simplify_eq.
  unfold claimable in Hcl2. bool_prop. simpl in *.
  destruct (evolves_attempt _ _ Hev) as [Ht|Ha]; [|simpl in Ha; lia].
  rewrite !elem_of_cons in H0. destruct H0 as [E|[E|E]]; [| |by apply not_elem_of_nil in E];
    rewrite E in Ht; discriminate.
Qed.

(** *** The services run along the steps of the tables *)
Section Simulation.
Context {W : Type} `{PgLaws W TaskDB} `{Jsonb} `{Collation} `{ErrorText}.
Variable ctx_err : Context -> W -> option LibErr.

Definition steps (w w' : W) : Prop := task_steps (pg_tables w) (pg_tables w').

#[local] Instance steps_preorder : PreOrder steps.
Proof.
  split; unfold steps; [intros w; apply rtc_refl|]. intros x y z ? ?. by etransitivity.
Qed.

Lemma query_steps {A} ctx (s : stmt TaskDB A) :
  (forall env d a d', env_ok env -> s env d = Ok (a, d') -> d' = d \/ task_step d d') ->
  within steps (query ctx_err ctx s).
Proof.
  intros Hs w. unfold query. destruct (ctx_err ctx w); [done|].
  apply (exec_within task_steps). intros env d row d' Henv E.
  destruct (Hs env d row d' Henv E) as [->|Hst]; [done|by apply rtc_once].
Qed.

Lemma map_write_error_steps {A} key (m : M W A) : within steps m -> within steps (map_write_error key m).
Proof. intros Hm w. specialize (Hm w). unfold map_write_error. by destruct (m w) as [[] ?]. Qed.

Lemma GetExecution_steps ctx id : within steps (store_GetExecution ctx_err ctx id).
Proof.
  unfold store_GetExecution. solve_within. apply query_steps.
  intros env d row d' _. unfold GetTaskExecution. case_match; intros [= <- <-]; by left.
Qed.

Lemma ClaimExecution_steps ctx id attempt t : within steps (store_ClaimExecution ctx_err ctx id attempt t).
Proof.
  unfold store_ClaimExecution. solve_within. apply query_steps. intros env d n d' _ E. right.
  by eapply step_claim.
Qed.

Lemma UpdateExecution_steps ctx u :
  ValidateTransition (up_ExpectedStatus u) (up_Status u) = None -> terminal (up_Status u) = true ->
  within steps (store_UpdateExecution ctx_err ctx u).
Proof.
  intros Hv Ht. unfold store_UpdateExecution. solve_within. apply query_steps.
  intros env d n d' _ E. right. by eapply step_update; [| |exact E].
Qed.

Lemma CreatePending_steps ctx e msg o :
  within steps (store_CreateExecutionWithPendingPublish ctx_err ctx e msg o).
Proof.
  unfold store_CreateExecutionWithPendingPublish. solve_within. apply map_write_error_steps, query_steps.
  intros env d row d' Henv E. right. by eapply step_create_pending.
Qed.

Lemma MarkPublishSucceeded_steps ctx q : within steps (store_MarkPublishSucceeded ctx_err ctx q).
Proof.
  unfold store_MarkPublishSucceeded. apply query_steps. intros env d [] d' _ E. right.
  by eapply step_mark.
Qed.

Hint Resolve GetExecution_steps ClaimExecution_steps CreatePending_steps
  MarkPublishSucceeded_steps UpdateExecution_steps : within.
Hint Extern 1 (ValidateTransition _ _ = None) => reflexivity : within.
Hint Extern 1 (terminal _ = true) => reflexivity : within.

(** What the processor is built with changes the task tables, if at all,
    through the stores. *)
Record processor_ok (p : Processor W) : Prop := {
  ok_store : proc_store p = PostgresExecutionStore ctx_err;
  ok_now : within steps (proc_now p);
  ok_observe : forall t s d, within steps (observe p t s d);
  ok_handlers : forall t h ctx payload,
    proc_registry p !! t = Some (Some h) -> within steps (h ctx payload);
}.

Lemma Handle_steps p t h ctx payload :
  processor_ok p -> Resolve (proc_registry p) t = Ok h -> within steps (Handle h ctx payload).
Proof.
  intros Hp. unfold Resolve. destruct (proc_registry p !! t) as [[h'|]|] eqn:E; intros [= <-]; simpl.
  - by eapply ok_handlers.
  - apply within_panic, _.
Qed.

Lemma Process_steps p ctx message attempt :
  processor_ok p -> within steps (Process ctx_err p ctx message attempt).
Proof.
  intros Hp. pose proof (ok_now _ Hp). pose proof (ok_observe _ Hp).
  unfold Process, finish. rewrite !(ok_store _ Hp). simpl.
  do 5 (apply within_bind; [apply _|solve_within|intros ?]).
  apply within_bind_res; [apply _|intros h Hh].
  apply within_bind; [apply _|by apply within_try, (Handle_steps _ _ _ _ _ Hp Hh)|intros r].
  solve_within.
Qed.

Lemma Fail_steps p ctx message attempt cause :
  processor_ok p -> within steps (Fail_ p ctx message attempt cause).
Proof.
  intros Hp. pose proof (ok_now _ Hp). pose proof (ok_observe _ Hp).
  unfold Fail_. rewrite !(ok_store _ Hp). simpl. solve_within.
Qed.

Lemma Submit_steps svc ctx s :
  svc_store svc = PostgresExecutionStore ctx_err -> within steps (svc_newID svc) ->
  (forall publish, svc_publisher svc = Some publish -> forall ctx m o, within steps (publish ctx m o)) ->
  within steps (Submit svc ctx s).
Proof.
  intros Hst Hid Hpub. unfold Submit. rewrite !Hst. simpl.
  destruct (svc_publisher svc) as [publish|]; [specialize (Hpub publish eq_refl)|]; solve_within.
Qed.
End Simulation.
