(* ===== verification/Queue.v ===== *)
(** * The queue adapter and the outbox ([pkg/platform/queue/asynq.go])

    The broker (asynq) is a parameter: enqueueing a task, and the retry count
    and retry limit it attaches to the context of a delivery.  So is the JSON
    encoding of a message. *)
From S2P Require Import Prelude GoStrings Postgres TaskSQL Task TaskStore.

(** The options the publisher passes to the broker. *)
Inductive Option :=
  | MaxRetry (n : Z) | Queue (name : string) | TaskID (id : string) | Timeout (d : Z)
  | Unique (d : Z) | ProcessIn (d : Z).

(** A queued task: its type and its payload. *)
Record Task := mkTask { task_Type : string; task_Payload : string }.

(** [json_raw] is the text a [json.RawMessage] is written as, [None] for what
    is not JSON. *)
Class MessageJson := {
  json_marshal_message : Message -> res string;
  json_unmarshal_message : string -> res Message;
  json_raw : string -> option string;
}.

(** Encoding fails on a payload that is not JSON and on nothing else, and
    decoding gives back what was encoded. *)
Class MessageJsonLaws `{MessageJson} := {
  message_marshal : forall m, match json_raw (msg_Payload m) with
    | Some _ => is_ok (json_marshal_message m) = true
    | None => is_err (json_marshal_message m) = true
    end;
  message_unmarshal : forall m payload text,
    valid_utf8 (bytes (msg_ExecutionID m)) = true -> valid_utf8 (bytes (msg_TaskType m)) = true ->
    json_raw (msg_Payload m) = Some payload -> json_marshal_message m = Ok text ->
    json_unmarshal_message text = Ok (mkMessage (msg_ExecutionID m) (msg_TaskType m) payload);
}.

Section Queue.
Context {W : Type} `{ErrorText} `{MessageJson}.

(** [EnqueueContext] of the broker's client. *)
Variable EnqueueContext : Context -> Task -> list Option -> M W unit.

(** @src pkg/platform/queue/asynq.go:20-27 AsynqPublisher *)
Record AsynqPublisher := mkAsynqPublisher { pub_queue : string }.

(** The options of one publication, in the order they are appended.
    @src pkg/platform/queue/asynq.go:34-51 Publish *)
Definition enqueueOptions (publisher : AsynqPublisher) (o : PublishOptions) : list Option :=
  [MaxRetry (opt_MaxRetries o)] ++
  (if is_empty (pub_queue publisher) then [] else [Queue (pub_queue publisher)]) ++
  (if is_empty (opt_QueueID o) then [] else [TaskID (opt_QueueID o)]) ++
  (if 0 <? opt_Timeout o then [Timeout (opt_Timeout o)] else []) ++
  (if 0 <? opt_UniqueFor o then [Unique (opt_UniqueFor o)] else []) ++
  (if 0 <? opt_ProcessAfter o then [ProcessIn (opt_ProcessAfter o)] else []).

(** @src pkg/platform/queue/asynq.go:29-63 Publish *)
Definition Publish (publisher : AsynqPublisher) : Publisher W := fun ctx message options =>
  payload ← wrap "encode task message" (of_res (json_marshal_message message));
  r ← try (EnqueueContext ctx (mkTask (msg_TaskType message) payload) (enqueueOptions publisher options));
  match r with
  | Err err =>
      if errors_is AsynqTaskIDConflict err then mret tt
      else if errors_is AsynqDuplicateTask err then throw (EWrap (opt_QueueID options) ErrDuplicateSubmission)
      else throw (EWrap "enqueue task" err)
  | _ => mret tt
  end.

(** @src pkg/platform/queue/asynq.go:176-185 decodeMessage *)
Definition decodeMessage (queuedTask : Task) : res Message :=
  match json_unmarshal_message (task_Payload queuedTask) with
  | Ok message =>
      Ok (if is_empty (msg_TaskType message)
          then mkMessage (msg_ExecutionID message) (task_Type queuedTask) (msg_Payload message)
          else message)
  | Err err => Err (EWrap "decode task message" err)
  | Panic => Panic
  end.

(** @src pkg/platform/queue/asynq.go:65-68 Processor *)
Record QProcessor := mkQProcessor {
  q_Process : Context -> Message -> Z -> M W unit;
  q_Fail : Context -> Message -> Z -> error -> M W unit;
}.

(** [GetRetryCount] and [GetMaxRetry]: [None] for a context without the
    value, for which the functions return zero and false. *)
Variable retry_count max_retry : option Z.

(** @src pkg/platform/queue/asynq.go:78-94 ProcessTask *)
Definition ProcessTask (processor : QProcessor) (ctx : Context) (queuedTask : Task) : M W unit :=
  match decodeMessage queuedTask with
  | Err err => throw (EJoin err AsynqSkipRetry)
  | Panic => panic
  | Ok message =>
      let retryCount := default 0 retry_count in
      r ← try (q_Process processor ctx message (int64 (retryCount + 1)));
      match r with
      | Err err =>
          if errors_is ContextCanceled err || errors_is ContextDeadlineExceeded err then
            throw (EJoin err AsynqRevokeTask)
          else if errors_is ErrExecutionConflict err then throw (EJoin err AsynqRevokeTask)
          else throw err
      | _ => mret tt
      end
  end.

(** @src pkg/platform/queue/asynq.go:127-142 HandleExhausted *)
Definition HandleExhausted (processor : QProcessor) (ctx : Context) (queuedTask : Task)
    (processingErr : error) (retryCount maxRetry : Z) : M W unit :=
  if retryCount <? maxRetry then mret tt
  else
    message ← of_res (decodeMessage queuedTask);
    q_Fail processor ctx message (int64 (retryCount + 1)) processingErr.

(** The error is only logged.
    @src pkg/platform/queue/asynq.go:109-125 HandleError *)
Definition HandleError (processor : QProcessor) (ctx : Context) (queuedTask : Task)
    (processingErr : error) : M W unit :=
  if errors_is ContextCanceled processingErr || errors_is ContextDeadlineExceeded processingErr ||
     errors_is AsynqRevokeTask processingErr then mret tt
  else match retry_count, max_retry with
  | Some retryCount, Some maxRetry =>
      if retryCount <? maxRetry then mret tt
      else ignore (HandleExhausted processor (Detached (5 * Second)) queuedTask processingErr
                     retryCount maxRetry)
  | _, _ => mret tt
  end.

(** @src pkg/platform/queue/asynq.go:144-156 OutboxDispatcher *)
Record OutboxDispatcher := mkOutboxDispatcher {
  disp_ListPendingPublishes : Context -> Z -> M W (list PendingPublish);
  disp_MarkPublishSucceeded : Context -> string -> M W unit;
  disp_publisher : Publisher W;
}.

Definition dispatch_one (d : OutboxDispatcher) (ctx : Context) (publish : PendingPublish) : M W unit :=
  _ ← when (bool_decide (pp_ExecutionStatus publish = StatusQueued))
        (wrap ("publish queued task " +:+ opt_QueueID (pp_Options publish))
           (disp_publisher d ctx (pp_Message publish) (pp_Options publish)));
  wrap ("mark queued task published " +:+ opt_QueueID (pp_Options publish))
    (disp_MarkPublishSucceeded d ctx (opt_QueueID (pp_Options publish))).

(** @src pkg/platform/queue/asynq.go:158-174 DispatchPending *)
Definition DispatchPending (d : OutboxDispatcher) (ctx : Context) (limit : Z) : M W unit :=
  pending ← wrap "list pending task publishes" (disp_ListPendingPublishes d ctx limit);
  for_each pending (dispatch_one d ctx).

(** The processor of the worker, as the adapter sees it. *)
Definition as_QProcessor (ctx_err : Context -> W -> option LibErr) (p : Processor W) : QProcessor :=
  mkQProcessor (Process ctx_err p) (Fail_ p).
End Queue.
Arguments QProcessor : clear implicits.
Arguments OutboxDispatcher : clear implicits.

(** ** The outbox

    A submission is stored with an outbox message in one statement; the
    message is marked published only when the broker has the task.  [sent w]
    is the set of the task identifiers the broker has accepted. *)

(** The publication of the outbox message [queueID] is no longer needed: the
    broker has the task, or the execution has left the queue. *)
Definition settled (sent : gset string) (d : TaskDB) (queueID : string) (m : TaskOutboxMessage) : Prop :=
  queueID ∈ sent \/
  exists e, task_executions d !! om_ExecutionID m = Some e /\ te_Status e <> StatusQueued.

Record outbox_ok (sent : gset string) (d : TaskDB) : Prop := {
  outbox_keyed : forall q m, task_outbox_messages d !! q = Some m -> om_QueueID m = q /\ q <> "";
  outbox_published : forall q m, task_outbox_messages d !! q = Some m ->
    om_PublishedAt m <> None -> settled sent d q m;
}.

Lemma evolves_not_queued e e' :
  evolves e e' -> te_Status e <> StatusQueued -> te_Status e' <> StatusQueued.
Proof.
  intros Hev Hq. destruct (evolves_status _ _ Hev) as [?|x y z Ht Hr]; [done|].
  clear Hev Hq. apply rtc_inv_r in Hr as [<-|(u & _ & Hu)]; by eapply transition_not_queued.
Qed.

Lemma settled_history sent sent' d d' q m :
  sent ⊆ sent' -> history d d' -> settled sent d q m -> settled sent' d' q m.
Proof.
  intros Hs Hh [Hq|(e & He & Hne)]; [left; set_solver|right].
  destruct (Hh _ _ He) as (e' & He' & Hev). exists e'. split; [done|].
  by eapply evolves_not_queued.
Qed.

Lemma outbox_ok_mono sent sent' d d' :
  sent ⊆ sent' -> history d d' -> task_outbox_messages d' = task_outbox_messages d ->
  outbox_ok sent d -> outbox_ok sent' d'.
Proof.
  intros Hs Hh Ho [Hk Hp]. split; rewrite Ho; [done|]. intros q m Hm Hpub.
  eapply settled_history; eauto.
Qed.

Section Outbox.
Context {W : Type} `{PgLaws W TaskDB} `{Jsonb} `{Collation} `{ErrorText} `{MessageJson}.
Variable ctx_err : Context -> W -> option LibErr.
Variable EnqueueContext : Context -> Task -> list Option -> M W unit.
Variable sent : W -> gset string.

(** The broker: enqueueing leaves the database, and an accepted task, or one
    whose identifier the broker knows, stays known. *)
Hypothesis enqueue_outcome : forall ctx t options w r w',
  EnqueueContext ctx t options w = (r, w') ->
  pg_tables w' = pg_tables w /\ sent w ⊆ sent w' /\ r <> Panic /\
  forall id, TaskID id ∈ options ->
    match r with Ok _ => True | Err e => errors_is AsynqTaskIDConflict e = true | Panic => False end ->
    id ∈ sent w'.
(** The database does not reach the broker. *)
Hypothesis exec_sent : forall A (s : stmt TaskDB A) w, sent (pg_exec s w).2 = sent w.

Definition outbox_inv (w : W) : Prop := outbox_ok (sent w) (pg_tables w).

Lemma query_keeps {A} ctx (s : stmt TaskDB A) :
  (forall env d a d' S, env_ok env -> outbox_ok S d -> s env d = Ok (a, d') -> outbox_ok S d') ->
  within (keeps outbox_inv) (query ctx_err ctx s).
Proof.
  intros Hs w Hw. unfold query. destruct (ctx_err ctx w); [done|].
  unfold outbox_inv. rewrite exec_sent.
  apply (exec_keeps (outbox_ok (sent w))); [|done]. intros. by eapply Hs.
Qed.

Lemma map_write_error_keeps {A} R key (m : M W A) : within R m -> within R (map_write_error key m).
Proof. intros Hm w. specialize (Hm w). unfold map_write_error. by destruct (m w) as [[] ?]. Qed.

Lemma CreatePending_keeps ctx e msg o :
  within (keeps outbox_inv) (store_CreateExecutionWithPendingPublish ctx_err ctx e msg o).
Proof.
  unfold store_CreateExecutionWithPendingPublish. solve_within.
  apply map_write_error_keeps, query_keeps. intros env d row d' S Henv Hok E.
  apply CreatePending_effect in E as (d1 & q & E & Hq & Hf & ->). simpl in Hq.
  assert (history d d1) as Hh by (apply task_step_history; by eapply step_create).
  apply CreateTaskExecution_effect in E as (_ & _ & _ & _ & ->).
  apply (outbox_ok_mono S S _ _) in Hh as [Hk Hp]; [|done|done|done].
  split; simpl in *; intros i m Him;
    (destruct (decide (i = q)) as [->|Hne];
      [rewrite lookup_insert_eq in Him; injection Him as <-|rewrite lookup_insert_ne in Him by done; eauto]).
  - split; [done|]. by apply nullableText_Some in Hq as [_ ?].
  - done.
Qed.

Lemma GetExecution_keeps ctx id : within (keeps outbox_inv) (store_GetExecution ctx_err ctx id).
Proof.
  unfold store_GetExecution. solve_within. apply query_keeps.
  intros env d row d' S _ Hok. unfold GetTaskExecution. case_match; by intros [= <- <-].
Qed.

Lemma ClaimExecution_keeps ctx id attempt t :
  within (keeps outbox_inv) (store_ClaimExecution ctx_err ctx id attempt t).
Proof.
  unfold store_ClaimExecution. solve_within. apply query_keeps. intros env d n d' S _ Hok E.
  apply (outbox_ok_mono S S d d'); [done|by eapply task_step_history, step_claim| |done].
  apply ClaimTaskExecution_effect in E as [(_ & -> & _)|(? & _ & _ & _ & ->)]; done.
Qed.

Lemma UpdateExecution_keeps ctx u :
  ValidateTransition (up_ExpectedStatus u) (up_Status u) = None -> terminal (up_Status u) = true ->
  within (keeps outbox_inv) (store_UpdateExecution ctx_err ctx u).
Proof.
  intros Hv Ht. unfold store_UpdateExecution. solve_within. apply query_keeps.
  intros env d n d' S _ Hok E.
  apply (outbox_ok_mono S S d d'); [done|eapply task_step_history, step_update; [| |exact E]; done| |done].
  apply UpdateTaskExecutionStatus_effect in E as [(_ & -> & _)|(? & _ & _ & _ & ->)]; done.
Qed.

(** Marking a message keeps the invariant when its publication is settled. *)
Lemma mark_keeps ctx q w :
  outbox_inv w ->
  (forall m, task_outbox_messages (pg_tables w) !! q = Some m -> settled (sent w) (pg_tables w) q m) ->
  outbox_inv (store_MarkPublishSucceeded ctx_err ctx q w).2.
Proof.
  intros Hw Hq. unfold store_MarkPublishSucceeded, query. destruct (ctx_err ctx w); [done|].
  unfold outbox_inv in *. rewrite exec_sent.
  destruct (pg_exec _ w) as [r w'] eqn:E. apply pg_exec_outcome in E. simpl.
  assert (forall env d', MarkTaskOutboxMessagePublished q env (pg_tables w) = Ok (tt, d') ->
            outbox_ok (sent w) d') as Hm.
  { intros env d' [_ [->|(m & Hlk & _ & ->)]]%MarkPublished_effect; [done|].
    destruct Hw as [Hk Hp]. split; simpl; intros i x Hi;
      (destruct (decide (i = q)) as [->|Hne];
       [rewrite lookup_insert_eq in Hi; injection Hi as <-|rewrite lookup_insert_ne in Hi by done; eauto]).
    - by apply (Hk q m).
    - intros _. specialize (Hq m Hlk). exact Hq. }
  destruct r as [[]|e|]; simpl in E; [| |done].
  - destruct E as (env & _ & E). by eapply Hm.
  - destruct E as [->|(env & [] & _ & E)]; [done|by eapply Hm].
Qed.

(** What a publication does: it leaves the tables, and when it reports
    success the broker has the task. *)
Lemma Publish_outcome q ctx m o w r w' :
  Publish EnqueueContext q ctx m o w = (r, w') ->
  pg_tables w' = pg_tables w /\ sent w ⊆ sent w' /\
  (is_ok r = true -> opt_QueueID o <> "" -> opt_QueueID o ∈ sent w').
Proof.
  unfold Publish, wrap, try. rewrite M_bind_run. unfold of_res.
  destruct (json_marshal_message m) as [text|e|]; [|intros [= <- <-]; by auto|intros [= <- <-]; by auto].
  rewrite M_bind_run. destruct (EnqueueContext _ _ _ w) as [r1 w1] eqn:E.
  apply enqueue_outcome in E as (Ht & Hs & Hp & Hin).
  assert (opt_QueueID o <> "" -> TaskID (opt_QueueID o) ∈ enqueueOptions q o) as Hid.
  { intros Hne%is_empty_false. unfold enqueueOptions. rewrite Hne.
    rewrite !elem_of_app. right; right; left. by apply list_elem_of_singleton. }
  destruct r1 as [[]|e|]; [|destruct (errors_is AsynqTaskIDConflict e) eqn:He;
    [|destruct (errors_is AsynqDuplicateTask e)]|done]; intros [= <- <-];
    split_and!; try done; intros _ Hne; apply Hin; auto.
Qed.

(** What is known of a message a dispatch has listed, until it marks it. *)
Definition known (w : W) (p : PendingPublish) : Prop :=
  let q := opt_QueueID (pp_Options p) in
  q <> "" /\ (pp_ExecutionStatus p <> StatusQueued ->
    forall m, task_outbox_messages (pg_tables w) !! q = Some m -> settled (sent w) (pg_tables w) q m).

Lemma mark_run ctx q w :
  let w' := (store_MarkPublishSucceeded ctx_err ctx q w).2 in
  sent w' = sent w /\ task_executions (pg_tables w') = task_executions (pg_tables w) /\
  forall i m', task_outbox_messages (pg_tables w') !! i = Some m' ->
    exists m, task_outbox_messages (pg_tables w) !! i = Some m /\ om_ExecutionID m' = om_ExecutionID m.
Proof.
  unfold store_MarkPublishSucceeded, query. destruct (ctx_err ctx w); simpl; [by eauto|].
  rewrite exec_sent. split; [done|].
  destruct (pg_exec _ w) as [r w'] eqn:E. apply pg_exec_outcome in E. simpl.
  assert (pg_tables w' = pg_tables w \/
          exists env, MarkTaskOutboxMessagePublished q env (pg_tables w) = Ok (tt, pg_tables w')) as Hm.
  { destruct r as [[]|e|]; simpl in E; [destruct E as (env & _ & E); eauto| |done].
    destruct E as [E|(env & [] & _ & E)]; eauto. }
  destruct Hm as [->|(env & [He [->|(m & Hm & _ & ->)]]%MarkPublished_effect)]; [by eauto|by eauto|].
  simpl. split; [done|]. intros i m' Hi. destruct (decide (i = q)) as [->|Hne].
  - rewrite lookup_insert_eq in Hi. injection Hi as <-. eauto.
  - rewrite lookup_insert_ne in Hi by done. eauto.
Qed.

Lemma known_mark ctx q w p : known w p -> known (store_MarkPublishSucceeded ctx_err ctx q w).2 p.
Proof.
  intros [Hne Hk]. destruct (mark_run ctx q w) as (Hs & He & Hm). split; [done|].
  intros Hq m' Hm'. destruct (Hm _ _ Hm') as (m & Hlk & Hid). specialize (Hk Hq m Hlk).
  unfold settled in *. by rewrite Hs, He, Hid.
Qed.

Lemma known_mono w w' p :
  pg_tables w' = pg_tables w -> sent w ⊆ sent w' -> known w p -> known w' p.
Proof.
  intros Ht Hs [Hne Hk]. split; [done|]. rewrite Ht. intros Hq m Hm.
  eapply settled_history; [exact Hs|done|]. by apply Hk.
Qed.

Lemma outbox_inv_mono w w' :
  pg_tables w' = pg_tables w -> sent w ⊆ sent w' -> outbox_inv w -> outbox_inv w'.
Proof. unfold outbox_inv. intros -> Hs. by apply outbox_ok_mono. Qed.

Abbreviation dispatcher q :=
  (mkOutboxDispatcher (store_ListPendingPublishes ctx_err) (store_MarkPublishSucceeded ctx_err)
     (Publish EnqueueContext q)).

Lemma dispatch_one_keeps q ctx p w :
  outbox_inv w -> known w p ->
  let w' := (dispatch_one (dispatcher q) ctx p w).2 in
  outbox_inv w' /\ forall p', known w p' -> known w' p'.
Proof.
  intros Hw Hp. unfold dispatch_one. simpl.
  set (mark := wrap _ (store_MarkPublishSucceeded _ _ _)).
  assert (forall w1, mark w1 = mark w1 -> (mark w1).2 =
    (store_MarkPublishSucceeded ctx_err ctx (opt_QueueID (pp_Options p)) w1).2) as Hmark.
  { intros w1 _. unfold mark, wrap. by destruct (store_MarkPublishSucceeded _ _ _ w1) as [[] ?]. }
  clearbody mark.
  destruct (decide (pp_ExecutionStatus p = StatusQueued)) as [Hq|Hq].
  - rewrite bool_decide_eq_true_2 by done. simpl. rewrite M_bind_run. unfold wrap.
    destruct (Publish _ _ _ _ _ w) as [r w1] eqn:E. apply Publish_outcome in E as (Ht & Hs & Hin).
    assert (outbox_inv w1) as Hw1 by by eapply outbox_inv_mono.
    assert (forall p', known w p' -> known w1 p') as Hk1 by (intros; by eapply known_mono).
    destruct r as [[]|e|]; simpl; [|done|done]. rewrite (Hmark w1) by done.
    split; [|intros; by apply known_mark, Hk1].
    apply mark_keeps; [done|]. intros m Hm. left. by apply Hin; [|destruct Hp].
  - rewrite bool_decide_eq_false_2 by done. simpl.
    change ((mret tt ≫= λ _, mark) w) with (mark w). rewrite (Hmark w) by done.
    split; [|intros; by apply known_mark]. apply mark_keeps; [done|]. by apply Hp.
Qed.

Lemma dispatch_all_keeps q ctx ps w :
  outbox_inv w -> Forall (known w) ps -> outbox_inv (for_each ps (dispatch_one (dispatcher q) ctx) w).2.
Proof.
  revert w. induction ps as [|p ps IH]; intros w Hw Hps; [done|]. simpl.
  inversion Hps as [|? ? Hp Hps']; subst. rewrite M_bind_run.
  destruct (dispatch_one_keeps q ctx p w Hw Hp) as [Hw1 Hk].
  destruct (dispatch_one _ _ p w) as [[[]|e|] w1]; simpl in *; [|done|done].
  apply IH; [done|]. eapply Forall_impl; [exact Hps'|]. exact Hk.
Qed.

Lemma ListPending_known limit env d rows d' S :
  outbox_ok S d -> ListPendingTaskOutboxMessages limit env d = Ok (rows, d') ->
  d' = d /\ forall row, row ∈ rows ->
    opt_QueueID (pp_Options (pendingFromRow row)) <> "" /\
    (pp_ExecutionStatus (pendingFromRow row) <> StatusQueued ->
     forall m, task_outbox_messages d !! opt_QueueID (pp_Options (pendingFromRow row)) = Some m ->
     settled S d (opt_QueueID (pp_Options (pendingFromRow row))) m).
Proof.
  intros Hok E. unfold ListPendingTaskOutboxMessages in E. res_inv E. injection E as <- <-.
  split; [done|]. intros [status m] Hin.
  eapply elem_of_limit_offset in Hin; [|exact E0].
  apply list_elem_of_omap in Hin as (m1 & Hin & He).
  apply elem_of_order_by, elem_of_where in Hin as [[q Hq]%elem_of_rows _].
  destruct (task_executions d !! om_ExecutionID m1) as [e|] eqn:Hex; [|done].
  injection He as <- <-. simpl. destruct (outbox_keyed _ _ Hok _ _ Hq) as [-> Hne].
  split; [done|]. intros Hst m Hm. simplify_eq. right. eauto.
Qed.

Lemma DispatchPending_keeps q ctx limit :
  within (keeps outbox_inv) (DispatchPending (dispatcher q) ctx limit).
Proof.
  intros w Hw. unfold DispatchPending. simpl. rewrite M_bind_run. unfold wrap at 1.
  unfold store_ListPendingPublishes at 1, query.
  rewrite M_bind_run. destruct (ctx_err ctx w) eqn:Hc; [done|].
  destruct (pg_exec _ w) as [r w1] eqn:E.
  pose proof (exec_sent _ (ListPendingTaskOutboxMessages (int32 limit)) w) as Hs.
  rewrite E in Hs. simpl in Hs. apply pg_exec_outcome in E.
  destruct r as [rows|e|]; simpl in E; [| |done]; simpl.
  - destruct E as (env & _ & E). eapply ListPending_known in E as [Ht Hrows]; [|exact Hw].
    apply dispatch_all_keeps; [unfold outbox_inv; by rewrite Hs, Ht|].
    apply Forall_forall. intros p Hp. apply list_elem_of_fmap in Hp as (row & -> & Hrow).
    destruct (Hrows _ Hrow) as [Hne Hk]. split; [done|]. by rewrite Hs, Ht.
  - unfold outbox_inv. rewrite Hs. destruct E as [->|(env & rows & _ & E)]; [done|].
    by eapply ListPending_known in E as [-> _].
Qed.

(** What the services are built with leaves the database and the broker. *)
Definition quiet {A} (m : M W A) : Prop :=
  within (same (fun w => (pg_tables w, sent w))) m.

Lemma quiet_keeps {A} (m : M W A) : quiet m -> within (keeps outbox_inv) m.
Proof.
  intros Hm w Hw. specialize (Hm w). unfold same in Hm. injection Hm as Ht Hs.
  unfold outbox_inv. by rewrite Ht, Hs.
Qed.

Lemma CreatePending_Ok_queueID ctx e msg o w ex w' :
  store_CreateExecutionWithPendingPublish ctx_err ctx e msg o w = (Ok ex, w') -> opt_QueueID o <> "".
Proof.
  unfold store_CreateExecutionWithPendingPublish. intros Hr. go_inv Hr.
  unfold map_write_error, query in E0. destruct (ctx_err ctx w0); [discriminate|].
  destruct (pg_exec _ w0) as [[row|e1|] w2] eqn:E1; try discriminate.
  apply exec_Ok_inv in E1 as (env & _ & E1).
  apply CreatePending_effect in E1 as (d1 & qid & _ & Hq & _). simpl in Hq.
  apply nullableText_Some in Hq as [<- ?]. done.
Qed.

(** Publishing a stored submission and marking its message. *)
Lemma publish_and_mark_keeps q ctx m o w :
  opt_QueueID o <> "" -> outbox_inv w ->
  outbox_inv ((r ← try (Publish EnqueueContext q ctx m o);
    when (is_ok r) (ignore (store_MarkPublishSucceeded ctx_err (Detached (5 * Second)) (opt_QueueID o)))) w).2.
Proof.
  intros Hne Hw. rewrite M_bind_run. unfold try.
  destruct (Publish _ _ _ _ _ w) as [r w1] eqn:E. apply Publish_outcome in E as (Ht & Hs & Hin).
  assert (outbox_inv w1) as Hw1 by by eapply outbox_inv_mono.
  destruct r as [[]|e|]; [|done|done]. cbn [is_ok when]. rewrite ignore_run.
  apply mark_keeps; [done|]. intros m1 _. left. by apply Hin.
Qed.

Lemma Submit_keeps svc q ctx s :
  svc_store svc = PostgresExecutionStore ctx_err -> quiet (svc_newID svc) ->
  svc_publisher svc = Some (Publish EnqueueContext q) ->
  within (keeps outbox_inv) (Submit svc ctx s).
Proof.
  intros Hst Hid Hpub. unfold Submit. rewrite !Hst, Hpub. simpl.
  apply within_bind; [apply _|solve_within|intros _].
  apply within_bind; [apply _|by apply quiet_keeps|intros queueID].
  intros w Hw. rewrite M_bind_run.
  set (options := mkPublishOptions queueID _ _ _ _).
  destruct (store_CreateExecutionWithPendingPublish _ _ _ _ options w) as [r w1] eqn:E.
  assert (outbox_inv w1) as Hw1.
  { pose proof (CreatePending_keeps ctx (mkNewExecution (sub_DefinitionID s) (sub_TaskType s) queueID
      (sub_IdempotencyKey s) (sub_Payload s)) (mkMessage "" (sub_TaskType s) (sub_Payload s)) options w) as Hk.
    rewrite E in Hk. by apply Hk. }
  destruct r as [ex|e|]; [|done|done].
  apply CreatePending_Ok_queueID in E. rewrite M_bind_run.
  pose proof (publish_and_mark_keeps q ctx (mkMessage (ex_ID ex) (sub_TaskType s) (sub_Payload s))
    options w1 E Hw1) as Hk. simpl in Hk.
  by destruct (((r ← try _; _) w1)) as [[[]|e|] w2].
Qed.

Hint Resolve GetExecution_keeps ClaimExecution_keeps UpdateExecution_keeps quiet_keeps : within.
Hint Extern 1 (ValidateTransition _ _ = None) => reflexivity : within.
Hint Extern 1 (terminal _ = true) => reflexivity : within.

(** The worker: its clock and its observer are quiet, and its handlers keep
    the invariant. *)
Record worker_ok (p : Processor W) : Prop := {
  worker_store : proc_store p = PostgresExecutionStore ctx_err;
  worker_now : quiet (proc_now p);
  worker_observe : forall t s d, quiet (observe p t s d);
  worker_handlers : forall t h ctx payload,
    proc_registry p !! t = Some (Some h) -> within (keeps outbox_inv) (h ctx payload);
}.

Lemma Process_keeps p ctx message attempt :
  worker_ok p -> within (keeps outbox_inv) (Process ctx_err p ctx message attempt).
Proof.
  intros Hp. pose proof (worker_now _ Hp). pose proof (worker_observe _ Hp).
  unfold Process, finish. rewrite !(worker_store _ Hp). simpl.
  do 5 (apply within_bind; [apply _|solve_within|intros ?]).
  apply within_bind_res; [apply _|intros h Hh].
  apply within_bind; [apply _|apply within_try|intros r; solve_within].
  unfold Resolve in Hh. destruct (proc_registry p !! _) as [[h'|]|] eqn:Er; simplify_eq; simpl.
  - by eapply worker_handlers.
  - apply within_panic, _.
Qed.

Lemma Fail_keeps p ctx message attempt cause :
  worker_ok p -> within (keeps outbox_inv) (Fail_ p ctx message attempt cause).
Proof.
  intros Hp. pose proof (worker_now _ Hp). pose proof (worker_observe _ Hp).
  unfold Fail_. rewrite !(worker_store _ Hp). simpl. solve_within.
Qed.

(** The entry points of the API server and of the worker. *)
Inductive operation :=
  | OpSubmit (ctx : Context) (s : Submission)
  | OpDispatch (ctx : Context) (limit : Z)
  | OpProcessTask (ctx : Context) (t : Task) (retryCount : option Z)
  | OpHandleError (ctx : Context) (t : Task) (err : error) (retryCount maxRetry : option Z).

Definition run_operation (svc : SubmissionService W) (p : Processor W) (q : AsynqPublisher)
    (op : operation) : M W unit :=
  match op with
  | OpSubmit ctx s => _ ← Submit svc ctx s; mret tt
  | OpDispatch ctx limit => DispatchPending (dispatcher q) ctx limit
  | OpProcessTask ctx t rc => ProcessTask rc (as_QProcessor ctx_err p) ctx t
  | OpHandleError ctx t err rc mr => HandleError rc mr (as_QProcessor ctx_err p) ctx t err
  end.

(** A history of operations, each of which may fail or panic. *)
Definition run_operations svc p q (ops : list operation) (w : W) : W :=
  fold_left (fun w op => (run_operation svc p q op w).2) ops w.

Lemma run_operation_keeps svc p q op :
  svc_store svc = PostgresExecutionStore ctx_err -> quiet (svc_newID svc) ->
  svc_publisher svc = Some (Publish EnqueueContext q) -> worker_ok p ->
  within (keeps outbox_inv) (run_operation svc p q op).
Proof.
  intros Hst Hid Hpub Hp. destruct op; simpl.
  - apply within_bind; [apply _|by eapply Submit_keeps|intros; solve_within].
  - apply DispatchPending_keeps.
  - unfold ProcessTask. case_match; [|solve_within|solve_within].
    apply within_bind; [apply _|by apply within_try, Process_keeps|intros; solve_within].
  - unfold HandleError, HandleExhausted. repeat case_match; try solve [solve_within].
    apply within_ignore, within_bind; [apply _|solve_within|intros]. by apply Fail_keeps.
Qed.

(** C1: the outbox never gives up a task.  From any consistent state, after
    any history of submissions, dispatches, deliveries and failure
    notifications, each of which may fail at any statement, be cancelled or
    panic, and with any answers of the server and the broker, an outbox
    message is marked published only when the broker has accepted the task
    with its identifier or its execution is no longer queued; every other
    message is still pending and will be listed again. *)
Theorem outbox_never_loses svc p q ops w :
  svc_store svc = PostgresExecutionStore ctx_err -> quiet (svc_newID svc) ->
  svc_publisher svc = Some (Publish EnqueueContext q) -> worker_ok p ->
  outbox_ok (sent w) (pg_tables w) ->
  let w' := run_operations svc p q ops w in
  forall id m, task_outbox_messages (pg_tables w') !! id = Some m ->
    pending m = true \/ id ∈ sent w' \/
    exists e, task_executions (pg_tables w') !! om_ExecutionID m = Some e /\ te_Status e <> StatusQueued.
Proof.
  intros Hst Hid Hpub Hp. revert w.
  induction ops as [|op ops IH]; intros w Hw; simpl.
  - intros id m Hm. unfold pending. destruct (om_PublishedAt m) eqn:Ep; [right|by left].
    by apply (outbox_published _ _ Hw id m Hm); rewrite Ep.
  - apply IH. by apply (run_operation_keeps svc p q op Hst Hid Hpub Hp).
Qed.

(** *** The same operations run along the steps of the execution tables *)
Lemma Publish_steps q ctx m o : within (steps (W := W)) (Publish EnqueueContext q ctx m o).
Proof.
  intros w. destruct (Publish EnqueueContext q ctx m o w) as [r w'] eqn:E.
  apply Publish_outcome in E as (Ht & _). unfold steps. simpl. by rewrite Ht.
Qed.

Lemma quiet_steps {A} (m : M W A) : quiet m -> within (steps (W := W)) m.
Proof. intros Hm w. specialize (Hm w). unfold same in Hm. injection Hm as Ht _. unfold steps. by rewrite Ht. Qed.

Lemma run_operation_steps svc p q op :
  svc_store svc = PostgresExecutionStore ctx_err -> quiet (svc_newID svc) ->
  svc_publisher svc = Some (Publish EnqueueContext q) -> processor_ok ctx_err p ->
  within steps (run_operation svc p q op).
Proof.
  intros Hst Hid Hpub Hp. destruct op as [ctx s|ctx limit|ctx t rc|ctx t err rc mr]; simpl.
  - apply within_bind; [apply steps_preorder| |intros; apply within_ret, steps_preorder].
    apply (Submit_steps ctx_err); [done|by apply quiet_steps|]. intros publish Hpb ctx' m o.
    rewrite Hpub in Hpb. injection Hpb as <-. apply Publish_steps.
  - unfold DispatchPending, dispatch_one. simpl.
    pose proof steps_preorder (W := W).
    apply within_bind; [done| |intros ps].
    { unfold store_ListPendingPublishes. solve_within. apply query_steps.
      intros env d rows d' _ E. left. unfold ListPendingTaskOutboxMessages in E. res_inv E.
      by injection E as _ <-. }
    apply within_for_each; [done|intros pb].
    apply within_bind; [done|by apply within_when, within_wrap, Publish_steps|intros _].
    apply within_wrap, MarkPublishSucceeded_steps.
  - pose proof steps_preorder (W := W). unfold ProcessTask. case_match; [|solve_within|solve_within].
    apply within_bind; [done|by apply within_try, (Process_steps ctx_err)|intros; solve_within].
  - pose proof steps_preorder (W := W).
    unfold HandleError, HandleExhausted. repeat case_match; try solve [solve_within].
    apply within_ignore, within_bind; [done|solve_within|intros]. by apply (Fail_steps ctx_err).
Qed.

End Outbox.

(** ** A broker and a server to run the services on *)
Module Example.

Definition World : Type := Conn TaskDB * gset string.

#[export] Instance jsonb : Jsonb := Some.
#[export] Instance collation : Collation := String.leb.
#[export] Instance error_text : ErrorText := fun _ => "error".
(** An encoding of messages: the binary digits of their code. *)
Fixpoint digits_of (p : positive) : string :=
  match p with xH => "" | xO p => String "0" (digits_of p) | xI p => String "1" (digits_of p) end.
Fixpoint of_digits (s : string) : positive :=
  match s with EmptyString => xH | String c s => if Ascii.eqb c "1" then xI (of_digits s) else xO (of_digits s) end.
Lemma of_digits_of p : of_digits (digits_of p) = p.
Proof. induction p as [p IH|p IH|]; simpl; [by rewrite IH..|done]. Qed.
#[export] Instance message_json : MessageJson := {
  json_marshal_message m := Ok (digits_of (encode (msg_ExecutionID m, msg_TaskType m, msg_Payload m)));
  json_unmarshal_message text := match decode (of_digits text) with
    | Some (id, taskType, payload) => Ok (mkMessage id taskType payload)
    | None => Err (EText "syntax")
    end;
  json_raw := Some;
}.
#[export] Instance message_json_laws : MessageJsonLaws.
Proof.
  split; simpl; [done|]. intros m payload text _ _ [= <-] [= <-].
  by rewrite of_digits_of, decode_encode.
Qed.

Definition no_ctx (_ : Context) (_ : World) : option LibErr := None.

(** The identifiers of the options of a task. *)
Definition task_ids (options : list Option) : gset string :=
  list_to_set (omap (fun o => match o with TaskID id => Some id | _ => None end) options).

Definition enqueue (_ : Context) (_ : Task) (options : list Option) : M World unit :=
  fun w => (Ok tt, (w.1, task_ids options ∪ w.2)).

Lemma enqueue_ok ctx t options w r w' :
  enqueue ctx t options w = (r, w') ->
  pg_tables w' = pg_tables w /\ w.2 ⊆ w'.2 /\ r <> Panic /\
  forall id, TaskID id ∈ options ->
    match r with Ok _ => True | Err e => errors_is AsynqTaskIDConflict e = true | Panic => False end ->
    id ∈ w'.2.
Proof.
  intros [= <- <-]. simpl. split_and!; [done|set_solver|done|]. intros id Hid _.
  apply elem_of_union_l, elem_of_list_to_set, list_elem_of_omap. eauto.
Qed.

Lemma exec_sent A (s : stmt TaskDB A) (w : World) : (pg_exec s w).2.2 = w.2.
Proof. destruct (pg_exec s w) as [r w'] eqn:E. by apply on_fst_inv in E as [_ ?]. Qed.

Definition publisher : AsynqPublisher := mkAsynqPublisher "default".
Definition service : SubmissionService World :=
  mkSubmissionService (PostgresExecutionStore no_ctx) (Some (Publish enqueue publisher))
    (mret "job-1") (mret 0).

(** A handler that reports three rows. *)
Definition handler : Handler World := fun _ _ => mret (mkResult 3).
Definition processor : Processor World :=
  mkProcessor (PostgresExecutionStore no_ctx) {[ "system.test" := Some handler ]} (mret 5000) None.

Definition submission : Submission := mkSubmission "" "system.test" "{}" "key" 3 Minute 0 0.
Definition start : World := (conn empty_db, ∅).

(** The execution the server creates first. *)
Definition execution_id : string := formatUUID (Some (fresh_uuid 1)).

Definition queued : Task :=
  mkTask "system.test" (digits_of (encode (execution_id, "system.test", "{}"))).

Lemma quiet_ret {A} (a : A) : quiet (fun w : World => w.2) (mret a).
Proof. by intros w. Qed.

Lemma registered t h : proc_registry processor !! t = Some (Some h) -> h = handler.
Proof.
  intros Hl.
  change (({[ "system.test" := Some handler ]} : gmap string (option (Handler World))) !! t = Some (Some h)) in Hl.
  apply lookup_singleton_Some in Hl as [_ Hl]. by injection Hl.
Qed.

Lemma processor_worker_ok : worker_ok no_ctx (fun w : World => w.2) processor.
Proof.
  split; [done|apply quiet_ret|intros; apply quiet_ret|].
  intros t h ctx payload ->%registered. by intros w.
Qed.

Lemma processor_is_ok : processor_ok no_ctx processor.
Proof.
  split; [done|by intros w; apply rtc_refl|by intros t s d w; apply rtc_refl|].
  intros t h ctx payload ->%registered w. apply rtc_refl.
Qed.

Lemma start_ok : outbox_ok start.2 (pg_tables start).
Proof. split; intros q m Hm; discriminate Hm. Qed.
End Example.
Import Example.

(** A submission whose publication succeeds, its delivery and its dispatch:
    the execution succeeds, its message is published. *)
Definition example_history : list operation :=
  [OpSubmit Caller Example.submission; OpDispatch Caller 10;
   OpProcessTask Caller Example.queued (Some 0)].

Lemma outbox_never_loses_witness :
  let w' := run_operations Example.no_ctx Example.enqueue Example.service Example.processor
              Example.publisher example_history Example.start in
  is_Some (task_outbox_messages (pg_tables w') !! "job-1") /\
  (forall m, task_outbox_messages (pg_tables w') !! "job-1" = Some m ->
     pending m = true \/ "job-1" ∈ w'.2 \/
     exists e, task_executions (pg_tables w') !! om_ExecutionID m = Some e /\ te_Status e <> StatusQueued).
Proof.
  intros w'. split; [vm_compute; eauto|]. intros m Hm.
  apply (outbox_never_loses Example.no_ctx Example.enqueue (fun w => w.2) Example.enqueue_ok
    Example.exec_sent Example.service Example.processor Example.publisher example_history Example.start);
    [done|apply Example.quiet_ret|done|apply Example.processor_worker_ok|apply Example.start_ok|exact Hm].
Defined.

