(* ===== verification/Worker.v ===== *)
(** * One delivery of a task, on a server that answers

    [TaskStore] and [Queue] show what holds whatever fails; this file shows
    what the processor achieves when PostgreSQL answers: the outcome of
    [Processor.Process] on every path. *)
From S2P Require Import Prelude GoStrings Postgres TaskSQL Task TaskStore.

(** [out] is the outcome of the handler, [cancelled] the error of the
    caller's context once it has returned. *)

(** The status a claimed execution ends the delivery with. *)
Definition final_status (out : res Result) (cancelled : option LibErr) : Status :=
  match out with
  | Ok _ => match cancelled with None => StatusSucceeded | Some _ => StatusRunning end
  | Err err => if is_context_error cancelled err then StatusCancelled else StatusRunning
  | Panic => StatusRunning
  end.

(** What the delivery reports to the queue. *)
Definition final_result (out : res Result) (cancelled : option LibErr) : res unit :=
  match out with
  | Ok _ => match cancelled with
            | None => Ok tt
            | Some e => Err (EWrap "mark task succeeded" (SLib e))
            end
  | Err err => Err err
  | Panic => Panic
  end.

Definition final_rows (out : res Result) (cancelled : option LibErr) (before : Z) : Z :=
  match final_status out cancelled, out with
  | "succeeded", Ok result => result_ProcessedRows result
  | "cancelled", _ => 0
  | _, _ => before
  end.

(** What is left of the execution [e] of the message, and of the others. *)
Definition ends_with (out : res Result) (cancelled : option LibErr) (id : string) (attempt : Z) (e : TaskExecution) (d d' : TaskDB) : Prop :=
  exists e', d' = with_executions <[id := e']> d /\
    te_Status e' = final_status out cancelled /\ te_Attempt e' = attempt /\ identity e' = identity e /\
    te_ProcessedRows e' = final_rows out cancelled (te_ProcessedRows e) /\
    (terminal (final_status out cancelled) = true -> is_Some (te_FinishedAt e')).

#[local] Opaque formatUUID.

Lemma claimed_checks c now e :
  0 <= claim_Attempt c -> execution_checks e = true -> execution_checks (claimed c now e) = true.
Proof.
  intros Hpos. unfold execution_checks. rewrite !andb_true_iff. intros [[[? ?] ?] ?].
  by split_and!; [|reflexivity|apply Z.leb_le|].
Qed.

Lemma with_executions_twice id e1 e2 d :
  with_executions <[id := e2]> (with_executions <[id := e1]> d) = with_executions <[id := e2]> d.
Proof. unfold with_executions. simpl. by rewrite insert_insert_eq. Qed.

Lemma ends_claimed out cancelled id attempt c now e d d' :
  ends_with out cancelled id attempt (claimed c now e) (with_executions <[id := claimed c now e]> d) d' ->
  ends_with out cancelled id attempt e d d'.
Proof.
  intros (e' & -> & Hs & Ha & Hi & Hr & Hf). exists e'. rewrite with_executions_twice.
  split_and!; done.
Qed.

Section Worker.
Context {W : Type} `{PgLaws W TaskDB} `{Jsonb} `{Collation} `{ErrorText}.
Variable ctx_err : Context -> W -> option LibErr.
Variable ctx : Context.

(** A detached context is not cancelled, and a statement does not cancel the
    caller's. *)
Hypothesis detached_live : forall d w, ctx_err (Detached d) w = None.
Hypothesis exec_ctx : forall A (s : stmt TaskDB A) c w, ctx_err c (pg_exec s w).2 = ctx_err c w.

(** A computation that succeeds and disturbs neither the database nor the
    context: the clock and the observer. *)
Definition calm {A} (m : M W A) : Prop :=
  forall w, exists a w', m w = (Ok a, w') /\ pg_tables w' = pg_tables w /\
    (pg_up w -> pg_up w') /\ ctx_err ctx w' = ctx_err ctx w.

Variable p : Processor W.
Hypothesis p_store : proc_store p = PostgresExecutionStore ctx_err.
Hypothesis p_now : calm (proc_now p).
Hypothesis p_observe : forall t s d, calm (observe p t s d).

Lemma query_up {A} c (s : stmt TaskDB A) w :
  pg_up w -> ctx_err c w = None ->
  exists env w', env_ok env /\ ctx_err ctx w' = ctx_err ctx w /\
    match s env (pg_tables w) with
    | Ok (a, d) => query ctx_err c s w = (Ok a, w') /\ pg_tables w' = d /\ pg_up w'
    | Err e => query ctx_err c s w = (Err e, w') /\ pg_tables w' = pg_tables w
    | Panic => True
    end.
Proof.
  intros Hup Hc. unfold query. rewrite Hc. pose proof (exec_ctx _ s ctx w) as Hctx.
  destruct (pg_exec_up _ s w Hup) as (env & Henv & Hs). exists env.
  destruct (s env (pg_tables w)) as [[a d]|e|].
  - destruct Hs as (w' & E & Hd & Hu). exists w'. rewrite E in Hctx. by auto.
  - destruct Hs as (w' & E & Hd & Hu). exists w'. rewrite E in Hctx. by auto.
  - by exists w.
Qed.

Lemma GetExecution_up id w :
  uuid_ok id -> pg_up w -> ctx_err ctx w = None ->
  exists w', pg_tables w' = pg_tables w /\ ctx_err ctx w' = None /\
    match task_executions (pg_tables w) !! id with
    | Some e => store_GetExecution ctx_err ctx (formatUUID (Some id)) w = (Ok (executionFromRow e), w') /\
                pg_up w'
    | None => store_GetExecution ctx_err ctx (formatUUID (Some id)) w = (Err ErrExecutionNotFound, w')
    end.
Proof.
  intros Hid Hup Hc. unfold store_GetExecution. rewrite parse_format by done.
  destruct (query_up ctx (GetTaskExecution id) w Hup Hc) as (env & w' & _ & Hc' & Hq).
  unfold GetTaskExecution in Hq at 1. exists w'. rewrite Hc', Hc.
  destruct (task_executions (pg_tables w) !! id) as [e|]; destruct Hq as [Hq Ht].
  - destruct Ht as [Ht Hu]. split_and!; [done|done| |done].
    rewrite M_bind_run, (try_run _ _ _ _ Hq) by done. done.
  - split_and!; [done|done|]. rewrite M_bind_run, (try_run _ _ _ _ Hq) by done. done.
Qed.

Lemma ClaimExecution_up id e attempt startedAt w :
  uuid_ok id -> pg_up w -> ctx_err ctx w = None -> in_int32 attempt -> 0 <= attempt ->
  task_executions (pg_tables w) !! id = Some e -> execution_checks e = true ->
  let c := mkClaim id attempt (Some startedAt) in
  exists now w', ctx_err ctx w' = None /\
    if claimable c e then
      store_ClaimExecution ctx_err ctx (formatUUID (Some id)) attempt startedAt w = (Ok tt, w') /\
      pg_tables w' = with_executions <[id := claimed c now e]> (pg_tables w) /\ pg_up w'
    else
      store_ClaimExecution ctx_err ctx (formatUUID (Some id)) attempt startedAt w =
        (Err ErrExecutionConflict, w') /\ pg_tables w' = pg_tables w.
Proof.
  intros Hid Hup Hc H32 Hpos He Hchk c. unfold store_ClaimExecution. rewrite parse_format by done.
  rewrite int32_id by done. fold c.
  destruct (query_up ctx (ClaimTaskExecution c) w Hup Hc) as (env & w' & _ & Hc' & Hq).
  exists (pg_NOW env), w'. rewrite Hc', Hc. split; [done|].
  unfold ClaimTaskExecution in Hq at 1. simpl in Hq. rewrite He in Hq.
  unfold of_res. rewrite M_bind_run. cbn beta iota. fold c.
  destruct (claimable c e).
  - rewrite claimed_checks in Hq by done. simpl in Hq. destruct Hq as (Hq & Ht & Hu).
    rewrite M_bind_run, Hq. done.
  - destruct Hq as (Hq & Ht & _). rewrite M_bind_run, Hq. done.
Qed.

Lemma UpdateExecution_up c u id e w :
  uuid_ok id -> pg_up w -> ctx_err c w = None -> in_int32 (up_Attempt u) -> 0 <= up_Attempt u ->
  up_ID u = formatUUID (Some id) -> up_ExpectedAttempt u = up_Attempt u ->
  0 <= up_ProcessedRows u -> status_valid (up_Status u) = true ->
  task_executions (pg_tables w) !! id = Some e -> execution_checks e = true ->
  te_Status e = up_ExpectedStatus u -> te_Attempt e = up_Attempt u ->
  let q := mkUpdate (up_Status u) (up_StartedAt u) (up_FinishedAt u) (nullableText (up_ErrorSummary u))
             (up_ProcessedRows u) (up_Attempt u) id (up_ExpectedStatus u) (up_Attempt u) in
  exists now w', store_UpdateExecution ctx_err c u w = (Ok tt, w') /\ ctx_err ctx w' = ctx_err ctx w /\
    pg_tables w' = with_executions <[id := updated q now e]> (pg_tables w) /\ pg_up w'.
Proof.
  intros Hid Hup Hc H32 Hpos Hu HE Hrows Hst He Hchk Hs Ha q.
  unfold store_UpdateExecution. rewrite Hu, parse_format by done.
  rewrite HE, int32_id by done. fold q.
  destruct (query_up c (UpdateTaskExecutionStatus q) w Hup Hc) as (env & w' & _ & Hc' & Hq).
  exists (pg_NOW env), w'. unfold UpdateTaskExecutionStatus in Hq at 1. simpl in Hq. rewrite He in Hq.
  assert (updatable q e = true) as Hq1.
  { unfold updatable. simpl. by rewrite Hs, Ha, Z.eqb_refl, bool_decide_eq_true_2. }
  assert (execution_checks (updated q (pg_NOW env) e) = true) as Hq2.
  { unfold execution_checks in *. rewrite !andb_true_iff in *. destruct Hchk as [[[? ?] ?] ?].
    by split_and!; [| |apply Z.leb_le|apply Z.leb_le]. }
  rewrite Hq1, Hq2 in Hq. simpl in Hq. destruct Hq as (Hq & Ht & Hup').
  unfold of_res. rewrite M_bind_run. cbn beta iota. fold q. by rewrite M_bind_run, Hq.
Qed.


(** The handler of the task: its outcome, and the error of the caller's
    context once it has returned. *)
Variable taskType payload : string.
Variable h : Handler W.
Variable out : res Result.
Variable cancelled : option LibErr.
Hypothesis h_registered : proc_registry p !! taskType = Some (Some h).
Hypothesis h_runs : forall w, pg_up w -> ctx_err ctx w = None ->
  exists w', h ctx payload w = (out, w') /\ pg_tables w' = pg_tables w /\ pg_up w' /\
             ctx_err ctx w' = cancelled.

Hypothesis out_rows : match out with Ok result => 0 <= result_ProcessedRows result | _ => True end.

(** A status update of a claimed execution, and the clock and observer around
    it. *)
Lemma update_up c u id attempt e w :
  uuid_ok id -> pg_up w -> ctx_err c w = None -> in_int32 attempt -> 0 <= attempt ->
  task_executions (pg_tables w) !! id = Some e -> execution_checks e = true ->
  te_Status e = StatusRunning -> te_Attempt e = attempt ->
  up_ID u = formatUUID (Some id) -> up_Attempt u = attempt -> up_ExpectedAttempt u = attempt ->
  up_ExpectedStatus u = StatusRunning -> terminal (up_Status u) = true -> is_Some (up_FinishedAt u) ->
  up_Status u = final_status out cancelled -> up_ProcessedRows u = final_rows out cancelled (te_ProcessedRows e) ->
  0 <= up_ProcessedRows u ->
  exists w', store_UpdateExecution ctx_err c u w = (Ok tt, w') /\ ctx_err ctx w' = ctx_err ctx w /\
    ends_with out cancelled id attempt e (pg_tables w) (pg_tables w') /\ pg_up w'.
Proof.
  intros Hid Hup Hc H32 Hpos He Hchk Hst Hat Hu Ha HE HS Hterm [t Hf] Hfs Hfr Hrows.
  assert (status_valid (up_Status u) = true) as Hsv.
  { unfold terminal, status_valid in *. bool_prop. rewrite bool_decide_eq_true.
    rewrite !elem_of_cons in *. tauto. }
  destruct (UpdateExecution_up c u id e w Hid Hup Hc) as (now & w' & Hr & Hc' & Ht & Hup'); try congruence.
  exists w'. split_and!; try done. rewrite Ht. eexists. split; [done|]. simpl.
  split_and!; [congruence|done|done|congruence|]. rewrite Hf. simpl. eauto.
Qed.

Lemma calm_after {A} (m : M W A) w :
  calm m -> pg_up w -> exists a w', m w = (Ok a, w') /\ pg_tables w' = pg_tables w /\ pg_up w' /\
    ctx_err ctx w' = ctx_err ctx w.
Proof. intros Hm Hup. destruct (Hm w) as (a & w' & E & Ht & Hu & Hc). exists a, w'. auto. Qed.

Lemma try_then {A B} (m : M W A) (k : res A -> M W B) w r w' :
  m w = (r, w') -> (forall w, k Panic w = (Panic, w)) -> (try m ≫= k) w = k r w'.
Proof. intros E Hk. rewrite M_bind_run. unfold try. rewrite E. destruct r; [done|done|by rewrite Hk]. Qed.

Lemma UpdateExecution_done c u id ce w :
  uuid_ok id -> up_ID u = formatUUID (Some id) -> ctx_err c w = Some ce ->
  store_UpdateExecution ctx_err c u w = (Err (SLib ce), w).
Proof.
  intros Hid Hu Hc. unfold store_UpdateExecution. rewrite Hu, parse_format by done.
  unfold of_res, query. rewrite M_bind_run. cbn beta iota. by rewrite M_bind_run, Hc.
Qed.

Lemma ends_unchanged id attempt e d :
  final_status out cancelled = StatusRunning -> task_executions d !! id = Some e ->
  te_Status e = StatusRunning -> te_Attempt e = attempt -> ends_with out cancelled id attempt e d d.
Proof.
  intros Hf He Hst Hat. exists e. unfold final_rows. rewrite Hf. split_and!; try done.
  unfold with_executions. rewrite insert_id by done. by destruct d.
Qed.

Lemma finish_outcome message id e attempt startedAt w :
  msg_ExecutionID message = formatUUID (Some id) ->
  uuid_ok id -> pg_up w -> ctx_err ctx w = cancelled -> in_int32 attempt -> 0 <= attempt ->
  task_executions (pg_tables w) !! id = Some e -> execution_checks e = true ->
  te_Status e = StatusRunning -> te_Attempt e = attempt ->
  exists w', finish ctx_err p ctx message attempt startedAt out w = (final_result out cancelled, w') /\
    ends_with out cancelled id attempt e (pg_tables w) (pg_tables w').
Proof.
  intros Hmsg Hid Hup Hc H32 Hpos He Hchk Hst Hat.
  pose proof (fun Hf => ends_unchanged id attempt e (pg_tables w) Hf He Hst Hat) as Hkeep.
  destruct (calm_after _ w p_now Hup) as (t & w1 & Enow & Ht1 & Hup1 & Hc1).
  rewrite <- Ht1 in He |- *. unfold finish, final_result. rewrite p_store, Hmsg. simpl.
  pose proof (update_up) as Hupd. unfold ends_with, final_rows, final_status in *.
  destruct out as [result|err|]; [| |exists w; rewrite Ht1; auto].
  - rewrite M_bind_run, Enow. cbn beta iota. rewrite M_bind_run. unfold wrap.
    destruct cancelled as [ce|].
    + erewrite UpdateExecution_done; [|done|done|by rewrite Hc1]. exists w1. rewrite Ht1. auto.
    + match goal with |- context [store_UpdateExecution _ ?c ?u w1] =>
        destruct (Hupd c u id attempt e w1) as (w2 & -> & Hc2 & Hends & Hup2) end;
        try first [done|by rewrite Hc1|by eexists].
      destruct (calm_after _ w2 (p_observe (msg_TaskType message) StatusSucceeded (time_sub t startedAt)) Hup2)
        as ([] & w3 & -> & Ht3 & _). exists w3. by rewrite Ht3.
  - unfold get_world. rewrite M_bind_run. cbn beta iota. rewrite Hc.
    destruct (is_context_error cancelled err) eqn:Ece; [|exists w; rewrite Ht1; auto].
    rewrite M_bind_run, Enow. cbn beta iota. rewrite M_bind_run.
    match goal with |- context [store_UpdateExecution _ ?c ?u] =>
      destruct (Hupd c u id attempt e w1) as (w2 & Er & Hc2 & Hends & Hup2) end;
      try first [done|apply detached_live|by eexists|by rewrite Ece].
    erewrite try_run; [|exact Er|done]. cbn beta iota. rewrite M_bind_run.
    destruct (calm_after _ w2 (p_observe (msg_TaskType message) StatusCancelled (time_sub t startedAt)) Hup2)
      as ([] & w3 & -> & Ht3 & _). exists w3. by rewrite Ht3.
Qed.

(** A delivery of an execution that is not done: the claim decides. *)
Lemma Process_run id e attempt w :
  uuid_ok id -> pg_up w -> ctx_err ctx w = None -> in_int32 attempt -> 0 <= attempt ->
  task_executions (pg_tables w) !! id = Some e -> execution_checks e = true -> terminal (te_Status e) = false ->
  exists r w', Process ctx_err p ctx (mkMessage (formatUUID (Some id)) taskType payload) attempt w = (r, w') /\
    if attempt <=? te_Attempt e then
      r = Err (EWrap "claim task execution" ErrExecutionConflict) /\ pg_tables w' = pg_tables w
    else
      r = final_result out cancelled /\ ends_with out cancelled id attempt e (pg_tables w) (pg_tables w').
Proof.
  intros Hid Hup Hc H32 Hpos He Hwf Hterm. unfold Process. rewrite p_store. simpl.
  destruct (GetExecution_up id w Hid Hup Hc) as (w1 & Ht1 & Hc1 & Hget).
  rewrite M_bind_run. unfold wrap at 1. rewrite He in Hget. destruct Hget as [-> Hup1]. cbn beta iota. rewrite <- Ht1 in He |- *.
  rewrite M_bind_run. cbn [ex_Status executionFromRow].
  assert (te_Status e ∈ ["queued"; "running"]) as Hst.
  { unfold execution_checks, status_valid in Hwf. unfold terminal in Hterm. bool_prop.
    rewrite !elem_of_cons in *. tauto. }
  assert (ValidateTransition (te_Status e) StatusRunning = None) as ->.
  { rewrite !elem_of_cons in Hst. destruct Hst as [->|[->|Hf]]; [done|done|by apply not_elem_of_nil in Hf]. }
  simpl. destruct (calm_after _ w1 p_now Hup1) as (t & w2 & Enow & Ht2 & Hup2 & Hc2).
  rewrite M_bind_run, Enow. cbn beta iota. rewrite <- Ht2 in He |- *.
  destruct (ClaimExecution_up id e attempt t w2 Hid Hup2 ltac:(congruence) H32 Hpos He Hwf)
    as (now & w3 & Hc3 & Hclaim).
  rewrite M_bind_run. unfold wrap at 1.
  unfold claimable in Hclaim. rewrite bool_decide_eq_true_2 in Hclaim by done. cbn [claim_Attempt andb] in Hclaim.
  rewrite Z.leb_antisym. destruct (te_Attempt e <? attempt); simpl.
  2: { destruct Hclaim as [-> Ht3]. eauto. }
  destruct Hclaim as (-> & Ht3 & Hup3). cbn beta iota.
  destruct (calm_after _ w3 (p_observe taskType StatusRunning 0) Hup3) as ([] & w4 & Eo & Ht4 & Hup4 & Hc4).
  rewrite M_bind_run, Eo. cbn beta iota. unfold Resolve. rewrite h_registered, M_bind_run. unfold of_res at 1. cbn beta iota.
  destruct (h_runs w4 Hup4 ltac:(congruence)) as (w5 & Eh & Ht5 & Hup5 & Hc5).
  erewrite try_then; [|exact Eh|done]. rewrite <- Ht4, <- Ht5 in Ht3.
  destruct (finish_outcome (mkMessage (formatUUID (Some id)) taskType payload) id
    (claimed (mkClaim id attempt (Some t)) now e) attempt t w5) as (w6 & -> & Hends); try done.
  { rewrite Ht3. apply lookup_insert_eq. }
  { by apply claimed_checks. }
  exists (final_result out cancelled), w6. split_and!; [done|done|]. rewrite Ht3 in Hends.
  by eapply ends_claimed.
Qed.
End Worker.

(** ** A worker on a concrete server *)
Module WorkerExample.

Definition World : Type := Conn TaskDB.
#[export] Instance jsonb : Jsonb := Some.
#[export] Instance collation : Collation := String.leb.
#[export] Instance error_text : ErrorText := fun _ => "error".

(** No context is cancelled. *)
Definition ctx_err (_ : Context) (_ : World) : option LibErr := None.

Definition id : string := fresh_uuid 7.
Definition queued : TaskExecution :=
  mkTaskExecution id None "system.test" (Some "job-7") None "{}" "queued" 0 0 None 0 None None 0 0.
Definition db : TaskDB := with_executions <[id := queued]> empty_db.

Definition handler : Handler World := fun _ _ => mret (mkResult 3).
Definition processor : Processor World :=
  mkProcessor (PostgresExecutionStore ctx_err) {[ "system.test" := Some handler ]} (mret 5000) None.

Lemma calm_ret {A} (a : A) : calm ctx_err Caller (mret a).
Proof. intros w. exists a, w. auto. Qed.
End WorkerExample.
Import WorkerExample.


Lemma execution_lifecycle_witness :
  exists d', task_steps db d' /\ task_executions d' !! id <> Some queued /\
    exists e', task_executions d' !! id = Some e' /\ identity e' = identity queued.
Proof.
  set (d' := with_executions <[id := claimed (mkClaim id 1 None) 9 queued]> db).
  assert (task_steps db d') as Hs.
  { apply rtc_once. by apply (step_claim (mkClaim id 1 None) (mkPgEnv 9 "") db 1 d'). }
  exists d'. split_and!; [exact Hs|vm_compute; discriminate|].
  destruct (execution_lifecycle db d' id queued Hs) as (e' & He' & Hi & _); [reflexivity|].
  by exists e'.
Defined.

Lemma claim_exclusive_witness :
  let c := mkClaim id 1 None in
  let d1 := with_executions <[id := claimed c 9 queued]> db in
  ClaimTaskExecution c (mkPgEnv 10 "") d1 = Ok (0, d1) /\ 0 = 0 /\ d1 = d1.
Proof.
  intros c d1. split; [reflexivity|].
  by apply (claim_exclusive c (mkPgEnv 9 "") db d1 d1 c (mkPgEnv 10 "") 0 d1).
Defined.
