(* ===== verification/Dispatch.v ===== *)
(** * The dispatch loop of the worker ([internal/app/tasks.go])

    The worker drains the outbox of [Queue] on a ticker.  The loop is its
    sequence of [select]s: a tick dispatches a batch, the end of the context
    leaves it. *)
From S2P Require Import Prelude GoStrings Postgres TaskSQL Task TaskStore Queue.

(** @src internal/app/tasks.go:45-49 outboxDispatchBatchSize *)
Definition outboxDispatchBatchSize : Z := 100.
Definition outboxDispatchInterval : Z := 5 * Second.
Definition outboxDispatchTimeout : Z := 10 * Second.

Section Dispatcher.
Context {W : Type} (ctx_err : Context -> W -> option LibErr) (log : error -> M W unit).
Variable DispatchPending : Context -> Z -> M W unit.
Variable limit : Z.

(** @src internal/app/tasks.go:80-86 (runOutboxDispatcher) dispatch *)
Definition dispatch : M W unit :=
  r ← try (DispatchPending (Bounded outboxDispatchTimeout) limit);
  match r with
  | Err err => c ← gets (ctx_err Caller); when (bool_decide (c = None)) (log err)
  | _ => mret tt
  end.

(** The cases its [select] takes. *)
Inductive select := Tick | Done.

(** A history that does not end with [Done] is a loop that still waits.
    @src internal/app/tasks.go:87-97 (runOutboxDispatcher) loop *)
Fixpoint dispatch_loop (selects : list select) : M W unit :=
  match selects with
  | [] | Done :: _ => mret tt
  | Tick :: selects => _ ← dispatch; dispatch_loop selects
  end.

(** @src internal/app/tasks.go:76-98 runOutboxDispatcher *)
Definition runOutboxDispatcher (selects : list select) : M W unit := _ ← dispatch; dispatch_loop selects.
End Dispatcher.

(** ** Draining the outbox *)

(** The messages that wait, the ones that are not published yet. *)
Definition waiting (d : TaskDB) : list TaskOutboxMessage := where_ pending (rows (task_outbox_messages d)).
Definition waiting_ids (d : TaskDB) : gset string := list_to_set (om_QueueID <$> waiting d).

(** What the schema says of the outbox: its primary key, the foreign key to
    the executions, and that a payload is what a [jsonb] column gives back. *)
Record outbox_wf `{Jsonb} (d : TaskDB) : Prop := {
  outbox_key : forall q m, task_outbox_messages d !! q = Some m -> om_QueueID m = q /\ q <> "";
  outbox_execution : forall q m, task_outbox_messages d !! q = Some m -> is_Some (task_executions d !! om_ExecutionID m);
  outbox_payload : forall q m, task_outbox_messages d !! q = Some m -> exists raw, jsonb_in raw = Some (om_Payload m);
}.

Lemma elem_of_waiting d m : m ∈ waiting d <-> pending m = true /\ exists q, task_outbox_messages d !! q = Some m.
Proof. unfold waiting. rewrite elem_of_where, elem_of_rows. tauto. Qed.

Lemma waiting_id `{Jsonb} d q : outbox_wf d -> q ∈ waiting_ids d <-> exists m, task_outbox_messages d !! q = Some m /\ pending m = true.
Proof.
  intros Hwf. unfold waiting_ids. rewrite elem_of_list_to_set, list_elem_of_fmap. setoid_rewrite elem_of_waiting. split.
  - intros (m & -> & Hp & q' & Hm). exists m. by destruct (outbox_key _ Hwf _ _ Hm) as [-> _].
  - intros (m & Hm & Hp). exists m. destruct (outbox_key _ Hwf _ _ Hm) as [-> _]. eauto.
Qed.

Lemma waiting_NoDup `{Jsonb} d : outbox_wf d -> NoDup (om_QueueID <$> waiting d).
Proof.
  intros Hwf. unfold waiting, where_, rows. pose proof (NoDup_fst_map_to_list (task_outbox_messages d)) as Hnd.
  assert (Forall (fun qm => om_QueueID qm.2 = qm.1) (map_to_list (task_outbox_messages d))) as Hk.
  { apply Forall_forall. intros [q m] Hin%elem_of_map_to_list. by apply (outbox_key _ Hwf) in Hin as [? _]. }
  induction (map_to_list (task_outbox_messages d)) as [|[q m] l IH]; simpl; [constructor|].
  apply Forall_cons in Hk as [Hq Hk]. apply NoDup_cons in Hnd as [Hnotin Hnd]. simpl in *.
  destruct (pending m); [|by apply IH]. simpl. apply NoDup_cons. split; [|by apply IH].
  rewrite Hq. intros (m' & Hm' & Hin)%list_elem_of_fmap. apply Hnotin. apply list_elem_of_In, filter_In in Hin as [Hin _].
  apply list_elem_of_In, list_elem_of_fmap in Hin as ([q' m''] & -> & Hin). simpl in *.
  apply list_elem_of_fmap. exists (q', m''). split; [|done]. simpl. rewrite Forall_forall in Hk. specialize (Hk _ Hin). simpl in Hk. congruence.
Qed.

Lemma waiting_size `{Jsonb} d : outbox_wf d -> size (waiting_ids d) = length (waiting d).
Proof. intros Hwf. unfold waiting_ids. rewrite size_list_to_set by by apply waiting_NoDup. by rewrite length_fmap. Qed.

(** One batch: nothing else changes, and the messages [ids] are published. *)
Definition progress (ids : gset string) (d d' : TaskDB) : Prop :=
  task_executions d' = task_executions d /\
  (forall q m', task_outbox_messages d' !! q = Some m' -> exists m, task_outbox_messages d !! q = Some m /\
     om_QueueID m' = om_QueueID m /\ om_ExecutionID m' = om_ExecutionID m /\ om_Payload m' = om_Payload m /\
     (pending m' = true -> pending m = true /\ q ∉ ids)) /\
  (forall q m, task_outbox_messages d !! q = Some m -> q ∉ ids -> task_outbox_messages d' !! q = Some m).

Lemma progress_wf `{Jsonb} ids d d' : progress ids d d' -> outbox_wf d -> outbox_wf d'.
Proof.
  intros (He & Hp & _) [Hk Hx Hy]. split; intros q m' Hm'; destruct (Hp _ _ Hm') as (m & Hm & Hid & Hex & Hpay & _).
  - rewrite Hid. by apply Hk.
  - rewrite Hex, He. by eapply Hx.
  - rewrite Hpay. by eapply Hy.
Qed.

Lemma progress_refl d : progress ∅ d d.
Proof. split_and!; [done| |done]. intros q m Hm. exists m. set_solver. Qed.

Lemma progress_trans ids1 ids2 d d1 d2 : progress ids1 d d1 -> progress ids2 d1 d2 -> progress (ids1 ∪ ids2) d d2.
Proof.
  intros (He1 & H1 & Hk1) (He2 & H2 & Hk2). split_and!; [congruence| |].
  2: { intros q m Hm Hq. apply Hk2; [apply Hk1; [done|]|]; set_solver. }
  intros q m2 Hm2. destruct (H2 _ _ Hm2) as (m1 & Hm1 & Hq1 & Hx1 & Hy1 & Hp1).
  destruct (H1 _ _ Hm1) as (m & Hm & Hq & Hx & Hy & Hp). exists m. split_and!; [done|congruence..|].
  intros Hpend. destruct (Hp1 Hpend) as [Hpend1 ?]. destruct (Hp Hpend1). split; [done|set_solver].
Qed.

Lemma progress_waiting `{Jsonb} ids d d' : outbox_wf d -> progress ids d d' -> waiting_ids d' ⊆ waiting_ids d ∖ ids.
Proof.
  intros Hwf Hp q Hq. pose proof (progress_wf _ _ _ Hp Hwf) as Hwf'. apply (waiting_id _ _ Hwf') in Hq as (m' & Hm' & Hpend).
  destruct (proj1 (proj2 Hp) _ _ Hm') as (m & Hm & _ & _ & _ & Hx). destruct (Hx Hpend). apply elem_of_difference. split; [|done].
  apply (waiting_id _ _ Hwf). eauto.
Qed.

(** The tasks the broker has, under their identifiers. *)
#[export] Instance task_eq_dec : EqDecision Queue.Task. Proof. solve_decision. Defined.
#[export] Instance task_countable : Countable Queue.Task.
Proof. refine (inj_countable' (fun t => (task_Type t, task_Payload t)) (fun '(ty, payload) => Queue.mkTask ty payload) _). by intros []. Defined.

(** The queue message an outbox message stands for. *)
Definition message_of (m : TaskOutboxMessage) : Message :=
  mkMessage (formatUUID (Some (om_ExecutionID m))) (om_TaskType m) (om_Payload m).

Section Drain.
Context {W : Type} `{PgLaws W TaskDB} `{Jsonb} `{Collation} `{MessageJsonLaws}.
Variable ctx_err : Context -> W -> option LibErr.
Variable EnqueueContext : Context -> Queue.Task -> list Option -> M W unit.
Variable sent : W -> gset (string * Queue.Task).
Variable log : error -> M W unit.

(** The server answers and no context has ended. *)
Definition healthy (w : W) : Prop := pg_up w /\ forall c, ctx_err c w = None.

Hypothesis exec_ctx : forall A (s : stmt TaskDB A) c w, ctx_err c (pg_exec s w).2 = ctx_err c w.
Hypothesis exec_sent : forall A (s : stmt TaskDB A) w, sent (pg_exec s w).2 = sent w.
(** What a [jsonb] column gives back is JSON. *)
Hypothesis jsonb_json : forall raw text, jsonb_in raw = Some text -> is_Some (json_raw text).
(** The broker accepts tasks: it keeps them under their identifiers, and
    touches neither the database nor the contexts. *)
Hypothesis enqueue_accepts : forall ctx t options w, healthy w -> exists w',
  EnqueueContext ctx t options w = (Ok tt, w') /\ pg_tables w' = pg_tables w /\ healthy w' /\ sent w ⊆ sent w' /\
  forall id, TaskID id ∈ options -> (id, t) ∈ sent w'.

(** The broker has the task of a message. *)
Definition enqueued (w : W) (id : string) (message : Message) : Prop :=
  exists text, json_marshal_message message = Ok text /\ (id, Queue.mkTask (msg_TaskType message) text) ∈ sent w.

Lemma enqueued_mono w w' id message : sent w ⊆ sent w' -> enqueued w id message -> enqueued w' id message.
Proof. intros Hs (text & Et & Hin). exists text. split; [done|by apply Hs]. Qed.

Abbreviation dispatcher q :=
  (mkOutboxDispatcher (store_ListPendingPublishes ctx_err) (store_MarkPublishSucceeded ctx_err) (Publish EnqueueContext q)).
Abbreviation batch q := (DispatchPending (dispatcher q)).

Lemma query_healthy {A} c (s : stmt TaskDB A) w :
  healthy w -> (forall env d, exists a d', s env d = Ok (a, d')) ->
  exists env a w', query ctx_err c s w = (Ok a, w') /\ s env (pg_tables w) = Ok (a, pg_tables w') /\ healthy w' /\ sent w' = sent w.
Proof.
  intros [Hup Hc] Hs. destruct (pg_exec_up _ s w Hup) as (env & _ & Hrun). destruct (Hs env (pg_tables w)) as (a & d' & E).
  rewrite E in Hrun. destruct Hrun as (w' & Er & Ht & Hup'). exists env, a, w'. unfold query. rewrite Hc, Er, E, Ht.
  split_and!; [done|done|split; [done|]|].
  - intros c'. pose proof (exec_ctx _ s c' w) as Hx. rewrite Er in Hx. simpl in Hx. by rewrite Hx.
  - pose proof (exec_sent _ s w) as Hx. by rewrite Er in Hx.
Qed.

Lemma mark_progress q env d d' : outbox_wf d -> MarkTaskOutboxMessagePublished q env d = Ok (tt, d') -> progress {[ q ]} d d'.
Proof.
  intros Hwf E. unfold MarkTaskOutboxMessagePublished in E.
  assert (forall m, task_outbox_messages d !! q = Some m -> pending m = false -> progress {[ q ]} d d) as Hsame.
  { intros m Hm Hp. split_and!; [done| |done]. intros i m' Hi. exists m'. split_and!; try done. intros Hpend. split; [done|].
    intros ->%elem_of_singleton. congruence. }
  destruct (task_outbox_messages d !! q) as [m|] eqn:Hm.
  - destruct (pending m) eqn:Hp; injection E as <-; [|by eapply Hsame].
    split_and!; [done| |intros i m' Hi Hne; simpl; rewrite lookup_insert_ne; [done|by intros ->; apply Hne, elem_of_singleton]].
    intros i m' Hi. simpl in Hi. apply lookup_insert_Some in Hi as [[<- <-]|[Hne Hi]]; [by exists m|].
    exists m'. split_and!; try done. intros Hpend. split; [done|]. by intros ->%elem_of_singleton.
  - injection E as <-. split_and!; [done| |done]. intros i m' Hi. exists m'. split_and!; try done. intros Hpend. split; [done|].
    intros ->%elem_of_singleton. congruence.
Qed.

Lemma message_encodes m : is_Some (json_raw (msg_Payload m)) -> exists text, json_marshal_message m = Ok text.
Proof.
  intros [payload E]. pose proof (message_marshal m) as Hm. rewrite E in Hm. destruct (json_marshal_message m); eauto; discriminate.
Qed.

Lemma Publish_healthy q ctx message options w : healthy w -> opt_QueueID options <> "" -> is_Some (json_raw (msg_Payload message)) ->
  exists w', Publish EnqueueContext q ctx message options w = (Ok tt, w') /\ pg_tables w' = pg_tables w /\ healthy w' /\
    sent w ⊆ sent w' /\ enqueued w' (opt_QueueID options) message.
Proof.
  intros Hw Hid Hraw. destruct (message_encodes message Hraw) as [text Et].
  destruct (enqueue_accepts ctx (Queue.mkTask (msg_TaskType message) text) (enqueueOptions q options) w Hw)
    as (w1 & E & Ht & Hw1 & Hs & Hin). exists w1. split_and!; try done.
  - unfold Publish. rewrite M_bind_run. unfold wrap, of_res. rewrite Et, M_bind_run. unfold try. by rewrite E.
  - exists text. split; [done|]. apply Hin. unfold enqueueOptions. rewrite (proj2 (is_empty_false _) Hid), !elem_of_app. right; right; left. by left.
Qed.

(** Publishing one message that was listed. *)
Lemma dispatch_one_healthy q ctx p w :
  healthy w -> outbox_wf (pg_tables w) -> opt_QueueID (pp_Options p) <> "" -> is_Some (json_raw (msg_Payload (pp_Message p))) ->
  exists w', dispatch_one (dispatcher q) ctx p w = (Ok tt, w') /\ healthy w' /\ sent w ⊆ sent w' /\
    progress {[ opt_QueueID (pp_Options p) ]} (pg_tables w) (pg_tables w') /\
    (pp_ExecutionStatus p = StatusQueued -> enqueued w' (opt_QueueID (pp_Options p)) (pp_Message p)).
Proof.
  intros Hw Hwf Hid Hraw. unfold dispatch_one. simpl. set (id := opt_QueueID (pp_Options p)).
  assert (exists w1, when (bool_decide (pp_ExecutionStatus p = StatusQueued))
      (wrap ("publish queued task " +:+ id) (Publish EnqueueContext q ctx (pp_Message p) (pp_Options p))) w = (Ok tt, w1) /\
    pg_tables w1 = pg_tables w /\ healthy w1 /\ sent w ⊆ sent w1 /\ (pp_ExecutionStatus p = StatusQueued -> enqueued w1 id (pp_Message p)))
    as (w1 & E1 & Ht1 & Hw1 & Hs1 & Hin1).
  { case_bool_decide as Hq; simpl; [|exists w; split_and!; done].
    destruct (Publish_healthy q ctx (pp_Message p) (pp_Options p) w Hw Hid Hraw) as (w1 & E & Ht & Hw1 & Hs & Hin).
    exists w1. split_and!; try done. unfold wrap. by rewrite E. }
  rewrite M_bind_run, E1. unfold wrap, store_MarkPublishSucceeded.
  destruct (query_healthy ctx (MarkTaskOutboxMessagePublished id) w1 Hw1) as (env & [] & w2 & E2 & Em & Hw2 & Hs2).
  { intros env d. unfold MarkTaskOutboxMessagePublished. repeat case_match; eauto. }
  rewrite E2. exists w2. split_and!; [done|done|by rewrite Hs2| |].
  - rewrite <- Ht1 in Hwf |- *. by eapply mark_progress.
  - intros Hq. apply (enqueued_mono w1); [by rewrite Hs2|by apply Hin1].
Qed.

Lemma dispatch_all_healthy q ctx ps w :
  healthy w -> outbox_wf (pg_tables w) -> Forall (fun p => opt_QueueID (pp_Options p) <> "" /\ is_Some (json_raw (msg_Payload (pp_Message p)))) ps ->
  exists w', for_each ps (dispatch_one (dispatcher q) ctx) w = (Ok tt, w') /\ healthy w' /\ sent w ⊆ sent w' /\
    progress (list_to_set (map (fun p => opt_QueueID (pp_Options p)) ps)) (pg_tables w) (pg_tables w') /\
    forall p, p ∈ ps -> pp_ExecutionStatus p = StatusQueued -> enqueued w' (opt_QueueID (pp_Options p)) (pp_Message p).
Proof.
  revert w. induction ps as [|p ps IH]; intros w Hw Hwf Hids; simpl.
  - exists w. split_and!; try done; [apply progress_refl|]. by intros p ?%elem_of_nil.
  - apply Forall_cons in Hids as [[Hid Hraw] Hids]. destruct (dispatch_one_healthy q ctx p w Hw Hwf Hid Hraw) as (w1 & E1 & Hw1 & Hs1 & Hp1 & Hin1).
    rewrite M_bind_run, E1. destruct (IH w1 Hw1 (progress_wf _ _ _ Hp1 Hwf) Hids) as (w2 & E2 & Hw2 & Hs2 & Hp2 & Hin2).
    exists w2. split_and!; [done|done|by etransitivity|by eapply progress_trans|].
    intros p' [->|Hp']%elem_of_cons Hq; [by eapply enqueued_mono, Hin1|by apply Hin2].
Qed.

(** The batch that is listed: the oldest messages that wait, up to the
    limit, with the status of their executions. *)
Lemma batch_listed limit env d batch d' : outbox_wf d -> 0 <= limit -> ListPendingTaskOutboxMessages limit env d = Ok (batch, d') ->
  d' = d /\ (Z.of_nat (length batch) = Z.min limit (Z.of_nat (length (waiting d)))) /\
  NoDup (map (fun row => om_QueueID row.2) batch) /\
  forall row, row ∈ batch -> exists e, row.2 ∈ waiting d /\ task_executions d !! om_ExecutionID row.2 = Some e /\ row.1 = te_Status e.
Proof.
  intros Hwf Hl E. unfold ListPendingTaskOutboxMessages in E. res_inv E. injection E as <- <-.
  set (l := order_by oldest_first (where_ pending (rows (task_outbox_messages d)))) in E0.
  assert (l ≡ₚ waiting d) as Hperm by apply merge_sort_Permutation.
  set (f := fun m => e ← task_executions d !! om_ExecutionID m; Some (te_Status e, m)) in E0.
  assert (omap f l = map (fun m => (default "" (te_Status <$> task_executions d !! om_ExecutionID m), m)) l) as Hmap.
  { assert (Forall (fun m => m ∈ waiting d) l) as Hall by (apply Forall_forall; intros m Hm; by rewrite <- Hperm). clear E0 Hperm.
    induction Hall as [|m l' Hm _ IH]; [done|]. apply elem_of_waiting in Hm as [_ [k Hk]].
    destruct (outbox_execution _ Hwf _ _ Hk) as [e He].
    assert (f m = Some (default "" (te_Status <$> task_executions d !! om_ExecutionID m), m)) as Hf by (unfold f; by rewrite He).
    cbn [omap list_omap map]. rewrite Hf. f_equal. exact IH. }
  unfold limit_offset in E0. rewrite (proj2 (Z.ltb_ge limit 0)) in E0 by lia. simpl in E0. injection E0 as <-. rewrite drop_0, Hmap.
  split_and!; [done|..].
  - rewrite length_take, length_map, (Permutation_length Hperm). lia.
  - rewrite <- firstn_map, map_map. simpl. eapply sublist_NoDup; [|apply sublist_take].
    change (NoDup (om_QueueID <$> l)). rewrite Hperm. by apply waiting_NoDup.
  - intros row Hrow. apply elem_of_take in Hrow as (i & Hi & _). apply list_elem_of_lookup_2, list_elem_of_fmap in Hi as (m & -> & Hm).
    rewrite Hperm in Hm. apply elem_of_waiting in Hm as Hm'. destruct Hm' as [_ [k Hk]].
    destruct (outbox_execution _ Hwf _ _ Hk) as [e He]. exists e. simpl. by rewrite He.
Qed.

Lemma batch_healthy q ctx w : healthy w -> outbox_wf (pg_tables w) -> exists ids w',
  batch q ctx outboxDispatchBatchSize w = (Ok tt, w') /\ healthy w' /\ sent w ⊆ sent w' /\ progress ids (pg_tables w) (pg_tables w') /\
  (size (waiting_ids (pg_tables w')) <= size (waiting_ids (pg_tables w)) - 100)%nat /\
  forall id m e, id ∈ ids -> task_outbox_messages (pg_tables w) !! id = Some m ->
    task_executions (pg_tables w) !! om_ExecutionID m = Some e -> te_Status e = StatusQueued -> enqueued w' id (message_of m).
Proof.
  intros Hw Hwf. unfold DispatchPending, store_ListPendingPublishes. cbn [disp_ListPendingPublishes].
  change (int32 outboxDispatchBatchSize) with 100.
  destruct (query_healthy ctx (ListPendingTaskOutboxMessages 100) w Hw) as (env & listed & w1 & E1 & El & Hw1 & Hs1).
  { intros env d. unfold ListPendingTaskOutboxMessages, limit_offset. simpl. eauto. }
  apply batch_listed in El as (Ht & Hlen & Hnd & Hrows); [|done|lia].
  destruct (dispatch_all_healthy q ctx (map pendingFromRow listed) w1 Hw1) as (w2 & E2 & Hw2 & Hs2 & Hp & Hin); [by rewrite Ht| |].
  { apply Forall_map, Forall_forall. intros [st m] Hrow. destruct (Hrows _ Hrow) as (e & Hm & _). simpl in *.
    apply elem_of_waiting in Hm as [_ [k Hk]]. split; [by destruct (outbox_key _ Hwf _ _ Hk) as [-> ?]|].
    destruct (outbox_payload _ Hwf _ _ Hk) as [raw Hraw]. by eapply jsonb_json. }
  set (ids := list_to_set (map (fun p => opt_QueueID (pp_Options p)) (map pendingFromRow listed)) : gset string) in Hp.
  assert (ids = list_to_set (map (fun row => om_QueueID row.2) listed)) as Hids.
  { unfold ids. rewrite map_map. f_equal. apply map_ext. by intros []. }
  exists ids, w2. rewrite Ht in Hp. split_and!; [|done|by rewrite <- Hs1|done|..].
  - unfold wrap at 1. rewrite M_bind_run, M_bind_run, E1. simpl. exact E2.
  - assert (ids ⊆ waiting_ids (pg_tables w)) as Hsub.
    { rewrite Hids. intros id Hid%elem_of_list_to_set. apply list_elem_of_fmap in Hid as (row & -> & Hrow).
      destruct (Hrows _ Hrow) as (e & Hm & _). unfold waiting_ids. apply elem_of_list_to_set, list_elem_of_fmap. eauto. }
    pose proof (subseteq_size _ _ (progress_waiting _ _ _ Hwf Hp)) as Hsz. rewrite size_difference in Hsz by done.
    rewrite (waiting_size (pg_tables w) Hwf) in Hsz |- *. rewrite Hids, size_list_to_set, length_map in Hsz by done. lia.
  - intros id m e Hid Hm He Hq. rewrite Hids in Hid. apply elem_of_list_to_set, list_elem_of_fmap in Hid as ([st m'] & -> & Hrow).
    destruct (Hrows _ Hrow) as (e' & Hm' & He' & Hst). simpl in *. apply elem_of_waiting in Hm' as [_ [k Hk]].
    destruct (outbox_key _ Hwf _ _ Hk) as [Hkey _]. rewrite Hkey in Hm. simplify_eq.
    apply (Hin (pendingFromRow (te_Status e, m))); [|done]. apply list_elem_of_fmap. eauto.
Qed.

(** What is left to do: a message that waited still waits or was sent. *)
Lemma dispatch_healthy q w : healthy w -> outbox_wf (pg_tables w) -> exists ids w',
  dispatch ctx_err log (batch q) outboxDispatchBatchSize w = (Ok tt, w') /\ healthy w' /\ sent w ⊆ sent w' /\ progress ids (pg_tables w) (pg_tables w') /\
  (size (waiting_ids (pg_tables w')) <= size (waiting_ids (pg_tables w)) - 100)%nat /\
  forall id m e, id ∈ ids -> task_outbox_messages (pg_tables w) !! id = Some m ->
    task_executions (pg_tables w) !! om_ExecutionID m = Some e -> te_Status e = StatusQueued -> enqueued w' id (message_of m).
Proof.
  intros Hw Hwf. destruct (batch_healthy q (Bounded outboxDispatchTimeout) w Hw Hwf) as (ids & w' & E & H').
  exists ids, w'. split; [|done]. unfold dispatch. by rewrite M_bind_run, (try_run _ _ _ _ E).
Qed.

Definition drained (ids : gset string) (w w' : W) : Prop :=
  healthy w' /\ sent w ⊆ sent w' /\ progress ids (pg_tables w) (pg_tables w') /\
  forall id m e, id ∈ ids -> task_outbox_messages (pg_tables w) !! id = Some m ->
    task_executions (pg_tables w) !! om_ExecutionID m = Some e -> te_Status e = StatusQueued -> enqueued w' id (message_of m).

Lemma drained_trans ids1 ids2 w w1 w2 : drained ids1 w w1 -> drained ids2 w1 w2 -> drained (ids1 ∪ ids2) w w2.
Proof.
  intros (_ & Hs1 & Hp1 & Hq1) (Hw2 & Hs2 & Hp2 & Hq2). split_and!; [done|by etransitivity|by eapply progress_trans|].
  intros id m e Hid Hm He Hst. destruct (decide (id ∈ ids1)) as [Hin|Hout]; [by eapply enqueued_mono, Hq1|].
  destruct Hp1 as (Hex & _ & Hk1). eapply (Hq2 id m e); [set_solver|by apply Hk1|by rewrite Hex|done].
Qed.

Lemma loop_healthy q ticks w : healthy w -> outbox_wf (pg_tables w) -> exists ids w',
  dispatch_loop ctx_err log (batch q) outboxDispatchBatchSize (replicate ticks Tick ++ [Done]) w = (Ok tt, w') /\
  drained ids w w' /\ (size (waiting_ids (pg_tables w')) <= size (waiting_ids (pg_tables w)) - 100 * ticks)%nat.
Proof.
  revert w. induction ticks as [|ticks IH]; intros w Hw Hwf.
  - exists ∅, w. split_and!; [done|split_and!; [done|done|apply progress_refl|set_solver]|lia].
  - destruct (dispatch_healthy q w Hw Hwf) as (ids1 & w1 & E1 & Hw1 & Hs1 & Hp1 & Hsz1 & Hq1).
    destruct (IH w1 Hw1 (progress_wf _ _ _ Hp1 Hwf)) as (ids2 & w2 & E2 & Hd2 & Hsz2).
    exists (ids1 ∪ ids2), w2. split_and!; [simpl; by rewrite M_bind_run, E1|by eapply drained_trans|lia].
Qed.

(** The outbox is drained.  When the server answers and the broker accepts
    tasks, the dispatch loop of the worker publishes everything that waits: a
    backlog of [n] messages is gone after the first dispatch and [ticks]
    ticks, as soon as [n <= 100 * (ticks + 1)], the broker has the task of
    every message whose execution was queued, and the executions are not
    touched. *)
Theorem outbox_drains q (ticks : nat) (w : W) :
  healthy w -> outbox_wf (pg_tables w) -> (length (waiting (pg_tables w)) <= 100 * (ticks + 1))%nat ->
  exists w', runOutboxDispatcher ctx_err log (batch q) outboxDispatchBatchSize (replicate ticks Tick ++ [Done]) w = (Ok tt, w') /\
    healthy w' /\ sent w ⊆ sent w' /\ waiting (pg_tables w') = [] /\ task_executions (pg_tables w') = task_executions (pg_tables w) /\
    forall m e, m ∈ waiting (pg_tables w) -> task_executions (pg_tables w) !! om_ExecutionID m = Some e ->
      te_Status e = StatusQueued -> enqueued w' (om_QueueID m) (message_of m).
Proof.
  intros Hw Hwf Hn. destruct (loop_healthy q (S ticks) w Hw Hwf) as (ids & w' & E & (Hw2 & Hs & Hp & Hq) & Hsz).
  exists w'. rewrite <- waiting_size in Hn by done. pose proof (progress_wf _ _ _ Hp Hwf) as Hwf'.
  rewrite (waiting_size (pg_tables w')) in Hsz by done. assert (waiting (pg_tables w') = []) as Hnil by (apply nil_length_inv; lia).
  split_and!; [exact E|done|done|done|by destruct Hp|]. intros m e Hm He Hst.
  apply elem_of_waiting in Hm as [Hpend [k Hk]]. destruct (outbox_key _ Hwf _ _ Hk) as [-> _].
  destruct (decide (k ∈ ids)) as [Hin|Hout]; [by eapply Hq|].
  destruct Hp as (_ & _ & Hkeep). specialize (Hkeep _ _ Hk Hout).
  assert (m ∈ waiting (pg_tables w')) as Hm by (apply elem_of_waiting; eauto). rewrite Hnil in Hm. by apply elem_of_nil in Hm.
Qed.
End Drain.

(** ** Two submissions whose publication was left to the outbox *)
Module Example.
#[local] Existing Instances Queue.Example.jsonb Queue.Example.collation Queue.Example.error_text Queue.Example.message_json Queue.Example.message_json_laws.
Definition World : Type := Conn TaskDB * gset (string * Queue.Task).
Definition no_ctx (_ : Context) (_ : World) : option LibErr := None.
Definition no_log (_ : error) : M World unit := mret tt.
Definition enqueue (_ : Context) (t : Queue.Task) (options : list Option) : M World unit := fun w =>
  (Ok tt, (w.1, set_map (fun id => (id, t)) (Queue.Example.task_ids options) ∪ w.2)).
Definition refuses_first (ctx : Context) (t : Queue.Task) (options : list Option) : M World unit := fun w =>
  if bool_decide ("job-1" ∈ Queue.Example.task_ids options) then (Err AsynqDuplicateTask, w) else enqueue ctx t options w.
Definition submit (id : string) : M World Execution :=
  store_CreateExecutionWithPendingPublish no_ctx Caller (mkNewExecution "" "system.test" id "" "{}")
    (mkMessage "" "system.test" "{}") (mkPublishOptions id 3 Minute 0 0).
Definition backlog : World := ((_ ← submit "job-1"; submit "job-2") (conn empty_db, ∅)).2.
Definition run (enqueue : Context -> Queue.Task -> list Option -> M World unit) (ticks : nat) : res unit * World :=
  runOutboxDispatcher no_ctx no_log
    (DispatchPending (mkOutboxDispatcher (store_ListPendingPublishes no_ctx) (store_MarkPublishSucceeded no_ctx)
      (Publish enqueue Queue.Example.publisher)))
    outboxDispatchBatchSize (replicate ticks Tick ++ [Done]) backlog.

Lemma jsonb_encodes raw text : Queue.Example.jsonb raw = Some text -> is_Some (@json_raw Queue.Example.message_json text).
Proof. by eexists. Qed.
Lemma exec_keeps_ctx A (s : stmt TaskDB A) c (w : World) : no_ctx c (pg_exec s w).2 = no_ctx c w.
Proof. done. Qed.
Lemma exec_keeps_sent A (s : stmt TaskDB A) (w : World) : (pg_exec s w).2.2 = w.2.
Proof. destruct (pg_exec s w) as [r w'] eqn:E. by apply on_fst_inv in E as [_ ?]. Qed.
Lemma accepts ctx t options (w : World) : healthy no_ctx w -> exists w',
  enqueue ctx t options w = (Ok tt, w') /\ pg_tables w' = pg_tables w /\ healthy no_ctx w' /\ w.2 ⊆ w'.2 /\
  forall id, TaskID id ∈ options -> (id, t) ∈ w'.2.
Proof.
  intros [Hup Hc]. eexists. split; [reflexivity|]. split_and!; [done|by split|set_solver|].
  intros id Hid. apply elem_of_union_l, elem_of_map. exists id. split; [done|].
  apply elem_of_list_to_set, list_elem_of_omap. eauto.
Qed.
Lemma backlog_wf : outbox_wf (pg_tables backlog).
Proof.
  assert (map_Forall (fun q m => (om_QueueID m = q /\ q <> "") /\ is_Some (task_executions (pg_tables backlog) !! om_ExecutionID m))
    (task_outbox_messages (pg_tables backlog))) as Hall by (apply (bool_decide_unpack _); vm_compute; exact I).
  split; intros q m Hm; [by apply (Hall q m Hm)..|by exists (om_Payload m)].
Qed.
End Example.
#[local] Existing Instances Queue.Example.jsonb Queue.Example.collation Queue.Example.error_text Queue.Example.message_json Queue.Example.message_json_laws.

(** The broker refuses one task, whose uniqueness lock is held: the batch ends
    there, on every tick, and the message behind it is not published. *)
Example one_refused_blocks_all :
  (Example.run Example.refuses_first 3).2.2 = ∅ /\ set_map fst (Example.run Example.enqueue 0).2.2 = ({["job-1"; "job-2"]} : gset string).
Proof. split; vm_compute; reflexivity. Qed.

Lemma outbox_drains_witness :
  map om_QueueID (waiting (pg_tables Example.backlog)) = ["job-1"; "job-2"] /\
  exists w', Example.run Example.enqueue 0 = (Ok tt, w') /\ waiting (pg_tables w') = [].
Proof.
  split; [vm_compute; reflexivity|].
  destruct (outbox_drains Example.no_ctx Example.enqueue (fun w => w.2) Example.no_log
    Example.exec_keeps_ctx Example.exec_keeps_sent Example.jsonb_encodes Example.accepts) with
    (q := Queue.Example.publisher) (ticks := 0%nat) (w := Example.backlog) as (w' & E & _ & _ & Hnil & _).
  - split; [by split|done].
  - exact Example.backlog_wf.
  - vm_compute. lia.
  - exists w'. split; [exact E|exact Hnil].
Defined.
