(* ===== verification/Delivery.v ===== *)
(** * From a submission to its execution ([pkg/modules/task/service.go],
    [internal/app/tasks.go], [pkg/platform/queue/asynq.go])

    The services of [Task] and the store, the loop of [Dispatch] and the
    processor of [Worker], composed the way the two processes are: what the
    API server accepts, the worker executes. *)
From S2P Require Import Prelude GoStrings Postgres TaskSQL Task TaskStore Queue Dispatch Worker.

(** The text of an identifier is ASCII. *)
Lemma ascii_utf8 l : Forall (fun a => code a < 128) l -> valid_utf8 l = true.
Proof. induction 1 as [|a l Ha _ IH]; [done|]. cbn. by rewrite (proj2 (Z.ltb_lt (code a) 128) Ha). Qed.

Lemma hex_digit_ascii z : 0 <= z < 16 -> code (hex_digit z) < 128.
Proof. intros Hz. unfold hex_digit. rewrite code_of_code; case_match; bool_prop; lia. Qed.

Lemma hex_encode_ascii l : Forall (fun a => code a < 128) (hex_encode l).
Proof.
  induction l as [|a l IH]; cbn; [constructor|]. pose proof (code_range a).
  assert (0 <= code a / 16 < 16) by (split; [apply Z.div_pos|apply Z.div_lt_upper_bound]; lia).
  assert (0 <= code a mod 16 < 16) by (apply Z.mod_pos_bound; lia).
  repeat constructor; by try apply hex_digit_ascii.
Qed.

Lemma formatUUID_utf8 id : valid_utf8 (bytes (formatUUID (Some id))) = true.
Proof.
  unfold formatUUID. rewrite bytes_of_bytes. apply ascii_utf8. pose proof (hex_encode_ascii (bytes id)) as Hall.
  unfold format_bytes, slice. repeat first [apply Forall_app; split|apply Forall_cons; split|apply Forall_take|apply Forall_drop|done].
Qed.

(** What a stored submission is. *)
Lemma created_row `{Jsonb} p env d e d' : CreateTaskExecution p env d = Ok (e, d') ->
  execution_checks e = true /\ te_TaskType e = cre_TaskType p /\ te_QueueID e = cre_QueueID p /\
  jsonb_in (cre_Payload p) = Some (te_Payload e).
Proof.
  unfold CreateTaskExecution. intros H1. res_inv H1. apply require_Ok in E0. injection H1 as <- <-. split_and!; try done.
  unfold jsonb_param in E. clear -E. repeat case_match; try discriminate. by injection E as ->.
Qed.

Lemma CreatePending_no_panic `{Jsonb} p env d : CreateTaskExecutionWithPendingPublish p env d <> Panic.
Proof.
  unfold CreateTaskExecutionWithPendingPublish, CreateTaskExecution, jsonb_param, require. cbn.
  repeat (case_match; cbn; try discriminate).
Qed.

(** A message stored next to its execution waits. *)
Lemma stored_waits `{Jsonb} d queueID e m raw :
  outbox_wf d -> queueID <> "" -> om_QueueID m = queueID -> om_ExecutionID m = te_ID e -> om_PublishedAt m = None ->
  jsonb_in raw = Some (om_Payload m) ->
  let d' := with_outbox <[queueID := m]> (with_executions <[te_ID e := e]> d) in
  outbox_wf d' /\ m ∈ waiting d'.
Proof.
  intros [Hk Hx Hy] Hne Hq He Hp Hraw d'. split.
  - split; intros q m' Hm'; cbn in Hm'; apply lookup_insert_Some in Hm' as [[<- <-]|[_ Hm]].
    + done.
    + by apply Hk.
    + rewrite He. cbn. rewrite lookup_insert_eq. eauto.
    + cbn. destruct (decide (te_ID e = om_ExecutionID m')) as [->|?]; [rewrite lookup_insert_eq; eauto|rewrite lookup_insert_ne by done; by eapply Hx].
    + eauto.
    + by eapply Hy.
  - apply elem_of_waiting. split; [unfold pending; by rewrite Hp|]. exists queueID. apply lookup_insert_eq.
Qed.

Section Delivery.
Context {W : Type} `{PgLaws W TaskDB} `{Jsonb} `{Collation} `{ErrorText} `{MessageJsonLaws}.
Variable ctx_err : Context -> W -> option LibErr.
Variable EnqueueContext : Context -> Queue.Task -> list Option -> M W unit.
Variable sent : W -> gset (string * Queue.Task).
Hypothesis exec_ctx : forall A (s : stmt TaskDB A) c w, ctx_err c (pg_exec s w).2 = ctx_err c w.
Hypothesis exec_sent : forall A (s : stmt TaskDB A) w, sent (pg_exec s w).2 = sent w.

Abbreviation healthy := (Dispatch.healthy ctx_err).
Abbreviation enqueued := (Dispatch.enqueued sent).

Lemma query_Ok {A} c (s : stmt TaskDB A) w a w' :
  healthy w -> (forall env d, s env d <> Panic) -> query ctx_err c s w = (Ok a, w') ->
  exists env, env_ok env /\ s env (pg_tables w) = Ok (a, pg_tables w') /\ healthy w' /\ sent w' = sent w.
Proof.
  intros [Hup Hc] Hs. unfold query. rewrite Hc. intros E. destruct (pg_exec_up _ s w Hup) as (env & Henv & Hrun).
  specialize (Hs env (pg_tables w)). destruct (s env (pg_tables w)) as [[a' d]|e|] eqn:Es; [| |done];
    destruct Hrun as (w1 & E1 & Ht & Hup1); rewrite E in E1; simplify_eq.
  exists env. split_and!; [done|done|split; [done|]|].
  - intros c'. pose proof (exec_ctx _ s c' w) as Hx. rewrite E in Hx. simpl in Hx. by rewrite Hx.
  - pose proof (exec_sent _ s w) as Hx. by rewrite E in Hx.
Qed.

(** The row of a submission that was accepted and has not been delivered. *)
Record queued_row (s : Submission) (id : string) (e : TaskExecution) (d : TaskDB) : Prop := {
  qr_uuid : uuid_ok id;
  qr_row : task_executions d !! id = Some e;
  qr_status : te_Status e = StatusQueued;
  qr_attempt : te_Attempt e = 0;
  qr_checks : execution_checks e = true;
  qr_payload : jsonb_in (sub_Payload s) = Some (te_Payload e);
}.

Definition waits (s : Submission) (id queueID payload : string) (w : W) : Prop :=
  exists m, m ∈ waiting (pg_tables w) /\ om_QueueID m = queueID /\ om_ExecutionID m = id /\
    message_of m = mkMessage (formatUUID (Some id)) (sub_TaskType s) payload.

Lemma CreatePending_healthy ctx s queueID key message options w ex w' :
  healthy w -> outbox_wf (pg_tables w) -> opt_QueueID options = queueID ->
  store_CreateExecutionWithPendingPublish ctx_err ctx
    (mkNewExecution (sub_DefinitionID s) (sub_TaskType s) queueID key (sub_Payload s)) message options w = (Ok ex, w') ->
  exists id e, queued_row s id e (pg_tables w') /\ ex_ID ex = formatUUID (Some id) /\ ex_QueueID ex = queueID /\ queueID <> "" /\
    healthy w' /\ outbox_wf (pg_tables w') /\ sent w' = sent w /\ waits s id queueID (te_Payload e) w'.
Proof.
  intros Hw Hwf <- Hr. unfold store_CreateExecutionWithPendingPublish in Hr. go_inv Hr. injection E as _ <-. simpl in E0.
  unfold map_write_error in E0. destruct (query _ _ _ _) as [[row|?|] w2] eqn:E1 in E0; try discriminate. injection E0 as -> ->.
  apply query_Ok in E1 as (env & Henv & E1 & Hw' & Hs'); [|done|apply CreatePending_no_panic].
  apply CreatePending_effect in E1 as (d1 & qid & E1 & Hqid & Hfresh & Ht). cbn in Hqid.
  apply nullableText_Some in Hqid as [-> Hne]. apply created_row in E1 as Hrow. destruct Hrow as (Hchk & Htype & Hque & Hpay).
  apply CreateTaskExecution_effect in E1 as (Huuid & Hst & Hat & Hnew & ->). cbn in Htype, Hque, Hpay, Ht.
  match type of Ht with _ = with_outbox <[_ := ?m]> _ =>
    destruct (stored_waits (pg_tables w) (opt_QueueID options) a0 m (sub_Payload s)) as [Hwf' Hin]; try done end.
  rewrite <- Ht in Hwf', Hin. exists (te_ID a0), a0. split_and!; try done.
  - split; try done; [by rewrite Huuid|]. rewrite Ht. apply lookup_insert_eq.
  - cbn. rewrite Hque. unfold nullableText. by rewrite (proj2 (is_empty_false _) Hne).
  - eexists. split_and!; [exact Hin|done|done|]. unfold message_of. cbn. by rewrite Htype.
Qed.

Hypothesis jsonb_json : forall raw text, jsonb_in raw = Some text -> is_Some (json_raw text).
Hypothesis enqueue_accepts : forall ctx t options w, healthy w -> exists w',
  EnqueueContext ctx t options w = (Ok tt, w') /\ pg_tables w' = pg_tables w /\ healthy w' /\ sent w ⊆ sent w' /\
  forall id, TaskID id ∈ options -> (id, t) ∈ sent w'.

(** The service of the API server: over PostgreSQL, with a publisher or
    without, and identifiers that are drawn elsewhere. *)
Record service_ok (q : AsynqPublisher) (svc : SubmissionService W) : Prop := {
  so_store : svc_store svc = PostgresExecutionStore ctx_err;
  so_publisher : svc_publisher svc = None \/ svc_publisher svc = Some (Publish EnqueueContext q);
  so_newID : forall w id w', healthy w -> svc_newID svc w = (Ok id, w') ->
    healthy w' /\ pg_tables w' = pg_tables w /\ sent w' = sent w;
}.

(** The message of the execution, with the payload as it was submitted or as
    the database has normalised it. *)
Definition message_for (s : Submission) (id : string) (message : Message) : Prop :=
  exists payload, message = mkMessage (formatUUID (Some id)) (sub_TaskType s) payload /\
    (payload = sub_Payload s \/ jsonb_in (sub_Payload s) = Some payload).

(** Publication from the API server is best effort: it either reaches the
    broker or leaves the message in the outbox. *)
Lemma publish_healthy q svc ctx s id queueID e (m : Message) options w :
  service_ok q svc -> healthy w -> outbox_wf (pg_tables w) -> opt_QueueID options = queueID -> queueID <> "" ->
  queued_row s id e (pg_tables w) -> waits s id queueID (te_Payload e) w -> message_for s id m ->
  exists r w', (match svc_publisher svc with
      | Some publish => r ← try (publish ctx m options);
          when (is_ok r) (ignore (store_MarkPublishSucceeded ctx_err (Detached (5 * Second)) queueID))
      | None => mret tt end) w = (Ok r, w') /\
    healthy w' /\ outbox_wf (pg_tables w') /\ queued_row s id e (pg_tables w') /\
    (waits s id queueID (te_Payload e) w' \/ enqueued w' queueID m).
Proof.
  intros Hsvc Hw Hwf Hq Hne Hrow Hwaits Hm. destruct (so_publisher _ _ Hsvc) as [Ep|Ep]; rewrite Ep.
  { exists tt, w. split_and!; auto. }
  pose proof (message_marshal m) as Hmarshal. destruct (json_raw (msg_Payload m)) as [raw|] eqn:Eraw.
  - destruct (Publish_healthy ctx_err EnqueueContext sent enqueue_accepts q ctx m options w Hw) as (w1 & E1 & Ht1 & Hw1 & _ & Hin);
      [congruence|by eexists|]. rewrite M_bind_run, (try_run _ _ _ _ E1) by done. cbn [is_ok when].
    destruct (query_healthy ctx_err sent exec_ctx exec_sent (Detached (5 * Second)) (MarkTaskOutboxMessagePublished queueID) w1 Hw1)
      as (env & [] & w2 & E2 & Em & Hw2 & Hs2).
    { intros env d. unfold MarkTaskOutboxMessagePublished. repeat case_match; eauto. }
    rewrite Ht1 in Em. apply mark_progress in Em as Hp; [|done]. exists tt, w2. unfold ignore, store_MarkPublishSucceeded. rewrite E2.
    split_and!; [done|done|by eapply progress_wf| |right].
    + destruct Hp as [He _]. destruct Hrow. split; by rewrite ?He.
    + apply (enqueued_mono sent w1); [by rewrite Hs2|by rewrite <- Hq].
  - exists tt, w. unfold Publish. rewrite M_bind_run. unfold try. rewrite M_bind_run. unfold wrap, of_res.
    destruct (json_marshal_message m); try discriminate. split_and!; auto.
Qed.

(** The state a submission leaves. *)
Definition submitted (s : Submission) (ex : Execution) (w : W) : Prop :=
  healthy w /\ outbox_wf (pg_tables w) /\ exists id e, ex_ID ex = formatUUID (Some id) /\ queued_row s id e (pg_tables w) /\
    (waits s id (ex_QueueID ex) (te_Payload e) w \/ exists m, message_for s id m /\ enqueued w (ex_QueueID ex) m).

Lemma Submit_healthy q svc ctx s w ex w' :
  service_ok q svc -> healthy w -> outbox_wf (pg_tables w) -> Submit svc ctx s w = (Ok ex, w') ->
  submitted s ex w'.
Proof.
  intros Hsvc Hw Hwf Hr. unfold submitted. unfold Submit in Hr. rewrite !(so_store _ _ Hsvc) in Hr. cbn [as_OutboxStore PostgresExecutionStore] in Hr.
  apply M_bind_Ok_inv in Hr as ([] & w0 & E0 & Hr). assert (w0 = w) as -> by (destruct (ValidateSubmission s); by injection E0).
  apply M_bind_Ok_inv in Hr as (queueID & w1 & E1 & Hr). destruct (so_newID _ _ Hsvc _ _ _ Hw E1) as (Hw1 & Ht1 & _).
  apply M_bind_Ok_inv in Hr as (ex' & w2 & E2 & Hr). rewrite <- Ht1 in Hwf.
  apply CreatePending_healthy in E2 as (id & e & Hrow & Hid & Hqid & Hne & Hw2 & Hwf2 & _ & Hwaits); [|done..].
  destruct (publish_healthy q svc ctx s id queueID e (mkMessage (ex_ID ex') (sub_TaskType s) (sub_Payload s))
    (mkPublishOptions queueID (sub_MaxRetries s) (sub_Timeout s) (sub_UniqueFor s) (sub_ProcessAfter s)) w2)
    as (r & w3 & E3 & Hw3 & Hwf3 & Hrow3 & Hout); try done.
  { exists (sub_Payload s). rewrite Hid. auto. }
  apply M_bind_Ok_inv in Hr as (u & w4 & E4 & Hr). pose proof (eq_trans (eq_sym E4) E3) as E. injection E as -> ->. injection Hr as <- <-. split_and!; [done|done|].
  exists id, e. rewrite Hqid. split_and!; [done|done|]. destruct Hout as [?|?]; [by left|right].
  eexists. split; [|done]. exists (sub_Payload s). rewrite Hid. auto.
Qed.

(** The worker's loop hands the task to the broker, if the server has not. *)
Lemma dispatched log q ticks s id queueID e w :
  healthy w -> outbox_wf (pg_tables w) -> (length (waiting (pg_tables w)) <= 100 * (ticks + 1))%nat ->
  queued_row s id e (pg_tables w) ->
  waits s id queueID (te_Payload e) w \/ (exists m, message_for s id m /\ enqueued w queueID m) ->
  exists w' m, runOutboxDispatcher ctx_err log (DispatchPending
      (mkOutboxDispatcher (store_ListPendingPublishes ctx_err) (store_MarkPublishSucceeded ctx_err) (Publish EnqueueContext q)))
      outboxDispatchBatchSize (replicate ticks Tick ++ [Done]) w = (Ok tt, w') /\
    healthy w' /\ queued_row s id e (pg_tables w') /\ message_for s id m /\ enqueued w' queueID m.
Proof.
  intros Hw Hwf Hn Hrow Hout.
  destruct (outbox_drains ctx_err EnqueueContext sent log exec_ctx exec_sent jsonb_json enqueue_accepts q ticks w Hw Hwf Hn)
    as (w' & E & Hw' & Hs & _ & He & Hall).
  assert (queued_row s id e (pg_tables w')) as Hrow' by (destruct Hrow; split; by rewrite ?He).
  destruct Hout as [(m & Hin & Hq & Hid & Hm)|(m & Hm & Henq)].
  - exists w', (message_of m). split_and!; [done|done|done| |].
    + exists (te_Payload e). split; [done|]. right. by apply (qr_payload _ _ _ _ Hrow).
    + rewrite <- Hq. apply (Hall m e Hin); [rewrite Hid|]; apply Hrow.
  - exists w', m. split_and!; [done|done|done|done|]. by apply (enqueued_mono sent w).
Qed.

(** The payloads the queue may give the handler: that of the submission, up to
    the spacing of JSON and what [jsonb] normalises. *)
Definition delivered (s : Submission) (payload : string) : Prop :=
  json_raw (sub_Payload s) = Some payload \/ exists text, jsonb_in (sub_Payload s) = Some text /\ json_raw text = Some payload.

Lemma decode_enqueued s id queueID m w : message_for s id m -> enqueued w queueID m -> valid_utf8 (bytes (sub_TaskType s)) = true ->
  exists task payload, (queueID, task) ∈ sent w /\
    decodeMessage task = Ok (mkMessage (formatUUID (Some id)) (sub_TaskType s) payload) /\
    delivered s payload.
Proof.
  intros (payload & -> & Hp) (text & Et & Hin) Hutf. pose proof (message_marshal (mkMessage (formatUUID (Some id)) (sub_TaskType s) payload)) as Hm.
  rewrite Et in Hm. cbn in Hm. destruct (json_raw payload) as [raw|] eqn:Eraw; [|discriminate].
  eexists _, raw. split; [exact Hin|]. split.
  - unfold decodeMessage. cbn. rewrite (message_unmarshal (mkMessage (formatUUID (Some id)) (sub_TaskType s) payload) raw text (formatUUID_utf8 id) Hutf Eraw Et). cbn.
    by case_match.
  - destruct Hp as [->|?]; [by left|right; eauto].
Qed.

(** The worker that serves a submission, with a handler that succeeds on its
    payload. *)
Record serves (ctx : Context) (p : Processor W) (s : Submission) (result : string -> Result) : Prop := {
  wo_detached : forall d w, ctx_err (Detached d) w = None;
  wo_store : proc_store p = PostgresExecutionStore ctx_err;
  wo_now : calm ctx_err ctx (proc_now p);
  wo_observe : forall t s d, calm ctx_err ctx (observe p t s d);
  wo_handler : exists h, proc_registry p !! sub_TaskType s = Some (Some h) /\ forall payload, delivered s payload ->
    0 <= result_ProcessedRows (result payload) /\
    forall w, pg_up w -> ctx_err ctx w = None -> exists w',
      h ctx payload w = (Ok (result payload), w') /\ pg_tables w' = pg_tables w /\ pg_up w' /\ ctx_err ctx w' = None;
}.

Lemma ProcessTask_succeeds ctx p s result id e task payload retry_count w :
  serves ctx p s result -> healthy w -> queued_row s id e (pg_tables w) -> default 0 retry_count = 0 -> delivered s payload ->
  decodeMessage task = Ok (mkMessage (formatUUID (Some id)) (sub_TaskType s) payload) ->
  exists w' e', ProcessTask retry_count (as_QProcessor ctx_err p) ctx task w = (Ok tt, w') /\
    task_executions (pg_tables w') = <[id := e']> (task_executions (pg_tables w)) /\ identity e' = identity e /\
    te_Status e' = StatusSucceeded /\ te_Attempt e' = 1 /\ te_ProcessedRows e' = result_ProcessedRows (result payload) /\
    is_Some (te_FinishedAt e').
Proof.
  intros [Hdet Hst Hnow Hobs (h & Hreg & Hh)] [Hup Hc] [Huuid Hrow Hq Hat Hchk _] Hrc Hpay Hdec. destruct (Hh payload Hpay) as [Hpos Hrun].
  destruct (Process_run ctx_err ctx Hdet exec_ctx p Hst Hnow Hobs (sub_TaskType s) payload h (Ok (result payload)) None
    Hreg Hrun Hpos id e 1 w Huuid Hup (Hc ctx) ltac:(unfold in_int32; lia) ltac:(lia) Hrow Hchk ltac:(by rewrite Hq))
    as (r & w' & E & Hw'). rewrite Hat in Hw'. cbn [Z.leb] in Hw'. destruct Hw' as [-> (e' & Ht & Hs & Ha & Hi & Hr & Hf)].
  exists w', e'. split_and!; try done; [|by rewrite Ht|by apply Hf].
  unfold ProcessTask. rewrite Hdec, Hrc, M_bind_run. cbn [as_QProcessor q_Process]. change (int64 (0 + 1)) with 1.
  by rewrite (try_run _ _ _ _ E).
Qed.

(** What is left once the server has accepted a submission: the worker's
    loop, and the delivery of the task it hands over. *)
Definition executed (log : error -> M W unit) (q : AsynqPublisher) (ticks : nat) (worker : Context) (p : Processor W)
    (result : string -> Result) (retry_count : option Z) (s : Submission) (ex : Execution) (w1 : W) : Prop :=
  exists id w2 task payload w3 e, ex_ID ex = formatUUID (Some id) /\
    runOutboxDispatcher ctx_err log (DispatchPending
      (mkOutboxDispatcher (store_ListPendingPublishes ctx_err) (store_MarkPublishSucceeded ctx_err) (Publish EnqueueContext q)))
      outboxDispatchBatchSize (replicate ticks Tick ++ [Done]) w1 = (Ok tt, w2) /\
    (ex_QueueID ex, task) ∈ sent w2 /\
    delivered s payload /\
    ProcessTask retry_count (as_QProcessor ctx_err p) worker task w2 = (Ok tt, w3) /\
    task_executions (pg_tables w3) !! id = Some e /\ te_Status e = StatusSucceeded /\ te_Attempt e = 1 /\
    te_ProcessedRows e = result_ProcessedRows (result payload) /\ is_Some (te_FinishedAt e).

Lemma submitted_executed log q s ex w1 (ticks : nat) worker p result retry_count :
  submitted s ex w1 -> (length (waiting (pg_tables w1)) <= 100 * (ticks + 1))%nat ->
  valid_utf8 (bytes (sub_TaskType s)) = true -> serves worker p s result -> default 0 retry_count = 0 ->
  executed log q ticks worker p result retry_count s ex w1.
Proof.
  intros (Hw1 & Hwf1 & id & e & Hid & Hrow & Hout) Hn Hutf Hp Hrc.
  destruct (dispatched log q ticks s id (ex_QueueID ex) e w1) as (w2 & m & E2 & Hw2 & Hrow2 & Hm & Henq); [done..|].
  destruct (decode_enqueued s id (ex_QueueID ex) m w2) as (task & payload & Hin & Hdec & Hpay); [done..|].
  destruct (ProcessTask_succeeds worker p s result id e task payload retry_count w2) as (w3 & e' & E3 & Ht & _ & Hs & Ha & Hrows & Hf); [done..|].
  exists id, w2, task, payload, w3, e'. split_and!; try done. rewrite Ht. apply lookup_insert_eq.
Qed.

(** What is accepted is executed.  When the server answers and the broker
    accepts tasks, a submission the service has accepted, whether it could
    publish it itself or not, is handed to the broker by the end of the first
    [ticks + 1] rounds of the worker's loop, as soon as
    [100 * (ticks + 1)] covers the backlog; and its delivery decodes the
    message, claims the execution for attempt 1, runs the handler registered
    for its type on the payload that was submitted, up to the spacing of JSON
    and what [jsonb] normalises, and leaves the execution succeeded, finished
    and with the rows the handler reported. *)
Theorem submission_is_executed log q svc ctx s w ex w1 (ticks : nat) worker p result retry_count :
  service_ok q svc -> healthy w -> outbox_wf (pg_tables w) -> Submit svc ctx s w = (Ok ex, w1) ->
  (length (waiting (pg_tables w1)) <= 100 * (ticks + 1))%nat ->
  valid_utf8 (bytes (sub_TaskType s)) = true -> serves worker p s result -> default 0 retry_count = 0 ->
  executed log q ticks worker p result retry_count s ex w1.
Proof. intros Hsvc Hw Hwf Hr. intros. apply submitted_executed; [|done..]. by eapply Submit_healthy. Qed.
End Delivery.

(** ** A submission behind a backlog of two *)
Module Example.
#[local] Existing Instances Queue.Example.jsonb Queue.Example.collation Queue.Example.error_text
  Queue.Example.message_json Queue.Example.message_json_laws.
Definition World : Type := Dispatch.Example.World.
Definition no_ctx (_ : Context) (_ : World) : option LibErr := None.
(** A server that cannot publish itself. *)
Definition service : SubmissionService World := mkSubmissionService (PostgresExecutionStore no_ctx) None (mret "job-3") (mret 0).
Definition submission : Submission := mkSubmission "" "system.test" "{}" "key" 3 Minute 0 0.
Definition processor : Processor World :=
  mkProcessor (PostgresExecutionStore no_ctx) {[ "system.test" := Some (fun _ _ => mret (mkResult 3)) ]} (mret 5000) None.
Definition execution : Execution :=
  mkExecution (formatUUID (Some (fresh_uuid 3))) "" "system.test" "job-3" "key" "{}" "queued" 0 0 "" None None.
Definition accepted : World := (Submit service Caller submission Dispatch.Example.backlog).2.

Lemma service_is_ok : service_ok no_ctx Dispatch.Example.enqueue (fun w => w.2) Queue.Example.publisher service.
Proof. split; [done|by left|]. by intros w id w' Hw [= <- <-]. Qed.

Lemma processor_serves : serves no_ctx Caller processor submission (fun _ => mkResult 3).
Proof.
  assert (forall A (a : A), calm no_ctx Caller (mret a)) as Hcalm by (intros A a w; exists a, w; auto).
  split; [done|done|apply Hcalm|intros; apply Hcalm|].
  eexists. split; [reflexivity|]. intros payload _. split; [done|]. intros w Hup Hc. exists w. auto.
Qed.
End Example.
#[local] Existing Instances Queue.Example.jsonb Queue.Example.collation Queue.Example.error_text
  Queue.Example.message_json Queue.Example.message_json_laws.


Lemma submission_is_executed_witness :
  Submit Example.service Caller Example.submission Dispatch.Example.backlog = (Ok Example.execution, Example.accepted) /\
  exists id task w2 w3 e, ex_ID Example.execution = formatUUID (Some id) /\ ("job-3", task) ∈ w2.2 /\
    ProcessTask (Some 0) (as_QProcessor Example.no_ctx Example.processor) Caller task w2 = (Ok tt, w3) /\
    task_executions (pg_tables w3) !! id = Some e /\ te_Status e = "succeeded" /\ te_ProcessedRows e = 3.
Proof.
  split; [vm_compute; reflexivity|].
  destruct (submission_is_executed Example.no_ctx Dispatch.Example.enqueue (fun w => w.2)
    Dispatch.Example.exec_keeps_ctx Dispatch.Example.exec_keeps_sent Dispatch.Example.jsonb_encodes Dispatch.Example.accepts
    Dispatch.Example.no_log Queue.Example.publisher Example.service Caller Example.submission Dispatch.Example.backlog
    Example.execution Example.accepted 0%nat Caller Example.processor (fun _ => mkResult 3) (Some 0) Example.service_is_ok)
    as (id & w2 & task & payload & w3 & e & Hid & _ & Hin & _ & E & He & Hs & _ & Hr & _).
  - by split.
  - exact Dispatch.Example.backlog_wf.
  - vm_compute. reflexivity.
  - vm_compute. lia.
  - vm_compute. reflexivity.
  - exact Example.processor_serves.
  - reflexivity.
  - exists id, task, w2, w3, e. split_and!; [exact Hid|exact Hin|exact E|exact He|exact Hs|exact Hr].
Defined.
