(* ===== verification/Scheduler.v ===== *)
(** * The schedule registrar ([pkg/platform/scheduler])

    [AsynqRegistrar.Replace] brings the entries of the periodic scheduler in
    line with the enabled schedules of the database; [Refresher.Refresh] feeds
    it.  The scheduler of the broker, the factory that builds the queued task,
    JSON and SHA-256 are parameters, and so is the order in which Go ranges
    over a map. *)

From S2P Require Import Prelude GoStrings Postgres Task TaskStore Queue.
From stdpp Require pretty.

(** @src pkg/platform/scheduler/asynq.go:23-26 scheduleEntry *)
Record scheduleEntry := mkEntry { entryID : string; fingerprint : string }.

(** @src pkg/platform/scheduler/asynq.go:96-101 scheduleSpec *)
Definition scheduleSpec (s : Schedule) : string :=
  if is_empty (sch_Timezone s) then sch_CronExpression s
  else "CRON_TZ=" +:+ sch_Timezone s +:+ " " +:+ sch_CronExpression s.

Section Registrar.
Context {W : Type}.
Variable ctx_err : W -> option LibErr.
Variable sched_Register : string -> Task -> list Option -> M W string.
Variable sched_Unregister : string -> M W unit.
Variable factory : Schedule -> res (Task * list Option).
(** [json.Marshal] of the fingerprinted fields, and [sha256.Sum256]. *)
Variable json_marshal_schedule : string * string * string * string * string * Z * Z -> res string.
Variable sha256 : string -> string.
(** The order of one [range] over the entries. *)
Variable range : gmap string scheduleEntry -> list (string * scheduleEntry).

(** @src pkg/platform/scheduler/asynq.go:103-126 scheduleFingerprint *)
Definition scheduleFingerprint (s : Schedule) : res string :=
  match json_marshal_schedule (sch_DefinitionID s, sch_CronExpression s, sch_Timezone s, sch_Payload s,
                               sch_TaskType s, sch_MaxRetries s, sch_Timeout s) with
  | Ok encoded => Ok (hex_EncodeToString (sha256 encoded))
  | Err err => Err (EWrap ("fingerprint schedule " +:+ sch_ID s) err)
  | Panic => Panic
  end.

(** The entries of the registrar are its only state.
    @src pkg/platform/scheduler/asynq.go:28-41 AsynqRegistrar *)
Definition State : Type := W * gmap string scheduleEntry.

Definition check_ctx : M State unit := fun st =>
  match ctx_err st.1 with Some e => (Err (SLib e), st) | None => (Ok tt, st) end.

Definition set_entry (id : string) (e : scheduleEntry) : M State unit :=
  modify (fun st => (st.1, <[id := e]> st.2)).
Definition delete_entry (id : string) : M State unit :=
  modify (fun st => (st.1, delete id st.2)).

(** The body of the first loop.
    @src pkg/platform/scheduler/asynq.go:48-79 Replace *)
Definition replace_one (s : Schedule) : M State unit :=
  if negb (sch_Enabled s) then mret tt
  else
    _ ← check_ctx;
    fp ← of_res (scheduleFingerprint s);
    current ← gets (fun st : State => st.2 !! sch_ID s);
    if match current with Some c => String.eqb (fingerprint c) fp | None => false end then mret tt
    else
      queued ← wrap ("build schedule " +:+ sch_ID s +:+ " task") (of_res (factory s));
      id ← wrap ("register schedule " +:+ sch_ID s)
             (on_fst (sched_Register (scheduleSpec s) queued.1 queued.2));
      _ ← match current with
          | Some c =>
              u ← try (on_fst (sched_Unregister (entryID c)));
              match u with
              | Err err =>
                  _ ← ignore (on_fst (sched_Unregister id));
                  throw (EWrap ("unregister replaced schedule " +:+ sch_ID s) err)
              | _ => mret tt
              end
          | None => mret tt
          end;
      set_entry (sch_ID s) (mkEntry id fp).

(** The identifiers of the enabled schedules. *)
Definition desired (schedules : list Schedule) : gset string :=
  list_to_set (map sch_ID (List.filter sch_Enabled schedules)).

(** The body of the second loop.
    @src pkg/platform/scheduler/asynq.go:81-92 Replace *)
Definition remove_one (keep : gset string) (x : string * scheduleEntry) : M State unit :=
  if bool_decide (x.1 ∈ keep) then mret tt
  else
    _ ← check_ctx;
    _ ← wrap ("unregister removed schedule " +:+ x.1) (on_fst (sched_Unregister (entryID x.2)));
    delete_entry x.1.

(** @src pkg/platform/scheduler/asynq.go:43-94 Replace *)
Definition Replace (schedules : list Schedule) : M State unit :=
  _ ← for_each schedules replace_one;
  entries ← gets (fun st : State => st.2);
  for_each (range entries) (remove_one (desired schedules)).

(** @src pkg/platform/scheduler/refresher.go:27-36 Refresh *)
Definition Refresh (enabled : M State (list Schedule)) : M State unit :=
  schedules ← wrap "list enabled task schedules" enabled;
  wrap "replace task schedules" (Replace schedules).

(** ** What a replacement achieves *)

(** The identifiers the scheduler is running. *)
Variable active : W -> gset string.
Hypothesis Register_outcome : forall spec t o w r w',
  sched_Register spec t o w = (r, w') ->
  match r with
  | Ok id => (id ∉ active w) /\ active w' = {[ id ]} ∪ active w
  | Err _ => active w' = active w
  | Panic => False
  end.
Hypothesis Unregister_outcome : forall id w r w',
  sched_Unregister id w = (r, w') ->
  match r with
  | Ok _ => active w' = active w ∖ {[ id ]}
  | Err _ => active w' = active w
  | Panic => False
  end.
Hypothesis range_permutation : forall entries, Permutation (range entries) (map_to_list entries).

(** Every entry of the registrar is running, and no two entries share an
    identifier. *)
Record tracked (st : State) : Prop := {
  tracked_active : forall k e, st.2 !! k = Some e -> entryID e ∈ active st.1;
  tracked_inj : forall k1 k2 e1 e2, st.2 !! k1 = Some e1 -> st.2 !! k2 = Some e2 ->
    entryID e1 = entryID e2 -> k1 = k2;
}.

(** Registering leaves the entries tracked, and so does giving up the new
    registration. *)
Lemma tracked_mono (w w' : W) es :
  (forall k e, es !! k = Some e -> entryID e ∈ active w -> entryID e ∈ active w') ->
  tracked (w, es) -> tracked (w', es).
Proof. intros Hs [Ha Hi]. split; simpl in *; [|done]. intros k e He. eapply Hs; eauto. Qed.

Lemma tracked_insert (w w' : W) es k e :
  tracked (w, es) -> entryID e ∈ active w' ->
  (forall k' e', k' <> k -> es !! k' = Some e' -> entryID e' ∈ active w' /\ entryID e' <> entryID e) ->
  tracked (w', <[k := e]> es).
Proof.
  intros [Ha Hi] He Hother. split; simpl in *.
  - intros k' e' [[<- <-]|[Hne Hk]]%lookup_insert_Some; [done|]. by eapply Hother.
  - intros k1 k2 e1 e2 [[<- <-]|[Hne1 H1]]%lookup_insert_Some [[<- <-]|[Hne2 H2]]%lookup_insert_Some Heq.
    + done.
    + exfalso. destruct (Hother k2 e2) as [_ Hd]; done.
    + exfalso. destruct (Hother k1 e1) as [_ Hd]; done.
    + eauto.
Qed.

Lemma tracked_delete (w w' : W) es k e :
  tracked (w, es) -> es !! k = Some e -> active w' = active w ∖ {[ entryID e ]} ->
  tracked (w', delete k es).
Proof.
  intros [Ha Hi] Hk Hw. split; simpl in *.
  - intros k' e' [Hne He']%lookup_delete_Some. rewrite Hw. apply elem_of_difference. split; [by eapply Ha|].
    intros Heq%elem_of_singleton. apply Hne. by eapply Hi.
  - intros k1 k2 e1 e2 [_ H1]%lookup_delete_Some [_ H2]%lookup_delete_Some. eauto.
Qed.

(** Swapping the registration of one schedule. *)
Lemma register_swap s queued fp st r st' :
  tracked st ->
  ((id ← wrap ("register schedule " +:+ sch_ID s)
            (on_fst (sched_Register (scheduleSpec s) queued.1 queued.2));
    _ ← match st.2 !! sch_ID s with
        | Some c =>
            u ← try (on_fst (sched_Unregister (entryID c)));
            match u with
            | Err err =>
                _ ← ignore (on_fst (sched_Unregister id));
                throw (EWrap ("unregister replaced schedule " +:+ sch_ID s) err)
            | _ => mret tt
            end
        | None => mret tt
        end;
    set_entry (sch_ID s) (mkEntry id fp)) : M State unit) st = (r, st') ->
  tracked st' /\ (forall k, k <> sch_ID s -> st'.2 !! k = st.2 !! k) /\
  (r = Ok tt -> exists e, st'.2 !! sch_ID s = Some e /\ fp = fingerprint e).
Proof.
  destruct st as [w es]. intros Ht. rewrite M_bind_run. unfold wrap, on_fst at 1. simpl.
  destruct (sched_Register _ _ _ w) as [[id|err|] w1] eqn:E1; apply Register_outcome in E1; [| |done].
  2: { intros [= <- <-]. split_and!; [|done|done]. eapply tracked_mono; [|exact Ht]. by rewrite E1. }
  destruct E1 as [Hfresh Hw1].
  assert (tracked (w1, es)) as Ht1 by (eapply tracked_mono; [|exact Ht]; intros; rewrite Hw1; by apply elem_of_union_r).
  assert (forall k e, es !! k = Some e -> entryID e <> id) as Hnew.
  { intros k e He <-. apply Hfresh. by apply (tracked_active _ Ht k). }
  destruct (es !! sch_ID s) as [c|] eqn:Hc; rewrite M_bind_run.
  2: { intros [= <- <-]. simpl. split_and!; [|by intros; apply lookup_insert_ne|].
       - eapply tracked_insert; [exact Ht1|simpl; rewrite Hw1; by apply elem_of_union_l, elem_of_singleton|]. intros k' e' _ He'.
         split; [by apply (tracked_active _ Ht1 k')|by eapply Hnew].
       - intros _. rewrite lookup_insert_eq. eauto. }
  rewrite M_bind_run. unfold try, on_fst at 1. simpl.
  destruct (sched_Unregister (entryID c) w1) as [[[]|err|] w2] eqn:E2; apply Unregister_outcome in E2; [| |done].
  - intros [= <- <-]. simpl. split_and!; [|by intros; apply lookup_insert_ne|].
    + eapply tracked_insert; [exact Ht1| |].
      * simpl. rewrite E2. apply elem_of_difference. split; [rewrite Hw1; by apply elem_of_union_l, elem_of_singleton|].
        rewrite elem_of_singleton. intros ->. by eapply Hnew.
      * intros k' e' Hne He'. simpl. split; [|by eapply Hnew]. rewrite E2. apply elem_of_difference.
        split; [by apply (tracked_active _ Ht1 k')|]. rewrite elem_of_singleton. intros Heq.
        apply Hne. by eapply (tracked_inj _ Ht1).
    + intros _. rewrite lookup_insert_eq. eauto.
  - rewrite M_bind_run. unfold ignore, on_fst. simpl.
    destruct (sched_Unregister id w2) as [[[]|err'|] w3] eqn:E3; apply Unregister_outcome in E3;
      [| |done]; intros [= <- <-]; (split_and!; [|done|done]); eapply tracked_mono; [|exact Ht1| |exact Ht1];
      simpl; intros k e He; rewrite E3, E2; [|done].
    intros Hin. apply elem_of_difference. split; [done|]. rewrite elem_of_singleton. by eapply Hnew.
Qed.

(** One iteration of the first loop: the state it leaves, whatever happens,
    and what a success means. *)
Lemma replace_one_outcome s st r st' :
  tracked st -> replace_one s st = (r, st') ->
  tracked st' /\
  (forall k, k <> sch_ID s -> st'.2 !! k = st.2 !! k) /\
  (r = Ok tt -> if sch_Enabled s then
     exists e, st'.2 !! sch_ID s = Some e /\ scheduleFingerprint s = Ok (fingerprint e)
   else st' = st).
Proof.
  intros Ht. unfold replace_one. destruct (sch_Enabled s) eqn:En; simpl; [|by intros [= <- <-]].
  rewrite M_bind_run. unfold check_ctx. destruct (ctx_err st.1); [by intros [= <- <-]|].
  rewrite M_bind_run. unfold of_res at 1.
  destruct (scheduleFingerprint s) as [fp|err|] eqn:Ef; [|by intros [= <- <-]|by intros [= <- <-]].
  rewrite M_bind_run. unfold gets.
  destruct (match st.2 !! sch_ID s with Some c => (fingerprint c =? fp)%string | None => false end) eqn:Ec.
  { intros [= <- <-]. split_and!; [done|done|]. intros _.
    destruct (st.2 !! sch_ID s) as [c|] eqn:Hc; [|done].
    apply String.eqb_eq in Ec as <-. eauto. }
  rewrite M_bind_run. unfold wrap at 1, of_res.
  destruct (factory s) as [queued|err|]; [|by intros [= <- <-]|by intros [= <- <-]].
  intros (Ht' & Hk & Hok)%register_swap; [|done]. split_and!; [done|done|].
  intros (e & He & ->)%Hok. eauto.
Qed.

Lemma replace_all_outcome l st r st' :
  NoDup (map sch_ID l) -> tracked st -> for_each l replace_one st = (r, st') ->
  tracked st' /\ (forall k, k ∉ map sch_ID l -> st'.2 !! k = st.2 !! k) /\
  (r = Ok tt -> forall s, s ∈ l -> sch_Enabled s = true ->
     exists e, st'.2 !! sch_ID s = Some e /\ scheduleFingerprint s = Ok (fingerprint e)).
Proof.
  revert st. induction l as [|s l IH]; intros st Hn Ht; simpl.
  { intros [= <- <-]. split_and!; [done|done|]. by intros _ s Hs%not_elem_of_nil. }
  apply NoDup_cons in Hn as [Hs Hn]. rewrite M_bind_run.
  destruct (replace_one s st) as [r1 st1] eqn:E1.
  apply replace_one_outcome in E1 as (Ht1 & Hk1 & Hok1); [|done].
  destruct r1 as [[]|e|].
  2-3: intros [= <- <-]; split_and!; [done|intros k [? _]%not_elem_of_cons; by apply Hk1|done].
  intros E2. destruct (IH st1 Hn Ht1 E2) as (Ht2 & Hk2 & Hok2). split_and!; [done| |].
  - intros k [Hne Hk]%not_elem_of_cons. rewrite Hk2 by done. by apply Hk1.
  - intros -> s' [->|Hs']%elem_of_cons En; [|by apply Hok2]. specialize (Hok1 eq_refl). rewrite En in Hok1.
    rewrite Hk2 by done. done.
Qed.

Lemma remove_all_outcome keep l st r st' :
  NoDup l.*1 -> (forall x, x ∈ l -> st.2 !! x.1 = Some x.2) -> tracked st ->
  for_each l (remove_one keep) st = (r, st') ->
  tracked st' /\ (forall k, k ∈ keep -> st'.2 !! k = st.2 !! k) /\
  (r = Ok tt -> forall k, k ∉ keep -> k ∈ l.*1 \/ st.2 !! k = None -> st'.2 !! k = None).
Proof.
  revert st. induction l as [|[k e] l IH]; intros st Hn Hl Ht; simpl.
  { intros [= <- <-]. split_and!; [done|done|]. intros _ k _ [Hk|Hk]; [by apply not_elem_of_nil in Hk|done]. }
  apply NoDup_cons in Hn as [Hk Hn]. rewrite M_bind_run. unfold remove_one at 1. simpl.
  destruct (bool_decide_reflect (k ∈ keep)) as [Hin|Hin].
  { intros E. destruct (IH st Hn) as (Ht1 & Hk1 & Hok1); [|done|done|].
    - intros x Hx. apply Hl. by right.
    - split_and!; [done|done|]. intros Hr k' Hk' Hor. apply Hok1; [done..|].
      destruct Hor as [[->|?]%elem_of_cons|?]; [done|by left|by right]. }
  rewrite M_bind_run. unfold check_ctx. destruct (ctx_err st.1); [by intros [= <- <-]|].
  rewrite M_bind_run. unfold wrap, on_fst. destruct st as [w es]. simpl.
  pose proof (Hl (k, e) ltac:(left)) as Hke. simpl in Hke.
  destruct (sched_Unregister (entryID e) w) as [[[]|err|] w1] eqn:E1; apply Unregister_outcome in E1; [| |done].
  2: { intros [= <- <-]. split_and!; [|done|done]. eapply tracked_mono; [|exact Ht]. by rewrite E1. }
  intros E. destruct (IH (w1, delete k es) Hn) as (Ht1 & Hk1 & Hok1); [| |exact E|].
  - intros [k' e'] Hx. simpl. rewrite lookup_delete_ne; [apply (Hl (k', e')); by right|].
    intros ->. apply Hk. apply list_elem_of_fmap. by exists (k', e').
  - by eapply tracked_delete.
  - simpl in *. split_and!; [done| |].
    + intros k' Hk'. rewrite Hk1 by done. apply lookup_delete_ne. by intros ->.
    + intros Hr k' Hk' Hor. apply Hok1; [done..|].
      destruct (decide (k' = k)) as [->|Hne]; [right; apply lookup_delete_eq|].
      rewrite lookup_delete_ne by done. destruct Hor as [[?|?]%elem_of_cons|?]; [done|by left|by right].
Qed.

End Registrar.

(** A scheduler that numbers its registrations. *)
Definition counting_Register (_ : string) (_ : Task) (_ : list Option) : M (nat * gset string) string :=
  fun w => let id := pretty.pretty (N.of_nat w.1) in
  if bool_decide (id ∈ w.2) then (Err (EText "taken"), w) else (Ok id, (S w.1, {[ id ]} ∪ w.2)).
Definition counting_Unregister (id : string) : M (nat * gset string) unit :=
  fun w => (Ok tt, (w.1, w.2 ∖ {[ id ]})).

