(* ===== verification/IamSQL.v ===== *)
(** * The identity tables and their statements
    ([pkg/platform/database/dbgen], files users, rbac, authentication and
    preferences, with the schema of [pkg/migrations/000001], [000007],
    [000008] and [000009])

    A lock taken with [FOR UPDATE] reads like the plain query: it is held to
    the end of the transaction, whose steps the model runs one after the
    other.  A [bytea] column is an option. *)
From S2P Require Import Prelude GoStrings Postgres TaskSQL.

(** @src pkg/platform/database/dbgen/models.go:121-131 User *)
Record UserRow := mkUserRow {
  u_ID : string;
  u_Email : string;
  u_Username : string;
  u_PasswordHash : string;
  u_DisplayName : string;
  u_IsActive : bool;
  u_CreatedAt : Z;
  u_UpdatedAt : Z;
  u_EmailVerifiedAt : option Z;
}.

(** @src pkg/platform/database/dbgen/models.go:49-56 Role *)
Record RoleRow := mkRoleRow {
  r_ID : string; r_Name : string; r_Description : string; r_IsSystem : bool }.

(** @src pkg/platform/database/dbgen/models.go:42-47 Permission *)
Record PermissionRow := mkPermissionRow {
  p_ID : string; p_Name : string; p_Description : string }.

(** @src pkg/platform/database/dbgen/models.go:32-40 AuthenticationSetting *)
Record AuthenticationRow := mkAuthenticationRow {
  a_PasswordLoginEnabled : bool;
  a_RegistrationEnabled : bool;
  a_RegistrationEmailVerificationRequired : bool;
  a_AllowedEmailDomains : list string;
  a_BootstrapAdminUserID : option string;
  a_InitializedAt : option Z;
}.

(** @src pkg/platform/database/dbgen/models.go:150-160 UserSecuritySetting *)
Record SecurityRow := mkSecurityRow {
  s_Mode : string;
  s_TotpSecret : option string;
  s_PendingSecret : option string;
  s_PendingExpiresAt : option Z;
  s_LastTotpStep : Z;
  s_RecoveryHashes : list string;
  s_RecoveryCodesExpiresAt : option Z;
  s_Version : Z;
}.

(** @src pkg/platform/database/dbgen/models.go:133-142 UserPreference *)
Record PreferenceRow := mkPreferenceRow {
  pr_Theme : string;
  pr_ColorMode : string;
  pr_AccentColor : option string;
  pr_FontScale : string;
  pr_RadiusScale : string;
}.

(** The tables.  [user_roles] and [role_permissions] are sets of pairs; the
    settings are the singleton row of their table. *)
Record IamDB := mkIamDB {
  users : gmap string UserRow;
  roles : gmap string RoleRow;
  permissions : gmap string PermissionRow;
  user_roles : gset (string * string);
  role_permissions : gset (string * string);
  authentication_settings : AuthenticationRow;
  security : gmap string SecurityRow;
  consumptions : gmap string Z;
  preferences : gmap string PreferenceRow;
}.

Definition with_users f (d : IamDB) := mkIamDB (f (users d)) (roles d) (permissions d) (user_roles d)
  (role_permissions d) (authentication_settings d) (security d) (consumptions d) (preferences d).
Definition with_roles f (d : IamDB) := mkIamDB (users d) (f (roles d)) (permissions d) (user_roles d)
  (role_permissions d) (authentication_settings d) (security d) (consumptions d) (preferences d).
Definition with_user_roles f (d : IamDB) := mkIamDB (users d) (roles d) (permissions d) (f (user_roles d))
  (role_permissions d) (authentication_settings d) (security d) (consumptions d) (preferences d).
Definition with_role_permissions f (d : IamDB) := mkIamDB (users d) (roles d) (permissions d) (user_roles d)
  (f (role_permissions d)) (authentication_settings d) (security d) (consumptions d) (preferences d).
Definition with_authentication f (d : IamDB) := mkIamDB (users d) (roles d) (permissions d) (user_roles d)
  (role_permissions d) (f (authentication_settings d)) (security d) (consumptions d) (preferences d).
Definition with_security f (d : IamDB) := mkIamDB (users d) (roles d) (permissions d) (user_roles d)
  (role_permissions d) (authentication_settings d) (f (security d)) (consumptions d) (preferences d).
Definition with_consumptions f (d : IamDB) := mkIamDB (users d) (roles d) (permissions d) (user_roles d)
  (role_permissions d) (authentication_settings d) (security d) (f (consumptions d)) (preferences d).
Definition with_preferences f (d : IamDB) := mkIamDB (users d) (roles d) (permissions d) (user_roles d)
  (role_permissions d) (authentication_settings d) (security d) (consumptions d) (f (preferences d)).

(** [ILIKE], whose case folding depends on the database's locale. *)
Class Ilike := ilike : string -> string -> bool.

Declare Scope sql_scope.
Notation "x ← m ; k" := (mbind (M := res) (fun x => k) m)
  (at level 20, m at level 100, k at level 200, only parsing) : sql_scope.
#[local] Open Scope sql_scope.

(** The only row of a query, or [pgx.ErrNoRows]. *)
Definition one_row {A} (o : option A) (d : IamDB) : res (A * IamDB) :=
  match o with Some a => Ok (a, d) | None => Err PgxNoRows end.

Definition first {A} (f : A -> bool) (l : list A) : option A := head (where_ f l).

(** ** Users ([users.sql.go]) *)
Definition user_checks (u : UserRow) : bool :=
  not_blank (u_Email u) && not_blank (u_Username u) && not_blank (u_PasswordHash u).

(** Another row with the same email or username. *)
Definition identity_taken (id email username : string) (d : IamDB) : bool :=
  existsb (fun u => negb (String.eqb (u_ID u) id) &&
                    (String.eqb (u_Email u) email || String.eqb (u_Username u) username))
          (rows (users d)).

(** @src pkg/platform/database/dbgen/users.sql.go:41-46 CreateUserParams *)
Record CreateUserParams := mkCreateUser {
  cu_Email : string; cu_Username : string; cu_PasswordHash : string; cu_DisplayName : string }.

(** @src pkg/platform/database/dbgen/users.sql.go:35-68 CreateUser *)
Definition CreateUser (p : CreateUserParams) : stmt IamDB UserRow := fun env d =>
  let u := mkUserRow (pg_gen_random_uuid env) (cu_Email p) (cu_Username p) (cu_PasswordHash p)
             (cu_DisplayName p) true (pg_NOW env) (pg_NOW env) None in
  _ ← require (user_checks u) check_violation;
  _ ← require (bool_decide (users d !! u_ID u = None)) unique_violation;
  _ ← require (negb (identity_taken (u_ID u) (u_Email u) (u_Username u) d)) unique_violation;
  Ok (u, with_users <[u_ID u := u]> d).

(** @src pkg/platform/database/dbgen/users.sql.go:100-119 GetUserByID *)
Definition GetUserByID (id : string) : stmt IamDB UserRow := fun _ d => one_row (users d !! id) d.

(** @src pkg/platform/database/dbgen/users.sql.go:79-98 GetUserByEmail *)
Definition GetUserByEmail (email : string) : stmt IamDB UserRow := fun _ d =>
  one_row (first (fun u => String.eqb (u_Email u) email) (rows (users d))) d.

(** @src pkg/platform/database/dbgen/users.sql.go:132-137 ListUsersParams *)
Record UserFilterParams := mkUserFilterParams { uf_Query : option string; uf_Active : option bool }.

Definition user_matches `{Ilike} (p : UserFilterParams) (u : UserRow) : bool :=
  match uf_Query p with
  | Some q => let pattern := "%" +:+ q +:+ "%" in
      ilike (u_Email u) pattern || ilike (u_Username u) pattern || ilike (u_DisplayName u) pattern
  | None => true
  end &&
  match uf_Active p with Some b => Bool.eqb (u_IsActive u) b | None => true end.

Definition newest_user_first (x y : UserRow) : bool :=
  then_by (fun x y => Z.compare (u_CreatedAt y) (u_CreatedAt x))
          (fun x y => String.leb (u_ID y) (u_ID x)) x y.

(** @src pkg/platform/database/dbgen/users.sql.go:121-172 ListUsers *)
Definition ListUsers `{Ilike} (p : UserFilterParams) (limit offset : Z) : stmt IamDB (list UserRow) :=
  fun _ d =>
  page ← limit_offset limit offset
           (order_by newest_user_first (where_ (user_matches p) (rows (users d))));
  Ok (page, d).

(** @src pkg/platform/database/dbgen/users.sql.go:14-33 CountUsers *)
Definition CountUsers `{Ilike} (p : UserFilterParams) : stmt IamDB Z := fun _ d =>
  Ok (Z.of_nat (length (where_ (user_matches p) (rows (users d)))), d).

Definition update_user (id : string) (f : UserRow -> UserRow) (d : IamDB) : res (option UserRow * IamDB) :=
  match users d !! id with
  | None => Ok (None, d)
  | Some u =>
      let u' := f u in
      _ ← require (user_checks u') check_violation;
      _ ← require (negb (identity_taken id (u_Email u') (u_Username u') d)) unique_violation;
      Ok (Some u', with_users <[id := u']> d)
  end.

Definition affected {A} (r : res (option A * IamDB)) : res (Z * IamDB) :=
  '(o, d) ← r; Ok (match o with Some _ => 1 | None => 0 end, d).
Definition returning {A} (r : res (option A * IamDB)) : res (A * IamDB) :=
  '(o, d) ← r; one_row o d.

(** @src pkg/platform/database/dbgen/users.sql.go:174-189 SetUserActive *)
Definition SetUserActive (id : string) (active : bool) : stmt IamDB Z := fun env d =>
  affected (update_user id (fun u => mkUserRow (u_ID u) (u_Email u) (u_Username u) (u_PasswordHash u)
    (u_DisplayName u) active (u_CreatedAt u) (pg_NOW env) (u_EmailVerifiedAt u)) d).

(** @src pkg/platform/database/dbgen/users.sql.go:191-206 UpdateUserPassword *)
Definition UpdateUserPassword (id hash : string) : stmt IamDB Z := fun env d =>
  affected (update_user id (fun u => mkUserRow (u_ID u) (u_Email u) (u_Username u) hash
    (u_DisplayName u) (u_IsActive u) (u_CreatedAt u) (pg_NOW env) (u_EmailVerifiedAt u)) d).

(** A changed address is no longer verified.
    @src pkg/platform/database/dbgen/users.sql.go:208-242 UpdateUserProfile *)
Definition UpdateUserProfile (id email username displayName : string) : stmt IamDB UserRow := fun env d =>
  returning (update_user id (fun u => mkUserRow (u_ID u) email username (u_PasswordHash u) displayName
    (u_IsActive u) (u_CreatedAt u) (pg_NOW env)
    (if String.eqb (u_Email u) email then u_EmailVerifiedAt u else None)) d).

(** @src pkg/platform/database/dbgen/authentication.sql.go:152-171 MarkEmailVerified *)
Definition MarkEmailVerified (id : string) : stmt IamDB UserRow := fun env d =>
  returning (update_user id (fun u => mkUserRow (u_ID u) (u_Email u) (u_Username u) (u_PasswordHash u)
    (u_DisplayName u) (u_IsActive u) (u_CreatedAt u) (u_UpdatedAt u) (Some (pg_NOW env))) d).

(** The query of [VerifyEmail] that locks the user's row.
    @src pkg/platform/database/iamstore/authentication.go:260-263 VerifyEmail *)
Definition LockUser (id : string) : stmt IamDB string := fun _ d =>
  one_row (u_ID <$> users d !! id) d.

(** ** Roles and permissions ([rbac.sql.go]) *)

(** @src pkg/platform/database/dbgen/rbac.sql.go:14-28 AssignUserRole *)
Definition AssignUserRole (userID roleID : string) : stmt IamDB unit := fun _ d =>
  if bool_decide ((userID, roleID) ∈ user_roles d) then Ok (tt, d)
  else
    _ ← require (bool_decide (is_Some (users d !! userID)) && bool_decide (is_Some (roles d !! roleID)))
          foreign_key_violation;
    Ok (tt, with_user_roles (fun s => {[ (userID, roleID) ]} ∪ s) d).

(** @src pkg/platform/database/dbgen/rbac.sql.go:171-185 GrantRolePermission *)
Definition GrantRolePermission (roleID permissionID : string) : stmt IamDB unit := fun _ d =>
  if bool_decide ((roleID, permissionID) ∈ role_permissions d) then Ok (tt, d)
  else
    _ ← require (bool_decide (is_Some (roles d !! roleID)) &&
                 bool_decide (is_Some (permissions d !! permissionID))) foreign_key_violation;
    Ok (tt, with_role_permissions (fun s => {[ (roleID, permissionID) ]} ∪ s) d).

(** @src pkg/platform/database/dbgen/rbac.sql.go:117-133 GetRoleByID *)
Definition GetRoleByID (id : string) : stmt IamDB RoleRow := fun _ d => one_row (roles d !! id) d.

(** @src pkg/platform/database/dbgen/rbac.sql.go:135-151 GetRoleByName *)
Definition GetRoleByName (name : string) : stmt IamDB RoleRow := fun _ d =>
  one_row (first (fun r => String.eqb (r_Name r) name) (rows (roles d))) d.

Definition is_system_admin (r : RoleRow) : bool := String.eqb (r_Name r) "admin" && r_IsSystem r.

(** @src pkg/platform/database/dbgen/rbac.sql.go:376-392 LockSystemAdminRole *)
Definition LockSystemAdminRole : stmt IamDB RoleRow := fun _ d =>
  one_row (first is_system_admin (rows (roles d))) d.

(** @src pkg/platform/database/dbgen/rbac.sql.go:85-99 GetPermissionByID *)
Definition GetPermissionByID (id : string) : stmt IamDB PermissionRow := fun _ d =>
  one_row (permissions d !! id) d.

Definition by_role_name `{Collation} (x y : RoleRow) : bool := collate_leb (r_Name x) (r_Name y).
Definition by_permission_name `{Collation} (x y : PermissionRow) : bool := collate_leb (p_Name x) (p_Name y).

(** @src pkg/platform/database/dbgen/rbac.sql.go:249-278 ListRoles *)
Definition ListRoles `{Collation} : stmt IamDB (list RoleRow) := fun _ d =>
  Ok (order_by by_role_name (rows (roles d)), d).

(** @src pkg/platform/database/dbgen/rbac.sql.go:187-214 ListPermissions *)
Definition ListPermissions `{Collation} : stmt IamDB (list PermissionRow) := fun _ d =>
  Ok (order_by by_permission_name (rows (permissions d)), d).

(** @src pkg/platform/database/dbgen/rbac.sql.go:280-313 ListRolesForUser *)
Definition ListRolesForUser `{Collation} (userID : string) : stmt IamDB (list RoleRow) := fun _ d =>
  Ok (order_by by_role_name
        (where_ (fun r => bool_decide ((userID, r_ID r) ∈ user_roles d)) (rows (roles d))), d).

(** @src pkg/platform/database/dbgen/rbac.sql.go:216-247 ListRolePermissions *)
Definition ListRolePermissions `{Collation} (roleID : string) : stmt IamDB (list PermissionRow) := fun _ d =>
  Ok (order_by by_permission_name
        (where_ (fun p => bool_decide ((roleID, p_ID p) ∈ role_permissions d)) (rows (permissions d))), d).

(** The permission [p] is granted to [userID] by one of its roles. *)
Definition granted (d : IamDB) (userID : string) (p : PermissionRow) : bool :=
  match users d !! userID with
  | Some u => u_IsActive u &&
      existsb (fun ur => String.eqb ur.1 userID && bool_decide ((ur.2, p_ID p) ∈ role_permissions d))
              (elements (user_roles d))
  | None => false
  end.

(** [SELECT DISTINCT permissions.name ... ORDER BY permissions.name]
    @src pkg/platform/database/dbgen/rbac.sql.go:315-343 ListUserPermissions *)
Definition ListUserPermissions `{Collation} (userID : string) : stmt IamDB (list string) := fun _ d =>
  Ok (order_by collate_leb
        (remove_dups (map p_Name (where_ (granted d userID) (rows (permissions d))))), d).

(** @src pkg/platform/database/dbgen/rbac.sql.go:30-53 CreateRole *)
Definition CreateRole (name description : string) : stmt IamDB RoleRow := fun env d =>
  let r := mkRoleRow (pg_gen_random_uuid env) name description false in
  _ ← require (not_blank name) check_violation;
  _ ← require (bool_decide (roles d !! r_ID r = None)) unique_violation;
  _ ← require (negb (existsb (fun r => String.eqb (r_Name r) name) (rows (roles d)))) unique_violation;
  Ok (r, with_roles <[r_ID r := r]> d).

(** @src pkg/platform/database/dbgen/rbac.sql.go:394-419 UpdateRole *)
Definition UpdateRole (id name description : string) : stmt IamDB RoleRow := fun _ d =>
  match roles d !! id with
  | None => Err PgxNoRows
  | Some r =>
      let r' := mkRoleRow (r_ID r) name description (r_IsSystem r) in
      _ ← require (not_blank name) check_violation;
      _ ← require (negb (existsb (fun r => negb (String.eqb (r_ID r) id) && String.eqb (r_Name r) name)
                                 (rows (roles d)))) unique_violation;
      Ok (r', with_roles <[id := r']> d)
  end.

(** The deletion cascades to the assignments and grants of the role.
    @src pkg/platform/database/dbgen/rbac.sql.go:55-65 DeleteRole *)
Definition DeleteRole (id : string) : stmt IamDB Z := fun _ d =>
  match roles d !! id with
  | None => Ok (0, d)
  | Some _ =>
      Ok (1, with_user_roles (filter (fun ur => ur.2 <> id))
               (with_role_permissions (filter (fun rp => rp.1 <> id)) (with_roles (delete id) d)))
  end.

(** @src pkg/platform/database/dbgen/rbac.sql.go:76-83 DeleteUserRoles *)
Definition DeleteUserRoles (userID : string) : stmt IamDB unit := fun _ d =>
  Ok (tt, with_user_roles (filter (fun ur => ur.1 <> userID)) d).

(** @src pkg/platform/database/dbgen/rbac.sql.go:67-74 DeleteRolePermissions *)
Definition DeleteRolePermissions (roleID : string) : stmt IamDB unit := fun _ d =>
  Ok (tt, with_role_permissions (filter (fun rp => rp.1 <> roleID)) d).

(** An active user with the system role [admin]. *)
Definition active_admin (d : IamDB) (ur : string * string) : bool :=
  match users d !! ur.1, roles d !! ur.2 with
  | Some u, Some r => u_IsActive u && is_system_admin r
  | _, _ => false
  end.

(** @src pkg/platform/database/dbgen/rbac.sql.go:345-374 LockActiveSystemAdministratorIDs *)
Definition LockActiveSystemAdministratorIDs : stmt IamDB (list string) := fun _ d =>
  Ok (map fst (where_ (active_admin d) (elements (user_roles d))), d).

(** ** Authentication ([authentication.sql.go]) *)

(** The first query locks the row, the second does not.
    @src pkg/platform/database/dbgen/authentication.sql.go:112-129 LockAuthenticationSettings *)
Definition LockAuthenticationSettings : stmt IamDB AuthenticationRow := fun _ d =>
  Ok (authentication_settings d, d).
(** @src pkg/platform/database/dbgen/authentication.sql.go:36-53 GetAuthenticationSettings *)
Definition GetAuthenticationSettings : stmt IamDB AuthenticationRow := fun _ d =>
  Ok (authentication_settings d, d).

(** @src pkg/platform/database/dbgen/authentication.sql.go:182-202 PutAuthenticationSettings *)
Definition PutAuthenticationSettings (login registration verification : bool) (domains : list string) :
    stmt IamDB unit := fun _ d =>
  Ok (tt, with_authentication (fun a => mkAuthenticationRow login registration verification domains
    (a_BootstrapAdminUserID a) (a_InitializedAt a)) d).

(** @src pkg/platform/database/dbgen/authentication.sql.go:14-25 BindBootstrapAdmin *)
Definition BindBootstrapAdmin (userID : string) : stmt IamDB Z := fun _ d =>
  let a := authentication_settings d in
  if bool_decide (a_BootstrapAdminUserID a = None) || bool_decide (a_BootstrapAdminUserID a = Some userID) then
    _ ← require (bool_decide (is_Some (users d !! userID))) foreign_key_violation;
    Ok (1, with_authentication (fun a => mkAuthenticationRow (a_PasswordLoginEnabled a)
      (a_RegistrationEnabled a) (a_RegistrationEmailVerificationRequired a) (a_AllowedEmailDomains a)
      (Some userID) (a_InitializedAt a)) d)
  else Ok (0, d).

(** @src pkg/platform/database/dbgen/authentication.sql.go:76-87 InitializeAuthentication *)
Definition InitializeAuthentication (userID : string) : stmt IamDB Z := fun env d =>
  let a := authentication_settings d in
  if bool_decide (a_BootstrapAdminUserID a = Some userID) then
    Ok (1, with_authentication (fun a => mkAuthenticationRow (a_PasswordLoginEnabled a)
      (a_RegistrationEnabled a) (a_RegistrationEmailVerificationRequired a) (a_AllowedEmailDomains a)
      (a_BootstrapAdminUserID a) (coalesce (a_InitializedAt a) (Some (pg_NOW env)))) d)
  else Ok (0, d).

Definition default_security : SecurityRow := mkSecurityRow "default" None None None (-1) [] None 0.

(** @src pkg/platform/database/dbgen/authentication.sql.go:27-34 EnsureSecuritySettings *)
Definition EnsureSecuritySettings (userID : string) : stmt IamDB unit := fun _ d =>
  match security d !! userID with
  | Some _ => Ok (tt, d)
  | None =>
      _ ← require (bool_decide (is_Some (users d !! userID))) foreign_key_violation;
      Ok (tt, with_security <[userID := default_security]> d)
  end.

(** @src pkg/platform/database/dbgen/authentication.sql.go:55-74 GetSecuritySettings *)
Definition GetSecuritySettings (userID : string) : stmt IamDB SecurityRow := fun _ d =>
  one_row (security d !! userID) d.
(** @src pkg/platform/database/dbgen/authentication.sql.go:131-150 LockSecuritySettings *)
Definition LockSecuritySettings (userID : string) : stmt IamDB SecurityRow := fun _ d =>
  one_row (security d !! userID) d.

Definition security_checks (s : SecurityRow) : bool :=
  bool_decide (s_Mode s ∈ ["default"; "email"; "totp"]) &&
  (negb (String.eqb (s_Mode s) "totp") || bool_decide (s_TotpSecret s <> None)).

Definition update_security (userID : string) (f : SecurityRow -> SecurityRow) (s : SecurityRow) (d : IamDB) :
    res (Z * IamDB) :=
  let s' := f s in
  _ ← require (s_Version s' <=? max_int64) numeric_out_of_range;
  _ ← require (security_checks s') check_violation;
  Ok (1, with_security <[userID := s']> d).

(** @src pkg/platform/database/dbgen/authentication.sql.go:224-234 SaveSecuritySettingsParams *)
Record SaveSecuritySettingsParams := mkSaveSecurity {
  ss_UserID : string;
  ss_Mode : string;
  ss_TotpSecret : option string;
  ss_PendingSecret : option string;
  ss_PendingExpiresAt : option Z;
  ss_LastTotpStep : Z;
  ss_RecoveryHashes : list string;
  ss_Version : Z;
  ss_RecoveryCodesExpiresAt : option Z;
}.

(** The row is written only at the version it was read at.
    @src pkg/platform/database/dbgen/authentication.sql.go:219-252 SaveSecuritySettings *)
Definition SaveSecuritySettings (p : SaveSecuritySettingsParams) : stmt IamDB Z := fun _ d =>
  match security d !! ss_UserID p with
  | Some s =>
      if s_Version s =? ss_Version p then
        update_security (ss_UserID p) (fun s => mkSecurityRow (ss_Mode p) (ss_TotpSecret p)
          (ss_PendingSecret p) (timestamptz <$> ss_PendingExpiresAt p) (ss_LastTotpStep p)
          (ss_RecoveryHashes p) (timestamptz <$> ss_RecoveryCodesExpiresAt p) (s_Version s + 1)) s d
      else Ok (0, d)
  | None => Ok (0, d)
  end.

(** @src pkg/platform/database/dbgen/authentication.sql.go:204-217 SaveConsumedSecurityCredential *)
Definition SaveConsumedSecurityCredential (userID : string) (step : Z) (hashes : list string) :
    stmt IamDB unit := fun _ d =>
  match security d !! userID with
  | Some s =>
      '(_, d) ← update_security userID (fun s => mkSecurityRow (s_Mode s) (s_TotpSecret s)
        (s_PendingSecret s) (s_PendingExpiresAt s) step hashes (s_RecoveryCodesExpiresAt s)
        (s_Version s + 1)) s d;
      Ok (tt, d)
  | None => Ok (tt, d)
  end.

(** @src pkg/platform/database/dbgen/authentication.sql.go:103-110 InvalidatePasswordCredentials *)
Definition InvalidatePasswordCredentials (userID : string) : stmt IamDB unit := fun _ d =>
  match security d !! userID with
  | Some s =>
      '(_, d) ← update_security userID (fun s => mkSecurityRow (s_Mode s) (s_TotpSecret s) None None
        (s_LastTotpStep s) (s_RecoveryHashes s) (s_RecoveryCodesExpiresAt s) (s_Version s + 1)) s d;
      Ok (tt, d)
  | None => Ok (tt, d)
  end.

(** @src pkg/platform/database/dbgen/authentication.sql.go:89-101 InsertAuthenticationConsumption *)
Definition InsertAuthenticationConsumption (credentialID : string) (expiresAt : Z) : stmt IamDB unit :=
  fun _ d =>
  _ ← require (bool_decide (consumptions d !! credentialID = None)) unique_violation;
  Ok (tt, with_consumptions <[credentialID := timestamptz expiresAt]> d).

(** @src pkg/platform/database/dbgen/authentication.sql.go:173-180 PruneAuthenticationConsumptions *)
Definition PruneAuthenticationConsumptions : stmt IamDB unit := fun env d =>
  Ok (tt, with_consumptions (filter (fun c => ~ c.2 < pg_NOW env)) d).

(** ** Preferences ([preferences.sql.go]) *)

(** The pattern [^#[0-9A-Fa-f]{6}$]. *)
Definition is_accent_color (s : string) : bool :=
  match bytes s with
  | hash :: digits => (code hash =? 35) && (length digits =? 6)%nat && forallb is_hex_digit digits
  | [] => false
  end.

Definition preference_checks (p : PreferenceRow) : bool :=
  bool_decide (pr_Theme p ∈ ["enterprise"; "cyberpunk"]) &&
  bool_decide (pr_ColorMode p ∈ ["light"; "dark"; "system"]) &&
  bool_decide (pr_FontScale p ∈ ["small"; "standard"; "large"]) &&
  bool_decide (pr_RadiusScale p ∈ ["square"; "compact"; "rounded"]) &&
  match pr_AccentColor p with Some a => is_accent_color a | None => true end.

(** @src pkg/platform/database/dbgen/preferences.sql.go:14-34 GetUserPreferences *)
Definition GetUserPreferences (userID : string) : stmt IamDB PreferenceRow := fun _ d =>
  one_row (preferences d !! userID) d.

(** @src pkg/platform/database/dbgen/preferences.sql.go:36-67 UpsertUserPreferences *)
Definition UpsertUserPreferences (userID : string) (p : PreferenceRow) : stmt IamDB unit := fun _ d =>
  _ ← require (preference_checks p) check_violation;
  _ ← require (bool_decide (is_Some (users d !! userID))) foreign_key_violation;
  Ok (tt, with_preferences <[userID := p]> d).

(** ** Lemmas: the statements and the constraints of the schema

    [wf] states the primary keys, the unique indexes and the foreign keys the
    stores rely on. *)
Record wf (d : IamDB) : Prop := {
  wf_user_id : forall id u, users d !! id = Some u -> u_ID u = id;
  wf_ids : forall id u, users d !! id = Some u -> uuid_ok id;
  wf_role_id : forall id r, roles d !! id = Some r -> r_ID r = id;
  wf_email : forall i j u v, users d !! i = Some u -> users d !! j = Some v ->
    u_Email u = u_Email v -> i = j;
  wf_role_name : forall i j r s, roles d !! i = Some r -> roles d !! j = Some s ->
    r_Name r = r_Name s -> i = j;
  wf_security : forall id s, security d !! id = Some s -> is_Some (users d !! id);
  wf_user_roles : forall u r, (u, r) ∈ user_roles d -> is_Some (users d !! u) /\ is_Some (roles d !! r);
}.

Lemma one_row_inv {A} (o : option A) (d : IamDB) a d' :
  one_row o d = Ok (a, d') -> o = Some a /\ d' = d.
Proof. destruct o; by intros [= <- <-]. Qed.

Lemma first_Some {A} (f : A -> bool) l x : first f l = Some x -> x ∈ l /\ f x = true.
Proof.
  unfold first. intros Hx. apply elem_of_where.
  destruct (where_ f l) as [|y l']; [done|]. injection Hx as ->. left.
Qed.

Lemma first_is_Some {A} (f : A -> bool) l x : x ∈ l -> f x = true -> is_Some (first f l).
Proof.
  intros Hx Hf. unfold first. assert (x ∈ where_ f l) as Hw by by apply elem_of_where.
  destruct (where_ f l); [by apply elem_of_nil in Hw|]. by eexists.
Qed.

Lemma existsb_false_elem {A} (f : A -> bool) l x : existsb f l = false -> x ∈ l -> f x = false.
Proof.
  intros Hf Hx. destruct (f x) eqn:E; [|done]. rewrite <- Hf. symmetry.
  apply existsb_exists. exists x. by rewrite <- list_elem_of_In.
Qed.

(** *** The helper updates *)
Lemma update_user_inv id f d o d' :
  update_user id f d = Ok (o, d') ->
  (users d !! id = None /\ o = None /\ d' = d) \/
  exists u, users d !! id = Some u /\ o = Some (f u) /\ d' = with_users <[id := f u]> d /\
            identity_taken id (u_Email (f u)) (u_Username (f u)) d = false.
Proof.
  unfold update_user. destruct (users d !! id) as [u|]; [|intros [= <- <-]; by left].
  intros H. res_inv H. injection H as <- <-. right. exists u.
  apply require_Ok in E0. by apply negb_true_iff in E0.
Qed.

Lemma affected_inv {A} (r : res (option A * IamDB)) n d' :
  affected r = Ok (n, d') -> exists o, r = Ok (o, d') /\ n = match o with Some _ => 1 | None => 0 end.
Proof. unfold affected. intros H. res_inv H. destruct a as [o d1]. injection H as <- <-. eauto. Qed.

Lemma returning_inv {A} (r : res (option A * IamDB)) a d' :
  returning r = Ok (a, d') -> r = Ok (Some a, d').
Proof.
  unfold returning. intros H. res_inv H. destruct a0 as [o d1]. apply one_row_inv in H as [-> ->]. done.
Qed.

Lemma update_security_inv id f s d n d' :
  update_security id f s d = Ok (n, d') ->
  n = 1 /\ d' = with_security <[id := f s]> d /\ security_checks (f s) = true /\
  s_Version (f s) <= max_int64.
Proof.
  unfold update_security. intros H. res_inv H. injection H as <- <-.
  apply require_Ok in E, E0. bool_prop. done.
Qed.

(** *** The effect of each statement that writes *)
Section Effects.
Context (env : PgEnv) (d d' : IamDB).

Lemma CreateUser_effect p u :
  CreateUser p env d = Ok (u, d') ->
  u = mkUserRow (pg_gen_random_uuid env) (cu_Email p) (cu_Username p) (cu_PasswordHash p)
        (cu_DisplayName p) true (pg_NOW env) (pg_NOW env) None /\
  users d !! u_ID u = None /\ identity_taken (u_ID u) (u_Email u) (u_Username u) d = false /\
  d' = with_users <[u_ID u := u]> d.
Proof.
  unfold CreateUser. intros E. res_inv E. injection E as <- <-.
  apply require_Ok in E1, E2. bool_prop. done.
Qed.

(** The updates of a user: what becomes of the row. *)
Definition updates_user (id : string) (f : UserRow -> UserRow) (u : UserRow) : Prop :=
  users d !! id = Some u /\ d' = with_users <[id := f u]> d /\
  identity_taken id (u_Email (f u)) (u_Username (f u)) d = false.

Lemma SetUserActive_effect id active n :
  SetUserActive id active env d = Ok (n, d') ->
  (n = 0 /\ users d !! id = None /\ d' = d) \/
  exists u, n = 1 /\ updates_user id (fun u => mkUserRow (u_ID u) (u_Email u) (u_Username u)
    (u_PasswordHash u) (u_DisplayName u) active (u_CreatedAt u) (pg_NOW env) (u_EmailVerifiedAt u)) u.
Proof.
  intros (o & [(?&->&->)|(u&?&->&->&?)]%update_user_inv & ->)%affected_inv; [by left|right].
  by exists u.
Qed.

Lemma UpdateUserPassword_effect id hash n :
  UpdateUserPassword id hash env d = Ok (n, d') ->
  (n = 0 /\ users d !! id = None /\ d' = d) \/
  exists u, n = 1 /\ updates_user id (fun u => mkUserRow (u_ID u) (u_Email u) (u_Username u) hash
    (u_DisplayName u) (u_IsActive u) (u_CreatedAt u) (pg_NOW env) (u_EmailVerifiedAt u)) u.
Proof.
  intros (o & [(?&->&->)|(u&?&->&->&?)]%update_user_inv & ->)%affected_inv; [by left|right].
  by exists u.
Qed.

Lemma UpdateUserProfile_effect id email username displayName u' :
  UpdateUserProfile id email username displayName env d = Ok (u', d') ->
  let f u := mkUserRow (u_ID u) email username (u_PasswordHash u) displayName
    (u_IsActive u) (u_CreatedAt u) (pg_NOW env)
    (if String.eqb (u_Email u) email then u_EmailVerifiedAt u else None) in
  exists u, u' = f u /\ updates_user id f u.
Proof.
  intros [(?&?&->)|(u&?&[= ->]&->&?)]%returning_inv%update_user_inv; [done|]. by exists u.
Qed.

Lemma MarkEmailVerified_effect id u' :
  MarkEmailVerified id env d = Ok (u', d') ->
  let f u := mkUserRow (u_ID u) (u_Email u) (u_Username u) (u_PasswordHash u)
    (u_DisplayName u) (u_IsActive u) (u_CreatedAt u) (u_UpdatedAt u) (Some (pg_NOW env)) in
  exists u, u' = f u /\ updates_user id f u.
Proof.
  intros [(?&?&->)|(u&?&[= ->]&->&?)]%returning_inv%update_user_inv; [done|]. by exists u.
Qed.

Lemma AssignUserRole_effect u r :
  AssignUserRole u r env d = Ok (tt, d') ->
  (d' = d \/ is_Some (users d !! u) /\ is_Some (roles d !! r) /\
             d' = with_user_roles (fun s => {[ (u, r) ]} ∪ s) d) /\ (u, r) ∈ user_roles d'.
Proof.
  unfold AssignUserRole. case_bool_decide as Hin; [intros [= <-]; by auto|].
  intros E. res_inv E. injection E as <-. apply require_Ok in E0. bool_prop.
  split; [by right|]. simpl. set_solver.
Qed.

Lemma GrantRolePermission_effect r p :
  GrantRolePermission r p env d = Ok (tt, d') ->
  exists f, d' = with_role_permissions f d.
Proof.
  unfold GrantRolePermission. case_bool_decide as Hin; [intros [= <-]|].
  - exists id. by destruct d.
  - intros E. res_inv E. injection E as <-. eauto.
Qed.

Lemma CreateRole_effect name description r :
  CreateRole name description env d = Ok (r, d') ->
  r = mkRoleRow (pg_gen_random_uuid env) name description false /\ roles d !! r_ID r = None /\
  existsb (fun r => String.eqb (r_Name r) name) (rows (roles d)) = false /\
  d' = with_roles <[r_ID r := r]> d.
Proof.
  unfold CreateRole. intros E. res_inv E. injection E as <- <-.
  apply require_Ok in E1, E2. bool_prop. done.
Qed.

Lemma UpdateRole_effect id name description r' :
  UpdateRole id name description env d = Ok (r', d') ->
  exists r, roles d !! id = Some r /\ r' = mkRoleRow (r_ID r) name description (r_IsSystem r) /\
    existsb (fun r => negb (String.eqb (r_ID r) id) && String.eqb (r_Name r) name) (rows (roles d)) = false /\
    d' = with_roles <[id := r']> d.
Proof.
  unfold UpdateRole. destruct (roles d !! id) as [r|]; [|done].
  intros E. res_inv E. injection E as <- <-. apply require_Ok in E1. apply negb_true_iff in E1. eauto.
Qed.

Lemma DeleteRole_effect id n :
  DeleteRole id env d = Ok (n, d') ->
  (n = 0 /\ roles d !! id = None /\ d' = d) \/
  (exists r, n = 1 /\ roles d !! id = Some r /\
   d' = with_user_roles (filter (fun ur => ur.2 <> id))
               (with_role_permissions (filter (fun rp => rp.1 <> id)) (with_roles (delete id) d))).
Proof. unfold DeleteRole. destruct (roles d !! id) as [r|]; intros [= <- <-]; eauto. Qed.

Lemma EnsureSecuritySettings_effect id u :
  EnsureSecuritySettings id env d = Ok (u, d') ->
  (d' = d /\ is_Some (security d !! id)) \/
  (security d !! id = None /\ is_Some (users d !! id) /\ d' = with_security <[id := default_security]> d).
Proof.
  unfold EnsureSecuritySettings. destruct (security d !! id) as [s|] eqn:E.
  - intros [= <- <-]. left. eauto.
  - intros H. res_inv H. injection H as _ <-. apply require_Ok in E0. bool_prop. by right.
Qed.

Lemma SaveSecuritySettings_effect p n :
  SaveSecuritySettings p env d = Ok (n, d') ->
  (n = 0 /\ d' = d /\ forall s, security d !! ss_UserID p = Some s -> s_Version s <> ss_Version p) \/
  (exists s, n = 1 /\ security d !! ss_UserID p = Some s /\ s_Version s = ss_Version p /\
     let s' := mkSecurityRow (ss_Mode p) (ss_TotpSecret p) (ss_PendingSecret p)
       (timestamptz <$> ss_PendingExpiresAt p) (ss_LastTotpStep p) (ss_RecoveryHashes p)
       (timestamptz <$> ss_RecoveryCodesExpiresAt p) (s_Version s + 1) in
     security_checks s' = true /\ d' = with_security <[ss_UserID p := s']> d).
Proof.
  unfold SaveSecuritySettings. destruct (security d !! ss_UserID p) as [s|] eqn:E;
    [|intros [= <- <-]; by left].
  destruct (_ =? _) eqn:Ev; [|intros [= <- <-]; left; bool_prop; split_and!; [done|done|by intros ? [= <-]]].
  intros (-> & -> & ? & ?)%update_security_inv. bool_prop. right. by exists s.
Qed.

(** The two statements that only rewrite the factors of a row. *)
Definition rewrites_security (id : string) (f : SecurityRow -> SecurityRow) : Prop :=
  (security d !! id = None /\ d' = d) \/
  exists s, security d !! id = Some s /\ d' = with_security <[id := f s]> d.

Lemma SaveConsumed_effect id step hashes u :
  SaveConsumedSecurityCredential id step hashes env d = Ok (u, d') ->
  rewrites_security id (fun s => mkSecurityRow (s_Mode s) (s_TotpSecret s) (s_PendingSecret s)
    (s_PendingExpiresAt s) step hashes (s_RecoveryCodesExpiresAt s) (s_Version s + 1)).
Proof.
  unfold SaveConsumedSecurityCredential, rewrites_security.
  destruct (security d !! id) as [s|]; [|intros [= _ <-]; by left].
  intros H. res_inv H. destruct a as [n d1]. injection H as _ <-.
  apply update_security_inv in E as (_ & -> & _). eauto.
Qed.

Lemma InvalidatePassword_effect id u :
  InvalidatePasswordCredentials id env d = Ok (u, d') ->
  rewrites_security id (fun s => mkSecurityRow (s_Mode s) (s_TotpSecret s) None None
    (s_LastTotpStep s) (s_RecoveryHashes s) (s_RecoveryCodesExpiresAt s) (s_Version s + 1)).
Proof.
  unfold InvalidatePasswordCredentials, rewrites_security.
  destruct (security d !! id) as [s|]; [|intros [= _ <-]; by left].
  intros H. res_inv H. destruct a as [n d1]. injection H as _ <-.
  apply update_security_inv in E as (_ & -> & _). eauto.
Qed.

Lemma InsertConsumption_effect credential expiresAt u :
  InsertAuthenticationConsumption credential expiresAt env d = Ok (u, d') ->
  consumptions d !! credential = None /\
  d' = with_consumptions <[credential := timestamptz expiresAt]> d.
Proof.
  unfold InsertAuthenticationConsumption. intros H. res_inv H. injection H as _ <-.
  apply require_Ok in E. bool_prop. done.
Qed.
End Effects.

(** *** The kinds of changes

    [iam_change k d d']: a statement of kind [k] changes the tables from [d]
    to [d'].  The plain ones neither take a user's activity, verification or
    role away nor change the login policy of a user. *)
Inductive change_kind := plain | deactivates | edits_role | unassigns | edits_profile | sets_mode
  | edits_grants.

Inductive iam_change (k : change_kind) (d : IamDB) : IamDB -> Prop :=
  | ch_new_user u : users d !! u_ID u = None -> uuid_ok (u_ID u) ->
      identity_taken (u_ID u) (u_Email u) (u_Username u) d = false ->
      iam_change k d (with_users <[u_ID u := u]> d)
  | ch_user id u u' : users d !! id = Some u -> u_ID u' = u_ID u ->
      identity_taken id (u_Email u') (u_Username u') d = false ->
      (k = deactivates \/ (u_IsActive u = true -> u_IsActive u' = true)) ->
      (k = edits_profile \/ (u_EmailVerifiedAt u <> None -> u_EmailVerifiedAt u' <> None)) ->
      iam_change k d (with_users <[id := u']> d)
  | ch_new_role r : roles d !! r_ID r = None ->
      existsb (fun s => String.eqb (r_Name s) (r_Name r)) (rows (roles d)) = false ->
      iam_change k d (with_roles <[r_ID r := r]> d)
  | ch_role id r r' : k = edits_role -> roles d !! id = Some r -> r_ID r' = r_ID r ->
      existsb (fun s => negb (String.eqb (r_ID s) id) && String.eqb (r_Name s) (r_Name r')) (rows (roles d)) = false ->
      iam_change k d (with_roles <[id := r']> d)
  | ch_delete_role id : k = edits_role ->
      iam_change k d (with_user_roles (filter (fun ur => ur.2 <> id))
               (with_role_permissions (filter (fun rp => rp.1 <> id)) (with_roles (delete id) d)))
  | ch_assign u r : is_Some (users d !! u) -> is_Some (roles d !! r) ->
      iam_change k d (with_user_roles (fun s => {[ (u, r) ]} ∪ s) d)
  | ch_unassign u : k = unassigns ->
      iam_change k d (with_user_roles (filter (fun ur => ur.1 <> u)) d)
  | ch_new_security id s : is_Some (users d !! id) -> security d !! id = None -> s_Mode s <> "email" ->
      iam_change k d (with_security <[id := s]> d)
  | ch_security id s s' : security d !! id = Some s -> s_Version s' = s_Version s + 1 ->
      (k = sets_mode \/ s_Mode s' = s_Mode s /\ s_TotpSecret s' = s_TotpSecret s) ->
      iam_change k d (with_security <[id := s']> d)
  | ch_other d' : users d' = users d -> roles d' = roles d -> user_roles d' = user_roles d ->
      security d' = security d -> (k = edits_grants \/ role_permissions d' = role_permissions d) ->
      iam_change k d d'.

Definition changes {A} (k : change_kind) (s : stmt IamDB A) : Prop :=
  forall env d a d', env_ok env -> s env d = Ok (a, d') -> iam_change k d d'.

Lemma ch_none k d : iam_change k d d.
Proof. apply ch_other; auto. Qed.

Lemma identity_taken_false d id email username j v :
  wf d -> identity_taken id email username d = false -> users d !! j = Some v -> j <> id ->
  u_Email v <> email.
Proof.
  intros Hwf Hf Hj Hne He. unfold identity_taken in Hf.
  apply (existsb_false_elem _ _ v) in Hf; [|apply elem_of_rows; eauto]. cbv beta in Hf.
  rewrite (wf_user_id d Hwf _ _ Hj) in Hf.
  rewrite He in Hf. destruct (String.eqb_spec j id); [done|]. by rewrite String.eqb_refl in Hf.
Qed.

Lemma role_name_free d id name j r :
  wf d -> existsb (fun s => negb (String.eqb (r_ID s) id) && String.eqb (r_Name s) name) (rows (roles d)) = false ->
  roles d !! j = Some r -> j <> id -> r_Name r <> name.
Proof.
  intros Hwf Hf Hj Hne He. apply (existsb_false_elem _ _ r) in Hf; [|apply elem_of_rows; eauto]. cbv beta in Hf.
  rewrite (wf_role_id d Hwf _ _ Hj), He, String.eqb_refl in Hf.
  by destruct (String.eqb_spec j id).
Qed.

(** Every statement preserves the constraints. *)
Lemma wf_insert_user d id u :
  wf d -> u_ID u = id -> uuid_ok id -> identity_taken id (u_Email u) (u_Username u) d = false ->
  wf (with_users <[id := u]> d).
Proof.
  intros Hwf Hid Hok Hfree.
  assert (forall j, is_Some (users d !! j) -> is_Some (<[id := u]> (users d) !! j)) as Hdom.
  { intros j Hj. apply lookup_insert_is_Some. destruct (decide (id = j)); auto. }
  split; simpl; [..|intros v r Hvr; destruct (wf_user_roles d Hwf v r Hvr); auto].
  - intros j v [[<- <-]|[_ Hj]]%lookup_insert_Some; [done|by apply (wf_user_id d Hwf)].
  - intros j v [[<- <-]|[_ Hj]]%lookup_insert_Some; [done|by eapply (wf_ids d Hwf)].
  - apply (wf_role_id d Hwf).
  - intros i j v w [[<- <-]|[Hi1 Hi]]%lookup_insert_Some [[<- <-]|[Hj1 Hj]]%lookup_insert_Some He.
    + done.
    + symmetry in He. by eapply identity_taken_false in He.
    + by eapply identity_taken_false in He.
    + by eapply (wf_email d Hwf).
  - apply (wf_role_name d Hwf).
  - intros j s Hs. apply Hdom. by eapply (wf_security d Hwf).
Qed.

Lemma wf_insert_role d id r :
  wf d -> r_ID r = id ->
  (forall j s, roles d !! j = Some s -> j <> id -> r_Name s <> r_Name r) ->
  wf (with_roles <[id := r]> d).
Proof.
  intros Hwf Hid Hfree. split; simpl; try apply Hwf.
  - intros j s [[<- <-]|[_ Hj]]%lookup_insert_Some; [done|by apply (wf_role_id d Hwf)].
  - intros i j s t [[<- <-]|[Hi1 Hi]]%lookup_insert_Some [[<- <-]|[Hj1 Hj]]%lookup_insert_Some He.
    + done.
    + exfalso. by apply (Hfree _ _ Hj).
    + exfalso. by apply (Hfree _ _ Hi).
    + by eapply (wf_role_name d Hwf).
  - intros u s Hus. destruct (wf_user_roles d Hwf u s Hus) as [? ?]. split; [done|].
    apply lookup_insert_is_Some. destruct (decide (id = s)); auto.
Qed.

Lemma wf_change k d d' : iam_change k d d' -> wf d -> wf d'.
Proof.
  intros Hc Hwf. destruct Hc as [u Hn Hok Hf|id u u' Hu Hid Hf _ _|r Hn Hf|id r r' _ Hr Hid Hf|id _|u r Hu Hr
    |u _|id s Hu Hn _|id s s' Hs _ _|d' Hu Hr Hur Hs _].
  - by apply wf_insert_user.
  - apply wf_insert_user; [done| |by eapply (wf_ids d Hwf)|done]. rewrite Hid. by apply (wf_user_id d Hwf).
  - apply wf_insert_role; [done|done|]. intros j s Hj _ He.
    apply (existsb_false_elem _ _ s) in Hf; [|apply elem_of_rows; eauto]. cbv beta in Hf.
    by rewrite He, String.eqb_refl in Hf.
  - apply wf_insert_role; [done|rewrite Hid; by apply (wf_role_id d Hwf)|].
    intros j s Hj Hne. by eapply role_name_free.
  - split; simpl; try apply Hwf.
    + intros j s [_ Hj]%lookup_delete_Some. by apply (wf_role_id d Hwf).
    + intros i j s t [_ Hi]%lookup_delete_Some [_ Hj]%lookup_delete_Some. by eapply (wf_role_name d Hwf).
    + intros u s [Hne Hus]%elem_of_filter. simpl in Hne.
      destruct (wf_user_roles d Hwf u s Hus). split; [done|]. by rewrite lookup_delete_ne.
  - split; simpl; try apply Hwf. intros v s [[= -> ->]%elem_of_singleton|Hvs]%elem_of_union; [done|].
    by apply (wf_user_roles d Hwf).
  - split; simpl; try apply Hwf. intros v s [_ Hvs]%elem_of_filter. by apply (wf_user_roles d Hwf).
  - split; simpl; try apply Hwf. intros j t [[<- _]|[_ Hj]]%lookup_insert_Some; [done|].
    by eapply (wf_security d Hwf).
  - split; simpl; try apply Hwf. intros j t [[<- _]|[_ Hj]]%lookup_insert_Some;
      by eapply (wf_security d Hwf).
  - destruct Hwf. split; by rewrite ?Hu, ?Hr, ?Hur, ?Hs.
Qed.

(** *** The kind of each statement *)
Create HintDb iam_kind discriminated.
#[export] Hint Constants Opaque : iam_kind.

Lemma updates_user_change k d d' id f u :
  updates_user d d' id f u -> u_ID (f u) = u_ID u ->
  (k = deactivates \/ (u_IsActive u = true -> u_IsActive (f u) = true)) ->
  (k = edits_profile \/ (u_EmailVerifiedAt u <> None -> u_EmailVerifiedAt (f u) <> None)) ->
  iam_change k d d'.
Proof. intros (Hu & -> & Hf) Hid Ha Hv. by eapply ch_user. Qed.

Lemma rewrites_security_change k d d' id f :
  rewrites_security d d' id f -> 
  (forall s, s_Version (f s) = s_Version s + 1 /\ s_Mode (f s) = s_Mode s /\ s_TotpSecret (f s) = s_TotpSecret s) ->
  iam_change k d d'.
Proof.
  intros [[_ ->]|(s & Hs & ->)] Hf; [apply ch_none|]. destruct (Hf s). eapply ch_security; eauto.
Qed.

Section Kinds.
Context (k : change_kind).

Lemma read_only_changes {A} (s : stmt IamDB A) :
  (forall env d a d', s env d = Ok (a, d') -> d' = d) -> changes k s.
Proof. intros Hs env d a d' _ ->%Hs. apply ch_none. Qed.

Lemma one_row_changes {A} (q : IamDB -> option A) : changes k (fun _ d => one_row (q d) d).
Proof. apply read_only_changes. by intros env d a d' [_ ->]%one_row_inv. Qed.

Lemma pure_changes {A} (q : IamDB -> A) : changes k (fun _ d => Ok (q d, d)).
Proof. apply read_only_changes. by intros env d a d' [= _ <-]. Qed.

Lemma CreateUser_changes p : changes k (CreateUser p).
Proof. intros env d u d' Henv (-> & ? & ? & ->)%CreateUser_effect. by apply ch_new_user. Qed.

Lemma SetUserActive_changes id active : k = deactivates \/ active = true -> changes k (SetUserActive id active).
Proof.
  intros Hk env d n d' Henv [(_ & _ & ->)|(u & _ & Hu)]%SetUserActive_effect; [apply ch_none|].
  eapply updates_user_change; [exact Hu|done| |by right]. destruct Hk as [?| ->]; [by left|by right].
Qed.

Lemma UpdateUserPassword_changes id hash : changes k (UpdateUserPassword id hash).
Proof.
  intros env d n d' Henv [(_ & _ & ->)|(u & _ & Hu)]%UpdateUserPassword_effect; [apply ch_none|].
  eapply updates_user_change; [exact Hu|done|by right|by right].
Qed.

Lemma UpdateUserProfile_changes id email username name :
  k = edits_profile -> changes k (UpdateUserProfile id email username name).
Proof.
  intros Hk env d n d' Henv (u & _ & Hu)%UpdateUserProfile_effect.
  eapply updates_user_change; [exact Hu|done|by right|by left].
Qed.

Lemma MarkEmailVerified_changes id : changes k (MarkEmailVerified id).
Proof.
  intros env d n d' Henv (u & _ & Hu)%MarkEmailVerified_effect.
  by eapply updates_user_change; [exact Hu|done|by right|by right].
Qed.

Lemma AssignUserRole_changes u r : changes k (AssignUserRole u r).
Proof.
  intros env d [] d' Henv [[->|(?&?&->)] _]%AssignUserRole_effect; [apply ch_none|by apply ch_assign].
Qed.

Lemma GrantRolePermission_changes r p : k = edits_grants -> changes k (GrantRolePermission r p).
Proof. intros Hk env d [] d' Henv (f & ->)%GrantRolePermission_effect. apply ch_other; auto. Qed.

Lemma CreateRole_changes name description : changes k (CreateRole name description).
Proof. intros env d r d' Henv (-> & ? & ? & ->)%CreateRole_effect. by apply ch_new_role. Qed.

Lemma UpdateRole_changes id name description : k = edits_role -> changes k (UpdateRole id name description).
Proof. intros Hk env d r d' Henv (s & ? & -> & ? & ->)%UpdateRole_effect. by eapply ch_role. Qed.

Lemma DeleteRole_changes id : k = edits_role -> changes k (DeleteRole id).
Proof.
  intros Hk env d n d' Henv [(_ & _ & ->)|(r & _ & _ & ->)]%DeleteRole_effect;
    [apply ch_none|by apply ch_delete_role].
Qed.

Lemma DeleteUserRoles_changes id : k = unassigns -> changes k (DeleteUserRoles id).
Proof. intros Hk env d [] d' Henv [= <-]. by apply ch_unassign. Qed.

Lemma DeleteRolePermissions_changes id : k = edits_grants -> changes k (DeleteRolePermissions id).
Proof. intros Hk env d [] d' Henv [= <-]. apply ch_other; auto. Qed.

Lemma PutAuthenticationSettings_changes a b c l : changes k (PutAuthenticationSettings a b c l).
Proof. intros env d [] d' Henv [= <-]. apply ch_other; auto. Qed.

Lemma InitializeAuthentication_changes id : changes k (InitializeAuthentication id).
Proof.
  intros env d n d' Henv. unfold InitializeAuthentication. simpl. case_bool_decide; intros [= _ <-];
    [apply ch_other; auto|apply ch_none].
Qed.

Lemma EnsureSecuritySettings_changes id : changes k (EnsureSecuritySettings id).
Proof.
  intros env d u d' Henv [[-> _]|(? & ? & ->)]%EnsureSecuritySettings_effect;
    [apply ch_none|by apply ch_new_security].
Qed.

Lemma SaveSecuritySettings_changes p : k = sets_mode -> changes k (SaveSecuritySettings p).
Proof.
  intros Hk env d n d' Henv [(_ & -> & _)|(s & _ & Hs & _ & _ & ->)]%SaveSecuritySettings_effect;
    [apply ch_none|eapply ch_security; eauto].
Qed.

Lemma SaveConsumed_changes id step hashes : changes k (SaveConsumedSecurityCredential id step hashes).
Proof.
  intros env d u d' Henv Hr%SaveConsumed_effect. by eapply rewrites_security_change; [exact Hr|].
Qed.

Lemma InvalidatePassword_changes id : changes k (InvalidatePasswordCredentials id).
Proof.
  intros env d u d' Henv Hr%InvalidatePassword_effect. by eapply rewrites_security_change; [exact Hr|].
Qed.

Lemma InsertConsumption_changes c t : changes k (InsertAuthenticationConsumption c t).
Proof. intros env d u d' Henv [_ ->]%InsertConsumption_effect. apply ch_other; auto. Qed.

Lemma PruneConsumptions_changes : changes k PruneAuthenticationConsumptions.
Proof. intros env d u d' Henv [= _ <-]. apply ch_other; auto. Qed.

Lemma UpsertUserPreferences_changes id p : changes k (UpsertUserPreferences id p).
Proof.
  intros env d u d' Henv E. unfold UpsertUserPreferences in E. res_inv E. injection E as _ <-.
  apply ch_other; auto.
Qed.

Lemma ListUsers_changes `{Ilike} p l o : changes k (ListUsers p l o).
Proof.
  apply read_only_changes. intros env d a d' E. unfold ListUsers in E. res_inv E. by injection E as _ <-.
Qed.
End Kinds.

#[export] Hint Resolve one_row_changes pure_changes CreateUser_changes SetUserActive_changes
  UpdateUserPassword_changes MarkEmailVerified_changes AssignUserRole_changes GrantRolePermission_changes
  CreateRole_changes DeleteRolePermissions_changes PutAuthenticationSettings_changes
  InitializeAuthentication_changes EnsureSecuritySettings_changes SaveConsumed_changes
  InvalidatePassword_changes InsertConsumption_changes PruneConsumptions_changes
  UpsertUserPreferences_changes ListUsers_changes UpdateUserProfile_changes UpdateRole_changes
  DeleteRole_changes DeleteUserRoles_changes SaveSecuritySettings_changes : iam_kind.
#[export] Hint Extern 2 (changes _ ?s) =>
  (first [ apply one_row_changes | apply pure_changes ]) : iam_kind.

(** *** Administrators, verified mailboxes and versions *)
Definition has_admin (d : IamDB) : Prop := exists ur, ur ∈ user_roles d /\ active_admin d ur = true.

(** Logging in by email code needs a verified mailbox. *)
Definition email_verified (d : IamDB) : Prop := forall id s u,
  security d !! id = Some s -> s_Mode s = "email" -> users d !! id = Some u -> u_EmailVerifiedAt u <> None.

(** Security rows are not lost and their versions only grow. *)
Definition versions_grow (d d' : IamDB) : Prop := forall id s, security d !! id = Some s ->
  exists s', security d' !! id = Some s' /\ s_Version s <= s_Version s'.

#[global] Instance versions_grow_preorder : PreOrder versions_grow.
Proof.
  split; [intros d id s Hs; exists s; by split|].
  intros d1 d2 d3 H12 H23 id s Hs. destruct (H12 _ _ Hs) as (t & Ht & ?).
  destruct (H23 _ _ Ht) as (r & Hr & ?). exists r. split; [done|lia].
Qed.

Lemma active_admin_inv d u r : active_admin d (u, r) = true <->
  exists x y, users d !! u = Some x /\ roles d !! r = Some y /\ u_IsActive x = true /\ is_system_admin y = true.
Proof.
  unfold active_admin. simpl. split.
  - destruct (users d !! u), (roles d !! r); try done. intros ?. bool_prop. eauto 10.
  - intros (x & y & -> & -> & -> & ->). done.
Qed.

Definition spares_admins (k : change_kind) : Prop := k <> deactivates /\ k <> edits_role /\ k <> unassigns.

Lemma change_has_admin k d d' :
  iam_change k d d' -> spares_admins k -> wf d -> has_admin d -> has_admin d'.
Proof.
  intros Hc (Hk1 & Hk2 & Hk3) Hwf ([v r] & Hin & (x & y & Hx & Hy & Hax & Hsy)%active_admin_inv).
  destruct Hc as [u Hn Hok Hf|id u u' Hu Hid Hf Ha _|s Hn Hf|? ? ? ?|? ?|u s Hu Hr
    |? ?|id s Hu Hn _|id s s' Hs _ _|d' Hu Hr Hur _ _]; try done; exists (v, r); simpl;
    (split; [try set_solver|apply active_admin_inv; simpl]).
  - exists x, y. rewrite lookup_insert_ne by (intros <-; congruence). done.
  - destruct (decide (id = v)) as [<-|Hne].
    + exists u', y. rewrite lookup_insert_eq. simplify_eq. destruct Ha as [?|Ha]; [done|]. auto.
    + exists x, y. by rewrite lookup_insert_ne.
  - exists x, y. rewrite lookup_insert_ne by (intros <-; congruence). done.
  - eauto 10.
  - eauto 10.
  - eauto 10.
  - rewrite Hu, Hr. eauto 10.
Qed.

Lemma change_email_verified k d d' :
  iam_change k d d' -> k <> edits_profile -> k <> sets_mode -> wf d -> email_verified d -> email_verified d'.
Proof.
  intros Hc Hk1 Hk2 Hwf He id' t v Ht Hm Hv.
  destruct Hc as [u Hn Hok Hf|id u u' Hu Hid Hf _ Hver|s Hn Hf|? ? ? ? ? ? ?|? ?|u s Hu Hr
    |? ?|id s Hu Hn Hms|id s s' Hs _ Hms|d' Hu _ _ Hs _]; simpl in *; try by eapply He.
  - apply lookup_insert_Some in Hv as [[<- <-]|[_ Hv]]; [|by eapply He].
    apply (wf_security d Hwf) in Ht as [w Hw]. congruence.
  - apply lookup_insert_Some in Hv as [[<- <-]|[_ Hv]]; [|by eapply He].
    destruct Hver as [?|Hver]; [done|]. by eapply Hver, He.
  - apply lookup_insert_Some in Ht as [[<- <-]|[_ Ht]]; [done|by eapply He].
  - apply lookup_insert_Some in Ht as [[<- <-]|[_ Ht]]; [|by eapply He].
    destruct Hms as [?|[Hms _]]; [done|]. rewrite Hms in Hm. by eapply He.
  - rewrite Hs in Ht. rewrite Hu in Hv. by eapply He.
Qed.

Lemma change_versions_grow k d d' : iam_change k d d' -> versions_grow d d'.
Proof.
  intros Hc id' t Ht.
  destruct Hc as [| | | | | | |id s Hu Hn Hms|id s s' Hs Hv _|d' _ _ _ Hs _]; simpl in *;
    try by exists t.
  - exists t. rewrite lookup_insert_ne by congruence. done.
  - destruct (decide (id = id')) as [<-|Hne].
    + exists s'. rewrite lookup_insert_eq. simplify_eq. split; [done|lia].
    + exists t. by rewrite lookup_insert_ne.
  - exists t. by rewrite Hs.
Qed.
