(* ===== verification/Redis.v ===== *)
(** * Redis

    The server is a parameter.  [RedisStrings] gives the commands on string
    keys that the Lua scripts of the repository call, with the laws of their
    documentation; a script is a program of [M S], run atomically by
    [redis_eval].  Keys expire: between two commands of a client, keys may
    disappear ([redis_tick]). *)
From S2P Require Import Prelude GoStrings.

(** The reply of a script, as the client library reads it. *)
Inductive reply := RInt (n : Z) | RBulk (s : string) | RNil.

Class RedisStrings (S : Type) := {
  redis_get : string -> S -> option string;
  (** [SET key value PX ms] *)
  redis_set : string -> string -> Z -> S -> S;
  redis_del : string -> S -> S;
  redis_tick : S -> S -> Prop;
}.

Class RedisStringsLaws (S : Type) `{RedisStrings S} := {
  redis_get_set : forall k v ms s, 0 < ms -> redis_get k (redis_set k v ms s) = Some v;
  redis_get_set_ne : forall k k' v ms s, k <> k' -> redis_get k (redis_set k' v ms s) = redis_get k s;
  redis_get_del : forall k s, redis_get k (redis_del k s) = None;
  redis_get_del_ne : forall k k' s, k <> k' -> redis_get k (redis_del k' s) = redis_get k s;
  redis_tick_preorder : PreOrder redis_tick;
  redis_tick_get : forall k v s s', redis_tick s s' -> redis_get k s' = Some v -> redis_get k s = Some v;
}.
#[export] Existing Instance redis_tick_preorder.

Section Commands.
Context {S : Type} `{RedisStrings S}.

Definition GET (k : string) : M S (option string) := gets (redis_get k).
Definition DEL (k : string) : M S unit := modify (redis_del k).
(** An expiry that is not positive is an error of the command. *)
Definition SET_PX (k v : string) (ms : Z) : M S unit :=
  if ms <=? 0 then throw (EText "ERR invalid expire time in 'set' command")
  else modify (redis_set k v ms).
End Commands.

(** A connection to a server holding an [S]. *)
Class Redis (W S : Type) := {
  redis_store : W -> S;
  redis_eval : forall {A : Type}, M S A -> M W A;
}.

(** A script runs on the store of the moment.  When the client gets an error,
    the script has not run, has run, or has failed half-way.  [tick] is what
    time does to the keys. *)
Definition eval_outcome {W S A} `{Redis W S} (tick : S -> S -> Prop) (f : M S A) (w : W) (r : res A) (w' : W) :
    Prop :=
  exists s1, tick (redis_store w) s1 /\
  match r with
  | Ok a => exists s2, f s1 = (Ok a, s2) /\ tick s2 (redis_store w')
  | Err _ => tick s1 (redis_store w') \/ tick (f s1).2 (redis_store w')
  | Panic => False
  end.

Class RedisLaws (W S : Type) `{RedisStrings S, Redis W S} := {
  redis_eval_outcome : forall A (f : M S A) w r w',
    redis_eval f w = (r, w') -> eval_outcome redis_tick f w r w';
}.

(** What a client gets back: a nil reply is the error [redis.Nil]. *)
Definition eval {W S} `{Redis W S} (f : M S reply) : M W reply :=
  r ← redis_eval f; match r with RNil => throw RedisNil | _ => mret r end.

(** ** A store without clock, where nothing expires *)
#[global] Instance gmap_strings : RedisStrings (gmap string string) := {
  redis_get k s := s !! k;
  redis_set k v _ s := <[k := v]> s;
  redis_del k s := delete k s;
  redis_tick := eq;
}.

#[global] Instance gmap_strings_laws : RedisStringsLaws (gmap string string).
Proof.
  split; simpl.
  - intros k v _ s _. apply lookup_insert_eq.
  - intros k k' v _ s Hne. by apply lookup_insert_ne.
  - intros k s. apply lookup_delete_eq.
  - intros k k' s Hne. by apply lookup_delete_ne.
  - split; [by intros x|by intros x y z -> ->].
  - by intros k v s s' ->.
Qed.

(** A server whose next errors are scheduled; a failing evaluation does not
    reach the store. *)
Record RedisServer (S : Type) := mkRedis { server_store : S; server_faults : list (option error) }.
Arguments mkRedis {S}.
Arguments server_store {S}.
Arguments server_faults {S}.

#[global] Instance server_redis {S} : Redis (RedisServer S) S := {
  redis_store := server_store;
  redis_eval A f w :=
    let '(fault, rest) := match server_faults w with [] => (None, []) | x :: l => (x, l) end in
    match fault with
    | Some e => (Err e, mkRedis (server_store w) rest)
    | None =>
        match f (server_store w) with
        | (Panic, s) => (Err (EText "script"), mkRedis s rest)
        | (r, s) => (r, mkRedis s rest)
        end
    end;
}.

#[global] Instance server_laws {S} `{RedisStringsLaws S} : RedisLaws (RedisServer S) S.
Proof.
  split. intros A f w r w'. simpl.
  destruct (match server_faults w with [] => _ | x :: l => (x, l) end) as [[e|] rest].
  - intros [= <- <-]. exists (server_store w). split; [done|]. by left.
  - destruct (f (server_store w)) as [[a|e|] s] eqn:E; intros [= <- <-];
      (exists (server_store w); split; [done|]); simpl; rewrite ?E; simpl.
    + by exists s.
    + by right.
    + by right.
Qed.
