(* ===== verification/RedisKeys.v ===== *)
(** * Redis keys of several types, with expiry

    The commands on integers, hashes and sorted sets that the Lua scripts of
    the repository call, beside the string commands of [Redis].  The server is
    a parameter: [RedisKeysLaws] says that each command does what its
    documentation says ([documented]) to the visible keys, and that time only
    removes the keys whose deadline has passed.  Instants and deadlines are
    milliseconds of the server's clock. *)
From S2P Require Import Prelude GoStrings Strconv Redis.

(** The score of a sorted set is a double; the modelled scores are integers
    below 2^53, which doubles represent exactly. *)
Inductive redis_value :=
  | VString (s : string) | VHash (h : gmap string string) | VZSet (z : gmap string Z).
Record entry := mkEntry { e_value : redis_value; e_deadline : option Z }.
Abbreviation keyspace := (gmap string entry).

Inductive command : Type -> Type :=
  | INCR (k : string) : command Z
  | EXPIRE (k : string) (seconds : Z) : command Z
  | PEXPIRE (k : string) (ms : Z) : command Z
  | PTTL (k : string) : command Z
  | SET_EX (k v : string) (seconds : Z) : command unit
  | EXISTS (k : string) : command Z
  | DELETE (k : string) : command Z
  | HSET (k : string) (fields : list (string * string)) : command Z
  | HGET (k f : string) : command (option string)
  | HINCRBY (k f : string) (n : Z) : command Z
  | ZREMRANGEBYSCORE (k : string) (max : Z) : command Z
  | ZCARD (k : string) : command Z
  (** [ZRANGE k 0 0 WITHSCORES] *)
  | ZFIRST (k : string) : command (option (string * Z))
  | ZADD (k : string) (score : Z) (member : string) : command Z.

(** ** What the documentation says *)
Definition wrong_type {A} : res A :=
  Err (EText "WRONGTYPE Operation against a key holding the wrong kind of value").
Definition not_integer {A} : res A := Err (EText "ERR value is not an integer or out of range").

Definition hash_at (k : string) (m : keyspace) : res (gmap string string) :=
  match m !! k with
  | None => Ok ∅
  | Some (mkEntry (VHash h) _) => Ok h
  | Some _ => wrong_type
  end.

Definition zset_at (k : string) (m : keyspace) : res (gmap string Z) :=
  match m !! k with
  | None => Ok ∅
  | Some (mkEntry (VZSet z) _) => Ok z
  | Some _ => wrong_type
  end.

(** A write keeps the deadline of the key. *)
Definition deadline_at (k : string) (m : keyspace) : option Z := m !! k ≫= e_deadline.

(** A key whose aggregate becomes empty is removed. *)
Definition put_zset (k : string) (z : gmap string Z) (m : keyspace) : keyspace :=
  if bool_decide (z = ∅) then delete k m else <[k := mkEntry (VZSet z) (deadline_at k m)]> m.

Definition expire (k : string) (ms now : Z) (m : keyspace) : Z * keyspace :=
  match m !! k with
  | None => (0, m)
  | Some e => (1, if ms <=? 0 then delete k m else <[k := mkEntry (e_value e) (Some (now + ms))]> m)
  end.

Definition parse_in_range (s : string) (n : Z) : option Z := z ← ParseInt s; check_int64 (z + n).

(** The member of least score, the least member among equal scores. *)
Definition zset_before (a b : string * Z) : bool :=
  (a.2 <? b.2) || ((a.2 =? b.2) && String.leb a.1 b.1).
Definition zset_first (z : gmap string Z) : option (string * Z) :=
  foldr (fun x acc => match acc with
                      | Some y => if zset_before x y then Some x else Some y
                      | None => Some x end) None (map_to_list z).

Definition documented {A} (c : command A) (now : Z) (m : keyspace) : res A * keyspace :=
  match c in command A return res A * keyspace with
  | INCR k =>
      match m !! k with
      | None => (Ok 1, <[k := mkEntry (VString "1") None]> m)
      | Some (mkEntry (VString s) d) =>
          match parse_in_range s 1 with
          | Some n => (Ok n, <[k := mkEntry (VString (FormatInt n)) d]> m)
          | None => (not_integer, m)
          end
      | Some _ => (wrong_type, m)
      end
  | EXPIRE k seconds => let '(n, m) := expire k (1000 * seconds) now m in (Ok n, m)
  | PEXPIRE k ms => let '(n, m) := expire k ms now m in (Ok n, m)
  | PTTL k =>
      (Ok match m !! k with
          | None => -2
          | Some (mkEntry _ None) => -1
          | Some (mkEntry _ (Some t)) => t - now
          end, m)
  | SET_EX k v seconds =>
      if seconds <=? 0 then (Err (EText "ERR invalid expire time in 'set' command"), m)
      else (Ok tt, <[k := mkEntry (VString v) (Some (now + 1000 * seconds))]> m)
  | EXISTS k => (Ok (match m !! k with Some _ => 1 | None => 0 end), m)
  | DELETE k => (Ok (match m !! k with Some _ => 1 | None => 0 end), delete k m)
  | HSET k fields =>
      match hash_at k m with
      | Ok h =>
          let h' := foldl (fun h '(f, v) => <[f := v]> h) h fields in
          (Ok (Z.of_nat (size h') - Z.of_nat (size h)), <[k := mkEntry (VHash h') (deadline_at k m)]> m)
      | Err e => (Err e, m)
      | Panic => (Panic, m)
      end
  | HGET k f =>
      match hash_at k m with Ok h => (Ok (h !! f), m) | Err e => (Err e, m) | Panic => (Panic, m) end
  | HINCRBY k f n =>
      match hash_at k m with
      | Ok h =>
          match parse_in_range (default "0" (h !! f)) n with
          | Some z => (Ok z, <[k := mkEntry (VHash (<[f := FormatInt z]> h)) (deadline_at k m)]> m)
          | None => (not_integer, m)
          end
      | Err e => (Err e, m)
      | Panic => (Panic, m)
      end
  | ZREMRANGEBYSCORE k max =>
      match zset_at k m with
      | Ok z =>
          let z' := filter (fun x => max < x.2) z in
          (Ok (Z.of_nat (size z) - Z.of_nat (size z')), put_zset k z' m)
      | Err e => (Err e, m)
      | Panic => (Panic, m)
      end
  | ZCARD k =>
      match zset_at k m with
      | Ok z => (Ok (Z.of_nat (size z)), m) | Err e => (Err e, m) | Panic => (Panic, m)
      end
  | ZFIRST k =>
      match zset_at k m with Ok z => (Ok (zset_first z), m) | Err e => (Err e, m) | Panic => (Panic, m) end
  | ZADD k score member =>
      match zset_at k m with
      | Ok z => (Ok (match z !! member with Some _ => 0 | None => 1 end), put_zset k (<[member := score]> z) m)
      | Err e => (Err e, m)
      | Panic => (Panic, m)
      end
  end.

(** ** The server *)
Class RedisKeys (S : Type) := {
  (** the keys a client sees *)
  keys : S -> keyspace;
  server_ms : S -> Z;
  redis_call : forall {A}, command A -> M S A;
  keys_tick : S -> S -> Prop;
}.

(** The time of the server does not move during a script; a key is removed by
    time when the clock has passed its deadline, and only then (no eviction). *)
Class RedisKeysLaws (S : Type) `{RedisKeys S} := {
  call_documented : forall A (c : command A) s r s', redis_call c s = (r, s') ->
    documented c (server_ms s) (keys s) = (r, keys s') /\ server_ms s' = server_ms s;
  keys_tick_preorder : PreOrder keys_tick;
  tick_time : forall s s', keys_tick s s' -> server_ms s <= server_ms s';
  tick_key : forall s s' k e, keys_tick s s' -> keys s' !! k = Some e -> keys s !! k = Some e;
  tick_keeps : forall s s' k e, keys_tick s s' -> keys s !! k = Some e ->
    (forall t, e_deadline e = Some t -> server_ms s' <= t) -> keys s' !! k = Some e;
  key_alive : forall s k e t, keys s !! k = Some e -> e_deadline e = Some t -> server_ms s <= t;
}.
#[export] Existing Instance keys_tick_preorder.

Class RedisEvalLaws (W S : Type) `{RedisKeys S, Redis W S} := {
  keys_eval_outcome : forall A (f : M S A) w r w', redis_eval f w = (r, w') -> eval_outcome keys_tick f w r w';
}.

(** ** What a command leaves alone *)
Definition command_key {A} (c : command A) : string :=
  match c with
  | INCR k | EXPIRE k _ | PEXPIRE k _ | PTTL k | SET_EX k _ _ | EXISTS k | DELETE k | HSET k _
  | HGET k _ | HINCRBY k _ _ | ZREMRANGEBYSCORE k _ | ZCARD k | ZFIRST k | ZADD k _ _ => k
  end.

(** The keys of [m] at the instant [now] have not expired. *)
Definition alive (now : Z) (m : keyspace) : Prop :=
  forall k e t, m !! k = Some e -> e_deadline e = Some t -> now <= t.

Lemma alive_insert now k v d m :
  alive now m -> (forall t, d = Some t -> now <= t) -> alive now (<[k := mkEntry v d]> m).
Proof.
  intros Hm Hd k' e t. destruct (decide (k = k')) as [->|Hne].
  - rewrite lookup_insert_eq. intros [= <-]. apply Hd.
  - rewrite lookup_insert_ne by done. apply Hm.
Qed.

Lemma alive_delete now k m : alive now m -> alive now (delete k m).
Proof. intros Hm k' e t [_ Hk]%lookup_delete_Some. by apply (Hm k'). Qed.

Lemma deadline_alive now k m t : alive now m -> deadline_at k m = Some t -> now <= t.
Proof. unfold deadline_at. intros Hm (e & He & Hd)%bind_Some. by apply (Hm k e). Qed.

Lemma put_zset_other k k' z m : k <> k' -> put_zset k z m !! k' = m !! k'.
Proof.
  intros Hne. unfold put_zset. case_bool_decide; [by apply lookup_delete_ne|by apply lookup_insert_ne].
Qed.

Lemma put_zset_alive now k z m : alive now m -> alive now (put_zset k z m).
Proof.
  intros Hm. unfold put_zset. case_bool_decide; [by apply alive_delete|].
  apply alive_insert; [done|]. intros t. by apply deadline_alive.
Qed.

Lemma expire_other k k' ms now m : k <> k' -> (expire k ms now m).2 !! k' = m !! k'.
Proof.
  intros Hne. unfold expire. repeat case_match; simpl; [by apply lookup_delete_ne|by apply lookup_insert_ne|done].
Qed.

Lemma expire_alive k ms now m : alive now m -> alive now (expire k ms now m).2.
Proof.
  intros Hm. unfold expire. destruct (m !! k); [|done]. destruct (ms <=? 0) eqn:Hms; simpl; bool_prop.
  - by apply alive_delete.
  - apply alive_insert; [done|]. intros t [= <-]. lia.
Qed.

Lemma documented_other {A} (c : command A) now m k :
  command_key c <> k -> (documented c now m).2 !! k = m !! k.
Proof.
  destruct c; simpl; intros Hne; repeat case_match; simplify_eq; simpl;
    rewrite ?lookup_insert_ne, ?lookup_delete_ne, ?put_zset_other by done; try done;
    match goal with E : expire _ _ _ _ = _ |- _ => apply (f_equal snd) in E; simpl in E; subst; by apply expire_other end.
Qed.

Lemma documented_alive {A} (c : command A) now m : alive now m -> alive now (documented c now m).2.
Proof.
  intros Hm. destruct c; simpl; repeat case_match; simplify_eq; simpl; try done;
    try (by apply alive_delete); try (by apply put_zset_alive);
    try match goal with E : expire _ _ _ _ = _ |- _ => apply (f_equal snd) in E; simpl in E; subst; by apply expire_alive end;
    apply alive_insert; try done; intros t; try (by apply deadline_alive).
  - intros ->. by eapply Hm.
  - intros [= <-]. bool_prop. lia.
Qed.

(** ** Reasoning about scripts *)
Section Calls.
Context {S : Type} `{RedisKeysLaws S}.

Lemma call_run {A} (c : command A) (s : S) :
  exists s', redis_call c s = ((documented c (server_ms s) (keys s)).1, s') /\
    keys s' = (documented c (server_ms s) (keys s)).2 /\ server_ms s' = server_ms s.
Proof.
  destruct (redis_call c s) as [r s'] eqn:E. apply call_documented in E as [E Ht].
  exists s'. by rewrite E.
Qed.

Lemma call_other {A} (c : command A) (s : S) k :
  command_key c <> k -> keys (redis_call c s).2 !! k = keys s !! k.
Proof.
  intros Hne. destruct (call_run c s) as (s' & -> & E & _). simpl. rewrite E. by apply documented_other.
Qed.

Lemma call_time {A} (c : command A) (s : S) : server_ms (redis_call c s).2 = server_ms s.
Proof. by destruct (call_run c s) as (s' & -> & _ & ?). Qed.

(** A script that only calls commands on other keys leaves [k]. *)
Definition leaves (k : string) : S -> S -> Prop := same (fun s => (keys s !! k, server_ms s)).

#[global] Instance leaves_preorder k : PreOrder (leaves k).
Proof. unfold leaves. apply _. Qed.

Lemma leaves_call {A} k (c : command A) : command_key c <> k -> within (leaves k) (redis_call c).
Proof. intros Hne s. unfold leaves, same. by rewrite call_other, call_time. Qed.

(** A property of what a key holds. *)
Definition at_key (k : string) (Q : option entry -> Prop) (s : S) : Prop := Q (keys s !! k).

Lemma leaves_keeps {A} k Q (f : M S A) : within (leaves k) f -> within (keeps (at_key k Q)) f.
Proof. intros Hf s. specialize (Hf s). unfold leaves, same in Hf. unfold keeps, at_key. congruence. Qed.

Lemma call_at_key {A} k Q (c : command A) :
  (command_key c = k -> forall now m, Q (m !! k) -> Q ((documented c now m).2 !! k)) ->
  within (keeps (at_key k Q)) (redis_call c).
Proof.
  intros Hc s Hs. unfold at_key in *. destruct (decide (command_key c = k)) as [Hk|Hk].
  - destruct (call_run c s) as (s' & -> & E & _). simpl. rewrite E. by apply Hc.
  - by rewrite call_other.
Qed.

(** A property of the keys that time does not break. *)
Definition stable (P : S -> Prop) : Prop := forall s s', keys_tick s s' -> P s -> P s'.

Lemma tick_lookup (s s' : S) k : keys_tick s s' -> keys s' !! k = keys s !! k \/ keys s' !! k = None.
Proof.
  intros Ht. destruct (keys s' !! k) as [e|] eqn:E; [left|by right]. symmetry. by apply (tick_key _ _ _ _ Ht).
Qed.

Lemma at_key_stable k Q : Q None -> stable (at_key k Q).
Proof. intros HQ s s' Ht Hs. unfold at_key in *. by destruct (tick_lookup _ _ k Ht) as [->| ->]. Qed.

Context {W : Type} `{Redis W S} `{!RedisEvalLaws W S}.

Lemma eval_keeps {A} (P : S -> Prop) (f : M S A) :
  stable P -> within (keeps P) f -> within (keeps (fun w : W => P (redis_store w))) (redis_eval f).
Proof.
  intros HP Hf w Hw. destruct (redis_eval f w) as [r w'] eqn:E. simpl.
  apply keys_eval_outcome in E as (s1 & Ht & Hr). apply (HP _ _ Ht) in Hw.
  pose proof (Hf s1 Hw) as Hs2. destruct r as [a|e|]; [| |done].
  - destruct Hr as (s2 & E & Ht2). rewrite E in Hs2. by eapply HP.
  - destruct Hr as [Ht2|Ht2]; by eapply HP.
Qed.

Lemma eval_Ok {A} (f : M S A) (w : W) a w' : redis_eval f w = (Ok a, w') ->
  exists s1 s2, keys_tick (redis_store w) s1 /\ f s1 = (Ok a, s2) /\ keys_tick s2 (redis_store w').
Proof. intros (s1 & Ht & s2 & E & Ht2)%keys_eval_outcome. eauto 6. Qed.
End Calls.
#[export] Hint Resolve leaves_call : within.

(** [call_inv H] runs the command at the head of a script. *)
Ltac call_inv H :=
  lazymatch type of H with
  | (redis_call ?c ≫= _) ?s = _ =>
      let s' := fresh "s" in let E := fresh "E" in let Hk := fresh "Hk" in let Ht := fresh "Ht" in
      rewrite M_bind_run in H; destruct (call_run c s) as (s' & E & Hk & Ht); rewrite E in H
  end.

(** ** A server with a clock

    The keys are removed lazily: a client only sees those whose deadline the
    clock has not passed. *)
Record KeyStore := mkKeyStore { ks_entries : keyspace; ks_now : Z }.

Definition unexpired (now : Z) (e : entry) : Prop :=
  match e_deadline e with Some t => now <= t | None => True end.
#[global] Instance unexpired_dec now e : Decision (unexpired now e).
Proof. unfold unexpired. destruct (e_deadline e); apply _. Defined.

Definition visible (now : Z) (m : keyspace) : keyspace := filter (fun x => unexpired now x.2) m.

#[global] Instance key_store : RedisKeys KeyStore := {
  keys s := visible (ks_now s) (ks_entries s);
  server_ms := ks_now;
  redis_call A c s :=
    let '(r, m) := documented c (ks_now s) (visible (ks_now s) (ks_entries s)) in
    (r, mkKeyStore m (ks_now s));
  keys_tick s s' := ks_now s <= ks_now s' /\ ks_entries s' = ks_entries s;
}.

Lemma visible_Some now m k e : visible now m !! k = Some e <-> m !! k = Some e /\ unexpired now e.
Proof. unfold visible. apply map_lookup_filter_Some. Qed.

Lemma visible_alive now m : alive now (visible now m).
Proof. intros k e t [_ He]%visible_Some Hd. unfold unexpired in He. by rewrite Hd in He. Qed.

Lemma alive_visible now m : alive now m -> visible now m = m.
Proof.
  intros Hm. apply map_filter_id. intros k e He. unfold unexpired. simpl.
  destruct (e_deadline e) eqn:Hd; [by eapply Hm|done].
Qed.

#[global] Instance key_store_laws : RedisKeysLaws KeyStore.
Proof.
  split; simpl.
  - intros A c s r s'. pose proof (documented_alive c _ _ (visible_alive (ks_now s) (ks_entries s))) as Ha.
    destruct (documented c _ _) as [r1 m]. intros [= <- <-]. simpl in *. by rewrite alive_visible.
  - split; [by intros s|]. intros s1 s2 s3 [? E1] [? E2]. split; [lia|congruence].
  - by intros s s' [? _].
  - intros s s' k e [Hle ->] [Hk He]%visible_Some. apply visible_Some. split; [done|].
    unfold unexpired in *. destruct (e_deadline e); [lia|done].
  - intros s s' k e [Hle ->] [Hk _]%visible_Some Hd. apply visible_Some. split; [done|].
    unfold unexpired. destruct (e_deadline e); auto.
  - intros s k e t Hk Hd. by apply (visible_alive _ _ _ _ _ Hk).
Qed.

(** A server whose next evaluations come after the given delays, some of them
    failing before they reach the store. *)
Record TimedServer := mkTimed { timed_store : KeyStore; timed_plan : list (N * option error) }.

Definition wait (ms : N) (s : KeyStore) : KeyStore := mkKeyStore (ks_entries s) (ks_now s + Z.of_N ms).

#[global] Instance timed_redis : Redis TimedServer KeyStore := {
  redis_store := timed_store;
  redis_eval A f w :=
    let '((delay, fault), rest) := match timed_plan w with [] => ((0%N, None), []) | x :: l => (x, l) end in
    match fault with
    | Some e => (Err e, mkTimed (wait delay (timed_store w)) rest)
    | None =>
        match f (wait delay (timed_store w)) with
        | (Panic, s) => (Err (EText "script"), mkTimed s rest)
        | (r, s) => (r, mkTimed s rest)
        end
    end;
}.

#[global] Instance timed_laws : RedisEvalLaws TimedServer KeyStore.
Proof.
  split. intros A f w r w'. simpl.
  destruct (match timed_plan w with [] => _ | x :: l => (x, l) end) as [[delay fault] rest].
  assert (keys_tick (timed_store w) (wait delay (timed_store w))) as Ht by (split; simpl; [lia|done]).
  destruct fault as [e|].
  { intros [= <- <-]. exists (wait delay (timed_store w)). split; [done|]. by left. }
  destruct (f (wait delay (timed_store w))) as [[a|e|] s] eqn:E; intros [= <- <-];
    (exists (wait delay (timed_store w)); split; [done|]); simpl; rewrite ?E; simpl.
  - by exists s.
  - by right.
  - by right.
Qed.
