(* ===== verification/RateLimit.v ===== *)
(** * Rate limiters ([pkg/httpkit/middleware.go], [pkg/platform/httpserver/redis_rate_limiter.go])

    The in-process reference backend and the distributed backend on Redis,
    both sliding windows.  The middleware that uses them is in [Middleware].
    Instants are nanoseconds for the first and milliseconds for the second, as
    in the code. *)
From S2P Require Import Prelude GoStrings Strconv Redis RedisKeys.

(** @src pkg/httpkit/middleware.go:342-349 RateLimitDecision *)
Record RateLimitDecision := mkDecision { Allowed : bool; Remaining : Z; RetryAfter : Z }.

(** ** The in-process limiter *)

(** The instants of the admitted calls, per key.
    @src pkg/httpkit/middleware.go:429-433 MemoryRateLimiter *)
Definition MemoryRateLimiter : Type := gmap string (list Z).

(** @src pkg/httpkit/middleware.go:437-442 NewMemoryRateLimiter *)
Definition NewMemoryRateLimiter : MemoryRateLimiter := ∅.

(** The loop that skips the attempts that are not after the cutoff. *)
Fixpoint active (cutoff : Z) (attempts : list Z) : list Z :=
  match attempts with
  | [] => []
  | t :: rest => if negb (after t cutoff) then active cutoff rest else attempts
  end.

(** The critical section at the instant [now].
    @src pkg/httpkit/middleware.go:445-479 Allow *)
Definition memory_Allow (key : string) (limit window now : Z) (limiter : MemoryRateLimiter) :
    res RateLimitDecision * MemoryRateLimiter :=
  if limit <=? 0 then (Err (EText "rate limit must be positive"), limiter)
  else if window <=? 0 then (Err (EText "rate limit window must be positive"), limiter)
  else
    let cutoff := now - window in
    let attempts := active cutoff (default [] (limiter !! key)) in
    if limit <=? Z.of_nat (length attempts) then
      match attempts with
      | oldest :: _ => (Ok (mkDecision false 0 (time_sub (oldest + window) now)), <[key := attempts]> limiter)
      | [] => (Panic, limiter)
      end
    else
      let attempts := attempts ++ [now] in
      (Ok (mkDecision true (limit - Z.of_nat (length attempts)) 0), <[key := attempts]> limiter).

(** ** The distributed limiter *)

(** An element of the reply of a script. *)
Inductive redis_item := IInt (n : Z) | IBulk (s : string) | INil.

Section Script.
Context {S : Type} `{RedisKeys S}.

(** @src pkg/platform/httpserver/redis_rate_limiter.go:16-38 slidingWindowScript *)
Definition slidingWindowScript (key : string) (now window limit : Z) (member : string) : M S (list redis_item) :=
  _ ← redis_call (ZREMRANGEBYSCORE key (now - window));
  count ← redis_call (ZCARD key);
  if limit <=? count then
    oldest ← redis_call (ZFIRST key);
    let retry_after := match oldest with
                       | Some (_, score) => Z.max 1 (window - (now - score))
                       | None => window
                       end in
    _ ← redis_call (PEXPIRE key window);
    mret [IInt 0; IInt 0; IInt retry_after]
  else
    _ ← redis_call (ZADD key now member);
    _ ← redis_call (PEXPIRE key window);
    mret [IInt 1; IInt (limit - count - 1); IInt 0].
End Script.

(** @src pkg/platform/httpserver/redis_rate_limiter.go:40-46 RedisRateLimiter *)
Record RedisRateLimiter := mkRedisRateLimiter { prefix : string; nonce : string }.

(** @src pkg/platform/httpserver/redis_rate_limiter.go:112-125 redisInt *)
Definition redisInt (value : redis_item) : res Z :=
  match value with
  | IInt n => Ok n
  | IBulk s => match ParseInt s with Some n => Ok n | None => Err (EText "parse Redis integer") end
  | INil => Err (EText "unexpected Redis integer type")
  end.

(** The decision of a reply. *)
Definition decision_of (result : list redis_item) : res RateLimitDecision :=
  match result with
  | [a; b; c] =>
      allowed ← redisInt a;
      remaining ← redisInt b;
      retryMillis ← redisInt c;
      Ok (mkDecision (allowed =? 1) remaining (int64 (retryMillis * Millisecond)))
  | _ => Err (EText "unexpected rate limit script result length")
  end.

(** The member of the sorted set for a call. *)
Definition member_of (nonce : string) (nowMillis seq : Z) : string :=
  nonce +:+ "-" +:+ FormatInt nowMillis +:+ "-" +:+ of_bytes (format_digits seq).

Section Allow.
Context {W S : Type} `{RedisKeys S} `{Redis W S}.
(** [rand.Read] for the nonce, and the counters of the process. *)
Variable rand_read : Z -> M W string.
Variable fallback_nonce : M W Z.
Variable next_sequence : M W Z.

(** @src pkg/platform/httpserver/redis_rate_limiter.go:104-110 newLimiterNonce *)
Definition newLimiterNonce : M W string :=
  r ← try (rand_read 8);
  match r with
  | Ok value => mret (hex_EncodeToString value)
  | _ => n ← fallback_nonce; mret ("fallback-" +:+ of_bytes (format_digits n))
  end.

(** @src pkg/platform/httpserver/redis_rate_limiter.go:50-58 NewRedisRateLimiter *)
Definition NewRedisRateLimiter (prefix : string) : M W RedisRateLimiter :=
  nonce ← newLimiterNonce;
  mret (mkRedisRateLimiter (if is_empty prefix then "rate_limit" else prefix) nonce).

(** [Time.UnixMilli] and [Duration.Milliseconds] *)
Definition unix_milli (t : Z) : Z := t / Millisecond.
Definition milliseconds (d : Z) : Z := Z.quot d Millisecond.

(** The call at the instant [now] of the client's clock.
    @src pkg/platform/httpserver/redis_rate_limiter.go:60-102 Allow *)
Definition redis_Allow (limiter : RedisRateLimiter) (key : string) (limit window now : Z) : M W RateLimitDecision :=
  if (limit <=? 0) || (window <=? 0) then throw (EText "limit and window must be positive")
  else
    let nowMillis := unix_milli now in
    let windowMillis := milliseconds window in
    seq ← next_sequence;
    let member := member_of (nonce limiter) nowMillis seq in
    result ← wrap "execute rate limit script"
      (redis_eval (slidingWindowScript (prefix limiter +:+ ":" +:+ key) nowMillis windowMillis limit member));
    of_res (decision_of result).
End Allow.

(** ** The sliding window

    [log] is the list of the instants at which calls were admitted, oldest
    first.  A call at [now] counts the ones in [(now - window, now]]. *)
Definition recent (window now : Z) (log : list Z) : list Z := List.filter (fun t => now - window <? t) log.

Definition admits (limit window now : Z) (log : list Z) : bool :=
  Z.of_nat (length (recent window now log)) <? limit.

Definition next_log (limit window now : Z) (log : list Z) : list Z :=
  if admits limit window now log then log ++ [now] else log.

(** The decision of the specification. *)
Definition window_decision (limit window now : Z) (log : list Z) : RateLimitDecision :=
  let l := recent window now log in
  if admits limit window now log then mkDecision true (limit - Z.of_nat (length l) - 1) 0
  else mkDecision false 0 (match l with t :: _ => t + window - now | [] => 0 end).

(** The decisions of a sequence of calls, and the log they leave. *)
Fixpoint window_run (limit window : Z) (times log : list Z) : list RateLimitDecision * list Z :=
  match times with
  | [] => ([], log)
  | now :: rest =>
      let '(ds, log') := window_run limit window rest (next_log limit window now log) in
      (window_decision limit window now log :: ds, log')
  end.

(** The same for the in-process limiter and one key. *)
Fixpoint memory_run (key : string) (limit window : Z) (times : list Z) (st : MemoryRateLimiter) :
    list (res RateLimitDecision) * MemoryRateLimiter :=
  match times with
  | [] => ([], st)
  | now :: rest =>
      let '(d, st) := memory_Allow key limit window now st in
      let '(ds, st) := memory_run key limit window rest st in
      (d :: ds, st)
  end.

(** ** The in-process limiter is the sliding window *)
Definition ordered (l : list Z) : Prop := StronglySorted Z.le l.

Lemma active_recent c l : ordered l -> active c l = List.filter (fun t => c <? t) l.
Proof.
  induction 1 as [|t l Hl IH Ht]; [done|]. simpl. unfold after. destruct (c <? t) eqn:Hc; simpl; [|done].
  f_equal. symmetry. apply forallb_filter_id, forallb_forall. rewrite Forall_forall in Ht. intros u Hu.
  apply list_elem_of_In, Ht in Hu. bool_prop. lia.
Qed.

Lemma recent_recent window t0 now log : t0 <= now -> recent window now (recent window t0 log) = recent window now log.
Proof.
  intros Hle. unfold recent. induction log as [|t log IH]; [done|]. simpl.
  destruct (t0 - window <? t) eqn:Ht; simpl; rewrite IH; [done|]. bool_prop.
  by rewrite (proj2 (Z.ltb_ge (now - window) t)) by lia.
Qed.

Lemma ordered_filter f l : ordered l -> ordered (List.filter f l).
Proof.
  induction 1 as [|t l Hl IH Ht]; simpl; [constructor|]. case_match; [|done]. constructor; [done|].
  rewrite Forall_forall in *. intros u Hu. apply Ht. rewrite list_elem_of_In in *. by apply List.filter_In in Hu as [? _].
Qed.

Lemma ordered_snoc l t : ordered l -> Forall (fun u => u <= t) l -> ordered (l ++ [t]).
Proof.
  induction 1 as [|u l Hl IH Hu]; intros Ht; simpl; [repeat constructor|].
  apply Forall_cons in Ht as [Hut Ht]. constructor; [by apply IH|]. apply Forall_app. split; [done|]. by repeat constructor.
Qed.

Lemma recent_bounds window now log t : t ∈ recent window now log -> now - window < t /\ t ∈ log.
Proof.
  unfold recent. rewrite !list_elem_of_In, List.filter_In. intros [Hin Ht]. bool_prop. done.
Qed.

(** The log after the call at [now], in a log that ends before it. *)
Definition log_ok (now : Z) (log : list Z) : Prop := ordered log /\ Forall (fun t => t <= now) log.

Lemma next_log_ok limit window t0 now log :
  t0 <= now -> log_ok t0 log -> log_ok now (next_log limit window now log).
Proof.
  intros Hle [Ho Hb]. assert (Forall (fun t => t <= now) log) as Hb' by (eapply Forall_impl; [exact Hb|]; simpl; lia).
  unfold next_log. case_match; [|done]. split; [by apply ordered_snoc|]. apply Forall_app. split; [done|]. by repeat constructor.
Qed.

(** What the limiter stores for a key is the recent part of the log. *)
Lemma memory_step key limit window t0 now log st :
  0 < limit -> 0 < window <= max_int64 -> t0 <= now -> log_ok t0 log ->
  default [] (st !! key) = recent window t0 log ->
  exists st', memory_Allow key limit window now st = (Ok (window_decision limit window now log), st') /\
    st' !! key = Some (recent window now (next_log limit window now log)).
Proof.
  intros Hl Hw Hle [Ho Hb] Hst. unfold memory_Allow.
  rewrite (proj2 (Z.leb_gt limit 0)), (proj2 (Z.leb_gt window 0)) by lia. rewrite Hst.
  rewrite active_recent by (by apply ordered_filter).
  change (List.filter (fun t => now - window <? t) (recent window t0 log)) with (recent window now (recent window t0 log)).
  rewrite recent_recent by done. unfold window_decision, next_log, admits. set (l := recent window now log).
  rewrite Z.leb_antisym. destruct (Z.of_nat (length l) <? limit) eqn:Ha; simpl.
  - eexists. split; [by rewrite length_app, Nat2Z.inj_add, Z.sub_add_distr|].
    etransitivity; [apply lookup_insert_eq|]. f_equal.
    unfold recent. rewrite List.filter_app. simpl. by rewrite (proj2 (Z.ltb_lt (now - window) now)) by lia.
  - bool_prop. destruct l as [|t l'] eqn:El; [simpl in Ha; lia|]. eexists. split.
    + assert (t ∈ recent window now log) as Hin by (fold l; rewrite El; by left).
      apply recent_bounds in Hin as [Ht Hin]. rewrite Forall_forall in Hb. apply Hb in Hin.
      replace (time_sub (t + window) now) with (t + window - now) by (unfold time_sub, min_int64, max_int64 in *; lia).
      done.
    + etransitivity; [apply lookup_insert_eq|]. by rewrite <- El.
Qed.

Lemma memory_run_spec key limit window times : forall t0 log st,
  0 < limit -> 0 < window <= max_int64 -> ordered (t0 :: times) -> log_ok t0 log ->
  default [] (st !! key) = recent window t0 log ->
  (memory_run key limit window times st).1 = map Ok (window_run limit window times log).1.
Proof.
  induction times as [|now times IH]; intros t0 log st Hl Hw Ho Hlog Hst; [done|]. simpl.
  inversion Ho as [|? ? Ho' Hf]; subst. apply Forall_cons in Hf as [Hle Hf].
  destruct (memory_step key limit window t0 now log st) as (st' & -> & Hst'); try done.
  specialize (IH now (next_log limit window now log) st' Hl Hw).
  destruct (memory_run key limit window times st') as [ds st2]. destruct (window_run _ _ _ _) as [ds' log'] eqn:Er.
  simpl in *. f_equal. apply IH; [done|by eapply next_log_ok|]. by rewrite Hst'.
Qed.

(** At most [limit] calls of a log in any window. *)
Definition in_window (window t : Z) (log : list Z) : list Z :=
  List.filter (fun u => (t - window <? u) && (u <=? t)) log.

Definition log_bounded (limit window : Z) (log : list Z) : Prop :=
  forall t, Z.of_nat (length (in_window window t log)) <= limit.

Lemma in_window_recent window t now log : now <= t ->
  (length (in_window window t log) <= length (recent window now log))%nat.
Proof.
  intros Hle. unfold in_window, recent. induction log as [|u log IH]; [done|]. simpl.
  destruct ((t - window <? u) && (u <=? t)) eqn:Hu; destruct (now - window <? u) eqn:Hn; simpl; bool_prop; lia.
Qed.

Lemma next_log_bounded limit window t0 now log :
  0 <= limit -> t0 <= now -> log_ok t0 log -> log_bounded limit window log ->
  log_bounded limit window (next_log limit window now log).
Proof.
  intros Hl Hle [_ Hb] Hlog t. unfold next_log, admits. destruct (_ <? limit) eqn:Ha; [|apply Hlog]. bool_prop.
  unfold in_window. rewrite List.filter_app, length_app. simpl. fold (in_window window t log).
  destruct ((t - window <? now) && (now <=? t)) eqn:Ht; simpl; bool_prop.
  - pose proof (in_window_recent window t now log ltac:(lia)). lia.
  - specialize (Hlog t). lia.
Qed.

Lemma window_run_bounded limit window times : forall t0 log,
  0 <= limit -> ordered (t0 :: times) -> log_ok t0 log -> log_bounded limit window log ->
  log_bounded limit window (window_run limit window times log).2.
Proof.
  induction times as [|now times IH]; intros t0 log Hl Ho Hlog Hb; [done|]. simpl.
  inversion Ho as [|? ? Ho' Hf]; subst. apply Forall_cons in Hf as [Hle Hf].
  specialize (IH now (next_log limit window now log) Hl Ho').
  destruct (window_run limit window times (next_log limit window now log)) as [ds log'] eqn:E. simpl in *.
  apply IH; [by eapply next_log_ok|by eapply next_log_bounded].
Qed.

Lemma length_window_run limit window times log : length (window_run limit window times log).1 = length times.
Proof.
  revert log. induction times as [|now times IH]; intros log; [done|]. simpl.
  specialize (IH (next_log limit window now log)). destruct (window_run _ _ times _). simpl in *. by f_equal.
Qed.

(** The instants of the calls that were let through. *)
Definition admitted (times : list Z) (ds : list (res RateLimitDecision)) : list Z :=
  omap (fun '(t, d) => match d with Ok d => if Allowed d then Some t else None | _ => None end) (zip times ds).

Lemma window_run_admitted limit window times log :
  (window_run limit window times log).2 = log ++ admitted times (map Ok (window_run limit window times log).1).
Proof.
  revert log. induction times as [|now times IH]; intros log; [by rewrite app_nil_r|]. simpl.
  specialize (IH (next_log limit window now log)). destruct (window_run _ _ times _) as [ds log']. simpl in *.
  rewrite IH. unfold admitted, window_decision, next_log. simpl. destruct (admits limit window now log); simpl; [|done].
  by rewrite <- app_assoc.
Qed.

(** An ordered list with its first element repeated. *)
Lemma ordered_head l : ordered l -> ordered (match l with [] => 0 | t :: _ => t end :: l).
Proof. intros Ho. inversion Ho as [|t l' Hl' Ht]; subst; repeat constructor; done. Qed.

(** C31: for a key without history, the in-process limiter gives the decisions
    of the sliding window (the remaining count and the time to wait included),
    and no window holds more than [limit] of the calls it lets through. *)
Theorem memory_limiter_window (key : string) (limit window : Z) (times : list Z) (st : MemoryRateLimiter) :
  0 < limit -> 0 < window <= max_int64 -> ordered times -> st !! key = None ->
  let ds := (memory_run key limit window times st).1 in
  ds = map Ok (window_run limit window times []).1 /\ log_bounded limit window (admitted times ds).
Proof.
  intros Hl Hw Ho Hst ds. set (t0 := match times with [] => 0 | t :: _ => t end).
  assert (ordered (t0 :: times)) as Ho' by (by apply ordered_head).
  assert (log_ok t0 []) as Hlog by (split; constructor).
  assert (ds = map Ok (window_run limit window times []).1) as ->.
  { apply memory_run_spec with t0; try done. by rewrite Hst. }
  split; [done|]. rewrite <- (app_nil_l (admitted _ _)), <- window_run_admitted.
  apply window_run_bounded with t0; try done; [lia|]. intros t. simpl. lia.
Qed.

(** ** The distributed limiter is the same sliding window *)

(** *** Milliseconds and nanoseconds *)
Definition in_nanos (d : RateLimitDecision) : RateLimitDecision :=
  mkDecision (Allowed d) (Remaining d) (RetryAfter d * Millisecond).
Abbreviation nanos := (map (fun t => t * Millisecond)).

Lemma recent_nanos window now log :
  recent (window * Millisecond) (now * Millisecond) (nanos log) = nanos (recent window now log).
Proof.
  unfold recent. induction log as [|t log IH]; [done|]. simpl. rewrite IH.
  replace (now * Millisecond - window * Millisecond <? t * Millisecond) with (now - window <? t).
  2: { unfold Millisecond. lia. }
  by case_match.
Qed.

Lemma admits_nanos limit window now log :
  admits limit (window * Millisecond) (now * Millisecond) (nanos log) = admits limit window now log.
Proof. unfold admits. by rewrite recent_nanos, length_map. Qed.

Lemma window_run_nanos limit window times : forall log,
  (window_run limit (window * Millisecond) (nanos times) (nanos log)).1 =
    map in_nanos (window_run limit window times log).1.
Proof.
  induction times as [|now times IH]; intros log; [done|]. simpl.
  assert (next_log limit (window * Millisecond) (now * Millisecond) (nanos log) = nanos (next_log limit window now log)) as ->.
  { unfold next_log. rewrite admits_nanos. case_match; [by rewrite map_app|done]. }
  specialize (IH (next_log limit window now log)).
  destruct (window_run _ _ (nanos times) _), (window_run _ _ times _). simpl in *. f_equal; [|done].
  unfold window_decision. rewrite admits_nanos, recent_nanos. case_match; unfold in_nanos; simpl.
  - by rewrite length_map.
  - f_equal. destruct (recent window now log); simpl; unfold Millisecond; lia.
Qed.

Lemma ordered_nanos l : ordered l -> ordered (nanos l).
Proof.
  induction 1 as [|t l _ IH Ht]; simpl; constructor; [done|]. apply Forall_map.
  eapply Forall_impl; [exact Ht|]. simpl. unfold Millisecond. lia.
Qed.

(** *** The sorted set *)
Definition zscores (z : gmap string Z) : list Z := (map_to_list z).*2.

Lemma zscores_length z : length (zscores z) = size z.
Proof. unfold zscores. by rewrite length_fmap, length_map_to_list. Qed.

#[local] Instance filter_perm (f : Z -> bool) : Proper (Permutation ==> Permutation) (List.filter f).
Proof.
  induction 1 as [|x l l' _ IH|x y l|l l' l2 _ IH _ IH2]; simpl; [done|case_match; by rewrite IH| |by rewrite IH].
  repeat case_match; try done. apply Permutation_swap.
Qed.

Lemma zscores_filter c z : zscores (filter (fun x => c < x.2) z) ≡ₚ List.filter (fun t => c <? t) (zscores z).
Proof.
  unfold zscores. induction z as [|k t z Hk IH] using map_ind.
  { by rewrite map_filter_empty, !map_to_list_empty. }
  rewrite (map_to_list_insert z k t Hk). simpl. destruct (c <? t) eqn:Ht; bool_prop.
  - rewrite map_filter_insert_True by done. rewrite map_to_list_insert by (by rewrite map_lookup_filter_None; auto).
    simpl. by rewrite IH.
  - rewrite map_filter_insert_False by (simpl; lia). rewrite delete_id by done. exact IH.
Qed.

Lemma zset_first_min z : z <> ∅ ->
  exists m t, zset_first z = Some (m, t) /\ t ∈ zscores z /\ Forall (fun u => t <= u) (zscores z).
Proof.
  intros Hz. unfold zset_first, zscores. assert (map_to_list z <> []) as Hl by (by rewrite map_to_list_empty_iff).
  induction (map_to_list z) as [|[m t] l IH]; [done|]. simpl. destruct (decide (l = [])) as [->|Hne].
  { exists m, t. simpl. split_and!; [done|by left|by repeat constructor]. }
  destruct IH as (m' & t' & -> & Hin & Hall); [done|]. destruct (zset_before (m, t) (m', t')) eqn:Hb.
  - exists m, t. split_and!; [done|by left|]. constructor; [done|]. eapply Forall_impl; [exact Hall|].
    unfold zset_before in Hb. simpl in *. intros u Hu. bool_prop. destruct Hb as [?|?]; bool_prop; lia.
  - exists m', t'. split_and!; [done|by right|]. constructor; [|done].
    unfold zset_before in Hb. simpl in *. bool_prop. lia.
Qed.

Lemma ordered_min t u l r : ordered (t :: l) -> r ≡ₚ t :: l -> u ∈ r -> Forall (fun v => u <= v) r -> u = t.
Proof.
  intros Ho Hr Hu Hmin. inversion Ho as [|? ? _ Hall]; subst. rewrite Hr in Hu, Hmin.
  apply Forall_cons in Hmin as [Hut _]. apply elem_of_cons in Hu as [->|Hu]; [done|].
  rewrite Forall_forall in Hall. apply Hall in Hu. lia.
Qed.

Lemma zset_at_put k z m : zset_at k (put_zset k z m) = Ok z.
Proof.
  unfold put_zset, zset_at. case_bool_decide as Hz; [by rewrite lookup_delete_eq, Hz|by rewrite lookup_insert_eq].
Qed.

Lemma put_zset_some k z m : z <> ∅ -> put_zset k z m !! k = Some (mkEntry (VZSet z) (deadline_at k m)).
Proof. intros Hz. unfold put_zset. rewrite bool_decide_false by done. apply lookup_insert_eq. Qed.

Lemma expire_some k ms now m e : 0 < ms -> m !! k = Some e ->
  (expire k ms now m).2 !! k = Some (mkEntry (e_value e) (Some (now + ms))).
Proof.
  intros Hms Hk. unfold expire. rewrite Hk, (proj2 (Z.leb_gt ms 0)) by done. simpl. apply lookup_insert_eq.
Qed.

Lemma recent_late window now log : Forall (fun t => t <= now - window) log -> recent window now log = [].
Proof.
  unfold recent. induction 1 as [|t log Ht _ IH]; [done|]. simpl. by rewrite (proj2 (Z.ltb_ge (now - window) t)) by done.
Qed.

(** *** The members of two calls differ *)
Lemma app_sep_inj {A} (x : A) (l1 l2 m1 m2 : list A) :
  Forall (fun a => a <> x) m1 -> Forall (fun a => a <> x) m2 -> l1 ++ x :: m1 = l2 ++ x :: m2 -> m1 = m2.
Proof.
  intros Hm1 Hm2. revert l2. induction l1 as [|y l1 IH]; intros [|y' l2] E; simplify_list_eq; try done.
  - apply Forall_app in Hm1 as [_ Hm1]. by apply Forall_cons in Hm1 as [? _].
  - apply Forall_app in Hm2 as [_ Hm2]. by apply Forall_cons in Hm2 as [? _].
  - by eapply IH.
Qed.

Lemma format_digits_no_sep n : 0 <= n -> Forall (fun a => a <> "-"%char) (format_digits n).
Proof.
  intros Hn. eapply Forall_impl; [apply digits_are_digits; [done|constructor]|].
  intros a [d Hd] ->. by vm_compute in Hd.
Qed.

Definition in_uint64 (n : Z) : Prop := 0 <= n < 2 ^ 64.

Lemma member_of_inj nonce t t' n n' :
  in_uint64 n -> in_uint64 n' -> member_of nonce t n = member_of nonce t' n' -> n = n'.
Proof.
  unfold in_uint64, member_of. intros Hn Hn' E. apply (f_equal bytes) in E.
  rewrite !(bytes_app nonce), !(bytes_app "-"), !(bytes_app (FormatInt _)), !(bytes_app "-"), !bytes_of_bytes in E.
  change (bytes "-") with ["-"%char] in E. simpl in E.
  assert (forall a b c : list ascii, a ++ "-"%char :: b ++ "-"%char :: c = (a ++ "-"%char :: b) ++ "-"%char :: c) as Hassoc
    by (intros a b c; by rewrite <- app_assoc).
  rewrite !Hassoc in E. apply app_sep_inj in E; [|apply format_digits_no_sep; lia..].
  apply (f_equal parse_unsigned) in E. rewrite !parse_format_digits in E by lia. by injection E.
Qed.

(** *** A client's calls

    [offset] is what the clock of the server is ahead of the client's.  Before
    each call, time passes; [ds] are the decisions the client reads. *)
Section Served.
Context {S : Type} `{RedisKeysLaws S}.
Variables (offset : Z) (nonce key : string) (limit window : Z).

Inductive served : S -> list (Z * Z) -> list (res RateLimitDecision) -> S -> Prop :=
  | served_none s : served s [] [] s
  | served_call s s1 s2 s3 now seq reply calls ds :
      keys_tick s s1 -> server_ms s1 = offset + now ->
      slidingWindowScript key now window limit (member_of nonce now seq) s1 = (reply, s2) ->
      served s2 calls ds s3 ->
      served s ((now, seq) :: calls) ((reply ≫= decision_of) :: ds) s3.

(** The sequence numbers of the members of [z] are among [used]. *)
Definition members_of (used : list Z) (z : gmap string Z) : Prop :=
  forall m t, z !! m = Some t -> exists now n, n ∈ used /\ in_uint64 n /\ m = member_of nonce now n.

(** After the call at [t0]: the key holds the recent admitted calls, or there
    was none. *)
Definition holds (t0 : Z) (log used : list Z) (s : S) : Prop :=
  (keys s !! key = None /\ log = []) \/
  exists z, keys s !! key = Some (mkEntry (VZSet z) (Some (offset + t0 + window))) /\
    zscores z ≡ₚ recent window t0 log /\ members_of used z.

(** What the script finds when the call at [now] arrives. *)
Definition finds (now : Z) (log used : list Z) (s : S) : Prop :=
  exists z, zset_at key (keys s) = Ok z /\
    List.filter (fun t => now - window <? t) (zscores z) ≡ₚ recent window now log /\ members_of used z.

Lemma arrive t0 now log used s s1 :
  0 < window -> t0 <= now -> log_ok t0 log -> holds t0 log used s -> keys_tick s s1 -> server_ms s1 = offset + now ->
  finds now log used s1.
Proof.
  intros Hw Hle [_ Hb] Hs Ht Hms.
  assert (forall z, keys s !! key = Some (mkEntry (VZSet z) (Some (offset + t0 + window))) ->
    server_ms s1 <= offset + t0 + window -> keys s1 !! key = keys s !! key) as Hkeep.
  { intros z Hz Hle'. rewrite Hz. apply (tick_keeps _ _ _ _ Ht Hz). by intros t [= <-]. }
  destruct Hs as [[Hk ->]|(z & Hk & Hz & Hu)].
  - exists ∅. unfold zset_at. destruct (tick_lookup _ _ key Ht) as [->| ->]; rewrite ?Hk; by split_and!.
  - destruct (decide (now <= t0 + window)) as [Hn|Hn]; [|destruct (tick_lookup _ _ key Ht) as [E|E]].
    + exists z. unfold zset_at. rewrite (Hkeep z Hk), Hk by lia. split_and!; [done| |done].
      rewrite Hz. fold (recent window now (recent window t0 log)). by rewrite recent_recent.
    + exists z. unfold zset_at. rewrite E, Hk. split_and!; [done| |done].
      rewrite Hz. fold (recent window now (recent window t0 log)). by rewrite recent_recent.
    + exists ∅. unfold zset_at. rewrite E. split_and!; [done| |done]. rewrite recent_late; [done|].
      eapply Forall_impl; [exact Hb|]. simpl. lia.
Qed.

(** The commands that end both branches leave the set alive for a window. *)
Lemma finish {A} now z e (a : A) s r s' :
  0 < window -> server_ms s = offset + now -> keys s !! key = Some e -> e_value e = VZSet z ->
  (redis_call (PEXPIRE key window) ≫= fun _ => mret a) s = (r, s') ->
  r = Ok a /\ keys s' !! key = Some (mkEntry (VZSet z) (Some (offset + now + window))).
Proof.
  intros Hw Hms Hk He Hr. call_inv Hr. simpl in Hr, Hk0.
  pose proof (expire_some key window (server_ms s) (keys s) e Hw Hk) as Hx.
  destruct (expire key window (server_ms s) (keys s)) as [n m]. simpl in *. injection Hr as <- <-.
  by rewrite Hk0, Hx, He, Hms.
Qed.

Lemma members_fresh used z now seq :
  members_of used z -> in_uint64 seq -> seq ∉ used -> z !! member_of nonce now seq = None.
Proof.
  intros Hu Hs Hn. apply eq_None_not_Some. intros [t (now' & n & Hin & Hr & E)%Hu].
  apply member_of_inj in E; [|done..]. by subst.
Qed.

Lemma members_weaken used z z' seq : members_of used z -> z' ⊆ z -> members_of (seq :: used) z'.
Proof.
  intros Hu Hs m t Hm. eapply lookup_weaken in Hm; [|exact Hs]. apply Hu in Hm as (now & n & Hin & Hr & E).
  exists now, n. split_and!; [by right|done..].
Qed.

(** The script from the point where the expired members are removed. *)
Lemma served_step t0 now seq log used s1 reply s2 :
  0 < limit -> 0 < window -> window * Millisecond <= max_int64 -> t0 <= now -> log_ok t0 log ->
  finds now log used s1 -> server_ms s1 = offset + now -> in_uint64 seq -> seq ∉ used ->
  slidingWindowScript key now window limit (member_of nonce now seq) s1 = (reply, s2) ->
  reply ≫= decision_of = Ok (in_nanos (window_decision limit window now log)) /\
  holds now (next_log limit window now log) (seq :: used) s2.
Proof.
  intros Hl Hw Hmax Hle [Ho Hb] (z & Hz & Hp & Hu) Hms Hseq Hfresh Hr. unfold slidingWindowScript in Hr.
  call_inv Hr. simpl in Hr, Hk. rewrite Hz in Hr, Hk. simpl in Hr, Hk.
  set (z1 := filter (fun x => now - window < x.2) z) in *.
  assert (zset_at key (keys s) = Ok z1) as Hz1 by (rewrite Hk; apply zset_at_put).
  rewrite <- zscores_filter in Hp. fold z1 in Hp.
  call_inv Hr. simpl in Hr, Hk0. rewrite Hz1 in Hr, Hk0. simpl in Hr, Hk0.
  pose proof (Permutation_length Hp) as Hlen. rewrite zscores_length in Hlen.
  unfold window_decision, next_log, admits. rewrite Hlen in Hr. rewrite Z.leb_antisym in Hr.
  set (l := recent window now log) in *. assert (ordered l) as Hol by (by apply ordered_filter).
  destruct (Z.of_nat (length l) <? limit) eqn:Ha; simpl in Hr.
  - call_inv Hr. simpl in Hr, Hk1. rewrite Hk0, Hz1 in Hr. rewrite Hk0, Hz1 in Hk1. simpl in Hr, Hk1.
    assert (z1 !! member_of nonce now seq = None) as Hm.
    { apply map_lookup_filter_None. left. by apply members_fresh with used. }
    eapply (finish now) in Hr as [-> Hk1']; [|done|congruence|rewrite Hk1; apply put_zset_some, insert_non_empty|done].
    simpl. split; [done|]. right. eexists. split; [exact Hk1'|]. split.
    + unfold recent. rewrite List.filter_app. simpl. rewrite (proj2 (Z.ltb_lt (now - window) now)) by lia.
      unfold zscores. rewrite map_to_list_insert by done. simpl. rewrite Hp. apply Permutation_cons_append.
    + intros m t [[<- <-]|[_ Hm']]%lookup_insert_Some; [exists now, seq; split_and!; [by left|done..]|].
      refine (members_weaken used z z1 seq Hu _ m t Hm'). apply map_filter_subseteq.
  - bool_prop. destruct l as [|t l'] eqn:El; [simpl in Ha; lia|].
    assert (z1 <> ∅) as Hne by (intros ->; by rewrite map_size_empty in Hlen).
    destruct (zset_first_min z1 Hne) as (m & t' & Hf & Hin & Hmin). apply (ordered_min t t' l') in Hmin; [|done..]. subst t'.
    assert (t ∈ recent window now log) as [Ht' Htl]%recent_bounds by (fold l; rewrite El; by left).
    rewrite Forall_forall in Hb. apply Hb in Htl.
    call_inv Hr. simpl in Hr, Hk1. rewrite Hk0, Hz1 in Hr. rewrite Hk0, Hz1 in Hk1. simpl in Hr, Hk1. rewrite Hf in Hr.
    eapply (finish now) in Hr as [-> Hk1']; [|done|congruence|rewrite Hk1, Hk; by apply put_zset_some|done].
    split.
    + simpl. unfold in_nanos. simpl. rewrite int64_id; [do 2 f_equal; unfold Millisecond; lia|].
      unfold in_int64, min_int64, max_int64, Millisecond in *. lia.
    + right. exists z1. split_and!; [done|fold l; by rewrite Hp, El|].
      apply (members_weaken used z z1 seq Hu), map_filter_subseteq.
Qed.

Lemma served_run s calls ds s' : served s calls ds s' -> forall t0 log used,
  0 < limit -> 0 < window -> window * Millisecond <= max_int64 -> ordered (t0 :: calls.*1) -> log_ok t0 log ->
  Forall in_uint64 calls.*2 -> NoDup (calls.*2 ++ used) -> holds t0 log used s ->
  ds = map (fun d => Ok (in_nanos d)) (window_run limit window calls.*1 log).1.
Proof.
  induction 1 as [|s s1 s2 s3 now seq reply calls ds Ht Hms Hr _ IH]; intros t0 log used Hl Hw Hmax Ho Hlog Hseq Hnd Hs;
    [done|]. csimpl in *. inversion Ho as [|? ? Ho' Hf]; subst. apply Forall_cons in Hf as [Hle Hf].
  apply Forall_cons in Hseq as [Hseq Hseqs]. apply NoDup_cons in Hnd as [Hn Hnd].
  assert (seq ∉ used) as Hfresh by (intros Hin; apply Hn; rewrite elem_of_app; by right).
  apply (arrive t0 now log used) in Ht; [|done..].
  eapply (served_step t0 now seq log used) in Hr as [-> Hs2]; [|done..].
  specialize (IH now (next_log limit window now log) (seq :: used) Hl Hw Hmax Ho').
  destruct (window_run limit window calls.*1 (next_log limit window now log)) as [ds' log']. csimpl in *. f_equal.
  apply IH; [by eapply next_log_ok|done| |done]. rewrite <- Permutation_middle. by constructor.
Qed.
End Served.


(** ** The theorems at concrete inputs *)
Module Example.
(** A client whose clock is the server's. *)
Section Client.
Variables (nonce key : string) (limit window : Z).

Fixpoint client (calls : list (Z * Z)) (s : KeyStore) : list (res RateLimitDecision) * KeyStore :=
  match calls with
  | [] => ([], s)
  | (now, seq) :: rest =>
      let '(reply, s2) := slidingWindowScript key now window limit (member_of nonce now seq)
                            (mkKeyStore (ks_entries s) now) in
      let '(ds, s3) := client rest s2 in
      ((reply ≫= decision_of) :: ds, s3)
  end.

Lemma script_time now member :
  within (same (server_ms (S := KeyStore))) (slidingWindowScript key now window limit member).
Proof.
  assert (forall A (c : command A), within (same (server_ms (S := KeyStore))) (redis_call c)) as Hc
    by (intros A c s; apply call_time).
  unfold slidingWindowScript. solve_within.
Qed.

Lemma client_served calls : forall s, ordered (ks_now s :: calls.*1) ->
  served 0 nonce key limit window s calls (client calls s).1 (client calls s).2.
Proof.
  induction calls as [|[now seq] calls IH]; intros s Ho; csimpl; [constructor|].
  inversion Ho as [|? ? Ho' Hf]; subst. apply Forall_cons in Hf as [Hle Hf].
  pose proof (script_time now (member_of nonce now seq) (mkKeyStore (ks_entries s) now)) as Htime.
  destruct (slidingWindowScript _ _ _ _ _ _) as [reply s2] eqn:E. unfold same in Htime. simpl in Htime.
  specialize (IH s2). destruct (client calls s2) as [ds s3]. simpl in *.
  eapply served_call with (s1 := mkKeyStore (ks_entries s) now); [done|done|exact E|]. apply IH. by rewrite Htime.
Qed.
End Client.

Definition calls : list (Z * Z) := [(0, 1); (400, 2); (900, 3); (1500, 4)].
Definition decisions : list (res RateLimitDecision) :=
  [Ok (mkDecision true 1 0); Ok (mkDecision true 0 0);
   Ok (mkDecision false 0 (100 * Millisecond)); Ok (mkDecision true 1 0)].
End Example.

Lemma memory_limiter_window_witness :
  let times := nanos Example.calls.*1 in
  let ds := (memory_run "k" 2 Second times ∅).1 in
  ds = Example.decisions /\ log_bounded 2 Second (admitted times ds).
Proof.
  intros times ds. assert (ordered times) as Ho by (apply ordered_nanos; repeat constructor; done).
  destruct (memory_limiter_window "k" 2 Second times ∅ ltac:(done) ltac:(done) Ho eq_refl) as [E Hb].
  split; [exact E|exact Hb].
Defined.

