(* ===== verification/RefreshStore.v ===== *)
(** * Refresh tokens ([pkg/modules/iam/refresh.go])

    A user has at most one refresh token.  Redis maps the hash of the token
    to the user and the user to the hash of the token; every change is one Lua
    script.  SHA-256, the random source and the base64 encoding are
    parameters. *)
From S2P Require Import Prelude GoStrings Redis.

(** ** The scripts *)
Section Scripts.
Context {S : Type} `{RedisStrings S}.

(** @src pkg/modules/iam/refresh.go:19-27 replaceRefreshScript *)
Definition replaceRefreshScript (tokenKey userKey tokenPrefix userID hash : string) (ms : Z) : M S reply :=
  previous ← GET userKey;
  _ ← match previous with Some previous => DEL (tokenPrefix +:+ previous) | None => mret tt end;
  _ ← SET_PX tokenKey userID ms;
  _ ← SET_PX userKey hash ms;
  mret (RInt 1).

(** @src pkg/modules/iam/refresh.go:29-40 rotateRefreshScript *)
Definition rotateRefreshScript (oldKey newKey userKey userID oldHash nextHash : string) (ms : Z) :
    M S reply :=
  owner ← GET oldKey;
  if negb (bool_decide (owner = Some userID)) then mret (RInt 0)
  else
    current ← GET userKey;
    if negb (bool_decide (current = Some oldHash)) then mret (RInt 0)
    else
      _ ← DEL oldKey;
      _ ← SET_PX newKey userID ms;
      _ ← SET_PX userKey nextHash ms;
      mret (RInt 1).

(** @src pkg/modules/iam/refresh.go:42-49 consumeRefreshScript *)
Definition consumeRefreshScript (tokenKey userKey hash : string) : M S reply :=
  user_id ← GET tokenKey;
  match user_id with
  | None => mret RNil
  | Some user_id =>
      current ← GET userKey;
      if negb (bool_decide (current = Some hash)) then mret RNil
      else
        _ ← DEL tokenKey;
        _ ← DEL userKey;
        mret (RBulk user_id)
  end.

(** @src pkg/modules/iam/refresh.go:51-60 revokeRefreshScript *)
Definition revokeRefreshScript (tokenKey userKey hash : string) : M S reply :=
  user_id ← GET tokenKey;
  match user_id with
  | None => mret (RInt 0)
  | Some _ =>
      _ ← DEL tokenKey;
      current ← GET userKey;
      _ ← when (bool_decide (current = Some hash)) (DEL userKey);
      mret (RInt 1)
  end.

(** @src pkg/modules/iam/refresh.go:62-69 revokeAllRefreshScript *)
Definition revokeAllRefreshScript (userKey tokenPrefix : string) : M S reply :=
  token_hash ← GET userKey;
  match token_hash with
  | None => mret (RInt 0)
  | Some token_hash =>
      _ ← DEL (tokenPrefix +:+ token_hash);
      _ ← DEL userKey;
      mret (RInt 1)
  end.
End Scripts.

(** @src pkg/modules/iam/refresh.go:71-79 RefreshStore *)
Record RefreshStore := mkRefreshStore { prefix : string; ttl : Z }.

Section Store.
Context {W S : Type} `{RedisStrings S} `{Redis W S}.
Variable sha256 : string -> string.
Variable rand_read : Z -> M W string.
Variable base64url : string -> string.
Variable s : RefreshStore.

(** @src pkg/modules/iam/refresh.go:175-178 hash *)
Definition hash (raw : string) : string := hex_EncodeToString (sha256 raw).
(** @src pkg/modules/iam/refresh.go:170-170 tokenPrefix *)
Definition tokenPrefix : string := prefix s +:+ ":token:".
(** @src pkg/modules/iam/refresh.go:169-169 tokenKey *)
Definition tokenKey (raw : string) : string := prefix s +:+ ":token:" +:+ hash raw.
(** @src pkg/modules/iam/refresh.go:171-174 userKey *)
Definition userKey (id : string) : string := prefix s +:+ ":user:" +:+ hex_EncodeToString (sha256 id).
Definition ttl_ms : Z := Z.quot (ttl s) Millisecond.

(** @src pkg/modules/iam/refresh.go:180-186 newRefreshToken *)
Definition newRefreshToken : M W string :=
  random ← wrap "generate refresh token" (rand_read 32);
  mret (base64url random).

(** @src internal/app/api.go:187-193 Get *)
Definition cache_Get (key : string) : M W string :=
  value ← redis_eval (GET key);
  match value with Some v => mret v | None => throw ErrNotFound end.

(** @src internal/app/api.go:194-196 Eval *)
Definition cache_Eval (script : M S reply) : M W reply := eval script.

(** @src pkg/modules/iam/refresh.go:81-91 Issue *)
Definition Issue (userID : string) : M W string :=
  raw ← newRefreshToken;
  _ ← wrap "store refresh token"
        (cache_Eval (replaceRefreshScript (tokenKey raw) (userKey userID) tokenPrefix userID (hash raw) ttl_ms));
  mret raw.

(** @src pkg/modules/iam/refresh.go:93-108 Lookup *)
Definition Lookup (raw : string) : M W string :=
  if is_empty raw then throw ErrInvalidRefreshToken
  else
    r ← try (cache_Get (tokenKey raw));
    match r with
    | Err err => if errors_is ErrNotFound err then throw ErrInvalidRefreshToken
                 else throw (EWrap "lookup refresh token" err)
    | Ok userID => if is_empty userID then throw ErrInvalidRefreshToken else mret userID
    | Panic => panic
    end.

(** @src pkg/modules/iam/refresh.go:110-128 Rotate *)
Definition Rotate (raw userID : string) : M W string :=
  if is_empty raw || is_empty userID then throw ErrInvalidRefreshToken
  else
    next ← newRefreshToken;
    result ← wrap "rotate refresh token"
      (cache_Eval (rotateRefreshScript (tokenKey raw) (tokenKey next) (userKey userID) userID
         (hash raw) (hash next) ttl_ms));
    match result with
    | RInt 1 => mret next
    | _ => throw ErrInvalidRefreshToken
    end.

(** @src pkg/modules/iam/refresh.go:130-147 Consume *)
Definition Consume (raw : string) : M W string :=
  if is_empty raw then throw ErrInvalidRefreshToken
  else
    u ← try (Lookup raw);
    match u with
    | Ok userID =>
        result ← wrap "consume refresh token"
          (cache_Eval (consumeRefreshScript (tokenKey raw) (userKey userID) (hash raw)));
        match result with
        | RBulk consumed => if String.eqb consumed userID then mret consumed
                            else throw ErrInvalidRefreshToken
        | _ => throw ErrInvalidRefreshToken
        end
    | _ => throw ErrInvalidRefreshToken
    end.

(** @src pkg/modules/iam/refresh.go:149-162 Revoke *)
Definition Revoke (raw : string) : M W unit :=
  if is_empty raw then mret tt
  else
    u ← try (Lookup raw);
    match u with
    | Ok userID =>
        _ ← cache_Eval (revokeRefreshScript (tokenKey raw) (userKey userID) (hash raw)); mret tt
    | Err err => if errors_is ErrInvalidRefreshToken err then mret tt else throw err
    | Panic => panic
    end.

(** @src pkg/modules/iam/refresh.go:164-167 RevokeAll *)
Definition RevokeAll (userID : string) : M W unit :=
  _ ← cache_Eval (revokeAllRefreshScript (userKey userID) tokenPrefix); mret tt.
End Store.

(** ** Properties *)
Lemma string_app_inj_l p a b : p +:+ a = p +:+ b -> a = b.
Proof. induction p as [|c p IH]; [done|]. simpl. intros [= E]. by apply IH. Qed.

Section Tokens.
Context {W S : Type} `{RedisStringsLaws S} `{!Redis W S} `{!RedisLaws W S}.
Variable sha256 : string -> string.
Variable rand_read : Z -> M W string.
Variable base64url : string -> string.
Variable rs : RefreshStore.

Lemma hash_key h h' : prefix rs +:+ ":token:" +:+ h = prefix rs +:+ ":token:" +:+ h' -> h = h'.
Proof. intros E%string_app_inj_l. by apply (string_app_inj_l ":token:") in E. Qed.

Lemma token_user_key h u : prefix rs +:+ ":token:" +:+ h <> userKey sha256 rs u.
Proof. unfold userKey. by intros E%string_app_inj_l. Qed.

Lemma token_prefix h : tokenPrefix rs +:+ h = prefix rs +:+ ":token:" +:+ h.
Proof. unfold tokenPrefix. generalize (prefix rs). intros p. induction p as [|c p IH]; [done|]. exact (f_equal (String c) IH). Qed.

Lemma hash_of_tokenKey a b : hash sha256 a <> hash sha256 b -> tokenKey sha256 rs a <> tokenKey sha256 rs b.
Proof. intros Hne E. by apply Hne, hash_key. Qed.

(** *** Keys that stay absent *)
Definition absent (k : string) (st : S) : Prop := redis_get k st = None.

Lemma absent_tick k st st' : redis_tick st st' -> absent k st -> absent k st'.
Proof.
  unfold absent. intros Ht Hn. destruct (redis_get k st') eqn:E; [|done].
  by rewrite (redis_tick_get _ _ _ _ Ht E) in Hn.
Qed.

Lemma GET_absent k k' : within (keeps (absent k)) (GET k').
Proof. apply within_gets, _. Qed.

Lemma DEL_absent k k' : within (keeps (absent k)) (DEL k').
Proof.
  intros st Hn. unfold absent in *. simpl. destruct (decide (k = k')) as [->|Hne].
  - apply redis_get_del.
  - by rewrite redis_get_del_ne.
Qed.

Lemma SET_PX_absent k k' v ms : k <> k' -> within (keeps (absent k)) (SET_PX k' v ms).
Proof.
  intros Hne st Hn. unfold SET_PX, absent in *. case_match; [done|]. simpl. by rewrite redis_get_set_ne.
Qed.

Lemma eval_absent {A} k (f : M S A) :
  within (keeps (absent k)) f -> within (keeps (fun w : W => absent k (redis_store w))) (redis_eval f).
Proof.
  intros Hf w Hw. destruct (redis_eval f w) as [r w'] eqn:E. simpl.
  apply redis_eval_outcome in E as (s1 & Ht & Hr). apply (absent_tick k _ _ Ht) in Hw.
  pose proof (Hf s1 Hw) as Hs2. destruct r as [a|e|]; [| |done].
  - destruct Hr as (s2 & E & Ht2). rewrite E in Hs2. by eapply absent_tick.
  - destruct Hr as [Ht2|Ht2]; by eapply absent_tick.
Qed.

Lemma cache_Eval_absent k (f : M S reply) :
  within (keeps (absent k)) f -> within (keeps (fun w : W => absent k (redis_store w))) (cache_Eval f).
Proof.
  intros Hf. unfold cache_Eval, eval. apply within_bind; [apply _|by apply eval_absent|].
  intros r. case_match; solve_within.
Qed.

(** The random source leaves the store. *)
Hypothesis rand_tick : forall n w, redis_tick (redis_store w) (redis_store (rand_read n w).2).

Lemma newRefreshToken_absent k :
  within (keeps (fun w : W => absent k (redis_store w))) (newRefreshToken rand_read base64url).
Proof.
  unfold newRefreshToken. solve_within. intros w Hw. by eapply absent_tick; [apply rand_tick|].
Qed.

(** What the scripts do to an absent key. *)
Hint Resolve GET_absent DEL_absent : within.

Lemma replace_absent k tokenKey userKey prefix' u h ms :
  k <> tokenKey -> k <> userKey ->
  within (keeps (absent k)) (replaceRefreshScript (S := S) tokenKey userKey prefix' u h ms).
Proof. intros. unfold replaceRefreshScript. solve_within; by apply SET_PX_absent. Qed.

Lemma rotate_absent k old new userKey u h h' ms :
  k <> new -> k <> userKey ->
  within (keeps (absent k)) (rotateRefreshScript (S := S) old new userKey u h h' ms).
Proof. intros. unfold rotateRefreshScript. solve_within; by apply SET_PX_absent. Qed.

Lemma consume_absent k tk uk h : within (keeps (absent k)) (consumeRefreshScript (S := S) tk uk h).
Proof. unfold consumeRefreshScript. solve_within. Qed.

Lemma revoke_absent k tk uk h : within (keeps (absent k)) (revokeRefreshScript (S := S) tk uk h).
Proof. unfold revokeRefreshScript. solve_within. Qed.

Lemma revokeAll_absent k uk prefix' : within (keeps (absent k)) (revokeAllRefreshScript (S := S) uk prefix').
Proof. unfold revokeAllRefreshScript. solve_within. Qed.

Lemma Lookup_absent k raw : within (keeps (fun w : W => absent k (redis_store w))) (Lookup sha256 rs raw).
Proof. unfold Lookup, cache_Get. solve_within. apply eval_absent, GET_absent. Qed.

(** *** Histories of operations *)
Inductive refresh_op :=
  | OpIssue (userID : string) | OpLookup (raw : string) | OpRotate (raw userID : string)
  | OpConsume (raw : string) | OpRevoke (raw : string) | OpRevokeAll (userID : string).

Definition discard {A} (m : M W A) : M W unit := _ ← m; mret tt.

Definition run_op (op : refresh_op) : M W unit :=
  match op with
  | OpIssue u => discard (Issue sha256 rand_read base64url rs u)
  | OpLookup raw => discard (Lookup sha256 rs raw)
  | OpRotate raw u => discard (Rotate sha256 rand_read base64url rs raw u)
  | OpConsume raw => discard (Consume sha256 rs raw)
  | OpRevoke raw => Revoke sha256 rs raw
  | OpRevokeAll u => RevokeAll sha256 rs u
  end.

Definition run_ops (ops : list refresh_op) (w : W) : W := fold_left (fun w op => (run_op op w).2) ops w.

(** An operation keeps the key [k] absent when its scripts never set it. *)
Definition spares (k : string) (op : refresh_op) : Prop :=
  (forall n w t w', rand_read n w = (Ok t, w') -> k <> tokenKey sha256 rs (base64url t)) /\
  match op with OpIssue u | OpRotate _ u => k <> userKey sha256 rs u | _ => True end.

Hint Resolve newRefreshToken_absent Lookup_absent cache_Eval_absent replace_absent rotate_absent
  consume_absent revoke_absent revokeAll_absent : within.

Lemma newRefreshToken_value w raw w' :
  newRefreshToken rand_read base64url w = (Ok raw, w') ->
  exists t w1, rand_read 32 w = (Ok t, w1) /\ raw = base64url t.
Proof.
  unfold newRefreshToken. intros (t & w1 & E%wrap_Ok_inv & Hr)%M_bind_Ok_inv.
  injection Hr as <- <-. eauto.
Qed.

Lemma run_op_absent k op :
  spares k op -> within (keeps (fun w : W => absent k (redis_store w))) (run_op op).
Proof.
  intros [Hfresh Huser]. destruct op as [u|raw|raw u|raw|raw|u]; simpl; unfold discard.
  - unfold Issue. apply within_bind; [apply _| |solve_within].
    apply within_bind_ok; [apply _|apply newRefreshToken_absent|].
    intros raw w w' (t & w1 & Ht & ->)%newRefreshToken_value. apply Hfresh in Ht. solve_within.
  - solve_within.
  - unfold Rotate. apply within_bind; [apply _| |solve_within]. case_match; [solve_within|].
    apply within_bind_ok; [apply _|apply newRefreshToken_absent|].
    intros next w w' (t & w1 & Ht & ->)%newRefreshToken_value. apply Hfresh in Ht.
    apply within_bind; [apply _| |solve_within].
    by apply within_wrap, cache_Eval_absent, rotate_absent.
  - unfold Consume. solve_within.
  - unfold Revoke. solve_within.
  - unfold RevokeAll. solve_within.
Qed.

Lemma run_ops_absent k ops w :
  (forall op, op ∈ ops -> spares k op) -> absent k (redis_store w) -> absent k (redis_store (run_ops ops w)).
Proof.
  unfold run_ops. revert w. induction ops as [|op ops IH]; intros w Hops Hw; simpl; [done|].
  apply IH; [intros; apply Hops; by right|]. apply (run_op_absent k op (Hops op ltac:(left)) w Hw).
Qed.

(** *** What an absent key means for a token *)
Lemma eval_Ok_inv (f : M S reply) (w : W) r w' :
  cache_Eval f w = (Ok r, w') ->
  exists s1 s2, redis_tick (redis_store w) s1 /\ f s1 = (Ok r, s2) /\ redis_tick s2 (redis_store w').
Proof.
  unfold cache_Eval, eval. intros (a & w1 & E & Hr)%M_bind_Ok_inv.
  apply redis_eval_outcome in E as (s1 & Ht & s2 & E & Ht2).
  destruct a as [n|b|]; [| |done]; injection Hr as <- <-; by exists s1, s2.
Qed.

Lemma Lookup_dead raw w u w' :
  absent (tokenKey sha256 rs raw) (redis_store w) -> Lookup sha256 rs raw w <> (Ok u, w').
Proof.
  intros Hn. unfold Lookup. destruct (is_empty raw); [done|].
  intros (r & w1 & E & Hr)%M_bind_Ok_inv.
  apply try_inv in E as [(? & _)|(x & [= ->] & Hx & E)]; [done|].
  unfold cache_Get in E. destruct x as [v|e|]; [|by case_match|done].
  apply M_bind_Ok_inv in E as (o & w2 & E & Ho).
  apply redis_eval_outcome in E as (s1 & Ht & s2 & E & _). unfold GET, gets in E.
  injection E as Hg _. apply (absent_tick _ _ _ Ht) in Hn. unfold absent in Hn. rewrite Hn in Hg.
  by subst o.
Qed.

Lemma Rotate_Ok_inv raw u w next w' :
  Rotate sha256 rand_read base64url rs raw u w = (Ok next, w') ->
  exists w1 s1 s2 t, redis_tick (redis_store w) (redis_store w1) /\ redis_tick (redis_store w1) s1 /\
    next = base64url t /\ (exists w0, rand_read 32 w = (Ok t, w0)) /\
    redis_get (tokenKey sha256 rs raw) s1 = Some u /\ redis_get (userKey sha256 rs u) s1 = Some (hash sha256 raw) /\
    rotateRefreshScript (tokenKey sha256 rs raw) (tokenKey sha256 rs next) (userKey sha256 rs u) u
      (hash sha256 raw) (hash sha256 next) (ttl_ms rs) s1 = (Ok (RInt 1), s2) /\
    redis_tick s2 (redis_store w').
Proof.
  unfold Rotate. case_match; [done|].
  intros (nx & w1 & E & Hr)%M_bind_Ok_inv.
  assert (redis_tick (redis_store w) (redis_store w1)) as Ht.
  { pose proof E as E'. unfold newRefreshToken in E'.
    apply M_bind_Ok_inv in E' as (t & w2 & E2%wrap_Ok_inv & Hm). injection Hm as <- <-.
    pose proof (rand_tick 32 w) as Hr'. by rewrite E2 in Hr'. }
  apply newRefreshToken_value in E as (t & w0 & Et & ->).
  apply M_bind_Ok_inv in Hr as (r & w2 & E%wrap_Ok_inv & Hr).
  apply eval_Ok_inv in E as (s1 & s2 & Ht1 & E & Ht2).
  assert (r = RInt 1 /\ next = base64url t /\ w' = w2) as (-> & -> & ->).
  { destruct r as [[|[]|]| |]; try discriminate Hr. by injection Hr as <- <-. }
  exists w1, s1, s2, t. pose proof E as E'. unfold rotateRefreshScript, GET in E'.
  rewrite M_bind_run in E'. unfold gets in E'.
  destruct (bool_decide_reflect (redis_get (tokenKey sha256 rs raw) s1 = Some u)) as [Hg|Hg]; [|done].
  simpl in E'. rewrite M_bind_run in E'.
  destruct (bool_decide_reflect (redis_get (userKey sha256 rs u) s1 = Some (hash sha256 raw))) as [Hu|Hu]; [|done].
  split_and!; eauto.
Qed.

Lemma Rotate_dead raw u w next w' :
  absent (tokenKey sha256 rs raw) (redis_store w) ->
  Rotate sha256 rand_read base64url rs raw u w <> (Ok next, w').
Proof.
  intros Hn (w1 & s1 & s2 & t & Ht & Ht1 & _ & _ & Hg & _)%Rotate_Ok_inv.
  apply (absent_tick _ _ _ Ht), (absent_tick _ _ _ Ht1) in Hn. unfold absent in Hn. congruence.
Qed.

Lemma Rotate_no_session raw u w next w' :
  absent (userKey sha256 rs u) (redis_store w) ->
  Rotate sha256 rand_read base64url rs raw u w <> (Ok next, w').
Proof.
  intros Hn (w1 & s1 & s2 & t & Ht & Ht1 & _ & _ & _ & Hg & _)%Rotate_Ok_inv.
  apply (absent_tick _ _ _ Ht), (absent_tick _ _ _ Ht1) in Hn. unfold absent in Hn. congruence.
Qed.

Lemma Consume_Ok_inv raw u w w' :
  Consume sha256 rs raw w = (Ok u, w') ->
  (exists w0 w1, Lookup sha256 rs raw w0 = (Ok u, w1) /\ w0 = w) /\
  exists s1 s2, redis_get (userKey sha256 rs u) s1 = Some (hash sha256 raw) /\
    consumeRefreshScript (tokenKey sha256 rs raw) (userKey sha256 rs u) (hash sha256 raw) s1 = (Ok (RBulk u), s2) /\
    redis_tick s2 (redis_store w') /\
    (exists w1, Lookup sha256 rs raw w = (Ok u, w1) /\ redis_tick (redis_store w1) s1).
Proof.
  unfold Consume. destruct (is_empty raw); [done|].
  intros (r & w1 & E & Hr)%M_bind_Ok_inv.
  apply try_inv in E as [(? & _)|(x & [= ->] & Hx & E)]; [done|].
  destruct x as [v|e|]; [|done|done].
  apply M_bind_Ok_inv in Hr as (r & w2 & E2%wrap_Ok_inv & Hr).
  apply eval_Ok_inv in E2 as (s1 & s2 & Ht1 & E2 & Ht2).
  destruct r as [|consumed|]; [done| |done].
  destruct (String.eqb_spec consumed v) as [->|]; [|done]. injection Hr as <- <-.
  split; [eauto|]. exists s1, s2. pose proof E2 as E'. unfold consumeRefreshScript, GET in E'.
  rewrite M_bind_run in E'. unfold gets in E'. destruct (redis_get (tokenKey sha256 rs raw) s1); [|done].
  rewrite M_bind_run in E'.
  destruct (bool_decide_reflect (redis_get (userKey sha256 rs v) s1 = Some (hash sha256 raw))) as [Hu|Hu]; [|done].
  split_and!; eauto.
Qed.

(** *** The effect of the scripts that retire a token *)
Lemma rotate_effect old new uk u h h' ms (s1 s2 : S) :
  rotateRefreshScript old new uk u h h' ms s1 = (Ok (RInt 1), s2) ->
  s2 = redis_set uk h' ms (redis_set new u ms (redis_del old s1)) /\ 0 < ms.
Proof.
  unfold rotateRefreshScript, GET, DEL, SET_PX. rewrite M_bind_run. unfold gets at 1.
  destruct (bool_decide (redis_get old s1 = Some u)); [|done]. simpl. rewrite M_bind_run. unfold gets.
  destruct (bool_decide (redis_get uk s1 = Some h)); [|done]. simpl.
  rewrite M_bind_run. unfold modify at 1. cbn beta iota.
  rewrite M_bind_run. destruct (ms <=? 0) eqn:Hms; [done|]. bool_prop. by intros [= <-].
Qed.

Lemma rotate_retires raw next u (s1 s2 : S) :
  hash sha256 raw <> hash sha256 next ->
  rotateRefreshScript (tokenKey sha256 rs raw) (tokenKey sha256 rs next) (userKey sha256 rs u) u
    (hash sha256 raw) (hash sha256 next) (ttl_ms rs) s1 = (Ok (RInt 1), s2) ->
  absent (tokenKey sha256 rs raw) s2 /\
  redis_get (tokenKey sha256 rs next) s2 = Some u /\
  redis_get (userKey sha256 rs u) s2 = Some (hash sha256 next).
Proof.
  intros Hne [-> Hms]%rotate_effect. unfold absent.
  pose proof token_user_key as Hk. unfold tokenKey.
  rewrite !(redis_get_set_ne _ (userKey _ _ _)) by done. rewrite (redis_get_set _ _ _ _ Hms).
  rewrite (redis_get_set _ _ _ _ Hms). split_and!; [|done|done].
  rewrite redis_get_set_ne by (intros E; by apply Hne, hash_key). apply redis_get_del.
Qed.

Lemma consume_retires tk uk h u (s1 s2 : S) :
  consumeRefreshScript tk uk h s1 = (Ok (RBulk u), s2) -> absent tk s2 /\ absent uk s2.
Proof.
  unfold consumeRefreshScript, GET, DEL. rewrite M_bind_run. unfold gets at 1.
  destruct (redis_get tk s1); [|done]. rewrite M_bind_run. unfold gets.
  destruct (bool_decide (redis_get uk s1 = Some h)); [|done]. simpl. intros [= _ <-].
  unfold absent. split; [|apply redis_get_del].
  destruct (decide (tk = uk)) as [->|Hne]; [apply redis_get_del|].
  rewrite redis_get_del_ne by done. apply redis_get_del.
Qed.

Lemma revokeAll_retires uk prefix' n (s1 s2 : S) :
  revokeAllRefreshScript uk prefix' s1 = (Ok n, s2) -> absent uk s2.
Proof.
  unfold revokeAllRefreshScript, GET, DEL. rewrite M_bind_run. unfold gets.
  destruct (redis_get uk s1) as [h|] eqn:E; simpl; intros [= _ <-]; [apply redis_get_del|exact E].
Qed.


Lemma userKey_inj u v : userKey sha256 rs u = userKey sha256 rs v -> sha256 u = sha256 v.
Proof.
  unfold userKey. intros E%string_app_inj_l. apply (string_app_inj_l ":user:") in E.
  by apply hex_EncodeToString_inj.
Qed.

(** A rotation needs the session key it would set. *)
Lemma rotate_needs_session old new uk u h h' ms :
  within (keeps (absent uk)) (rotateRefreshScript (S := S) old new uk u h h' ms).
Proof.
  intros st Hn. unfold rotateRefreshScript, GET. rewrite M_bind_run. unfold gets at 1.
  destruct (bool_decide (redis_get old st = Some u)); [|done]. simpl. rewrite M_bind_run. unfold gets.
  unfold absent in Hn. rewrite Hn. by rewrite bool_decide_eq_false_2.
Qed.

Lemma Rotate_absent_session raw u :
  within (keeps (fun w : W => absent (userKey sha256 rs u) (redis_store w)))
    (discard (Rotate sha256 rand_read base64url rs raw u)).
Proof.
  unfold discard, Rotate. apply within_bind; [apply _| |solve_within]. case_match; [solve_within|].
  apply within_bind; [apply _|apply newRefreshToken_absent|intros next].
  apply within_bind; [apply _| |solve_within].
  apply within_wrap, cache_Eval_absent, rotate_needs_session.
Qed.

Lemma run_ops_no_session user ops w :
  OpIssue user ∉ ops ->
  (forall raw u, OpIssue u ∈ ops \/ OpRotate raw u ∈ ops -> u <> user -> sha256 u <> sha256 user) ->
  absent (userKey sha256 rs user) (redis_store w) ->
  absent (userKey sha256 rs user) (redis_store (run_ops ops w)).
Proof.
  unfold run_ops. revert w. induction ops as [|op ops IH]; intros w Hno Hcol Hw; simpl; [done|].
  apply not_elem_of_cons in Hno as [Hop Hno].
  apply IH; [done|intros raw u [?|?]; apply (Hcol raw); [left|right]; by right|].
  assert (forall u, u <> user -> sha256 u <> sha256 user -> userKey sha256 rs user <> userKey sha256 rs u) as Hk
    by (intros u _ Hne E; by apply Hne; symmetry; apply userKey_inj).
  assert (forall n v t v', rand_read n v = (Ok t, v') ->
            userKey sha256 rs user <> tokenKey sha256 rs (base64url t)) as Hfresh
    by (intros n v t v' _ E; by eapply token_user_key).
  destruct op as [u|raw|raw u|raw|raw|u].
  3: destruct (decide (u = user)) as [->|Hne]; [by apply Rotate_absent_session|].
  all: apply run_op_absent; [split; [exact Hfresh|]|exact Hw]; try exact I.
  - apply Hk; [congruence|]. apply (Hcol ""); [left; by left|congruence].
  - apply Hk; [done|]. apply (Hcol raw); [right; by left|done].
Qed.

(** Revoking all sessions of a user ends them.  After [RevokeAll] has
    succeeded, and after any history of operations that does not issue a
    token to the user, with any failures and expirations, no token whatsoever
    is rotated or consumed for the user, as long as the other users of the
    history do not collide with it under SHA-256. *)
Theorem RevokeAll_ends_sessions user ops w w' :
  RevokeAll sha256 rs user w = (Ok tt, w') ->
  OpIssue user ∉ ops ->
  (forall raw u, OpIssue u ∈ ops \/ OpRotate raw u ∈ ops -> u <> user -> sha256 u <> sha256 user) ->
  let w2 := run_ops ops w' in
  (forall raw next v, Rotate sha256 rand_read base64url rs raw user w2 <> (Ok next, v)) /\
  (forall raw v, Consume sha256 rs raw w2 <> (Ok user, v)).
Proof.
  intros Hr Hno Hcol w2.
  assert (absent (userKey sha256 rs user) (redis_store w2)) as Hn.
  { apply run_ops_no_session; [done|done|]. unfold RevokeAll in Hr.
    apply M_bind_Ok_inv in Hr as (r & w1 & (s1 & s2 & _ & Hs & Ht)%eval_Ok_inv & [= <-]).
    apply (absent_tick _ _ _ Ht). by apply revokeAll_retires in Hs. }
  split.
  - intros raw next v. by apply Rotate_no_session.
  - intros raw v (_ & s1 & s2 & Hg & _ & _ & w1 & Hl & Ht)%Consume_Ok_inv.
    pose proof (Lookup_absent (userKey sha256 rs user) raw w2 Hn) as Hn1. rewrite Hl in Hn1. simpl in Hn1.
    apply (absent_tick _ _ _ Ht) in Hn1. unfold absent in Hn1. congruence.
Qed.

(** A rotation moves the session to the new token.  When it succeeds, the
    old token was the user's current one; the new one is, and the old one is
    gone; a token that is not the user's current one is never rotated. *)
Theorem Rotate_moves_session raw u w next w' :
  Rotate sha256 rand_read base64url rs raw u w = (Ok next, w') ->
  hash sha256 raw <> hash sha256 next ->
  redis_get (userKey sha256 rs u) (redis_store w) = Some (hash sha256 raw) /\
  redis_get (tokenKey sha256 rs raw) (redis_store w) = Some u /\
  redis_get (tokenKey sha256 rs raw) (redis_store w') = None /\
  exists s2, redis_tick s2 (redis_store w') /\
    redis_get (tokenKey sha256 rs next) s2 = Some u /\
    redis_get (userKey sha256 rs u) s2 = Some (hash sha256 next).
Proof.
  intros (w1 & s1 & s2 & t & Ht & Ht1 & -> & _ & Hg & Hu & Hs & Htick)%Rotate_Ok_inv Hne.
  apply rotate_retires in Hs as (Hd & Hn & Hc); [|done]. split_and!.
  - by apply (redis_tick_get _ _ _ _ Ht), (redis_tick_get _ _ _ _ Ht1).
  - by apply (redis_tick_get _ _ _ _ Ht), (redis_tick_get _ _ _ _ Ht1).
  - by apply (absent_tick _ _ _ Htick).
  - by exists s2.
Qed.
End Tokens.

(** ** A store with one session *)
Module TokenExample.
Definition World : Type := RedisServer (gmap string string).
Definition sha (x : string) : string := x.
Definition url (x : string) : string := x.
Definition rand (_ : Z) : M World string := mret "fresh".
Definition store : RefreshStore := mkRefreshStore "refresh" Hour.
(** The user [u] holds the token [old]. *)
Definition start : World := mkRedis
  {[ tokenKey sha store "old" := "u"; userKey sha store "u" := hash sha "old" ]} [].

Lemma rand_tick n (w : World) : redis_tick (redis_store w) (redis_store (rand n w).2).
Proof. reflexivity. Qed.
Lemma rand_fresh n (v : World) t v' : rand n v = (Ok t, v') -> hash sha (url t) <> hash sha "old".
Proof. intros [= <- <-]. by vm_compute. Qed.
End TokenExample.
Import TokenExample.


Lemma RevokeAll_ends_sessions_witness :
  let w' := (RevokeAll sha store "u" start).2 in
  let w2 := run_ops sha rand url store [OpRotate "old" "u"; OpIssue "v"] w' in
  (forall raw v, Consume sha store raw w2 <> (Ok "u", v)) /\
  (Consume sha store "fresh" w2).1 = Ok "v".
Proof.
  intros w' w2. split; [|vm_compute; reflexivity].
  apply (RevokeAll_ends_sessions sha rand url store rand_tick "u"
    [OpRotate "old" "u"; OpIssue "v"] start w').
  - vm_compute. reflexivity.
  - rewrite !not_elem_of_cons. split_and!; [discriminate|discriminate|apply not_elem_of_nil].
  - intros raw u _ Hne. exact Hne.
Defined.

Lemma Rotate_moves_session_witness :
  exists w', Rotate sha rand url store "old" "u" start = (Ok "fresh", w') /\
    redis_get (tokenKey sha store "old") (redis_store w') = None.
Proof.
  eexists. split; [vm_compute; reflexivity|].
  eapply (Rotate_moves_session sha rand url store rand_tick "old" "u" start "fresh").
  - vm_compute. reflexivity.
  - by vm_compute.
Defined.
