(* ===== verification/Sessions.v ===== *)
(** * The sessions of the users, abstractly ([pkg/modules/iam/refresh.go])

    What the refresh token store promises, without Redis: a table that holds
    for a user at most one session, the hash of the token that continues it.
    The keys and scripts of [RefreshStore] refine it: a key pair of a user and
    a token that agree are a session, a stray key is none, and a session may
    end by itself at any time, since keys expire. *)
From S2P Require Import Prelude GoStrings Redis RefreshStore.

(** The table is indexed by the digest of the user, under which the store
    files a session; a session names its token and its user. *)
Definition sessions : Type := string -> option (string * string).

(** Sessions that ended by themselves. *)
Definition fades (σ σ' : sessions) : Prop := forall x s, σ' x = Some s -> σ x = Some s.
#[export] Instance fades_preorder : PreOrder fades.
Proof. split; [by intros σ x s|]. intros σ1 σ2 σ3 H1 H2 x s Hx. auto. Qed.

Section Table.
Variable sha256 : string -> string.
Let h (raw : string) : string := hex_EncodeToString (sha256 raw).

(** The session of the user is the one of the token [hash]. *)
Definition opened (u hash : string) (σ : sessions) : sessions := fun x => if String.eqb x (sha256 u) then Some (hash, u) else σ x.
Definition closed (u : string) (σ : sessions) : sessions := fun x => if String.eqb x (sha256 u) then None else σ x.
(** Nobody's session is the one of the token [hash]. *)
Definition forgotten (hash : string) (σ : sessions) : sessions := fun x =>
  match σ x with Some (hash', _) => if String.eqb hash' hash then None else σ x | None => None end.

(** The verdict of a rotation on its token. *)
Definition refusal (op : refresh_op) (e : error) : Prop :=
  match op with OpRotate _ _ => e = ErrInvalidRefreshToken | _ => False end.

(** What an operation may do to the table, and answer. *)
Inductive table_step : refresh_op -> res string -> sessions -> sessions -> Prop :=
  | step_issue u raw σ : table_step (OpIssue u) (Ok raw) σ (opened u (h raw) σ)
  | step_lookup raw u σ : table_step (OpLookup raw) (Ok u) σ σ
  | step_rotate raw u next σ : σ (sha256 u) = Some (h raw, u) ->
      table_step (OpRotate raw u) (Ok next) σ (opened u (h next) σ)
  | step_rotate_refused raw u σ : raw = "" \/ u = "" \/ σ (sha256 u) <> Some (h raw, u) ->
      table_step (OpRotate raw u) (Err ErrInvalidRefreshToken) σ σ
  | step_consume raw u σ : σ (sha256 u) = Some (h raw, u) -> table_step (OpConsume raw) (Ok u) σ (closed u σ)
  | step_revoke raw σ : table_step (OpRevoke raw) (Ok "") σ (forgotten (h raw) σ)
  (** A session of nobody, which nobody opens, is left alone. *)
  | step_revoke_none raw σ : raw = "" \/ (forall x u, σ x = Some (h raw, u) -> u = "") -> table_step (OpRevoke raw) (Ok "") σ σ
  | step_revoke_all u σ : table_step (OpRevokeAll u) (Ok "") σ (closed u σ)
  (** An operation that fails has not happened, or only its answer was lost;
      a rotation is only ever refused as above. *)
  | step_failed op e σ : ~ refusal op e -> table_step op (Err e) σ σ
  | step_lost op r e σ σ' : ~ refusal op e -> table_step op (Ok r) σ σ' -> table_step op (Err e) σ σ'.
End Table.

(** A history of operations with their answers.  Before and after each of them
    sessions may end by themselves, as [ends] says. *)
Inductive table_run (sha256 : string -> string) (ends : relation sessions) :
    list (refresh_op * res string) -> sessions -> sessions -> Prop :=
  | run_done σ : table_run sha256 ends [] σ σ
  | run_next op r l σ σ1 σ2 σ3 σ' : ends σ σ1 -> table_step sha256 op r σ1 σ2 -> ends σ2 σ3 -> table_run sha256 ends l σ3 σ' ->
      table_run sha256 ends ((op, r) :: l) σ σ'.

#[local] Instance reply_eq_dec : EqDecision reply. Proof. solve_decision. Defined.

Section Refinement.
Context {W S : Type} `{RedisStringsLaws S} `{!Redis W S} `{!RedisLaws W S}.
Variable sha256 : string -> string.
Variable rand_read : Z -> M W string.
Variable base64url : string -> string.
Variable rs : RefreshStore.

Abbreviation token h := (prefix rs +:+ ":token:" +:+ h).
Definition slot (x : string) : string := prefix rs +:+ ":user:" +:+ hex_EncodeToString x.

(** The table the keys stand for. *)
Definition table (st : S) : sessions := fun x =>
  match redis_get (slot x) st with
  | Some h => match redis_get (token h) st with Some u => Some (h, u) | None => None end
  | None => None
  end.

(** The two keys of a session agree. *)
Definition agree (st : S) : Prop :=
  forall x h u, redis_get (slot x) st = Some h -> redis_get (token h) st = Some u -> x = sha256 u.

(** A token that was never stored. *)
Definition unused (h : string) (st : S) : Prop := redis_get (token h) st = None /\ forall x, redis_get (slot x) st <> Some h.

(** Keys only disappear. *)
Definition shrinks (st st' : S) : Prop := forall k v, redis_get k st' = Some v -> redis_get k st = Some v.

Lemma slot_inj x y : slot x = slot y -> x = y.
Proof. unfold slot. intros E%string_app_inj_l. apply (string_app_inj_l ":user:") in E. by apply hex_EncodeToString_inj. Qed.
Lemma token_inj h h' : token h = token h' -> h = h'.
Proof. apply hash_key. Qed.
Lemma token_slot h x : token h <> slot x.
Proof. unfold slot. by intros E%string_app_inj_l. Qed.

Lemma tick_shrinks st st' : redis_tick st st' -> shrinks st st'.
Proof. intros Ht k v. by apply redis_tick_get. Qed.
Lemma del_shrinks k st : shrinks st (redis_del k st).
Proof. intros k' v. destruct (decide (k' = k)) as [->|Hne]; [by rewrite redis_get_del|by rewrite redis_get_del_ne]. Qed.

Lemma shrinks_fades st st' : shrinks st st' -> fades (table st) (table st').
Proof.
  intros Hs x s. unfold table. destruct (redis_get (slot x) st') as [h|] eqn:E1; [|done]. rewrite (Hs _ _ E1).
  destruct (redis_get (token h) st') eqn:E2; [|done]. by rewrite (Hs _ _ E2).
Qed.
Lemma shrinks_agree st st' : shrinks st st' -> agree st -> agree st'.
Proof. intros Hs Ha x h u Hx Hu. eapply Ha; by apply Hs. Qed.
Lemma shrinks_unused h st st' : shrinks st st' -> unused h st -> unused h st'.
Proof.
  intros Hs [Ht Hx]. split; [destruct (redis_get (token h) st') eqn:E; [by rewrite (Hs _ _ E) in Ht|done]|].
  intros x E%Hs. by eapply Hx.
Qed.

(** *** What the commands of the scripts do to the table *)
Lemma del_token h st x : table (redis_del (token h) st) x = forgotten h (table st) x.
Proof.
  unfold table, forgotten. rewrite redis_get_del_ne by (intros E; by eapply token_slot).
  destruct (redis_get (slot x) st) as [h'|]; [|done]. destruct (String.eqb_spec h' h) as [->|Hne].
  - rewrite redis_get_del. destruct (redis_get (token h) st); [by rewrite String.eqb_refl|done].
  - rewrite redis_get_del_ne by (by intros E%token_inj). destruct (redis_get (token h') st); [|done].
    by rewrite (proj2 (String.eqb_neq _ _) Hne).
Qed.

Lemma del_slot u st x : table (redis_del (slot (sha256 u)) st) x = closed sha256 u (table st) x.
Proof.
  unfold table, closed. destruct (String.eqb_spec x (sha256 u)) as [->|Hne]; [by rewrite redis_get_del|].
  rewrite redis_get_del_ne by (by intros E%slot_inj). destruct (redis_get (slot x) st) as [h|]; [|done].
  by rewrite redis_get_del_ne by apply token_slot.
Qed.

(** Forgetting the token of a session closes it and no other. *)
Lemma forgotten_closed u h st x : agree st -> redis_get (slot (sha256 u)) st = Some h ->
  forgotten h (table st) x = closed sha256 u (table st) x.
Proof.
  intros Ha Hh. unfold forgotten, closed, table. destruct (String.eqb_spec x (sha256 u)) as [->|Hne].
  - rewrite Hh. destruct (redis_get (token h) st); [by rewrite String.eqb_refl|done].
  - destruct (redis_get (slot x) st) as [h'|] eqn:Ex; [|done]. destruct (redis_get (token h') st) as [u'|] eqn:Eu; [|done].
    destruct (String.eqb_spec h' h) as [->|]; [|done]. exfalso. apply Hne.
    by rewrite (Ha _ _ _ Ex Eu), (Ha _ _ _ Hh Eu).
Qed.

Lemma put_session u h ms st : 0 < ms -> unused h st -> agree st ->
  let st' := redis_set (slot (sha256 u)) h ms (redis_set (token h) u ms st) in
  agree st' /\ forall x, table st' x = opened sha256 u h (table st) x.
Proof.
  intros Hms [Hnew Hfree] Ha st'.
  assert (forall x, redis_get (slot x) st' = if String.eqb x (sha256 u) then Some h else redis_get (slot x) st) as Hslot.
  { intros x. unfold st'. destruct (String.eqb_spec x (sha256 u)) as [->|Hne]; [by rewrite redis_get_set|].
    rewrite redis_get_set_ne by (by intros E%slot_inj). apply redis_get_set_ne. intros E. by eapply token_slot. }
  assert (forall h', redis_get (token h') st' = if String.eqb h' h then Some u else redis_get (token h') st) as Htoken.
  { intros h'. unfold st'. rewrite redis_get_set_ne by apply token_slot.
    destruct (String.eqb_spec h' h) as [->|Hne]; [by rewrite redis_get_set|]. apply redis_get_set_ne. by intros E%token_inj. }
  split.
  - intros x h' u'. rewrite Hslot, Htoken. destruct (String.eqb_spec x (sha256 u)) as [->|Hne].
    + intros [= <-]. rewrite String.eqb_refl. by intros [= <-].
    + intros Hx. destruct (String.eqb_spec h' h) as [->|_]; [by apply Hfree in Hx|]. by apply Ha.
  - intros x. unfold table, opened. rewrite Hslot. destruct (String.eqb_spec x (sha256 u)) as [->|Hne].
    + by rewrite Htoken, String.eqb_refl.
    + destruct (redis_get (slot x) st) as [h'|] eqn:Ex; [|done]. rewrite Htoken.
      destruct (String.eqb_spec h' h) as [->|_]; [by apply Hfree in Ex|done].
Qed.

(** Sessions end by themselves only because keys expire. *)
Definition expires : relation sessions := fun σ σ' =>
  exists st st', redis_tick st st' /\ (forall x, table st x = σ x) /\ (forall x, table st' x = σ' x).

Lemma expires_fades σ σ' : expires σ σ' -> fades σ σ'.
Proof. intros (st & st' & Ht & E & E') x s Hx. rewrite <- E. rewrite <- E' in Hx. by eapply shrinks_fades; [apply tick_shrinks|]. Qed.

(** *** The scripts *)
Hypothesis ttl_pos : 0 < ttl_ms rs.
Abbreviation hash := (RefreshStore.hash sha256).
Abbreviation slot_of u := (userKey sha256 rs u).

(** A script that runs to its end, with what it answers and does. *)
Definition performs (f : M S reply) (st : S) (P : reply -> sessions -> sessions -> Prop) : Prop :=
  exists a st', f st = (Ok a, st') /\ agree st' /\ exists σ', P a (table st) σ' /\ forall x, table st' x = σ' x.

Lemma replace_performs u raw st : agree st -> unused (hash raw) st ->
  performs (replaceRefreshScript (tokenKey sha256 rs raw) (slot_of u) (tokenPrefix rs) u (hash raw) (ttl_ms rs)) st
    (fun a σ σ' => a = RInt 1 /\ σ' = opened sha256 u (hash raw) σ).
Proof.
  intros Ha Hu. unfold performs, replaceRefreshScript, SET_PX. rewrite (proj2 (Z.leb_gt _ _) ttl_pos).
  set (st1 := match redis_get (slot_of u) st with Some p => redis_del (token p) st | None => st end).
  assert (shrinks st st1) as Hs by (unfold st1; case_match; [apply del_shrinks|by intros k v]).
  destruct (put_session u (hash raw) (ttl_ms rs) st1 ttl_pos (shrinks_unused _ _ _ Hs Hu) (shrinks_agree _ _ Hs Ha)) as [Ha' Hput].
  exists (RInt 1), (redis_set (slot (sha256 u)) (hash raw) (ttl_ms rs) (redis_set (token (hash raw)) u (ttl_ms rs) st1)).
  split; [|split; [exact Ha'|]].
  - rewrite M_bind_run. unfold GET, gets. cbn beta iota. unfold st1.
    destruct (redis_get (slot_of u) st) as [p|]; [|reflexivity]. by rewrite <- (token_prefix rs p).
  - exists (opened sha256 u (hash raw) (table st)). split; [done|]. intros x. rewrite Hput. unfold opened.
    destruct (String.eqb_spec x (sha256 u)) as [->|Hne]; [done|]. unfold st1.
    destruct (redis_get (slot_of u) st) as [p|] eqn:Ep; [|done]. rewrite del_token, (forgotten_closed u) by done.
    unfold closed. by rewrite (proj2 (String.eqb_neq _ _) Hne).
Qed.

Lemma session_keys u raw st : table st (sha256 u) = Some (hash raw, u) <->
  redis_get (tokenKey sha256 rs raw) st = Some u /\ redis_get (slot_of u) st = Some (hash raw).
Proof.
  unfold table. change (slot (sha256 u)) with (slot_of u). split.
  - destruct (redis_get (slot_of u) st) as [h|]; [|done]. destruct (redis_get (token h) st) eqn:Et; [|done]. by intros [= -> ->].
  - intros [Et ->]. unfold tokenKey in Et. by rewrite Et.
Qed.

Lemma rotate_performs u raw next st : agree st -> unused (hash next) st ->
  performs (rotateRefreshScript (tokenKey sha256 rs raw) (tokenKey sha256 rs next) (slot_of u) u (hash raw) (hash next) (ttl_ms rs)) st
    (fun a σ σ' => (a = RInt 1 /\ σ (sha256 u) = Some (hash raw, u) /\ σ' = opened sha256 u (hash next) σ) \/
                   (a = RInt 0 /\ σ (sha256 u) <> Some (hash raw, u) /\ σ' = σ)).
Proof.
  intros Ha Hu. unfold performs, rotateRefreshScript, SET_PX, GET. rewrite (proj2 (Z.leb_gt _ _) ttl_pos).
  pose proof (session_keys u raw st) as Hsess.
  rewrite M_bind_run. unfold gets at 1. cbn beta iota.
  destruct (bool_decide_reflect (redis_get (tokenKey sha256 rs raw) st = Some u)) as [Ht|Ht]; cbn [negb].
  2: { exists (RInt 0), st. split; [done|]. split; [done|]. exists (table st). split; [right|done]. split_and!; [done|tauto|done]. }
  rewrite M_bind_run. unfold gets. cbn beta iota.
  destruct (bool_decide_reflect (redis_get (slot_of u) st = Some (hash raw))) as [Hslot|Hslot]; cbn [negb].
  2: { exists (RInt 0), st. split; [done|]. split; [done|]. exists (table st). split; [right|done]. split_and!; [done|tauto|done]. }
  assert (shrinks st (redis_del (tokenKey sha256 rs raw) st)) as Hs by apply del_shrinks.
  destruct (put_session u (hash next) (ttl_ms rs) (redis_del (tokenKey sha256 rs raw) st) ttl_pos
    (shrinks_unused _ _ _ Hs Hu) (shrinks_agree _ _ Hs Ha)) as [Ha' Hput].
  eexists _, _. split; [reflexivity|]. split; [exact Ha'|]. exists (opened sha256 u (hash next) (table st)).
  split; [left; split_and!; [done|by apply Hsess|done]|]. intros x. rewrite Hput. unfold opened.
  destruct (String.eqb_spec x (sha256 u)) as [->|Hne]; [done|]. unfold tokenKey. rewrite del_token, (forgotten_closed u) by done.
  unfold closed. by rewrite (proj2 (String.eqb_neq _ _) Hne).
Qed.

(** The token is one of [u], if it is stored at all. *)
Definition held_by (u raw : string) (st : S) : Prop := forall v, redis_get (tokenKey sha256 rs raw) st = Some v -> v = u.

Lemma consume_performs u raw st : agree st -> held_by u raw st ->
  performs (consumeRefreshScript (tokenKey sha256 rs raw) (slot_of u) (hash raw)) st
    (fun a σ σ' => (a = RBulk u /\ σ (sha256 u) = Some (hash raw, u) /\ σ' = closed sha256 u σ) \/ (a = RNil /\ σ' = σ)).
Proof.
  intros Ha Hu. unfold performs, consumeRefreshScript, GET. rewrite M_bind_run. unfold gets at 1. cbn beta iota.
  destruct (redis_get (tokenKey sha256 rs raw) st) as [v|] eqn:Et; [|exists RNil, st; split; [done|]; split; [done|]; eexists; split; [by right|done]]. apply Hu in Et as Hv. subst v.
  rewrite M_bind_run. unfold gets. cbn beta iota.
  destruct (bool_decide_reflect (redis_get (slot_of u) st = Some (hash raw))) as [Hs|Hs]; cbn [negb]; [|exists RNil, st; split; [done|]; split; [done|]; eexists; split; [by right|done]].
  exists (RBulk u), (redis_del (slot_of u) (redis_del (tokenKey sha256 rs raw) st)).
  split; [reflexivity|]. split; [by apply (shrinks_agree _ _ (del_shrinks _ _)), (shrinks_agree _ _ (del_shrinks _ _))|].
  exists (closed sha256 u (table st)). split; [left; split_and!; [done|by apply session_keys|done]|]. intros x.
  change (slot_of u) with (slot (sha256 u)). rewrite del_slot. unfold closed at 1.
  destruct (String.eqb_spec x (sha256 u)) as [->|Hne]; [unfold closed; by rewrite String.eqb_refl|].
  unfold tokenKey. by rewrite del_token, (forgotten_closed u).
Qed.

Lemma revoke_performs u raw st : agree st -> held_by u raw st ->
  performs (revokeRefreshScript (tokenKey sha256 rs raw) (slot_of u) (hash raw)) st (fun _ σ σ' => σ' = forgotten (hash raw) σ).
Proof.
  intros Ha Hu. unfold performs, revokeRefreshScript, GET. rewrite M_bind_run. unfold gets at 1. cbn beta iota.
  destruct (redis_get (tokenKey sha256 rs raw) st) as [v|] eqn:Et.
  2: { eexists _, st. split; [reflexivity|]. split; [done|]. eexists. split; [done|]. intros x. rewrite <- del_token.
    unfold table. rewrite redis_get_del_ne by (intros E; by eapply token_slot). destruct (redis_get (slot x) st) as [h|]; [|done].
    destruct (decide (h = hash raw)) as [->|Hne]; [rewrite redis_get_del; unfold tokenKey in Et; by rewrite Et|].
    by rewrite redis_get_del_ne by (by intros E%token_inj). }
  rewrite M_bind_run. unfold DEL, modify at 1. cbn beta iota. rewrite M_bind_run. unfold gets. cbn beta iota.
  set (st1 := redis_del (tokenKey sha256 rs raw) st).
  destruct (bool_decide_reflect (redis_get (slot_of u) st1 = Some (hash raw))) as [Hs|Hs];
    (eexists _, _; split; [reflexivity|]; split; [repeat (eapply shrinks_agree; [apply del_shrinks|]); done|]; eexists; split; [done|]);
    intros x; [|apply del_token].
  change (slot_of u) with (slot (sha256 u)). rewrite del_slot, <- del_token. fold (tokenKey sha256 rs raw). fold st1. unfold closed.
  destruct (String.eqb_spec x (sha256 u)) as [->|Hne]; [|done]. unfold table. change (slot (sha256 u)) with (slot_of u). rewrite Hs.
  unfold st1, tokenKey. by rewrite redis_get_del.
Qed.

Lemma revokeAll_performs u st : agree st ->
  performs (revokeAllRefreshScript (slot_of u) (tokenPrefix rs)) st (fun _ σ σ' => σ' = closed sha256 u σ).
Proof.
  intros Ha. unfold performs, revokeAllRefreshScript, GET. rewrite M_bind_run. unfold gets. cbn beta iota.
  destruct (redis_get (slot_of u) st) as [h|] eqn:Es.
  - exists (RInt 1), (redis_del (slot_of u) (redis_del (tokenPrefix rs +:+ h) st)).
    split; [reflexivity|]. split; [by apply (shrinks_agree _ _ (del_shrinks _ _)), (shrinks_agree _ _ (del_shrinks _ _))|]. eexists. split; [done|]. intros x.
    rewrite token_prefix. change (slot_of u) with (slot (sha256 u)). rewrite del_slot. unfold closed at 1.
    destruct (String.eqb_spec x (sha256 u)) as [->|Hne]; [unfold closed; by rewrite String.eqb_refl|]. by rewrite del_token, (forgotten_closed u).
  - eexists _, st. split; [reflexivity|]. split; [done|]. eexists. split; [done|]. intros x. unfold closed.
    destruct (String.eqb_spec x (sha256 u)) as [->|Hne]; [|done]. unfold table. change (slot (sha256 u)) with (slot_of u). by rewrite Es.
Qed.

(** *** The operations *)
(** Fresh random bytes, drawn without touching the store. *)
Hypothesis rand_tick : forall n w, redis_tick (redis_store w) (redis_store (rand_read n w).2).
Hypothesis rand_no_panic : forall n w, (rand_read n w).1 <> Panic.
Hypothesis rand_unused : forall n w t w', rand_read n w = (Ok t, w') -> unused (hash (base64url t)) (redis_store w').

(** The errors of the client are not those of the store. *)
Hypothesis redis_errors : forall A (f : M S A) w e w', redis_eval f w = (Err e, w') ->
  errors_is ErrInvalidRefreshToken e = false /\ errors_is ErrNotFound e = false.

(** A computation moves the table as [Q] says, between two passages of time. *)
Definition moves (w w' : W) (Q : sessions -> sessions -> Prop) : Prop :=
  agree (redis_store w') /\ exists s1 σ2 s2, redis_tick (redis_store w) s1 /\ redis_tick s2 (redis_store w') /\
    (forall x, table s2 x = σ2 x) /\ Q (table s1) σ2.

Lemma moves_after w w0 w' Q : redis_tick (redis_store w) (redis_store w0) -> moves w0 w' Q -> moves w w' Q.
Proof. intros Ht (Ha & s1 & σ2 & s2 & Ht1 & Hrest). split; [done|]. exists s1, σ2, s2. split; [by etransitivity|done]. Qed.
Lemma moves_mono w w' (Q Q' : sessions -> sessions -> Prop) : (forall σ σ', Q σ σ' -> Q' σ σ') -> moves w w' Q -> moves w w' Q'.
Proof. intros HQ (Ha & s1 & σ2 & s2 & Ht1 & Ht2 & E & Hq). split; [done|]. exists s1, σ2, s2. auto. Qed.
Lemma moves_still w w' (Q : sessions -> sessions -> Prop) :
  agree (redis_store w) -> redis_tick (redis_store w) (redis_store w') -> (forall σ, Q σ σ) -> moves w w' Q.
Proof.
  intros Ha Ht HQ. split; [by eapply shrinks_agree; [apply tick_shrinks|]|]. exists (redis_store w'), (table (redis_store w')), (redis_store w'). by split_and!.
Qed.

Lemma eval_moves f (pre : S -> Prop) P w r w' :
  (forall st, agree st -> pre st -> performs f st P) -> (forall st st', shrinks st st' -> pre st -> pre st') ->
  agree (redis_store w) -> pre (redis_store w) -> cache_Eval f w = (r, w') ->
  moves w w' (fun σ σ' => match r with Ok a => P a σ σ' | Err _ => σ' = σ \/ exists a, P a σ σ' | Panic => False end).
Proof.
  intros Hf Hpre Ha Hp E. unfold cache_Eval, eval in E. rewrite M_bind_run in E. destruct (redis_eval f w) as [r1 w1] eqn:E1.
  apply redis_eval_outcome in E1 as (s1 & Ht1 & Hr). pose proof (tick_shrinks _ _ Ht1) as Hs.
  assert (agree s1) as Ha1 by by eapply shrinks_agree. destruct (Hf s1 Ha1 (Hpre _ _ Hs Hp)) as (a & s2 & Ef & Ha2 & σ2 & HP & Eσ).
  assert (forall w2 Q, redis_tick s2 (redis_store w2) -> Q (table s1) σ2 -> moves w w2 Q) as Hdone.
  { intros w2 Q Ht2 HQ. split; [by eapply shrinks_agree; [apply tick_shrinks|]|]. by exists s1, σ2, s2. }
  destruct r1 as [a'|e|]; [| |done].
  - destruct Hr as (s2' & Ef' & Ht2). rewrite Ef in Ef'. injection Ef' as <- <-.
    destruct a; injection E as <- <-; apply Hdone; try done; right; by eexists.
  - injection E as <- <-. rewrite Ef in Hr. destruct Hr as [Ht2|Ht2]; [|apply Hdone; [done|right; by eexists]].
    split; [by eapply shrinks_agree; [apply tick_shrinks|]|]. exists s1, (table s1), s1. split_and!; auto.
Qed.

Lemma newRefreshToken_outcome w r w' : newRefreshToken rand_read base64url w = (r, w') ->
  redis_tick (redis_store w) (redis_store w') /\
  match r with Ok raw => unused (hash raw) (redis_store w') | Err e => e <> ErrInvalidRefreshToken | Panic => False end.
Proof.
  unfold newRefreshToken. rewrite M_bind_run. unfold wrap. pose proof (rand_tick 32 w) as Ht. pose proof (rand_no_panic 32 w) as Hp.
  destruct (rand_read 32 w) as [[t|e|] w1] eqn:E; intros [= <- <-]; split; try done. by eapply rand_unused.
Qed.

Lemma Lookup_outcome raw w r w' : Lookup sha256 rs raw w = (r, w') ->
  redis_tick (redis_store w) (redis_store w') /\
  match r with
  | Ok u => held_by u raw (redis_store w')
  | Err e => errors_is ErrInvalidRefreshToken e = true -> raw = "" \/ held_by "" raw (redis_store w')
  | Panic => False
  end.
Proof.
  unfold Lookup. destruct (is_empty raw) eqn:Eraw; [intros E; injection E as <- <-; apply is_empty_true in Eraw; split; [reflexivity|intros _; by left]|].
  rewrite M_bind_run. unfold try, cache_Get. rewrite M_bind_run.
  destruct (redis_eval (GET (tokenKey sha256 rs raw)) w) as [r1 w1] eqn:E1. pose proof E1 as E2.
  apply redis_eval_outcome in E1 as (s1 & Ht1 & Hr). destruct r1 as [v|e|]; [| |done].
  - destruct Hr as (s2 & [= <- <-] & Ht2). intros E.
    assert (redis_tick (redis_store w) (redis_store w1)) as Ht by (by etransitivity).
    assert (forall v, default v (redis_get (tokenKey sha256 rs raw) s1) = v -> held_by v raw (redis_store w1)) as Hheld.
    { intros v Hv v' Hv'%(tick_shrinks _ _ Ht2). rewrite Hv' in Hv. exact Hv. }
    destruct (redis_get (tokenKey sha256 rs raw) s1) as [v|] eqn:Ev; cbn in E.
    + destruct (is_empty v) eqn:Ee; injection E as <- <-; (split; [done|]); [|by apply Hheld].
      apply is_empty_true in Ee as ->. right. by apply Hheld.
    + injection E as <- <-. split; [done|]. right. by apply Hheld.
  - assert (redis_tick (redis_store w) (redis_store w1)) as Ht by (by destruct Hr; etransitivity).
    apply redis_errors in E2 as [E2 E3]. rewrite E3. intros [= <- <-]. split; [done|]. cbn. by rewrite E2.
Qed.

(** What an operation answers; the texts of [Revoke] and [RevokeAll] are
    empty. *)
Definition answer (op : refresh_op) : M W string :=
  match op with
  | OpIssue u => Issue sha256 rand_read base64url rs u
  | OpLookup raw => Lookup sha256 rs raw
  | OpRotate raw u => Rotate sha256 rand_read base64url rs raw u
  | OpConsume raw => Consume sha256 rs raw
  | OpRevoke raw => _ ← Revoke sha256 rs raw; mret ""
  | OpRevokeAll u => _ ← RevokeAll sha256 rs u; mret ""
  end.

Abbreviation steps op r := (table_step sha256 op r).

Lemma Issue_moves u w r w' : agree (redis_store w) -> answer (OpIssue u) w = (r, w') -> moves w w' (steps (OpIssue u) r).
Proof.
  cbn. unfold Issue. rewrite M_bind_run. intros Ha E. destruct (newRefreshToken rand_read base64url w) as [r0 w0] eqn:E0.
  apply newRefreshToken_outcome in E0 as [Ht Hr0]. assert (agree (redis_store w0)) as Ha0 by (eapply shrinks_agree; [by apply tick_shrinks|done]).
  destruct r0 as [raw|e|]; [|injection E as <- <-; apply moves_still; auto using step_failed|done].
  apply (moves_after _ w0); [done|]. rewrite M_bind_run in E. unfold wrap in E. destruct (cache_Eval _ w0) as [r1 w1] eqn:E1.
  apply (eval_moves _ (unused (hash raw)) (fun a σ σ' => a = RInt 1 /\ σ' = opened sha256 u (hash raw) σ)) in E1;
    [|by intros; apply replace_performs|by intros; eapply shrinks_unused|done|done].
  destruct r1 as [a|e|]; [| |by destruct E1 as (_ & ? & ? & ? & _ & _ & _ & [])]; injection E as <- <-; revert E1; apply moves_mono; intros σ σ'.
  - intros [_ ->]. apply step_issue.
  - intros [->|(a & _ & ->)]; [apply step_failed; auto|apply (step_lost _ _ raw); [auto|apply step_issue]].
Qed.

Lemma Rotate_moves raw u w r w' : agree (redis_store w) -> answer (OpRotate raw u) w = (r, w') -> moves w w' (steps (OpRotate raw u) r).
Proof.
  cbn. unfold Rotate. intros Ha E. destruct (is_empty raw || is_empty u) eqn:Eargs.
  { injection E as <- <-. apply moves_still; [done|done|]. intros σ. apply step_rotate_refused.
    apply orb_true_iff in Eargs as [?%is_empty_true|?%is_empty_true]; auto. }
  rewrite M_bind_run in E. destruct (newRefreshToken rand_read base64url w) as [r0 w0] eqn:E0.
  apply newRefreshToken_outcome in E0 as [Ht Hr0]. assert (agree (redis_store w0)) as Ha0 by (eapply shrinks_agree; [by apply tick_shrinks|done]).
  destruct r0 as [next|e|]; [|injection E as <- <-; apply moves_still; auto using step_failed|done].
  apply (moves_after _ w0); [done|]. rewrite M_bind_run in E. unfold wrap in E. destruct (cache_Eval _ w0) as [r1 w1] eqn:E1.
  eapply (eval_moves _ (unused (hash next))) in E1; [|by intros; apply rotate_performs|by intros; eapply shrinks_unused|done|done].
  destruct r1 as [a|e|]; [| |by destruct E1 as (_ & ? & ? & ? & _ & _ & _ & [])].
  - assert (moves w0 w1 (steps (OpRotate raw u) (if bool_decide (a = RInt 1) then Ok next else Err ErrInvalidRefreshToken))) as Hm.
    { revert E1. apply moves_mono. intros σ σ' [(-> & Hs & ->)|(-> & Hs & ->)]; cbn; [by apply step_rotate|apply step_rotate_refused; auto]. }
    destruct a as [[|[]|]| |]; injection E as <- <-; exact Hm.
  - injection E as <- <-. revert E1. apply moves_mono. intros σ σ' [->|(a & [(_ & Hs & ->)|(_ & _ & ->)])].
    1, 3: by apply step_failed; auto. apply (step_lost _ _ next); [done|by apply step_rotate].
Qed.

Lemma Consume_moves raw w r w' : agree (redis_store w) -> answer (OpConsume raw) w = (r, w') -> moves w w' (steps (OpConsume raw) r).
Proof.
  cbn. unfold Consume. intros Ha E. destruct (is_empty raw).
  { injection E as <- <-. apply moves_still; [done|done|]. intros σ. apply step_failed. auto. }
  rewrite M_bind_run in E. destruct (Lookup sha256 rs raw w) as [r0 w0] eqn:E0. unfold try in E. rewrite E0 in E.
  apply Lookup_outcome in E0 as [Ht Hr0]. assert (agree (redis_store w0)) as Ha0 by (eapply shrinks_agree; [by apply tick_shrinks|done]).
  destruct r0 as [u|e|]; [|injection E as <- <-; apply moves_still; auto using step_failed|done].
  apply (moves_after _ w0); [done|]. rewrite M_bind_run in E. unfold wrap in E. destruct (cache_Eval _ w0) as [r1 w1] eqn:E1.
  eapply (eval_moves _ (held_by u raw)) in E1; [|by intros; apply consume_performs|by intros st st' Hs Hh v Hv%Hs; apply Hh|done|done].
  destruct r1 as [a|e|]; [| |by destruct E1 as (_ & ? & ? & ? & _ & _ & _ & [])].
  - assert (moves w0 w1 (steps (OpConsume raw) (if bool_decide (a = RBulk u) then Ok u else Err ErrInvalidRefreshToken))) as Hm.
    { revert E1. apply moves_mono. intros σ σ' [(-> & Hs & ->)|(-> & ->)]; cbn.
      - rewrite bool_decide_eq_true_2 by done. by apply step_consume.
      - rewrite bool_decide_eq_false_2 by done. apply step_failed. by intros []. }
    destruct a as [|v|]; cbn in Hm; [injection E as <- <-; exact Hm| |injection E as <- <-; exact Hm].
    destruct (String.eqb_spec v u) as [->|Hne]; injection E as <- <-; [by rewrite bool_decide_eq_true_2 in Hm|].
    rewrite bool_decide_eq_false_2 in Hm by congruence. exact Hm.
  - injection E as <- <-. revert E1. apply moves_mono. intros σ σ' [->|(a & [(_ & Hs & ->)|(_ & ->)])].
    1, 3: by apply step_failed; auto. apply (step_lost _ _ u); [auto|by apply step_consume].
Qed.

Lemma Revoke_moves raw w r w' : agree (redis_store w) -> answer (OpRevoke raw) w = (r, w') -> moves w w' (steps (OpRevoke raw) r).
Proof.
  cbn. unfold Revoke. intros Ha E. destruct (is_empty raw) eqn:Eraw.
  { injection E as <- <-. apply moves_still; [done|done|]. intros σ. apply step_revoke_none. left. by apply is_empty_true. }
  rewrite !M_bind_run in E. destruct (Lookup sha256 rs raw w) as [r0 w0] eqn:E0. unfold try in E. rewrite E0 in E.
  apply Lookup_outcome in E0 as [Ht Hr0]. assert (agree (redis_store w0)) as Ha0 by (eapply shrinks_agree; [by apply tick_shrinks|done]).
  destruct r0 as [u|e|]; [| |done].
  - apply (moves_after _ w0); [done|]. rewrite M_bind_run in E. destruct (cache_Eval _ w0) as [r1 w1] eqn:E1.
    eapply (eval_moves _ (held_by u raw)) in E1; [|by intros; apply revoke_performs|by intros st st' Hs Hh v Hv%Hs; apply Hh|done|done].
    destruct r1 as [a|e|]; [| |by destruct E1 as (_ & ? & ? & ? & _ & _ & _ & [])]; injection E as <- <-; revert E1; apply moves_mono; intros σ σ'.
    + intros ->. apply step_revoke.
    + intros [->|(a & ->)]; [apply step_failed; auto|apply (step_lost _ _ ""); [auto|apply step_revoke]].
  - destruct (errors_is ErrInvalidRefreshToken e); injection E as <- <-; [|apply moves_still; auto using step_failed].
    destruct (Hr0 eq_refl) as [->|Hh]; [apply moves_still; [done|done|]; intros σ; apply step_revoke_none; auto|].
    split; [done|]. exists (redis_store w0), (table (redis_store w0)), (redis_store w0). split_and!; [done|done|done|].
    apply step_revoke_none. right. intros x u Hx. apply Hh. unfold table in Hx. unfold tokenKey.
    destruct (redis_get (slot x) _) as [h|]; [|done]. destruct (redis_get (token h) _) eqn:Eh; [|done]. injection Hx as -> ->. exact Eh.
Qed.

Lemma RevokeAll_moves u w r w' : agree (redis_store w) -> answer (OpRevokeAll u) w = (r, w') -> moves w w' (steps (OpRevokeAll u) r).
Proof.
  cbn. unfold RevokeAll. intros Ha E. rewrite !M_bind_run in E. destruct (cache_Eval _ w) as [r1 w1] eqn:E1.
  apply (eval_moves _ (fun _ => True) (fun _ σ σ' => σ' = closed sha256 u σ)) in E1; [|by intros; apply revokeAll_performs|done|done|done].
  destruct r1 as [a|e|]; [| |by destruct E1 as (_ & ? & ? & ? & _ & _ & _ & [])]; injection E as <- <-; revert E1; apply moves_mono; intros σ σ'.
  - intros ->. apply step_revoke_all.
  - intros [->|(a & ->)]; [apply step_failed; auto|apply (step_lost _ _ ""); [auto|apply step_revoke_all]].
Qed.

Lemma Lookup_moves raw w r w' : agree (redis_store w) -> answer (OpLookup raw) w = (r, w') -> moves w w' (steps (OpLookup raw) r).
Proof.
  intros Ha [Ht Hr]%Lookup_outcome. destruct r as [u|e|]; [| |done]; apply moves_still; auto using step_lookup, step_failed.
Qed.

Lemma answer_moves op w r w' : agree (redis_store w) -> answer op w = (r, w') -> moves w w' (steps op r).
Proof. destruct op; [apply Issue_moves|apply Lookup_moves|apply Rotate_moves|apply Consume_moves|apply Revoke_moves|apply RevokeAll_moves]. Qed.

(** The answers to a history of operations. *)
Fixpoint answers (ops : list refresh_op) (w : W) : list (refresh_op * res string) * W :=
  match ops with
  | [] => ([], w)
  | op :: ops => let (r, w) := answer op w in let (rs, w) := answers ops w in ((op, r) :: rs, w)
  end.

End Refinement.

(** ** A store where nothing expires, and a source that never repeats *)
Module Example.
Abbreviation World := (gmap string string).
Definition sha (x : string) : string := x.
Definition url (x : string) : string := x.
Definition rs : RefreshStore := mkRefreshStore "refresh" Hour.

#[export] Instance direct : Redis World World := {
  redis_store w := w;
  redis_eval A f w := match f w with
    | (Ok a, s) => (Ok a, s)
    | (_, s) => (Err (EText "ERR"), s)
    end;
}.
#[export] Instance direct_laws : RedisLaws World World.
Proof.
  split. intros A f w r w' E. cbn in *. exists w. split; [done|]. destruct (f w) as [[a|e|] s]; injection E as <- <-; eauto.
Qed.

(** A text longer than every key and value. *)
Fixpoint letters (n : nat) : string := match n with O => "" | S n => String "a" (letters n) end.
Definition longest (w : World) : nat :=
  foldr (fun kv n => Nat.max (Nat.max (String.length kv.1) (String.length kv.2)) n) O (map_to_list w).
Definition rand (_ : Z) : M World string := fun w => (Ok (letters (S (longest w))), w).

Lemma length_letters n : String.length (letters n) = n.
Proof. induction n as [|n IH]; cbn; congruence. Qed.
Lemma length_text_app a b : String.length (a +:+ b) = (String.length a + String.length b)%nat.
Proof. induction a as [|c a IH]; [done|]. exact (f_equal S IH). Qed.
Lemma length_hash s : len (hash sha s) = 2 * len s.
Proof. unfold hash, hex_EncodeToString, sha. rewrite !len_bytes, bytes_of_bytes, length_hex_encode. lia. Qed.
Lemma longest_spec (w : World) k v : w !! k = Some v -> (String.length k <= longest w /\ String.length v <= longest w)%nat.
Proof.
  intros Hk%elem_of_map_to_list. unfold longest. revert Hk. generalize (map_to_list w). intros l. induction l as [|kv l IH]; intros Hk; [by apply elem_of_nil in Hk|].
  apply elem_of_cons in Hk as [<-|Hk]; cbn; [lia|]. apply IH in Hk. lia.
Qed.

Lemma rand_is_unused n w t w' : rand n w = (Ok t, w') -> unused rs (hash sha (url t)) (redis_store w').
Proof.
  intros E. assert (t = letters (S (longest w)) /\ w' = w) as [-> ->] by (unfold rand in E; split; congruence).
  clear E. pose proof (length_hash (letters (S (longest w)))) as Hl. unfold len in Hl. rewrite length_letters in Hl.
  unfold url. set (h := hash sha (letters (S (longest w)))) in *. clearbody h. split; cbn.
  - destruct (w !! _) eqn:E; [|done]. exfalso. apply longest_spec in E as [E _]. rewrite !length_text_app in E. lia.
  - intros x E. apply longest_spec in E as [_ E]. lia.
Qed.
End Example.
Import Example.

(** A token is moved, then refused, then its successor is revoked. *)
Definition example_history : list refresh_op := [OpIssue "u"; OpRotate "a" "u"; OpRotate "a" "u"; OpLookup "aaaaaaaaaaaaaaaaa"; OpRevokeAll "u"].

Lemma example_errors A (f : M World A) (w : World) e (w' : World) : redis_eval f w = (Err e, w') ->
  errors_is ErrInvalidRefreshToken e = false /\ errors_is ErrNotFound e = false.
Proof. cbn. by destruct (f w) as [[a|e'|] s]; intros [= <- <-]. Qed.

Lemma empty_agrees : agree sha rs (redis_store (∅ : World)).
Proof. intros x h u Hx. cbn in Hx. by rewrite lookup_empty in Hx. Qed.

