(* ===== verification/Token.v ===== *)
(** * Access tokens ([pkg/modules/iam/token.go])

    A token is the base 64 texts of a header and of the claims, and the MAC
    of the two.  HMAC-SHA256 and [encoding/json] are parameters; [JsonLaws]
    says that what is marshalled is read back. *)
From S2P Require Import Prelude GoStrings Base64.

(** @src pkg/modules/iam/token.go:14-19 AccessClaims *)
Record AccessClaims := mkAccessClaims { Issuer : string; Subject : string; IssuedAt : Z; ExpiresAt : Z }.

(** @src pkg/modules/iam/token.go:21-26 JWTManager *)
Record JWTManager := mkJWTManager { secret : string; issuer : string; ttl : Z }.

(** The uses of [encoding/json]: an object of strings, and the claims. *)
Class Json := {
  marshal_object : gmap string string -> string;
  unmarshal_object : string -> option (gmap string string);
  marshal_claims : AccessClaims -> string;
  (** the claims, or the error of the decoder *)
  unmarshal_claims : string -> res AccessClaims;
  (** a string the encoder does not have to repair: valid UTF-8 *)
  valid_text : string -> Prop;
}.

Definition object_valid `{Json} (m : gmap string string) : Prop := map_Forall (fun k v => valid_text k /\ valid_text v) m.

Class JsonLaws `{Json} := {
  object_roundtrip : forall m, object_valid m -> unmarshal_object (marshal_object m) = Some m;
  claims_roundtrip : forall c, valid_text (Issuer c) -> valid_text (Subject c) ->
    in_int64 (IssuedAt c) -> in_int64 (ExpiresAt c) -> unmarshal_claims (marshal_claims c) = Ok c;
  ascii_valid : forall s, is_ascii s = true -> valid_text s;
}.

Section Token.
Context `{Json}.
(** [hmac_sha256 secret value] *)
Variable hmac_sha256 : string -> string -> string.

(** @src pkg/modules/iam/token.go:28-36 NewJWTManager *)
Definition NewJWTManager (secret issuer : string) (ttl : Z) : res JWTManager :=
  if len secret <? 32 then Err (EText "JWT secret must contain at least 32 bytes")
  else if is_empty (TrimSpace issuer) || (ttl <=? 0) then Err (EText "JWT issuer and positive TTL are required")
  else Ok (mkJWTManager secret issuer ttl).

(** The operations take the instant their clock gives. *)
Variable m : JWTManager.

(** [Time.Unix] *)
Definition unix (t : Z) : Z := t / Second.

(** @src pkg/modules/iam/token.go:79-83 sign *)
Definition sign (value : string) : string := EncodeToString RawURL (hmac_sha256 (secret m) value).

Definition header_object : gmap string string := {[ "alg" := "HS256"; "typ" := "JWT" ]}.

(** @src pkg/modules/iam/token.go:38-47 Issue *)
Definition Issue (now : Z) (subject : string) : res string :=
  if is_empty (TrimSpace subject) then Err (EText "token subject is required")
  else
    let header := marshal_object header_object in
    let payload := marshal_claims (mkAccessClaims (issuer m) subject (unix now) (unix (now + ttl m))) in
    let unsigned := EncodeToString RawURL header +:+ "." +:+ EncodeToString RawURL payload in
    Ok (unsigned +:+ "." +:+ sign unsigned).

(** @src pkg/modules/iam/token.go:49-77 Parse *)
Definition Parse (now : Z) (raw : string) : res AccessClaims :=
  match Split raw "." with
  | [p0; p1; p2] =>
      if negb (String.eqb p2 (sign (p0 +:+ "." +:+ p1))) then Err (EText "invalid access token signature")
      else match DecodeString RawURL p0 with
      | None => Err (EText "invalid access token header")
      | Some headerBytes =>
          match unmarshal_object headerBytes with
          | Some header =>
              if negb (String.eqb (default "" (header !! "alg")) "HS256") ||
                 negb (String.eqb (default "" (header !! "typ")) "JWT")
              then Err (EText "unsupported access token")
              else match DecodeString RawURL p1 with
              | None => Err (EText "invalid access token payload")
              | Some payload =>
                  match unmarshal_claims payload with
                  | Ok claims =>
                      if negb (String.eqb (Issuer claims) (issuer m)) || is_empty (Subject claims) ||
                         (ExpiresAt claims <=? unix now)
                      then Err (EText "access token expired or invalid")
                      else Ok claims
                  | Err err => Err (EWrap "decode access token" err)
                  | Panic => Panic
                  end
              end
          | None => Err (EText "unsupported access token")
          end
      end
  | _ => Err (EText "invalid access token")
  end.
End Token.

(** ** Splitting at dots *)
Lemma Split_three a b c :
  Forall (fun x => x <> "."%char) (bytes a) -> Forall (fun x => x <> "."%char) (bytes b) ->
  Forall (fun x => x <> "."%char) (bytes c) ->
  Split ((a +:+ "." +:+ b) +:+ "." +:+ c) "." = [a; b; c].
Proof.
  intros Ha Hb Hc. unfold Split. rewrite !bytes_app, <- app_assoc. simpl.
  rewrite split_on_app, split_on_app, split_on_no_sep by done. simpl. by rewrite !of_bytes_bytes.
Qed.

Lemma split_on_join sep l : mjoin (map (cons sep) (split_on sep l)) = sep :: l.
Proof.
  induction l as [|c l IH]; [done|]. simpl. case_bool_decide as Hc; simpl.
  - by rewrite IH, Hc.
  - destruct (split_on sep l) as [|w ws]; simpl in *; [done|]. injection IH as <-. done.
Qed.

(** The parts of a text are its segments between the dots. *)
Lemma Split_three_inv raw p0 p1 p2 : Split raw "." = [p0; p1; p2] -> raw = (p0 +:+ "." +:+ p1) +:+ "." +:+ p2.
Proof.
  unfold Split. pose proof (split_on_join "." (bytes raw)) as Hj. intros E.
  destruct (split_on "." (bytes raw)) as [|a [|b [|c [|d l]]]]; try done. simpl in E, Hj. injection E as <- <- <-.
  rewrite app_nil_r in Hj. injection Hj as Hj. rewrite <- (of_bytes_bytes raw), <- Hj.
  rewrite <- (of_bytes_bytes (_ +:+ _)). f_equal. rewrite !bytes_app, !bytes_of_bytes, <- app_assoc. done.
Qed.

Section Tokens.
Context `{JsonLaws}.
Variable hmac_sha256 : string -> string -> string.
Variable m : JWTManager.

Lemma encoded_no_dot s : Forall (fun c => c <> "."%char) (bytes (EncodeToString RawURL s)).
Proof.
  unfold EncodeToString. rewrite bytes_of_bytes. eapply Forall_impl; [apply encode_no_sep, RawURL_ok|].
  by intros c [? _].
Qed.

Lemma header_valid : object_valid header_object.
Proof.
  intros k v Hk. unfold header_object in Hk.
  apply lookup_insert_Some in Hk as [[<- <-]|[_ Hk]]; [|apply lookup_singleton_Some in Hk as [<- <-]];
    split; by apply ascii_valid.
Qed.

(** C33: an access token is accepted until it expires.  What [Issue] gives for
    a subject is, for the same manager, parsed to the claims it was issued
    with at any instant before the expiry, and refused from the expiry on. *)
Theorem access_token_roundtrip now later subject raw :
  Issue hmac_sha256 m now subject = Ok raw ->
  valid_text (issuer m) -> valid_text subject -> in_int64 (unix now) -> in_int64 (unix (now + ttl m)) ->
  let claims := mkAccessClaims (issuer m) subject (unix now) (unix (now + ttl m)) in
  Parse hmac_sha256 m later raw =
    if unix later <? unix (now + ttl m) then Ok claims else Err (EText "access token expired or invalid").
Proof.
  intros E Hi Hsub Hn He claims. unfold Token.Issue in E.
  destruct (is_empty (TrimSpace subject)) eqn:Hs; [done|]. injection E as <-.
  unfold Parse. rewrite Split_three by apply encoded_no_dot.
  rewrite String.eqb_refl. simpl. rewrite !DecodeString_EncodeToString by apply RawURL_ok.
  rewrite object_roundtrip by apply header_valid. simpl.
  replace (header_object !! "alg") with (Some "HS256") by reflexivity.
  replace (header_object !! "typ") with (Some "JWT") by reflexivity.
  rewrite claims_roundtrip by done. simpl. rewrite String.eqb_refl.
  assert (is_empty subject = false) as -> by (apply is_empty_false; by intros ->). simpl.
  rewrite Z.leb_antisym. by destruct (_ <? _).
Qed.

(** What an accepted token proves.  The text is three parts, the last the
    MAC under the secret of the two others; the first names the only supported
    algorithm, and the second holds the claims: the issuer is the manager's,
    the subject is not empty and the expiry is later than now. *)
Theorem Parse_accepts_signed now raw claims :
  Parse hmac_sha256 m now raw = Ok claims ->
  exists p0 p1 header headerText payload,
    raw = (p0 +:+ "." +:+ p1) +:+ "." +:+ sign hmac_sha256 m (p0 +:+ "." +:+ p1) /\
    DecodeString RawURL p0 = Some headerText /\ unmarshal_object headerText = Some header /\
    header !! "alg" = Some "HS256" /\ header !! "typ" = Some "JWT" /\
    DecodeString RawURL p1 = Some payload /\ unmarshal_claims payload = Ok claims /\
    Issuer claims = issuer m /\ Subject claims <> "" /\ unix now < ExpiresAt claims.
Proof.
  unfold Parse. destruct (Split raw ".") as [|p0 [|p1 [|p2 [|]]]] eqn:Es; try done.
  destruct (String.eqb_spec p2 (sign hmac_sha256 m (p0 +:+ "." +:+ p1))) as [->|]; [|done]. simpl.
  destruct (DecodeString RawURL p0) as [ht|] eqn:E0; [|done].
  destruct (unmarshal_object ht) as [h|] eqn:Eh; [|done].
  destruct (negb _ || negb _) eqn:Ealg; [done|]. bool_prop.
  destruct (DecodeString RawURL p1) as [pl|] eqn:E1; [|done].
  destruct (unmarshal_claims pl) as [c|e|] eqn:Ec; [|done|done].
  destruct (_ || _ || _) eqn:Ev; [done|]. intros [= ->]. bool_prop.
  exists p0, p1, h, ht, pl. apply Split_three_inv in Es. split_and!; try done.
  - destruct (h !! "alg") as [x|]; [|done]. simpl in *. f_equal. by apply String.eqb_eq.
  - destruct (h !! "typ") as [x|]; [|done]. simpl in *. f_equal. by apply String.eqb_eq.
  - by apply String.eqb_eq.
  - by apply is_empty_false.
Qed.
End Tokens.

(** ** A marshaller by bits *)
Module Example.
Fixpoint bits_text (p : positive) : string :=
  match p with xH => "" | xO p => String "0" (bits_text p) | xI p => String "1" (bits_text p) end.
Fixpoint text_bits (s : string) : option positive :=
  match s with
  | "" => Some xH
  | String "0" s => xO <$> text_bits s
  | String "1" s => xI <$> text_bits s
  | _ => None
  end.

Lemma text_bits_text p : text_bits (bits_text p) = Some p.
Proof. induction p as [p IH|p IH|]; simpl; [by rewrite IH|by rewrite IH|done]. Qed.

Definition claims_tuple (c : AccessClaims) := (Issuer c, Subject c, IssuedAt c, ExpiresAt c).

#[export] Instance json : Json := {
  marshal_object m := bits_text (countable.encode (map_to_list m));
  unmarshal_object s := p ← text_bits s; list_to_map <$> countable.decode p;
  marshal_claims c := bits_text (countable.encode (claims_tuple c));
  unmarshal_claims s :=
    match (p ← text_bits s; countable.decode p) with
    | Some (i, sub, iat, exp) => Ok (mkAccessClaims i sub iat exp)
    | None => Err (EText "invalid character")
    end;
  valid_text s := is_ascii s = true;
}.

#[export] Instance json_laws : JsonLaws.
Proof.
  split; simpl.
  - intros m _. rewrite text_bits_text. simpl. rewrite countable.decode_encode. simpl. by rewrite list_to_map_to_list.
  - intros [i sub iat exp] _ _ _ _. rewrite text_bits_text. simpl. by rewrite countable.decode_encode.
  - done.
Qed.

Definition hmac (key v : string) : string := key +:+ v.
Definition manager : JWTManager := mkJWTManager (of_bytes (replicate 32 "k"%char)) "backend" (15 * Minute).
Definition token : res string := Issue hmac manager (100 * Second) "user".
End Example.
#[local] Existing Instance Example.json.
#[local] Existing Instance Example.json_laws.

(** Accepted after fourteen minutes, refused after fifteen. *)
Lemma access_token_roundtrip_witness :
  exists raw, Example.token = Ok raw /\
    Parse Example.hmac Example.manager (940 * Second) raw = Ok (mkAccessClaims "backend" "user" 100 1000) /\
    Parse Example.hmac Example.manager (1000 * Second) raw = Err (EText "access token expired or invalid").
Proof.
  destruct Example.token as [raw|e|] eqn:E; [|vm_compute in E; discriminate E..].
  exists raw. split; [reflexivity|]. split.
  - apply (access_token_roundtrip Example.hmac Example.manager (100 * Second) (940 * Second) "user" raw E);
      [reflexivity|reflexivity|split; vm_compute; discriminate..].
  - apply (access_token_roundtrip Example.hmac Example.manager (100 * Second) (1000 * Second) "user" raw E);
      [reflexivity|reflexivity|split; vm_compute; discriminate..].
Defined.

Lemma Parse_accepts_signed_witness :
  exists raw claims, Example.token = Ok raw /\ Parse Example.hmac Example.manager (940 * Second) raw = Ok claims /\
    Issuer claims = "backend" /\ Subject claims <> "".
Proof.
  destruct Example.token as [raw|e|] eqn:E; [|vm_compute in E; discriminate E..].
  destruct (Parse Example.hmac Example.manager (940 * Second) raw) as [claims|e|] eqn:E2;
    [|vm_compute in E; injection E as <-; vm_compute in E2; discriminate E2..].
  exists raw, claims. split; [reflexivity|]. split; [exact E2|].
  destruct (Parse_accepts_signed Example.hmac Example.manager (940 * Second) raw claims E2)
    as (p0 & p1 & h & ht & pl & _ & _ & _ & _ & _ & _ & _ & Hi & Hs & _).
  exact (conj Hi Hs).
Defined.
