(* ===== verification/Iam.v ===== *)
(** * The identity module: data, validation and interfaces
    ([pkg/modules/iam], files model, authentication and rbac)

    The repositories, the code store, the challenges, the mailer and the
    cryptography are interfaces of the services, as in the code: records of
    operations on the world, [None] where the code allows a nil interface.
    [net/mail]'s address parser is a parameter. *)
From S2P Require Import Prelude GoStrings Pagination IamSQL.

(** ** The model ([model.go]) *)

(** @src pkg/modules/iam/model.go:42-47 Role *)
Record Role := mkRole { role_ID : string; role_Name : string; role_Description : string; role_IsSystem : bool }.

(** @src pkg/modules/iam/model.go:24-35 User *)
Record User := mkUser {
  user_EmailVerifiedAt : option Z;
  user_ID : string;
  user_Email : string;
  user_Username : string;
  user_DisplayName : string;
  user_PasswordHash : string;
  user_Active : bool;
  user_CreatedAt : Z;
  user_UpdatedAt : Z;
  user_Roles : list Role;
}.

(** @src pkg/modules/iam/model.go:37-40 AuthenticatedUser *)
Record AuthenticatedUser := mkAuthenticatedUser { au_User : User; au_Permissions : list string }.

(** @src pkg/modules/iam/model.go:56-60 Permission *)
Record Permission := mkPermission { perm_ID : string; perm_Name : string; perm_Description : string }.

(** @src pkg/modules/iam/model.go:49-55 RoleDetail *)
Record RoleDetail := mkRoleDetail {
  rd_ID : string; rd_Name : string; rd_Description : string; rd_IsSystem : bool;
  rd_Permissions : list Permission }.

(** @src pkg/modules/iam/model.go:62-99 Preferences *)
Record Preferences := mkPreferences {
  Theme : string;
  ColorMode : string;
  AccentColor : option string;
  FontScale : string;
  RadiusScale : string;
}.

(** @src pkg/modules/iam/model.go:103-110 DefaultPreferences *)
Definition DefaultPreferences : Preferences := mkPreferences "enterprise" "system" None "standard" "compact".

(** @src pkg/modules/iam/model.go:112-129 Validate *)
Definition Preferences_Validate (p : Preferences) : option error :=
  if negb (String.eqb (Theme p) "enterprise") && negb (String.eqb (Theme p) "cyberpunk")
  then Some (ESentinel ErrInvalidUserInput)
  else if negb (String.eqb (ColorMode p) "light") && negb (String.eqb (ColorMode p) "dark")
          && negb (String.eqb (ColorMode p) "system") then Some (ESentinel ErrInvalidUserInput)
  else if negb (String.eqb (FontScale p) "small") && negb (String.eqb (FontScale p) "standard")
          && negb (String.eqb (FontScale p) "large") then Some (ESentinel ErrInvalidUserInput)
  else if negb (String.eqb (RadiusScale p) "square") && negb (String.eqb (RadiusScale p) "compact")
          && negb (String.eqb (RadiusScale p) "rounded") then Some (ESentinel ErrInvalidUserInput)
  else match AccentColor p with
       | Some a => if is_accent_color a then None else Some (ESentinel ErrInvalidUserInput)
       | None => None
       end.

(** @src pkg/modules/iam/model.go:131-136 CreateUserInput *)
Record CreateUserInput := mkCreateUserInput {
  cui_Email : string; cui_Username : string; cui_Password : string; cui_DisplayName : string }.
(** @src pkg/modules/iam/model.go:138-142 UpdateUserInput *)
Record UpdateUserInput := mkUpdateUserInput {
  uui_Email : string; uui_Username : string; uui_DisplayName : string }.
(** @src pkg/modules/iam/model.go:144-147 RoleInput *)
Record RoleInput := mkRoleInput { ri_Name : string; ri_Description : string }.
(** @src pkg/modules/iam/model.go:149-158 UserQuery *)
Record UserQuery := mkUserQuery {
  uq_Query : string; uq_Active : option bool; uq_Page : Z; uq_Size : Z }.
(** @src pkg/modules/iam/model.go:193-198 TokenPair *)
Record TokenPair := mkTokenPair {
  AccessToken : string; RefreshToken : string; TokenType : string; ExpiresIn : Z }.

(** ** Permissions ([rbac.go]) *)

(** @src pkg/modules/iam/rbac.go:5-19 HasPermission *)
Definition HasPermission (granted : list string) (required : string) : bool :=
  if is_empty required then false
  else
    let '(module, _, hasAction) := Cut required ":" in
    existsb (fun permission =>
      String.eqb permission "*" || String.eqb permission required ||
      (hasAction && String.eqb permission (module +:+ ":*"))) granted.

(** ** Authentication ([authentication.go]) *)

(** The three purposes of an email code.
    @src pkg/modules/iam/authentication.go:21-27 EmailCodePurpose *)
Definition EmailCodePurpose := string.
Definition EmailCodeRegister : EmailCodePurpose := "register".
Definition EmailCodeLogin : EmailCodePurpose := "login".
Definition EmailCodeVerify : EmailCodePurpose := "verify_email".

(** The pattern [^[0-9]{6}$].
    @src pkg/modules/iam/authentication.go:34-34 emailCodePattern *)
Definition is_email_code (s : string) : bool :=
  (String.length s =? 6)%nat && forallb is_digit (bytes s).

(** @src pkg/modules/iam/authentication.go:40-45 AuthenticationSettings *)
Record AuthenticationSettings := mkAuthenticationSettings {
  PasswordLoginEnabled : bool;
  RegistrationEnabled : bool;
  RegistrationEmailVerificationRequired : bool;
  AllowedEmailDomains : list string;
}.

(** @src pkg/modules/iam/authentication.go:46-50 AuthenticationState *)
Record AuthenticationState := mkAuthenticationState {
  st_Settings : AuthenticationSettings;
  st_BootstrapAdminUserID : string;
  st_InitializedAt : option Z;
}.

(** @src pkg/modules/iam/authentication.go:52-54 DefaultAuthenticationSettings *)
Definition DefaultAuthenticationSettings : AuthenticationSettings :=
  mkAuthenticationSettings true false true [].

(** A label of the domain pattern: [a-zA-Z0-9](?:[a-zA-Z0-9-]*[a-zA-Z0-9])?] *)
Definition is_label (l : list ascii) : bool :=
  match l with
  | [] => false
  | a :: rest =>
      is_alnum a && match last rest with Some z => is_alnum z | None => true end &&
      forallb (fun c => is_alnum c || Ascii.eqb c "-") rest
  end.

(** At least two labels separated by dots.
    @src pkg/modules/iam/authentication.go:56-56 domainPattern *)
Definition is_domain (s : string) : bool :=
  let labels := split_on "." (bytes s) in
  (2 <=? length labels)%nat && forallb is_label labels.

(** @src pkg/modules/iam/authentication.go:58-68 Validate *)
Definition Settings_Validate (s : AuthenticationSettings) : option error :=
  if (100 <? length (AllowedEmailDomains s))%nat then Some (ESentinel ErrInvalidUserInput)
  else if existsb (fun d => (253 <? len d) || negb (is_domain d)) (AllowedEmailDomains s)
  then Some (ESentinel ErrInvalidUserInput)
  else None.

(** [mail.ParseAddress]: the address it finds, if any. *)
Class MailParser := ParseAddress : string -> option string.

(** @src pkg/modules/iam/authentication.go:69-76 normalizeEmail *)
Definition normalizeEmail `{Unicode, MailParser} (email : string) : option string :=
  let email := ToLower (TrimSpace email) in
  match ParseAddress email with
  | Some address => if negb (String.eqb address email) || (254 <? len email) then None else Some email
  | None => None
  end.

(** @src pkg/modules/iam/authentication.go:78-83 SecuritySettings *)
Record SecuritySettings := mkSecuritySettings {
  RecoveryCodesExpiresAt : option Z;
  Mode : string;
  TOTPEnabled : bool;
  RecoveryCodesRemaining : Z;
}.

(** A nil byte slice is [None].
    @src pkg/modules/iam/authentication.go:84-92 SecurityState *)
Record SecurityState := mkSecurityState {
  sec_Settings : SecuritySettings;
  Version : Z;
  Secret : option string;
  PendingSecret : option string;
  PendingExpiresAt : option Z;
  LastTOTPStep : Z;
  RecoveryHashes : list string;
}.

(** @src pkg/modules/iam/authentication.go:93-97 LoginInput *)
Record LoginInput := mkLoginInput { li_Email : string; li_Password : string; li_EmailCode : string }.
(** @src pkg/modules/iam/authentication.go:98-103 LoginResult *)
Record LoginResult := mkLoginResult {
  lr_TokenPair : TokenPair; lr_Status : string; lr_ChallengeID : string; lr_ChallengeExpiresIn : Z }.
(** @src pkg/modules/iam/authentication.go:104-109 RegisterInput *)
Record RegisterInput := mkRegisterInput {
  reg_Username : string; reg_Email : string; reg_Password : string; reg_EmailCode : string }.
(** @src pkg/modules/iam/authentication.go:110-114 VerifyInput *)
Record VerifyInput := mkVerifyInput { vi_ChallengeID : string; vi_Code : string; vi_RecoveryCode : string }.
(** @src pkg/modules/iam/authentication.go:115-119 SecurityProof *)
Record SecurityProof := mkSecurityProof { sp_Password : string; sp_Code : string; sp_RecoveryCode : string }.
(** @src pkg/modules/iam/authentication.go:120-124 Enrollment *)
Record Enrollment := mkEnrollment { en_Secret : string; en_OTPAuthURI : string; en_ExpiresIn : Z }.
(** @src pkg/modules/iam/authentication.go:125-128 CodeReceipt *)
Record CodeReceipt := mkCodeReceipt { rc_ID : string; rc_ExpiresAt : Z }.
(** @src pkg/modules/iam/authentication.go:149-152 Challenge *)
Record Challenge := mkChallenge { ch_UserID : string; ch_Version : Z }.

(** ** The interfaces of the services *)
Section Interfaces.
Context (W : Type).

(** @src pkg/modules/iam/model.go:160-166 UserRepository *)
Record UserRepository := mkUserRepository {
  FindByEmail : string -> M W User;
  FindByID : string -> M W User;
  List_ : string * option bool -> Z -> Z -> M W (list User * Z);
  Create : CreateUserInput -> M W User;
  SetActive : string -> bool -> M W unit;
}.

(** @src pkg/modules/iam/model.go:168-171 PreferencesRepository *)
Record PreferencesRepository := mkPreferencesRepository {
  GetPreferences : string -> M W Preferences;
  PutPreferences : string -> Preferences -> M W unit;
}.

(** @src pkg/modules/iam/model.go:173-183 ManagementRepository *)
Record ManagementRepository := mkManagementRepository {
  mg_UpdateUser : string -> UpdateUserInput -> M W User;
  mg_UpdateUserPassword : string -> string -> M W unit;
  mg_SetUserActive : string -> bool -> M W unit;
  mg_ReplaceUserRoles : string -> list string -> M W unit;
  mg_Role : string -> M W RoleDetail;
  mg_CreateRole : RoleInput -> M W Role;
  mg_UpdateRole : string -> RoleInput -> M W Role;
  mg_DeleteRole : string -> M W unit;
  mg_ReplaceRolePermissions : string -> list string -> M W unit;
}.

(** @src pkg/modules/iam/model.go:185-191 RBACRepository *)
Record RBACRepository := mkRBACRepository {
  PermissionsForUser : string -> M W (list string);
  Roles : M W (list Role);
  Permissions : M W (list Permission);
  AssignRole : string -> string -> M W unit;
  GrantPermission : string -> string -> M W unit;
}.

(** @src pkg/modules/iam/authentication.go:129-131 Mailer *)
Definition Mailer : Type := string -> EmailCodePurpose -> string -> M W unit.

(** @src pkg/modules/iam/authentication.go:132-140 VerificationCodeStore *)
Record VerificationCodeStore := mkVerificationCodeStore {
  code_Issue : string -> EmailCodePurpose -> string -> M W string;
  code_Verify : string -> EmailCodePurpose -> string -> M W CodeReceipt;
  code_VerifyAndConsume : string -> EmailCodePurpose -> string -> M W unit;
  code_Consume : string -> EmailCodePurpose -> CodeReceipt -> M W unit;
}.

(** @src pkg/modules/iam/authentication.go:141-148 SecondFactorCrypto *)
Record SecondFactorCrypto := mkSecondFactorCrypto {
  NewSecret : string -> M W (string * string);
  Encrypt : string -> string -> M W string;
  Decrypt : string -> string -> res string;
  Verify : string -> string -> Z -> Z -> res Z;
  RecoveryCodes : M W (list string * list string);
  RecoveryHash : string -> string;
}.

(** @src pkg/modules/iam/authentication.go:153-157 Challenges *)
Record Challenges := mkChallenges {
  ch_Issue : Challenge -> M W string;
  ch_Attempt : string -> M W Challenge;
  ch_Consume : string -> M W unit;
}.

(** @src pkg/modules/iam/authentication.go:158-167 AuthenticationRepository *)
Record AuthenticationRepository := mkAuthenticationRepository {
  repo_Authentication : M W AuthenticationState;
  repo_PutAuthentication : AuthenticationSettings -> M W unit;
  repo_Initialize : string -> M W unit;
  repo_Security : string -> M W SecurityState;
  repo_SaveSecurity : string -> SecurityState -> Z -> M W unit;
  repo_Register : CreateUserInput -> option CodeReceipt -> M W User;
  repo_VerifyEmail : string -> string -> CodeReceipt -> M W User;
  repo_ConsumeCredential : string -> string -> Z -> Z -> string -> M W unit;
}.

(** @src pkg/modules/iam/password.go:28-31 PasswordService *)
Record PasswordService := mkPasswordService {
  pw_Hash : string -> M W string;
  pw_Verify : string -> string -> res bool;
}.

(** The refresh store, as the services use it. *)
Record Sessions := mkSessions {
  sess_Issue : string -> M W string;
  sess_Lookup : string -> M W string;
  sess_Rotate : string -> string -> M W string;
  sess_Revoke : string -> M W unit;
  sess_RevokeAll : string -> M W unit;
}.
End Interfaces.
Arguments FindByEmail {W}. Arguments FindByID {W}. Arguments List_ {W}. Arguments Create {W}.
Arguments SetActive {W}. Arguments GetPreferences {W}. Arguments PutPreferences {W}.
Arguments mg_UpdateUser {W}. Arguments mg_UpdateUserPassword {W}. Arguments mg_SetUserActive {W}.
Arguments mg_ReplaceUserRoles {W}. Arguments mg_Role {W}. Arguments mg_CreateRole {W}.
Arguments mg_UpdateRole {W}. Arguments mg_DeleteRole {W}. Arguments mg_ReplaceRolePermissions {W}.
Arguments PermissionsForUser {W}. Arguments Roles {W}. Arguments Permissions {W}.
Arguments AssignRole {W}. Arguments GrantPermission {W}.
Arguments code_Issue {W}. Arguments code_Verify {W}. Arguments code_VerifyAndConsume {W}.
Arguments code_Consume {W}. Arguments NewSecret {W}. Arguments Encrypt {W}. Arguments Decrypt {W}.
Arguments Verify {W}. Arguments RecoveryCodes {W}. Arguments RecoveryHash {W}.
Arguments ch_Issue {W}. Arguments ch_Attempt {W}. Arguments ch_Consume {W}.
Arguments repo_Authentication {W}. Arguments repo_PutAuthentication {W}. Arguments repo_Initialize {W}.
Arguments repo_Security {W}. Arguments repo_SaveSecurity {W}. Arguments repo_Register {W}.
Arguments repo_VerifyEmail {W}. Arguments repo_ConsumeCredential {W}.
Arguments pw_Hash {W}. Arguments pw_Verify {W}.
Arguments sess_Issue {W}. Arguments sess_Lookup {W}. Arguments sess_Rotate {W}.
Arguments sess_Revoke {W}. Arguments sess_RevokeAll {W}.
