(* ===== verification/Mailer.v ===== *)
(** * Delivery of codes by mail ([pkg/platform/mailer/smtp.go])

    [SendCode] drives the client of [net/smtp] over a connection.  The model
    keeps a trace of what leaves the process: the connections, the TLS
    handshakes with the settings they verify against, every line with the
    channel it was written to, and the lines of the log.  What the peer
    answers is a parameter, [Peer], that reads and moves an environment [W].
    The client's own steps, its greeting, its extensions and its two
    authentication schemes, are those of the standard library. *)
From S2P Require Import Prelude GoStrings Base64 Iam.

(** An error of the network or of the protocol, as far as the code looks at
    it: whether it is a timeout, and the code of a [textproto.Error]. *)
Record smtp_error := mkSmtpError { se_timeout : bool; se_code : option Z }.
Definition protocol_error (code : Z) : smtp_error := mkSmtpError false (Some code).
Definition other_error : smtp_error := mkSmtpError false None.

(** The settings of [tls.Config] the code sets; [tls_roots] stands for the
    others, which a clone keeps. *)
Record TLSConfig := mkTLSConfig { tls_ServerName : string; tls_MinVersion : Z; tls_InsecureSkipVerify : bool; tls_roots : string }.
Definition VersionTLS12 : Z := 771.

(** @src pkg/platform/mailer/smtp.go:27-32 Config *)
Record Config := mkConfig {
  Enabled : bool; Host : string; Port : string; Username : string; Password_ : string; From : string; TLSMode : string;
  Timeout : Z; cfg_TLSConfig : option TLSConfig }.

(** @src pkg/platform/mailer/smtp.go:22-25 ErrTLS to ErrDelivery *)
Definition ErrTLS : error := EWrap "SMTP certificate or TLS negotiation failed" ErrAuthenticationUnavailable.
Definition ErrAuthentication : error := EWrap "SMTP authentication failed" ErrAuthenticationUnavailable.
Definition ErrTimeout : error := EWrap "SMTP timeout" ErrAuthenticationUnavailable.
Definition ErrDelivery : error := ErrMailRejected.

(** @src pkg/platform/mailer/smtp.go:176-185 transportError *)
Definition transportError (err : smtp_error) (fallback : error) : error := if se_timeout err then ErrTimeout else fallback.

(** @src pkg/platform/mailer/smtp.go:166-175 deliveryError *)
Definition deliveryError (err : smtp_error) : error :=
  match se_code err with
  | Some code => if bool_decide (code ∈ [450; 452; 550; 551; 552; 553; 554]) then ErrDelivery
                 else transportError err ErrAuthenticationUnavailable
  | None => transportError err ErrAuthenticationUnavailable
  end.

(** What leaves the process. *)
Inductive event :=
  | Dialed (address : string)
  | Handshake (config : TLSConfig)
  | Line (secure : bool) (line : string)
  | Reply (code : Z)
  | Message (secure : bool) (text : string)
  | LogFailed (digest : string) (purpose : EmailCodePurpose) (err : error)
  | LogStored (digest : string) (purpose : EmailCodePurpose).

(** The peer: connecting, the handshake, its greeting, its answer to a line
    with the code and the text of the reply, writing the message and the reply
    to it, and the context of the call.  A failure of the network is a timeout
    or another one. *)
Inductive failure := timed_out | broken.
Class Peer (W : Type) := {
  peer_dial : string -> W -> option failure * W;
  peer_handshake : TLSConfig -> W -> option failure * W;
  peer_greeting : W -> (failure + Z) * W;
  peer_answer : string -> W -> (failure + (Z * string)) * W;
  peer_write : string -> W -> option failure * W;
  peer_accept : W -> (failure + Z) * W;
  peer_ctx_err : W -> option LibErr;
}.

(** The client of [net/smtp]. *)
Record Client := mkClient { c_tls : bool; c_ext : list string; c_didHello : bool; c_serverName : string }.

Section SMTP.
Context {W : Type} `{Peer W} `{Unicode} `{MailParser} (hmac_sha256 : string -> string -> string) (hex_EncodeToString : string -> string).
Variable cfg : Config.
Variable logger : bool.
Variable pepper : string.

(** The world with the trace. *)
Definition S : Type := W * list event.
(** A step that may fail with an error of the network. *)
Definition N (A : Type) : Type := S -> (smtp_error + A) * S.
#[local] Instance N_ret : MRet N := fun A a s => (inr a, s).
#[local] Instance N_bind : MBind N := fun A B k m s => match m s with (inl e, s) => (inl e, s) | (inr a, s) => k a s end.
Definition fail {A} (e : smtp_error) : N A := fun s => (inl e, s).
Definition emit (ev : event) : N unit := fun '(w, t) => (inr tt, (w, t ++ [ev])).
Definition ask {A} (f : W -> (failure + A) * W) : N A := fun '(w, t) =>
  let '(r, w) := f w in
  (match r with inl timed_out => inl (mkSmtpError true None) | inl broken => inl other_error | inr a => inr a end, (w, t)).
Definition ask_unit (f : W -> option failure * W) : N unit :=
  ask (fun w => let '(e, w) := f w in (match e with Some e => inl e | None => inr tt end, w)).
Definition recover {A} (m : N A) : N (smtp_error + A) := fun s => let '(r, s) := m s in (inr r, s).

(** [expectCode] of [net/textproto]. *)
Definition code_matches (expect code : Z) : bool :=
  if (1 <=? expect) && (expect <? 10) then code / 100 =? expect
  else if (10 <=? expect) && (expect <? 100) then code / 10 =? expect
  else if (100 <=? expect) && (expect <? 1000) then code =? expect else true.

(** [Client.cmd] *)
Definition cmd (c : Client) (expect : Z) (line : string) : N (Z * string) :=
  _ ← emit (Line (c_tls c) line);
  reply ← ask (peer_answer line);
  _ ← emit (Reply reply.1);
  if code_matches expect reply.1 then mret reply else fail (protocol_error reply.1).

(** The keywords of the lines of an EHLO reply after the first. *)
Definition extensions (msg : string) : list string :=
  map (fun line => default "" (head (Split line (of_code 32)))) (tail (Split msg (of_code 10))).

(** [ehlo], [helo] and [hello].  A client whose greeting failed is not used
    again. *)
Definition ehlo (c : Client) : N Client :=
  reply ← cmd c 250 "EHLO localhost";
  mret (mkClient (c_tls c) (extensions reply.2) (c_didHello c) (c_serverName c)).
Definition helo (c : Client) : N Client :=
  let c := mkClient (c_tls c) [] (c_didHello c) (c_serverName c) in
  _ ← cmd c 250 "HELO localhost"; mret c.
Definition hello (c : Client) : N Client :=
  if c_didHello c then mret c
  else
    let c := mkClient (c_tls c) (c_ext c) true (c_serverName c) in
    r ← recover (ehlo c);
    match r with inr c => mret c | inl _ => helo c end.

(** [Client.StartTLS]: the handshake happens when the new channel is first
    written to, and the greeting is repeated on it. *)
Definition StartTLS (c : Client) (config : TLSConfig) : N Client :=
  c ← hello c;
  _ ← cmd c 220 "STARTTLS";
  _ ← emit (Handshake config);
  _ ← ask_unit (peer_handshake config);
  ehlo (mkClient true (c_ext c) (c_didHello c) (c_serverName c)).

(** [Client.Quit] *)
Definition Quit (c : Client) : N unit := c ← hello c; _ ← cmd c 221 "QUIT"; mret tt.

(** The initial response of PLAIN, and who may give it: the scheme of the
    standard library refuses a clear channel except to the local host.
    @src pkg/platform/mailer/smtp.go:151-158 (explicitPlainAuth) Start *)
Definition plain_response : string := of_bytes [of_code 0] +:+ Username cfg +:+ of_bytes [of_code 0] +:+ Password_ cfg.
Definition isLocalhost (name : string) : bool := bool_decide (name ∈ ["localhost"; "127.0.0.1"; "::1"]).
Definition explicitPlainAuth_Start (c : Client) : option string :=
  if negb (String.eqb (c_serverName c) (Host cfg)) then None else Some plain_response.
Definition PlainAuth_Start (c : Client) : option string :=
  if negb (c_tls c) && negb (isLocalhost (c_serverName c)) then None
  else if negb (String.eqb (c_serverName c) (Host cfg)) then None else Some plain_response.

(** [base64.StdEncoding]: the raw encoding with its padding. *)
Definition base64_encode (s : string) : string :=
  Base64.EncodeToString RawStd s +:+ match len s mod 3 with 1 => "==" | 2 => "=" | _ => "" end.

(** [Client.Auth]: no scheme answers a challenge, so that anything but 235
    ends it.
    @src pkg/platform/mailer/smtp.go:159-164 (explicitPlainAuth) Next *)
Definition Auth (start : Client -> option string) (c : Client) : N Client :=
  c ← hello c;
  match start c with
  | None => _ ← recover (Quit c); fail other_error
  | Some resp =>
      reply ← cmd c 0 ("AUTH PLAIN " +:+ base64_encode resp);
      if reply.1 =? 235 then mret c
      else
        _ ← recover (cmd c 501 "*"); _ ← recover (Quit c);
        fail (if reply.1 =? 334 then other_error else protocol_error reply.1)
  end.

Definition has_newline (s : string) : bool := existsb (fun a => (code a =? 13) || (code a =? 10)) (bytes s).

(** [Client.Mail] and [Client.Rcpt] *)
Definition Mail (c : Client) (from : string) : N unit :=
  if has_newline from then fail other_error
  else
    c ← hello c;
    _ ← cmd c 250 ("MAIL FROM:<" +:+ from +:+ ">" +:+ (if bool_decide ("8BITMIME" ∈ c_ext c) then " BODY=8BITMIME" else "") +:+
                   (if bool_decide ("SMTPUTF8" ∈ c_ext c) then " SMTPUTF8" else ""));
    mret tt.
Definition Rcpt (c : Client) (to : string) : N unit :=
  if has_newline to then fail other_error else _ ← cmd c 25 ("RCPT TO:<" +:+ to +:+ ">"); mret tt.

(** [net.JoinHostPort] *)
Definition JoinHostPort (host port : string) : string :=
  if existsb (fun a => code a =? 58) (bytes host) then "[" +:+ host +:+ "]:" +:+ port else host +:+ ":" +:+ port.

Definition crlf : string := of_bytes [of_code 13; of_code 10].
(** @src pkg/platform/mailer/smtp.go:133-133 (SendCode) message *)
Definition message (sender recipient code : string) : string :=
  "From: " +:+ sender +:+ crlf +:+ "To: " +:+ recipient +:+ crlf +:+ "Subject: Your verification code" +:+ crlf +:+
  "MIME-Version: 1.0" +:+ crlf +:+ "Content-Type: text/plain; charset=UTF-8" +:+ crlf +:+ crlf +:+
  "Your verification code is " +:+ code +:+ ". It expires in 10 minutes." +:+ crlf.

(** The client's settings keep the roots that were configured, and always
    verify the host with TLS 1.2 or later.
    @src pkg/platform/mailer/smtp.go:78-84 (SendCode) tlsConfig *)
Definition tlsConfig : TLSConfig :=
  mkTLSConfig (Host cfg) VersionTLS12 false (match cfg_TLSConfig cfg with Some t => tls_roots t | None => "" end).

(** A step whose error ends [SendCode]. *)
Definition step {A} (m : N A) (f : smtp_error -> error) (k : A -> S -> option error * S) : S -> option error * S := fun s =>
  match m s with (inl e, s) => (Some (f e), s) | (inr a, s) => k a s end.
Definition unavailable (e : smtp_error) : error := transportError e ErrAuthenticationUnavailable.

(** [ReadResponse] of [net/textproto]. *)
Definition ReadResponse (expect : Z) (read : W -> (failure + Z) * W) : N unit :=
  code ← ask read;
  _ ← emit (Reply code);
  if code_matches expect code then mret tt else fail (protocol_error code).

(** [smtp.NewClient] *)
Definition NewClient (secure : bool) : N Client :=
  _ ← ReadResponse 220 peer_greeting; mret (mkClient secure [] false (Host cfg)).

(** The message, once the client may speak.
    @src pkg/platform/mailer/smtp.go:116-140 (SendCode) message exchange *)
Definition transfer (sender recipient code : string) (c : Client) : S -> option error * S :=
  step (Auth (if String.eqb (TLSMode cfg) "plain" then explicitPlainAuth_Start else PlainAuth_Start) c)
       (fun e => transportError e ErrAuthentication) (fun c =>
  step (Mail c sender) unavailable (fun _ =>
  step (Rcpt c recipient) deliveryError (fun _ =>
  step (cmd c 354 "DATA") deliveryError (fun _ =>
  step (_ ← emit (Message (c_tls c) (message sender recipient code)); ask_unit (peer_write (message sender recipient code)))
       unavailable (fun _ =>
  step (ReadResponse 250 peer_accept) deliveryError (fun _ =>
  step (Quit c) unavailable (fun _ s => (None, s)))))))).

(** The conversation, once connected.
    @src pkg/platform/mailer/smtp.go:96-140 (SendCode) conversation *)
Definition converse (sender recipient code : string) : S -> option error * S :=
  step (if String.eqb (TLSMode cfg) "tls"
        then _ ← emit (Handshake tlsConfig); ask_unit (peer_handshake tlsConfig) else mret tt) (fun e => transportError e ErrTLS) (fun _ =>
  step (NewClient (String.eqb (TLSMode cfg) "tls")) unavailable (fun c =>
  if String.eqb (TLSMode cfg) "starttls" then
    step (hello c) (fun _ => ErrTLS) (fun c =>
      if bool_decide ("STARTTLS" ∈ c_ext c)
      then step (StartTLS c tlsConfig) (fun e => transportError e ErrTLS) (transfer sender recipient code)
      else fun s => (Some ErrTLS, s))
  else transfer sender recipient code c)).

(** @src pkg/platform/mailer/smtp.go:143-147 recipientDigest *)
Definition recipientDigest (email : string) : string := hex_EncodeToString (hmac_sha256 pepper (ToLower (TrimSpace email))).

(** With the deferred mapping of a context that ended.
    @src pkg/platform/mailer/smtp.go:65-95 (SendCode) delivery *)
Definition deliver (sender recipient code : string) (s : S) : option error * S :=
  let address := JoinHostPort (Host cfg) (Port cfg) in
  let '(result, s) := step (_ ← emit (Dialed address); ask_unit (peer_dial address)) unavailable (fun _ => converse sender recipient code) s in
  match result, peer_ctx_err s.1 with
  | Some _, Some ContextDeadlineExceeded => (Some ErrTimeout, s)
  | Some _, Some ContextCanceled => (Some (ESentinel (SLib ContextCanceled)), s)
  | _, _ => (result, s)
  end.

(** @src pkg/platform/mailer/smtp.go:42-141 SendCode *)
Definition SendCode (email : string) (purpose : EmailCodePurpose) (code : string) (s : S) : option error * S :=
  if negb (Enabled cfg) then
    (None, if logger then (s.1, s.2 ++ [LogStored (recipientDigest email) purpose]) else s)
  else
    let '(result, s) :=
      match ParseAddress email with
      | Some recipient =>
          if negb (String.eqb recipient email) || has_newline email then (Some ErrDelivery, s)
          else
            match ParseAddress (From cfg) with
            | None => (Some (ESentinel (SAuth ErrAuthenticationUnavailable)), s)
            | Some sender =>
                if negb (bool_decide (TLSMode cfg ∈ ["plain"; "tls"; "starttls"])) then (Some ErrTLS, s)
                else deliver sender recipient code s
            end
      | None => (Some ErrDelivery, s)
      end in
    (result, match result with
             | Some err => if logger then (s.1, s.2 ++ [LogFailed (recipientDigest email) purpose err]) else s
             | None => s
             end).

(** ** What a delivery discloses, and what its result means *)

(** Lines that carry nothing of the user's. *)
Definition opening : list string := ["EHLO localhost"; "HELO localhost"; "STARTTLS"].

(** Where an event may put what it knows: only the explicit plain mode writes
    more than the opening of the conversation to a channel in the clear, and
    TLS always verifies the configured host. *)
Definition discreet (email : string) (ev : event) : Prop :=
  match ev with
  | Dialed address => address = JoinHostPort (Host cfg) (Port cfg)
  | Handshake config => tls_ServerName config = Host cfg /\ tls_InsecureSkipVerify config = false /\ VersionTLS12 <= tls_MinVersion config
  | Line secure line => TLSMode cfg = "plain" \/ secure = true \/ TLSMode cfg = "starttls" /\ line ∈ opening
  | Reply _ => True
  | Message secure _ => TLSMode cfg = "plain" \/ secure = true
  | LogFailed digest _ err => digest = recipientDigest email /\
      err ∈ [ErrTLS; ErrAuthentication; ErrTimeout; ErrDelivery; ESentinel (SAuth ErrAuthenticationUnavailable); ESentinel (SLib ContextCanceled)]
  | LogStored digest _ => digest = recipientDigest email
  end.

(** [m] only adds such events; when it fails with the code of a reply, and
    [coded], that reply was read; when it succeeds [R] holds of the value and
    the events. *)
Definition runs {A} (coded : bool) (P : event -> Prop) (m : N A) (R : A -> list event -> Prop) : Prop := forall s, exists evs,
  (m s).2.2 = s.2 ++ evs /\ Forall P evs /\
  match (m s).1 with inl e => coded = true -> forall c, se_code e = Some c -> Reply c ∈ evs | inr a => R a evs end.

Definition ends (P : event -> Prop) (m : S -> option error * S) (R : option error -> list event -> Prop) : Prop := forall s, exists evs,
  (m s).2.2 = s.2 ++ evs /\ Forall P evs /\ R (m s).1 evs.

Section Rules.
Context (coded : bool) (P : event -> Prop).

Lemma runs_ret {A} (a : A) (R : A -> list event -> Prop) : R a [] -> runs coded P (mret a) R.
Proof. intros HR s. exists []. by rewrite app_nil_r. Qed.

Lemma runs_fail {A} e (R : A -> list event -> Prop) : (coded = true -> se_code e = None) -> runs coded P (fail e) R.
Proof. intros He s. exists []. rewrite app_nil_r. split_and!; [done..|]. simpl. intros Hc. by rewrite He. Qed.

Lemma runs_bind {A B} (m : N A) (k : A -> N B) R1 (R : B -> list event -> Prop) :
  runs coded P m R1 -> (forall a evs1, R1 a evs1 -> runs coded P (k a) (fun b evs2 => R b (evs1 ++ evs2))) -> runs coded P (m ≫= k) R.
Proof.
  intros Hm Hk s. destruct (Hm s) as (evs1 & Ht & HP & HR). unfold mbind, N_bind. destruct (m s) as [[e|a] s1] eqn:E; simpl in *.
  - by exists evs1.
  - destruct (Hk a evs1 HR s1) as (evs2 & Ht2 & HP2 & HR2). exists (evs1 ++ evs2). rewrite Ht2, Ht, <- app_assoc.
    split_and!; [done|by apply Forall_app|]. destruct ((k a s1).1); [|done]. intros Hcoded c Hc. apply elem_of_app. right. by apply HR2.
Qed.

Lemma runs_emit ev : P ev -> runs coded P (emit ev) (fun _ evs => evs = [ev]).
Proof. intros HP [w t]. exists [ev]. split_and!; [done|by constructor|done]. Qed.

Lemma runs_ask {A} (f : W -> (failure + A) * W) : runs coded P (ask f) (fun _ evs => evs = []).
Proof.
  intros [w t]. exists []. rewrite app_nil_r. unfold ask. destruct (f w) as [[[]|a] w1]; simpl; split_and!; done.
Qed.

Lemma runs_mono {A} (m : N A) R (R' : A -> list event -> Prop) :
  runs coded P m R -> (forall a evs, R a evs -> R' a evs) -> runs coded P m R'.
Proof. intros Hm HR s. destruct (Hm s) as (evs & ? & ? & Hr). exists evs. split_and!; [done..|]. destruct ((m s).1); auto. Qed.

Lemma runs_recover {A} (m : N A) R : runs coded P m R -> runs coded P (recover m) (fun _ _ => True).
Proof. intros Hm s. destruct (Hm s) as (evs & Ht & HP & _). exists evs. unfold recover. by destruct (m s). Qed.

Lemma ends_step {A} (m : N A) f k R1 (R : option error -> list event -> Prop) :
  runs coded P m R1 ->
  (forall e evs, (coded = true -> forall c, se_code e = Some c -> Reply c ∈ evs) -> R (Some (f e)) evs) ->
  (forall a evs1, R1 a evs1 -> ends P (k a) (fun r evs2 => R r (evs1 ++ evs2))) -> ends P (step m f k) R.
Proof.
  intros Hm Hf Hk s. destruct (Hm s) as (evs1 & Ht & HP & HR). unfold step. destruct (m s) as [[e|a] s1] eqn:E; simpl in *.
  - exists evs1. auto.
  - destruct (Hk a evs1 HR s1) as (evs2 & Ht2 & HP2 & HR2). exists (evs1 ++ evs2). rewrite Ht2, Ht, <- app_assoc.
    split_and!; [done|by apply Forall_app|done].
Qed.
End Rules.

Section Client.
Context (email : string).
Abbreviation P := (discreet email).

(** The client may say what it has to on its channel. *)
Definition safe (c : Client) : Prop := TLSMode cfg = "plain" \/ c_tls c = true.

Lemma safe_line c line : safe c -> P (Line (c_tls c) line).
Proof. intros [?|?]; simpl; auto. Qed.

Lemma safe_same c c' : safe c -> c_tls c' = c_tls c -> safe c'.
Proof. unfold safe. by intros ? ->. Qed.

Lemma runs_ReadResponse coded expect f :
  runs coded P (ReadResponse expect f) (fun _ evs => exists code, evs = [Reply code] /\ code_matches expect code = true).
Proof.
  intros [w t]. unfold ReadResponse, mbind, N_bind, ask. destruct (f w) as [[[]|code] w1]; simpl.
  - exists []. rewrite app_nil_r. by split_and!.
  - exists []. rewrite app_nil_r. by split_and!.
  - exists [Reply code]. destruct (code_matches expect code) eqn:Hc; simpl; (split_and!; [done|by repeat constructor|]); [eauto|].
    intros _ c [= <-]. by left.
Qed.

Lemma runs_cmd coded c expect line : P (Line (c_tls c) line) -> runs coded P (cmd c expect line) (fun _ _ => True).
Proof.
  intros HP. unfold cmd. eapply runs_bind; [by apply runs_emit|]. intros _ evs _ [w t].
  unfold mbind, N_bind, ask. destruct (peer_answer line w) as [[[]|[code msg]] w1]; simpl.
  - exists []. rewrite app_nil_r. by split_and!.
  - exists []. rewrite app_nil_r. by split_and!.
  - exists [Reply code]. destruct (code_matches expect code); simpl; (split_and!; [done|by repeat constructor|]); [done|].
    intros _ c' [= <-]. by left.
Qed.

(** The client keeps its channel. *)
Abbreviation same_channel c := (fun (c' : Client) (_ : list event) => c_tls c' = c_tls c).

Lemma runs_ehlo coded c : P (Line (c_tls c) "EHLO localhost") -> runs coded P (ehlo c) (same_channel c).
Proof. intros HP. eapply runs_bind; [by apply runs_cmd|]. intros. by apply runs_ret. Qed.

Lemma runs_helo coded c : P (Line (c_tls c) "HELO localhost") -> runs coded P (helo c) (same_channel c).
Proof. intros HP. eapply runs_bind; [by apply runs_cmd|]. intros. by apply runs_ret. Qed.

Lemma runs_hello coded c : (forall line, line ∈ opening -> P (Line (c_tls c) line)) -> runs coded P (hello c) (same_channel c).
Proof.
  intros HP. unfold hello. destruct (c_didHello c); [by apply runs_ret|]. set (c1 := mkClient _ _ _ _).
  assert (P (Line (c_tls c1) "EHLO localhost") /\ P (Line (c_tls c1) "HELO localhost")) as [He Hh]
    by (split; apply HP; unfold opening; set_solver).
  apply (runs_ehlo coded) in He. apply (runs_helo coded) in Hh. intros s.
  destruct (He s) as (evs & Ht & HP1 & HR). unfold mbind, N_bind, recover.
  destruct (ehlo c1 s) as [[e|c2] s1]; simpl in *; [|by exists evs].
  destruct (Hh s1) as (evs2 & Ht2 & HP2 & HR2). exists (evs ++ evs2). rewrite Ht2, Ht, <- app_assoc.
  split_and!; [done|by apply Forall_app|]. destruct ((helo c1 s1).1); [|done]. intros Hcoded code Hc. apply elem_of_app. right. by apply HR2.
Qed.

Lemma safe_hello coded c : safe c -> runs coded P (hello c) (same_channel c).
Proof. intros Hs. apply runs_hello. intros line _. by apply safe_line. Qed.

Lemma safe_cmd coded c expect line : safe c -> runs coded P (cmd c expect line) (fun _ _ => True).
Proof. intros Hs. by apply runs_cmd, safe_line. Qed.

Lemma runs_Quit coded c : safe c -> runs coded P (Quit c) (fun _ _ => True).
Proof.
  intros Hs. eapply runs_bind; [by apply safe_hello|]. intros c1 evs Hc.
  eapply runs_bind; [eapply safe_cmd, safe_same; [exact Hs|exact Hc]|]. intros. by apply runs_ret.
Qed.

Lemma runs_Auth start c : safe c -> runs false P (Auth start c) (same_channel c).
Proof.
  intros Hs. eapply runs_bind; [by apply safe_hello|]. intros c1 evs Hc. simpl in Hc. assert (safe c1) as Hs1 by by eapply safe_same.
  destruct (start c1) as [resp|].
  - eapply runs_bind; [by apply safe_cmd|]. intros reply evs1 _. destruct (reply.1 =? 235); [by apply runs_ret|].
    eapply runs_bind; [eapply runs_recover; by apply safe_cmd|]. intros _ evs2 _.
    eapply runs_bind; [eapply runs_recover; by apply runs_Quit|]. intros _ evs3 _. by apply runs_fail.
  - eapply runs_bind; [eapply runs_recover; by apply runs_Quit|]. intros _ evs3 _. by apply runs_fail.
Qed.

Lemma runs_Mail coded c from : safe c -> runs coded P (Mail c from) (fun _ _ => True).
Proof.
  intros Hs. unfold Mail. destruct (has_newline from); [by apply runs_fail|].
  eapply runs_bind; [by apply safe_hello|]. intros c1 evs Hc.
  eapply runs_bind; [eapply safe_cmd, safe_same; [exact Hs|exact Hc]|]. intros. by apply runs_ret.
Qed.

Lemma runs_Rcpt coded c to : safe c -> runs coded P (Rcpt c to) (fun _ _ => True).
Proof.
  intros Hs. unfold Rcpt. destruct (has_newline to); [by apply runs_fail|].
  eapply runs_bind; [by apply safe_cmd|]. intros. by apply runs_ret.
Qed.

Lemma runs_StartTLS c : TLSMode cfg = "starttls" -> c_tls c = false ->
  runs false P (StartTLS c tlsConfig) (fun c' _ => c_tls c' = true).
Proof.
  intros Hm Hc. assert (forall line, line ∈ opening -> P (Line (c_tls c) line)) as HP by (intros; simpl; auto).
  eapply runs_bind; [by apply runs_hello|]. intros c1 evs Hc1. simpl in Hc1.
  eapply runs_bind; [apply runs_cmd; rewrite Hc1; apply HP; unfold opening; set_solver|]. intros reply evs1 _.
  eapply runs_bind; [by apply runs_emit|]. intros _ evs2 _. eapply runs_bind; [apply runs_ask|]. intros _ evs3 _.
  apply runs_ehlo. simpl. auto.
Qed.

(** The replies that reject a recipient or a message. *)
Definition rejections : list Z := [450; 452; 550; 551; 552; 553; 554].
Definition outages : list error := [ErrTLS; ErrAuthentication; ErrTimeout; ESentinel (SAuth ErrAuthenticationUnavailable)].

(** What the result of a conversation says about it. *)
Definition means (sender code : string) (r : option error) (evs : list event) : Prop :=
  match r with
  | None => exists before after secure, evs = before ++ Message secure (message sender email code) :: Reply 250 :: after
  | Some e => e ∈ outages \/ e = ErrDelivery /\ exists c, c ∈ rejections /\ Reply c ∈ evs
  end.

Lemma means_after sender code r evs1 evs2 : means sender code r evs2 -> means sender code r (evs1 ++ evs2).
Proof.
  destruct r as [e|]; simpl.
  - intros [?|(? & c & ? & ?)]; [by left|right]. split; [done|]. exists c. rewrite elem_of_app. auto.
  - intros (before & after & secure & ->). exists (evs1 ++ before), after, secure. by rewrite <- app_assoc.
Qed.

Lemma transport_means sender code e fallback evs : fallback ∈ outages -> means sender code (Some (transportError e fallback)) evs.
Proof. intros Hf. left. unfold transportError. destruct (se_timeout e); [unfold outages; set_solver|done]. Qed.

Lemma delivery_means sender code e evs : (forall c, se_code e = Some c -> Reply c ∈ evs) -> means sender code (Some (deliveryError e)) evs.
Proof.
  intros Hc. unfold deliveryError. destruct (se_code e) as [c|]; [|apply transport_means; unfold outages; set_solver].
  case_bool_decide as Hin; [|apply transport_means; unfold outages; set_solver]. right. split; [done|]. exists c. auto.
Qed.

Lemma ends_return (m : S -> option error * S) r R : (forall s, m s = (r, s)) -> R r [] -> ends P m R.
Proof. intros Hm HR s. exists []. rewrite Hm, app_nil_r. split_and!; [done|constructor|done]. Qed.

Lemma ends_mono (m : S -> option error * S) (R R' : option error -> list event -> Prop) :
  ends P m R -> (forall r evs, R r evs -> R' r evs) -> ends P m R'.
Proof. intros Hm HR s. destruct (Hm s) as (evs & ? & ? & ?). exists evs. split_and!; auto. Qed.

#[local] Hint Extern 1 (_ ∈ outages) => unfold outages; set_solver : core.
#[local] Hint Resolve transport_means delivery_means : core.

(** A step before the message: its failure is explained, and the rest goes on. *)
Lemma ends_before {A} coded (m : N A) f k R1 sender code :
  runs coded P m R1 -> (forall e evs, (coded = true -> forall c, se_code e = Some c -> Reply c ∈ evs) -> means sender code (Some (f e)) evs) ->
  (forall a evs, R1 a evs -> ends P (k a) (means sender code)) -> ends P (step m f k) (means sender code).
Proof.
  intros Hm Hf Hk. eapply ends_step; [done|done|]. intros a evs1 Ha. eapply ends_mono; [by eapply Hk|]. intros. by apply means_after.
Qed.

Lemma transfer_ends sender code c : safe c -> ends P (transfer sender email code c) (means sender code).
Proof.
  intros Hs. eapply (ends_before false); [by apply runs_Auth|auto|]. intros c1 evs Hc. assert (safe c1) as Hs1 by by eapply safe_same. clear evs Hc.
  eapply (ends_before true); [by apply runs_Mail|intros; by apply transport_means; auto|]. intros _ _ _.
  eapply (ends_before true); [by apply runs_Rcpt|auto|]. intros _ _ _.
  eapply (ends_before true); [by apply safe_cmd|auto|]. intros _ _ _.
  set (text := message sender email code).
  eapply (ends_step true P _ _ _ (fun _ evs => evs = [Message (c_tls c1) text])).
  - eapply runs_bind; [apply runs_emit; destruct Hs1; simpl; auto|]. intros _ evs ->. eapply runs_mono; [apply runs_ask|]. by intros _ evs ->.
  - intros e evs _. apply transport_means. auto.
  - intros _ evs ->. eapply (ends_step true); [apply runs_ReadResponse| |].
    + intros e evs He. apply means_after, delivery_means. auto.
    + intros _ evs (reply & -> & Hr). eapply (ends_step true); [by apply runs_Quit| |].
      * intros e evs _. apply transport_means. auto.
      * intros _ evs _. apply (ends_return _ None); [done|]. exists [], (evs ++ []), (c_tls c1). 
        apply Z.eqb_eq in Hr. by subst reply.
Qed.

Lemma handshake_ok : P (Handshake tlsConfig).
Proof. simpl. done. Qed.

Lemma converse_ends sender code : TLSMode cfg ∈ ["plain"; "tls"; "starttls"] -> ends P (converse sender email code) (means sender code).
Proof.
  intros Hmode. unfold converse.
  eapply (ends_before true _ _ _ (fun _ _ => True)).
  { destruct (String.eqb _ _); [|by apply runs_ret]. eapply runs_bind; [apply runs_emit, handshake_ok|]. intros.
    eapply runs_mono; [apply runs_ask|done]. }
  { intros. apply transport_means. auto. }
  intros _ _ _. eapply (ends_before true _ _ _ (fun c _ => c_tls c = String.eqb (TLSMode cfg) "tls")).
  { eapply runs_bind; [apply runs_ReadResponse|]. intros. by apply runs_ret. }
  { intros. apply transport_means. auto. }
  intros c _ Hc. destruct (String.eqb_spec (TLSMode cfg) "starttls") as [Hm|Hm].
  - assert (c_tls c = false) as Hplain by (rewrite Hc, Hm; done).
    eapply (ends_before true); [apply runs_hello; intros; simpl; auto|intros; left; auto|]. intros c1 evs1 Hc1. simpl in Hc1.
    case_bool_decide; [|apply (ends_return _ (Some ErrTLS)); [done|left; auto]].
    eapply (ends_before false); [apply runs_StartTLS; [done|congruence]|intros; by apply transport_means; auto|].
    intros c2 evs2 Hc2. apply transfer_ends. by right.
  - apply transfer_ends. unfold safe. rewrite Hc. destruct (String.eqb_spec (TLSMode cfg) "tls"); [by right|left].
    repeat (apply elem_of_cons in Hmode as [?|Hmode]; [done|]). by apply elem_of_nil in Hmode.
Qed.

(** The result of [SendCode] and the events. *)
Definition explains (sender : option string) (code : string) (r : option error) (evs : list event) : Prop :=
  match r with
  | None => Enabled cfg = false \/ exists s before after secure, sender = Some s /\
              evs = before ++ Message secure (message s email code) :: Reply 250 :: after
  | Some e => e ∈ outages \/ e = ESentinel (SLib ContextCanceled) \/
              e = ErrDelivery /\ (ParseAddress email <> Some email \/ has_newline email = true \/ exists c, c ∈ rejections /\ Reply c ∈ evs)
  end.

Lemma deliver_ends sender code : TLSMode cfg ∈ ["plain"; "tls"; "starttls"] ->
  ends P (deliver sender email code) (explains (Some sender) code).
Proof.
  intros Hmode s. unfold deliver.
  assert (ends P (step (_ ← emit (Dialed (JoinHostPort (Host cfg) (Port cfg))); ask_unit (peer_dial (JoinHostPort (Host cfg) (Port cfg))))
    unavailable (fun _ => converse sender email code)) (means sender code)) as He.
  { eapply (ends_before true _ _ _ (fun _ _ => True)).
    - eapply runs_bind; [by apply runs_emit|]. intros. eapply runs_mono; [apply runs_ask|done].
    - intros. apply transport_means. auto.
    - intros. by apply converse_ends. }
  destruct (He s) as (evs & Ht & HP & HR). destruct (step _ _ _ s) as [r s1]. simpl in *. exists evs.
  destruct r as [e|].
  - assert (explains (Some sender) code (Some e) evs) as Hx by (destruct HR as [?|[? ?]]; [by left|right; right; auto]).
    destruct (peer_ctx_err s1.1) as [[]|]; split_and!; try done; [by right; left|by left; auto].
  - split_and!; [done..|]. right. destruct HR as (before & after & secure & ->). by exists sender, before, after, secure.
Qed.

Lemma known_results sender code e evs : explains sender code (Some e) evs ->
  e ∈ [ErrTLS; ErrAuthentication; ErrTimeout; ErrDelivery; ESentinel (SAuth ErrAuthenticationUnavailable); ESentinel (SLib ContextCanceled)].
Proof. unfold explains, outages. set_solver. Qed.

Lemma SendCode_ends purpose code : ends P (SendCode email purpose code) (explains (ParseAddress (From cfg)) code).
Proof.
  intros s. unfold SendCode. destruct (Enabled cfg) eqn:Hen; simpl.
  2: { destruct logger; [exists [LogStored (recipientDigest email) purpose]|exists []; rewrite app_nil_r]; (split_and!; [done| |by left]); by repeat constructor. }
  set (out := match ParseAddress email with Some _ => _ | None => _ end).
  assert (exists evs, out.2.2 = s.2 ++ evs /\ Forall P evs /\ explains (ParseAddress (From cfg)) code out.1 evs) as (evs & Ht & HP & HR).
  { subst out. assert (forall e, explains (ParseAddress (From cfg)) code (Some e) [] -> exists evs, s.2 = s.2 ++ evs /\ Forall P evs /\
      explains (ParseAddress (From cfg)) code (Some e) evs) as Hstop by (intros e He; exists []; by rewrite app_nil_r).
    destruct (ParseAddress email) as [recipient|] eqn:Hr; [|apply Hstop; right; right; split; [done|left; congruence]].
    destruct (negb _ || _) eqn:Hbad.
    - apply Hstop. right; right. split; [done|]. apply orb_true_iff in Hbad as [Hne|?]; [left|right; by left].
      apply negb_true_iff, String.eqb_neq in Hne. rewrite Hr. congruence.
    - apply orb_false_iff in Hbad as [He%negb_false_iff%String.eqb_eq _]. subst recipient.
      destruct (ParseAddress (From cfg)) as [sender|]; [|apply Hstop; left; auto].
      case_bool_decide as Hm; simpl; [by apply deliver_ends|apply Hstop; left; auto]. }
  destruct out as [r s1]. simpl in *. destruct r as [e|]; [|by exists evs]. destruct logger; [|by exists evs].
  exists (evs ++ [LogFailed (recipientDigest email) purpose e]). simpl. rewrite Ht, <- app_assoc. split_and!; [done| |].
  - apply Forall_app. split; [done|]. apply Forall_singleton. split; [done|]. by eapply known_results.
  - destruct HR as [?|[?|(? & HR)]]; [by left|by right; left|right; right; split; [done|]].
    destruct HR as [?|[?|(c & ? & ?)]]; [by left|by right; left|right; right]. exists c. rewrite elem_of_app. auto.
Qed.
End Client.
End SMTP.

(** C27: what a code travels over.  Unless the operator chose the plain mode,
    [SendCode] writes credentials, addresses and codes to TLS channels only,
    whose handshakes verify the configured host with TLS 1.2 or later,
    whatever the configured TLS settings say; before the handshake of
    STARTTLS the peer sees the greeting and nothing else, and the connection
    goes to the configured server.  The log names the recipient by its keyed
    digest and the failure by one of six errors, never the address or the
    code. *)
Theorem SendCode_discreet {W} `{Peer W, Unicode, MailParser} (hmac_sha256 : string -> string -> string) (hex : string -> string)
    (cfg : Config) (logger : bool) (pepper email : string) (purpose : EmailCodePurpose) (code : string) (w : W) :
  Forall (discreet hmac_sha256 hex cfg pepper email) (SendCode hmac_sha256 hex cfg logger pepper email purpose code (w, [])).2.2.
Proof.
  destruct (SendCode_ends hmac_sha256 hex cfg logger pepper email purpose code (w, [])) as (evs & Ht & HP & _). by rewrite Ht.
Qed.

(** What the result of a delivery means.  A nil error of an enabled
    mailer says that the server accepted the message with this code for this
    recipient.  [ErrMailRejected] says that the address is not a plain one or
    that the server rejected it with one of seven replies; every other error
    is the cancellation of the caller or wraps [ErrAuthenticationUnavailable]. *)
Theorem SendCode_outcome {W} `{Peer W, Unicode, MailParser} (hmac_sha256 : string -> string -> string) (hex : string -> string)
    (cfg : Config) (logger : bool) (pepper email : string) (purpose : EmailCodePurpose) (code : string) (w : W) :
  let '(result, (_, evs)) := SendCode hmac_sha256 hex cfg logger pepper email purpose code (w, []) in
  match result with
  | None => Enabled cfg = false \/ exists sender before after secure, ParseAddress (From cfg) = Some sender /\
              evs = before ++ Message secure (message sender email code) :: Reply 250 :: after
  | Some e =>
      if errors_is ErrMailRejected e
      then ParseAddress email <> Some email \/ has_newline email = true \/ exists c, c ∈ rejections /\ Reply c ∈ evs
      else errors_is ErrAuthenticationUnavailable e = true \/ e = ESentinel (SLib ContextCanceled)
  end.
Proof.
  destruct (SendCode_ends hmac_sha256 hex cfg logger pepper email purpose code (w, [])) as (evs & Ht & _ & HR).
  destruct (SendCode _ _ _ _ _ _ _ _ _) as [[e|] [w1 t]]; simpl in *; subst t; [|done].
  destruct HR as [Hout|[->|(-> & HR)]]; [|right; done|exact HR].
  unfold outages in Hout. repeat (apply elem_of_cons in Hout as [->|Hout]; [left; reflexivity|]). by apply elem_of_nil in Hout.
Qed.

(** A server that answers every line with 250 or what is expected, and hangs
    up on QUIT. *)
Module Example.
#[export] Instance unicode : Unicode := {| unicode_lower := fun s => s; unicode_equal_fold := String.eqb |}.
#[export] Instance parser : MailParser := fun s => Some s.
Definition ehlo_reply : string := of_bytes (bytes "mail" ++ [of_code 10] ++ bytes "STARTTLS" ++ [of_code 10] ++ bytes "8BITMIME").
#[export] Instance server : Peer unit := {|
  peer_dial _ w := (None, w); peer_handshake _ w := (None, w); peer_greeting w := (inr 220, w);
  peer_answer line w :=
    (if String.eqb line "STARTTLS" then inr (220, "") else if String.eqb line "DATA" then inr (354, "")
     else if String.eqb line "EHLO localhost" then inr (250, ehlo_reply)
     else if String.eqb line "QUIT" then inl broken
     else if HasPrefix line "AUTH" then inr (235, "") else inr (250, ""), w);
  peer_write _ w := (None, w); peer_accept w := (inr 250, w); peer_ctx_err _ := None |}.
Definition cfg : Config := mkConfig true "mail.example.com" "587" "app" "secret" "no-reply@example.com" "starttls" (10 * Second) None.
End Example.
#[local] Existing Instances Example.unicode Example.parser Example.server.

(** The server accepted the message, but a failure of the closing QUIT is
    reported as a failure of the delivery. *)
Example accepted_but_reported :
  let '(result, (_, evs)) := SendCode (W := unit) (fun k m => k +:+ m) (fun s => s) Example.cfg true "pepper" "ann@example.com" "login" "123456" (tt, []) in
  result = Some (ESentinel (SAuth ErrAuthenticationUnavailable)) /\
  Message true (message "no-reply@example.com" "ann@example.com" "123456") ∈ evs /\ Reply 250 ∈ evs.
Proof. vm_compute. split_and!; [done|..]; repeat (first [by left | right]). Qed.
