(* ===== verification/Password.v ===== *)
(** * Password hashes ([pkg/modules/iam/password.go])

    Argon2id and the parser of its parameters ([fmt.Sscanf]) are parameters
    of the model. *)
From S2P Require Import Prelude GoStrings Strconv Base64 IamSQL Iam.

(** @src pkg/modules/iam/password.go:14-20 Argon2Params *)
Record Argon2Params := mkArgon2Params {
  Memory : Z; Iterations : Z; Parallelism : Z; SaltLength : Z; KeyLength : Z }.

(** @src pkg/modules/iam/password.go:22-24 DefaultArgon2Params *)
Definition DefaultArgon2Params : Argon2Params := mkArgon2Params (64 * 1024) 3 2 16 32.

(** [argon2.IDKey]: password, salt, iterations, memory, parallelism, length.
    [Sscanf] with the format of the parameters reads two [uint32] and a
    [uint8]. *)
Class Argon2 := {
  IDKey : string -> string -> Z -> Z -> Z -> Z -> string;
  scan_params : string -> option (Z * Z * Z);
}.

Definition format_params (m t p : Z) : string :=
  "m=" +:+ FormatInt m +:+ ",t=" +:+ FormatInt t +:+ ",p=" +:+ FormatInt p.

Class Argon2Laws `{Argon2} := {
  IDKey_length : forall password salt t m p n, 0 <= n -> len (IDKey password salt t m p n) = n;
  scan_format : forall m t p, 0 <= m < 2 ^ 32 -> 0 <= t < 2 ^ 32 -> 0 <= p < 2 ^ 8 ->
    scan_params (format_params m t p) = Some (m, t, p);
}.

Section Password.
Context {W : Type} `{Argon2}.
Variable rand_read : Z -> M W string.
Variable h : Argon2Params.

(** @src pkg/modules/iam/password.go:35-45 Hash *)
Definition Hash (password : string) : M W string :=
  if is_empty password then throw (EText "password must not be empty")
  else
    salt ← wrap "generate password salt" (rand_read (SaltLength h));
    let key := IDKey password salt (Iterations h) (Memory h) (Parallelism h) (KeyLength h) in
    mret ("$argon2id$v=19$" +:+ format_params (Memory h) (Iterations h) (Parallelism h) +:+ "$" +:+
          EncodeToString RawStd salt +:+ "$" +:+ EncodeToString RawStd key).

(** The limits on the work a stored hash may ask for. *)
Definition safe_params (m t p : Z) : bool :=
  negb ((m <? 8 * 1024) || (256 * 1024 <? m) || (t =? 0) || (10 <? t) || (p =? 0) || (16 <? p)).

(** @src pkg/modules/iam/password.go:47-70 Verify *)
Definition Verify (password encoded : string) : res bool :=
  match Split encoded "$" with
  | [_; p1; p2; p3; p4; p5] =>
      if negb (String.eqb p1 "argon2id") || negb (String.eqb p2 "v=19") then Err (EText "invalid argon2id hash")
      else match scan_params p3 with
      | None => Err (EText "invalid argon2id parameters")
      | Some (memory, iterations, parallelism) =>
          if negb (safe_params memory iterations parallelism) then Err (EText "unsafe argon2id parameters")
          else match DecodeString RawStd p4 with
          | None => Err (EText "invalid argon2id salt")
          | Some salt =>
              match DecodeString RawStd p5 with
              | None => Err (EText "invalid argon2id key")
              | Some want =>
                  if (len want <? 16) || (64 <? len want) || (len salt <? 8) || (64 <? len salt)
                  then Err (EText "invalid argon2id key")
                  else Ok (String.eqb (IDKey password salt iterations memory parallelism (uint32 (len want))) want)
              end
          end
      end
  | _ => Err (EText "invalid argon2id hash")
  end.

Definition service : PasswordService W := mkPasswordService W Hash Verify.
End Password.

(** ** Properties *)
Lemma format_no_dollar m t p : 0 <= m -> 0 <= t -> 0 <= p ->
  Forall (fun a => a <> "$"%char) (bytes (format_params m t p)).
Proof.
  intros. unfold format_params. rewrite !bytes_app, !Forall_app.
  split_and!; try (by apply FormatInt_no_sep); repeat constructor; done.
Qed.

Section Properties.
Context {W : Type} `{Argon2Laws}.
Variable rand_read : Z -> M W string.
Variable h : Argon2Params.

(** The parameters of a hasher that [Verify] accepts. *)
Definition params_ok : Prop :=
  safe_params (Memory h) (Iterations h) (Parallelism h) = true /\ 0 <= Memory h /\ 0 <= Iterations h /\
  0 <= Parallelism h /\ 8 <= SaltLength h <= 64 /\ 16 <= KeyLength h <= 64.

(** A stored hash verifies its password.  For parameters within the
    limits, what [Hash] gives is accepted by [Verify] for that password, and
    for another one exactly when Argon2id maps the two to the same key. *)
Theorem password_roundtrip password w encoded w' :
  params_ok -> (forall n v b v', 0 <= n -> rand_read n v = (Ok b, v') -> len b = n) ->
  Hash rand_read h password w = (Ok encoded, w') ->
  Verify password encoded = Ok true /\
  exists salt, forall other, Verify other encoded =
    Ok (String.eqb (IDKey other salt (Iterations h) (Memory h) (Parallelism h) (KeyLength h))
                   (IDKey password salt (Iterations h) (Memory h) (Parallelism h) (KeyLength h))).
Proof.
  intros (Hsafe & Hm & Ht & Hp & Hs & Hk) Hread. unfold Hash. destruct (is_empty password); [done|].
  intros (salt & w1 & E%wrap_Ok_inv & Hr)%M_bind_Ok_inv. injection Hr as <- <-. apply Hread in E; [|lia].
  set (key := IDKey password salt _ _ _ _).
  assert (len key = KeyLength h) as Hlen by (apply IDKey_length; lia).
  pose proof Hsafe as Hsafe'. unfold safe_params in Hsafe. bool_prop.
  assert (exists fp, format_params (Memory h) (Iterations h) (Parallelism h) = fp /\
    Forall (fun a => a <> "$"%char) (bytes fp) /\
    scan_params fp = Some (Memory h, Iterations h, Parallelism h)) as (fp & -> & Hfp & Hscan).
  { eexists. split; [reflexivity|]. split; [by apply format_no_dollar|apply scan_format; lia]. }
  assert (forall s, Forall (fun c => c <> "$"%char) (bytes (EncodeToString RawStd s))) as Hno.
  { intros s. unfold EncodeToString. rewrite bytes_of_bytes.
    eapply Forall_impl; [apply encode_no_sep, RawStd_ok|by intros c [_ ?]]. }
  match goal with |- Verify _ ?e = _ /\ _ => set (encoded := e) end.
  assert (Split encoded "$" = [""; "argon2id"; "v=19"; fp; EncodeToString RawStd salt; EncodeToString RawStd key]) as Hsplit.
  { unfold Split, encoded. rewrite (bytes_app "$argon2id$v=19$"), (bytes_app fp), (bytes_app "$"),
      (bytes_app (EncodeToString RawStd salt)), (bytes_app "$"). simpl.
    rewrite !split_on_app, split_on_no_sep by done. simpl. by rewrite !of_bytes_bytes. }
  assert (forall other, Verify other encoded = Ok (String.eqb (IDKey other salt (Iterations h) (Memory h)
    (Parallelism h) (KeyLength h)) key)) as Hv.
  { intros other. unfold Verify. rewrite Hsplit. simpl.
    rewrite !DecodeString_EncodeToString by apply RawStd_ok. rewrite Hscan, Hsafe'. simpl.
    rewrite E, Hlen. replace ((KeyLength h <? 16) || (64 <? KeyLength h) || (SaltLength h <? 8) || (64 <? SaltLength h))
      with false by lia. by rewrite uint32_id by lia. }
  split; [by rewrite Hv, String.eqb_refl|]. exists salt. done.
Qed.

(** A stored hash cannot ask for more than 256 MiB, ten iterations and
    sixteen lanes: whatever the text, a verification that computes a key does
    so within these limits. *)
Lemma Verify_bounded password encoded b :
  Verify password encoded = Ok b ->
  exists m t p salt want, safe_params m t p = true /\ 16 <= len want <= 64 /\ 8 <= len salt <= 64 /\
    b = String.eqb (IDKey password salt t m p (len want)) want.
Proof.
  unfold Verify. destruct (Split encoded "$") as [|p0 [|p1 [|p2 [|p3 [|p4 [|p5 [|]]]]]]]; try done.
  destruct (_ || _); [done|]. destruct (scan_params p3) as [[[m t] p]|]; [|done].
  destruct (safe_params m t p) eqn:Hs; [|done]. simpl.
  destruct (DecodeString RawStd p4) as [salt|]; [|done]. destruct (DecodeString RawStd p5) as [want|]; [|done].
  destruct (_ || _) eqn:Hl; [done|]. intros [= <-]. bool_prop.
  exists m, t, p, salt, want. split_and!; try done. by rewrite uint32_id by lia.
Qed.
End Properties.

(** ** A toy key derivation *)
Module Example.
(** A salt and a key of sixteen bytes. *)
Definition pad16 (s : string) : string := of_bytes (take 16 (bytes s ++ replicate 16 "0"%char)).
Definition hasher : Argon2Params := mkArgon2Params (64 * 1024) 3 2 16 16.
Definition read (n : Z) : M unit string := mret (of_bytes (replicate (Z.to_nat n) "s"%char)).

(** The parameters of the text are read at the commas. *)
Definition field (prefix s : string) : option Z :=
  if HasPrefix s prefix then ParseInt (of_bytes (drop (String.length prefix) (bytes s))) else None.

#[export] Instance argon2 : Argon2 := {
  IDKey password salt t m p n :=
    of_bytes (take (Z.to_nat n) (bytes password ++ replicate (Z.to_nat n) "0"%char));
  scan_params s :=
    match Split s "," with
    | [a; b; c] => m ← field "m=" a; t ← field "t=" b; p ← field "p=" c; Some (m, t, p)
    | _ => None
    end;
}.
End Example.
#[local] Existing Instance Example.argon2.

Lemma field_read a z : in_int64 z -> Example.field (String a "=") (String a (String "=" (FormatInt z))) = Some z.
Proof.
  intros Hz. unfold Example.field, HasPrefix. simpl. destruct (Ascii.ascii_dec a a); [|done].
  replace (String.prefix "" (FormatInt z)) with true by (by destruct (FormatInt z)).
  rewrite drop_0, of_bytes_bytes. by apply ParseInt_FormatInt.
Qed.

#[local] Instance argon2_laws : Argon2Laws.
Proof.
  split; simpl.
  - intros password salt t m p n Hn. rewrite len_bytes, bytes_of_bytes, length_take, length_app, length_replicate. lia.
  - intros m t p Hm Ht Hp. unfold format_params, Split.
    rewrite (bytes_app "m="), (bytes_app (FormatInt m)), (bytes_app ",t="), (bytes_app (FormatInt t)), (bytes_app ",p=").
    simpl. rewrite split_on_app by (apply FormatInt_no_sep; [done|lia]). simpl.
    rewrite split_on_app by (apply FormatInt_no_sep; [done|lia]). simpl.
    rewrite split_on_no_sep by (apply FormatInt_no_sep; [done|lia]). simpl.
    rewrite !of_bytes_bytes, !field_read by (unfold in_int64, min_int64, max_int64; lia). done.
Qed.

(** The hash of a password verifies it and no other. *)
Lemma password_roundtrip_witness :
  exists encoded, (Hash Example.read Example.hasher "correct horse" ()).1 = Ok encoded /\
    Verify "correct horse" encoded = Ok true /\ Verify "battery staple" encoded = Ok false.
Proof.
  destruct (Hash Example.read Example.hasher "correct horse" ()) as [[encoded|e|] w'] eqn:E;
    [|vm_compute in E; discriminate E..].
  exists encoded. split; [reflexivity|].
  destruct (password_roundtrip Example.read Example.hasher "correct horse" () encoded w') as (Hv & salt & Hother).
  - split_and!; vm_compute; first [reflexivity|discriminate].
  - intros n v b v' Hn Er. injection Er as <- <-.
    rewrite len_bytes, bytes_of_bytes, length_replicate. lia.
  - exact E.
  - split; [exact Hv|]. rewrite (Hother "battery staple"). vm_compute. reflexivity.
Defined.
