(* ===== verification/AuthCache.v ===== *)
(** * Emailed codes and login challenges ([pkg/platform/authcache/redis.go])

    A code lives in a hash of Redis under the digest of the mailbox: the
    digest of the code, an identifier and the number of wrong guesses.  A
    challenge is a hash with its user, version and number of attempts.  Every
    operation is one Lua script.  The keyed digest, the random source, the
    clock and the error of the caller's context are parameters. *)
From S2P Require Import Prelude GoStrings Strconv Redis RedisKeys IamSQL Iam.

(** ** The scripts *)
Section Scripts.
Context {S : Type} `{RedisKeys S}.

(** [math.ceil(ms / 1000)] *)
Definition ceil_seconds (ms : Z) : Z := - ((- ms) / 1000).

(** One turn of the loop over the two limits. *)
Definition limit_step (key : string) (limit retry : Z) : M S Z :=
  count ← redis_call (INCR key);
  _ ← when (count =? 1) (_ ← redis_call (EXPIRE key 3600); mret tt);
  if limit <? count
  then ttl ← redis_call (PTTL key); mret (Z.max retry (ceil_seconds ttl))
  else mret retry.

(** The seconds to wait, or 0 when the code is stored.
    @src pkg/platform/authcache/redis.go:45-58 issueScript *)
Definition issueScript (key cooldown emailLimit ipLimit digest id : string) (perEmail perIP : Z) : M S Z :=
  retry ← limit_step emailLimit perEmail 0;
  retry ← limit_step ipLimit perIP retry;
  ttl ← redis_call (PTTL cooldown);
  let retry := Z.max retry (ceil_seconds ttl) in
  if 0 <? retry then mret retry
  else
    _ ← redis_call (SET_EX cooldown "1" 60);
    _ ← redis_call (HSET key [("digest", digest); ("id", id); ("errors", "0")]);
    _ ← redis_call (EXPIRE key 600);
    mret 0.

(** [tonumber]: comparing its result fails when the field is no number. *)
Definition tonumber (s : option string) : M S Z :=
  match s ≫= ParseInt with
  | Some n => mret n
  | None => throw (EText "attempt to compare nil with number")
  end.

(** The identifier and the remaining milliseconds of the code, or nothing.
    @src pkg/platform/authcache/redis.go:81-90 verifyScript *)
Definition verifyScript (key digest : string) (consume : bool) : M S (list string) :=
  exists_ ← redis_call (EXISTS key);
  if exists_ =? 0 then mret []
  else
    errors ← redis_call (HGET key "errors");
    n ← tonumber errors;
    if 5 <=? n then mret []
    else
      d ← redis_call (HGET key "digest");
      if negb (bool_decide (d = Some digest)) then
        _ ← redis_call (HINCRBY key "errors" 1);
        mret []
      else
        id ← redis_call (HGET key "id");
        ttl ← redis_call (PTTL key);
        _ ← when consume (_ ← redis_call (DELETE key); mret tt);
        mret [default "" id; FormatInt ttl].

(** @src pkg/platform/authcache/redis.go:109-111 consumeScript *)
Definition consumeScript (key id : string) : M S Z :=
  current ← redis_call (HGET key "id");
  if negb (bool_decide (current = Some id)) then mret 0
  else _ ← redis_call (DELETE key); mret 1.

(** The script of [challengeStore.Issue]. *)
Definition challengeIssueScript (key user version : string) : M S Z :=
  _ ← redis_call (HSET key [("user", user); ("version", version); ("attempts", "0")]);
  _ ← redis_call (EXPIRE key 300);
  mret 1.

(** The script of [challengeStore.Attempt]. *)
Definition challengeAttemptScript (key : string) : M S (list string) :=
  exists_ ← redis_call (EXISTS key);
  if exists_ =? 0 then mret []
  else
    attempts ← redis_call (HINCRBY key "attempts" 1);
    if 5 <? attempts then mret []
    else
      user ← redis_call (HGET key "user");
      version ← redis_call (HGET key "version");
      mret [default "" user; default "" version].
End Scripts.

(** @src pkg/platform/authcache/redis.go:20-24 Store *)
Record Store := mkStore { prefix : string; pepper : string }.

Section Codes.
Context {W S : Type} `{RedisKeys S} `{Redis W S} `{Unicode}.
(** [hmac_sha256 pepper value] *)
Variable hmac_sha256 : string -> string -> string.
(** [rand.Int] below its argument *)
Variable rand_int : Z -> M W Z.
Variable rand_read : Z -> M W string.
Variable now : W -> Z.
Variable ctx_err : W -> option LibErr.
Variable s : Store.

(** @src pkg/platform/authcache/redis.go:26-28 New *)
Definition New (environment pepper : string) : Store := mkStore ("auth:" +:+ environment +:+ ":") pepper.

(** @src pkg/platform/authcache/redis.go:29-33 digest *)
Definition digest (value : string) : string := hex_EncodeToString (hmac_sha256 (pepper s) value).

(** @src pkg/platform/authcache/redis.go:34-36 emailKey *)
Definition emailKey (email : string) (purpose : EmailCodePurpose) : string :=
  prefix s +:+ "email:" +:+ purpose +:+ ":" +:+ digest (ToLower (TrimSpace email)).

(** @src pkg/platform/authcache/redis.go:37-43 randomID *)
Definition randomID : M W string :=
  b ← try (rand_read 32);
  match b with Ok b => mret (hex_EncodeToString b) | _ => throw ErrAuthenticationUnavailable end.

(** @src pkg/platform/authcache/redis.go:174-185 cacheError *)
Definition cacheError (ctx : option LibErr) (err : error) : error :=
  match ctx with
  | Some c => ESentinel (SLib c)
  | None => if errors_is ContextCanceled err then ESentinel ContextCanceled
            else ESentinel ErrAuthenticationUnavailable
  end.

(** [return ..., cacheError(ctx, e)] *)
Definition cached {A} (m : M W A) : M W A :=
  r ← try m;
  match r with
  | Ok a => mret a
  | Err e => w ← get_world; throw (cacheError (ctx_err w) e)
  | Panic => panic
  end.

Definition limitEmailKey (email : string) : string :=
  prefix s +:+ "limit:email:" +:+ digest (ToLower (TrimSpace email)).
Definition limitIPKey (ip : string) : string := prefix s +:+ "limit:ip:" +:+ digest ip.

(** @src pkg/platform/authcache/redis.go:60-79 Issue *)
Definition Issue (email : string) (purpose : EmailCodePurpose) (ip : string) : M W string :=
  n ← cached (rand_int 1000000);
  let code := pad6 n in
  id ← cached randomID;
  let key := emailKey email purpose in
  retry ← cached (redis_eval (issueScript key (key +:+ ":cooldown") (limitEmailKey email) (limitIPKey ip)
                    (digest (key +:+ ":" +:+ code)) id 10 50));
  if 0 <? retry then throw (ERateLimit retry) else mret code.

(** The reply of the script as a receipt. *)
Definition code_receipt (started : Z) (v : list string) : res CodeReceipt :=
  match v with
  | [id; ttl] =>
      match ParseInt ttl with
      | Some ttl => if ttl <=? 0 then Err ErrInvalidCode
                    else Ok (mkCodeReceipt id (started + int64 (ttl * Millisecond)))
      | None => Err ErrInvalidCode
      end
  | _ => Err ErrInvalidCode
  end.

(** @src pkg/platform/authcache/redis.go:92-107 Verify *)
Definition Verify (email : string) (purpose : EmailCodePurpose) (code : string) : M W CodeReceipt :=
  let key := emailKey email purpose in
  started ← gets now;
  v ← cached (redis_eval (verifyScript key (digest (key +:+ ":" +:+ code)) false));
  of_res (code_receipt started v).

(** @src pkg/platform/authcache/redis.go:113-122 Consume *)
Definition Consume (email : string) (purpose : EmailCodePurpose) (receipt : CodeReceipt) : M W unit :=
  n ← cached (redis_eval (consumeScript (emailKey email purpose) (rc_ID receipt)));
  if negb (n =? 1) then throw ErrInvalidCode else mret tt.

(** @src pkg/platform/authcache/redis.go:162-172 VerifyAndConsume *)
Definition VerifyAndConsume (email : string) (purpose : EmailCodePurpose) (code : string) : M W unit :=
  let key := emailKey email purpose in
  result ← cached (redis_eval (verifyScript key (digest (key +:+ ":" +:+ code)) true));
  if negb (length result =? 2)%nat then throw ErrInvalidCode else mret tt.

(** ** Challenges *)

(** @src pkg/platform/authcache/redis.go:127-127 challengeStore.key *)
Definition challenge_key (id : string) : string := prefix s +:+ "challenge:" +:+ digest id.

(** @src pkg/platform/authcache/redis.go:128-135 challengeStore.Issue *)
Definition challenge_Issue (v : Challenge) : M W string :=
  id ← cached randomID;
  _ ← cached (redis_eval (challengeIssueScript (challenge_key id) (ch_UserID v) (FormatInt (ch_Version v))));
  mret id.

(** @src pkg/platform/authcache/redis.go:136-149 challengeStore.Attempt *)
Definition challenge_Attempt (id : string) : M W Challenge :=
  if negb (len id =? 64) then throw ErrInvalidCode
  else
    v ← cached (redis_eval (challengeAttemptScript (challenge_key id)));
    match v with
    | [user; version] =>
        match ParseInt version with
        | Some version => mret (mkChallenge user version)
        | None => cached (throw (EText "strconv.ParseInt: parsing"))
        end
    | _ => throw ErrInvalidCode
    end.

(** @src pkg/platform/authcache/redis.go:150-159 challengeStore.Consume *)
Definition challenge_Consume (id : string) : M W unit :=
  n ← cached (redis_eval (redis_call (DELETE (challenge_key id))));
  if negb (n =? 1) then throw ErrInvalidCode else mret tt.

(** The store as the authentication service sees it.
    @src pkg/platform/authcache/redis.go:124-126 Challenges *)
Definition store_Challenges : Challenges W := mkChallenges W challenge_Issue challenge_Attempt challenge_Consume.
Definition store_Codes : VerificationCodeStore W :=
  mkVerificationCodeStore W Issue Verify VerifyAndConsume Consume.
End Codes.

(** ** Properties *)

(** A key of one of the four families is none of another. *)
Lemma string_app_inj p a b : p +:+ a = p +:+ b -> a = b.
Proof. induction p as [|c p IH]; [done|]. simpl. intros [= E]. by apply IH. Qed.

Definition last_byte (s : string) : option ascii := last (bytes s).

Lemma last_byte_app a b : b <> "" -> last_byte (a +:+ b) = last_byte b.
Proof.
  intros Hb. unfold last_byte. rewrite bytes_app, last_app. destruct b as [|c b]; [done|].
  destruct (last (bytes (String c b))) eqn:E; [done|]. by apply last_None in E.
Qed.

Lemma hex_digit_not_n z : 0 <= z < 16 -> hex_digit z <> "n"%char.
Proof. intros Hz E. pose proof (hex_value_digit z Hz) as Hv. by rewrite E in Hv. Qed.

Lemma last_hex_encode l a : last (hex_encode l) = Some a -> a <> "n"%char.
Proof.
  induction l as [|b l IH]; [done|]. destruct l as [|c l].
  - simpl. intros [= <-]. apply hex_digit_not_n. apply Z.mod_pos_bound. lia.
  - intros E. apply IH. exact E.
Qed.

Section Cache.
Context {W S : Type} `{RedisKeysLaws S} `{Redis W S} `{!RedisEvalLaws W S} `{Unicode}.
Variable hmac_sha256 : string -> string -> string.
Variable rand_int : Z -> M W Z.
Variable rand_read : Z -> M W string.
Variable now : W -> Z.
Variable ctx_err : W -> option LibErr.
Variable s : Store.

(** The other sources only let time pass. *)
Definition ticks : W -> W -> Prop := fun w w' => keys_tick (redis_store w) (redis_store w').
Hypothesis rand_int_ticks : forall n, within ticks (rand_int n).
Hypothesis rand_read_ticks : forall n, within ticks (rand_read n).

#[local] Abbreviation emailKey := (emailKey hmac_sha256 s).
#[local] Abbreviation limitEmailKey := (limitEmailKey hmac_sha256 s).
#[local] Abbreviation limitIPKey := (limitIPKey hmac_sha256 s).
#[local] Abbreviation challenge_key := (challenge_key hmac_sha256 s).
#[local] Abbreviation code_digest k code := (digest hmac_sha256 s (k +:+ ":" +:+ code)).

(** *** The keys *)
Lemma emailKey_cooldown e p k : emailKey e p <> k +:+ ":cooldown".
Proof.
  intros E. apply (f_equal last_byte) in E. rewrite last_byte_app in E by done.
  unfold AuthCache.emailKey in E. rewrite !(last_byte_app _ (_ +:+ _)) in E by (by destruct p).
  unfold digest in E. set (d := hex_EncodeToString _) in E.
  destruct (decide (d = "")) as [Hd|Hd]; [by rewrite Hd in E|].
  rewrite last_byte_app in E by done. unfold d, last_byte, hex_EncodeToString in E.
  rewrite bytes_of_bytes in E. by apply last_hex_encode in E.
Qed.

Lemma emailKey_limit_email e p e' : emailKey e p <> limitEmailKey e'.
Proof. unfold AuthCache.emailKey, AuthCache.limitEmailKey. by intros E%string_app_inj. Qed.
Lemma emailKey_limit_ip e p ip : emailKey e p <> limitIPKey ip.
Proof. unfold AuthCache.emailKey, AuthCache.limitIPKey. by intros E%string_app_inj. Qed.
Lemma emailKey_challenge e p id : emailKey e p <> challenge_key id.
Proof. unfold AuthCache.emailKey, AuthCache.challenge_key. by intros E%string_app_inj. Qed.

Ltac key_neq := unfold AuthCache.emailKey, AuthCache.limitEmailKey, AuthCache.limitIPKey, AuthCache.challenge_key;
  rewrite ?string_app_assoc; by intros E%string_app_inj.

Lemma challenge_cooldown id e p : challenge_key id <> emailKey e p +:+ ":cooldown".
Proof. key_neq. Qed.
Lemma challenge_limit_email id e : challenge_key id <> limitEmailKey e.
Proof. key_neq. Qed.
Lemma challenge_limit_ip id ip : challenge_key id <> limitIPKey ip.
Proof. key_neq. Qed.
Lemma limit_email_cooldown e e' p : limitEmailKey e <> emailKey e' p +:+ ":cooldown".
Proof. key_neq. Qed.
Lemma limit_email_ip e ip : limitEmailKey e <> limitIPKey ip.
Proof. key_neq. Qed.
Lemma cooldown_limit_ip e p ip : emailKey e p +:+ ":cooldown" <> limitIPKey ip.
Proof. key_neq. Qed.
Lemma cooldown_inj e p e' p' :
  emailKey e p +:+ ":cooldown" = emailKey e' p' +:+ ":cooldown" -> emailKey e p = emailKey e' p'.
Proof.
  intros E%(f_equal bytes). rewrite !bytes_app in E. apply app_inv_tail in E.
  by rewrite <- (of_bytes_bytes (emailKey e p)), E, of_bytes_bytes.
Qed.

(** *** Histories *)
Inductive cache_op :=
  | OpIssue (email : string) (purpose : EmailCodePurpose) (ip : string)
  | OpVerify (email : string) (purpose : EmailCodePurpose) (code : string)
  | OpVerifyAndConsume (email : string) (purpose : EmailCodePurpose) (code : string)
  | OpConsume (email : string) (purpose : EmailCodePurpose) (receipt : CodeReceipt)
  | OpChallenge (v : Challenge)
  | OpAttempt (id : string)
  | OpConsumeChallenge (id : string).

Definition discard {A} (m : M W A) : M W unit := _ ← m; mret tt.

#[local] Abbreviation Issue := (Issue hmac_sha256 rand_int rand_read ctx_err s).
#[local] Abbreviation Verify := (Verify hmac_sha256 now ctx_err s).
#[local] Abbreviation VerifyAndConsume := (VerifyAndConsume hmac_sha256 ctx_err s).
#[local] Abbreviation Consume := (Consume hmac_sha256 ctx_err s).
#[local] Abbreviation challenge_Issue := (challenge_Issue hmac_sha256 rand_read ctx_err s).
#[local] Abbreviation challenge_Attempt := (challenge_Attempt hmac_sha256 ctx_err s).
#[local] Abbreviation challenge_Consume := (challenge_Consume hmac_sha256 ctx_err s).

Definition run_op (op : cache_op) : M W unit :=
  match op with
  | OpIssue e p ip => discard (Issue e p ip)
  | OpVerify e p c => discard (Verify e p c)
  | OpVerifyAndConsume e p c => VerifyAndConsume e p c
  | OpConsume e p r => Consume e p r
  | OpChallenge v => discard (challenge_Issue v)
  | OpAttempt id => discard (challenge_Attempt id)
  | OpConsumeChallenge id => challenge_Consume id
  end.

Fixpoint run_ops (ops : list cache_op) (w : W) : W :=
  match ops with [] => w | op :: ops => run_ops ops (run_op op w).2 end.

(** The number of operations of a history that [f] counts. *)
Fixpoint tally (f : cache_op -> res unit -> bool) (ops : list cache_op) (w : W) : Z :=
  match ops with
  | [] => 0
  | op :: ops =>
      let '(r, w') := run_op op w in (if f op r then 1 else 0) + tally f ops w'
  end.

(** A property with a counter that every operation preserves while counting. *)
Lemma tally_keeps (guard : cache_op -> Prop) (f : cache_op -> res unit -> bool) (P : Z -> W -> Prop) ops n w :
  (forall op n w r w', guard op -> P n w -> run_op op w = (r, w') ->
     P (n + if f op r then 1 else 0) w') ->
  Forall guard ops -> P n w -> P (n + tally f ops w) (run_ops ops w).
Proof.
  intros Hstep Hg. revert n w. induction Hg as [|op ops Hop _ IH]; intros n w Hw; simpl.
  - by rewrite Z.add_0_r.
  - destruct (run_op op w) as [r w'] eqn:E. rewrite Z.add_assoc. apply IH. by eapply Hstep.
Qed.

Lemma run_ops_keeps (guard : cache_op -> Prop) (P : W -> Prop) ops w :
  (forall op, guard op -> within (keeps P) (run_op op)) -> Forall guard ops -> P w -> P (run_ops ops w).
Proof.
  intros Hstep Hg Hw. apply (tally_keeps guard (fun _ _ => false) (fun _ => P) ops 0 w); [|done|done].
  intros op n w1 r w2 Hop Hw1 E. pose proof (Hstep op Hop w1 Hw1) as Hw2. by rewrite E in Hw2.
Qed.

(** *** What an operation does to one key *)
Definition key_keeps (k : string) (Q : option entry -> Prop) : W -> W -> Prop :=
  keeps (fun w => at_key k Q (redis_store w)).

#[local] Instance key_keeps_preorder k Q : PreOrder (key_keeps k Q).
Proof. unfold key_keeps. apply _. Qed.

Lemma within_cached {A} R `{!PreOrder R} (m : M W A) : within R m -> within R (cached ctx_err m).
Proof.
  intros Hm. unfold cached. apply within_bind; [done|by apply within_try|].
  intros [a|e|]; [by apply within_ret| |by apply within_panic].
  apply within_bind; [done|intros w; reflexivity|]. intros w. by apply within_throw.
Qed.

Section Key.
Variable k : string.
Variable Q : option entry -> Prop.
Hypothesis HQ : Q None.

Lemma script_keeps {A} (f : M S A) : within (keeps (at_key k Q)) f -> within (key_keeps k Q) (cached ctx_err (redis_eval f)).
Proof. intros Hf. apply within_cached; [apply _|]. apply eval_keeps; [by apply at_key_stable|done]. Qed.

Lemma other_keeps {A} (f : M S A) : within (leaves k) f -> within (key_keeps k Q) (cached ctx_err (redis_eval f)).
Proof. intros Hf. by apply script_keeps, leaves_keeps. Qed.

Lemma ticks_keeps {A} (m : M W A) : within ticks m -> within (key_keeps k Q) m.
Proof. intros Hm w Hw. by eapply (at_key_stable k Q HQ); [apply Hm|]. Qed.

Lemma randomID_keeps : within (key_keeps k Q) (randomID rand_read).
Proof. unfold randomID. apply within_bind; [apply _|by apply within_try, ticks_keeps|]. intros r. solve_within. Qed.

Hint Resolve within_cached script_keeps other_keeps ticks_keeps randomID_keeps : within.

Lemma issueScript_leaves key cooldown le li d id m n :
  k <> key -> k <> cooldown -> k <> le -> k <> li ->
  within (leaves k) (issueScript (S := S) key cooldown le li d id m n).
Proof.
  intros. unfold issueScript, limit_step. solve_within; apply leaves_call; simpl; congruence.
Qed.

Lemma delete_keeps : within (keeps (at_key k Q)) (redis_call (DELETE k)).
Proof. apply call_at_key. intros _ t m _. simpl. by rewrite lookup_delete_eq. Qed.

Lemma verifyScript_leaves key d c : k <> key -> within (leaves k) (verifyScript (S := S) key d c).
Proof. intros. unfold verifyScript, tonumber. solve_within; apply leaves_call; simpl; congruence. Qed.

Lemma read_keeps {A} (c : command A) :
  (forall t m, (documented c t m).2 = m) -> within (keeps (at_key k Q)) (redis_call c).
Proof. intros Hc. apply call_at_key. intros _ t m. by rewrite Hc. Qed.

Lemma consumeScript_keeps key id : within (keeps (at_key k Q)) (consumeScript (S := S) key id).
Proof.
  destruct (decide (k = key)) as [<-|Hne].
  - unfold consumeScript. apply within_bind; [apply _| |].
    + apply read_keeps. intros t m. simpl. by destruct (hash_at k m).
    + intros d. case_match; [solve_within|]. apply within_bind; [apply _|apply delete_keeps|solve_within].
  - apply leaves_keeps. unfold consumeScript. solve_within; apply leaves_call; simpl; congruence.
Qed.

Lemma challengeIssue_leaves key u v : k <> key -> within (leaves k) (challengeIssueScript (S := S) key u v).
Proof. intros. unfold challengeIssueScript. solve_within; apply leaves_call; simpl; congruence. Qed.

Lemma challengeAttempt_leaves key : k <> key -> within (leaves k) (challengeAttemptScript (S := S) key).
Proof. intros. unfold challengeAttemptScript. solve_within; apply leaves_call; simpl; congruence. Qed.

(** Enough for an operation to preserve what [k] holds. *)
Definition harmless (op : cache_op) : Prop :=
  match op with
  | OpIssue e p ip => k <> emailKey e p /\ k <> emailKey e p +:+ ":cooldown" /\ k <> limitEmailKey e /\ k <> limitIPKey ip
  | OpVerify e p c => k <> emailKey e p \/
      within (keeps (at_key k Q)) (verifyScript (S := S) k (code_digest k c) false)
  | OpVerifyAndConsume e p c => k <> emailKey e p \/
      within (keeps (at_key k Q)) (verifyScript (S := S) k (code_digest k c) true)
  | OpConsume _ _ _ => True
  | OpChallenge _ => forall n w b w', rand_read n w = (Ok b, w') -> k <> challenge_key (hex_EncodeToString b)
  | OpAttempt id => k <> challenge_key id \/ within (keeps (at_key k Q)) (challengeAttemptScript (S := S) k)
  | OpConsumeChallenge _ => True
  end.

Lemma randomID_value w id w' :
  cached ctx_err (randomID rand_read) w = (Ok id, w') ->
  exists n w1 b w2, rand_read n w1 = (Ok b, w2) /\ id = hex_EncodeToString b.
Proof.
  unfold cached, randomID. intros (r & w1 & [([=] & _)|(x & [= ->] & _ & E)]%try_inv & Hr)%M_bind_Ok_inv.
  destruct x as [a|e|]; [|done|done]. injection Hr as <- <-.
  apply M_bind_Ok_inv in E as (b & w2 & [([=] & _)|(x & [= ->] & _ & E)]%try_inv & Hr).
  destruct x as [b|e|]; [|done|done]. injection Hr as <- <-. eauto 6.
Qed.

Lemma harmless_keeps op : harmless op -> within (key_keeps k Q) (run_op op).
Proof.
  destruct op as [e p ip|e p c|e p c|e p r|v|id|id]; simpl; intros Hop; unfold discard.
  - destruct Hop as (? & ? & ? & ?). unfold AuthCache.Issue.
    pose proof issueScript_leaves. solve_within; apply other_keeps; auto.
  - unfold AuthCache.Verify. assert (within (key_keeps k Q) (cached ctx_err
      (redis_eval (verifyScript (emailKey e p) (code_digest (emailKey e p) c) false)))) as Hs.
    { destruct (decide (k = emailKey e p)) as [Hk|Hk]; [|by apply other_keeps, verifyScript_leaves].
      destruct Hop as [?|Hv]; [done|]. rewrite <- Hk. by apply script_keeps. }
    solve_within.
  - unfold AuthCache.VerifyAndConsume. assert (within (key_keeps k Q) (cached ctx_err
      (redis_eval (verifyScript (emailKey e p) (code_digest (emailKey e p) c) true)))) as Hs.
    { destruct (decide (k = emailKey e p)) as [Hk|Hk]; [|by apply other_keeps, verifyScript_leaves].
      destruct Hop as [?|Hv]; [done|]. rewrite <- Hk. by apply script_keeps. }
    solve_within.
  - unfold AuthCache.Consume. pose proof consumeScript_keeps. solve_within.
  - unfold AuthCache.challenge_Issue. apply within_bind; [apply _| |solve_within].
    apply within_bind_ok; [apply _|by apply within_cached, randomID_keeps; apply _|].
    intros id w w' (n & w1 & b & w2 & Hr & ->)%randomID_value. apply Hop in Hr.
    pose proof challengeIssue_leaves. solve_within; apply other_keeps; auto.
  - unfold AuthCache.challenge_Attempt. assert (within (key_keeps k Q) (cached ctx_err
      (redis_eval (challengeAttemptScript (challenge_key id))))) as Hs.
    { destruct (decide (k = challenge_key id)) as [Hk|Hk]; [|by apply other_keeps, challengeAttempt_leaves].
      destruct Hop as [?|Hv]; [done|]. rewrite <- Hk. by apply script_keeps. }
    solve_within.
  - unfold AuthCache.challenge_Consume. apply within_bind; [apply _| |solve_within].
    destruct (decide (k = challenge_key id)) as [Hk|Hk].
    + rewrite <- Hk. apply script_keeps, delete_keeps.
    + by apply other_keeps, leaves_call.
Qed.
End Key.

(** *** Guessing a code

    The code of digest [d] at a key has seen [n] wrong guesses: the key is
    gone, or its counter has reached [n], or the limit of five. *)
Definition guessed (d : string) (n : Z) (e : option entry) : Prop :=
  match e with
  | Some (mkEntry (VHash h) _) =>
      h !! "digest" = Some d /\ exists m, h !! "errors" ≫= ParseInt = Some m /\ Z.min n 5 <= m
  | _ => True
  end.

(** What [verifyScript] found and left, when it answered. *)
Lemma verifyScript_inv key d c st r st' :
  verifyScript (S := S) key d c st = (r, st') ->
  match keys st !! key with
  | None => r = Ok [] /\ keys st' !! key = None
  | Some (mkEntry (VHash h) dl) =>
      match h !! "errors" ≫= ParseInt with
      | Some m =>
          if 5 <=? m then r = Ok [] /\ keys st' !! key = keys st !! key
          else if bool_decide (h !! "digest" = Some d)
          then is_ok r = true /\ r <> Ok [] /\
               keys st' !! key = if c then None else keys st !! key
          else (r = Ok [] \/ is_ok r = false) /\
               keys st' !! key = match parse_in_range (default "0" (h !! "errors")) 1 with
                                 | Some z => Some (mkEntry (VHash (<["errors" := FormatInt z]> h)) dl)
                                 | None => keys st !! key
                                 end
      | None => is_ok r = false /\ keys st' !! key = keys st !! key
      end
  | Some _ => is_ok r = false /\ keys st' !! key = keys st !! key
  end.
Proof.
  unfold verifyScript. intros E. call_inv E. simpl in E, Hk.
  destruct (keys st !! key) as [[v dl]|] eqn:Ek; simpl in E.
  2: { injection E as <- <-. by rewrite Hk. }
  call_inv E. simpl in E, Hk0. unfold hash_at in E, Hk0. rewrite Hk, Ek in E, Hk0.
  destruct v as [x|h|x]; simpl in E, Hk0.
  1, 3: injection E as <- <-; by rewrite Hk0.
  rewrite M_bind_run in E. unfold tonumber at 1 in E.
  destruct (h !! "errors" ≫= ParseInt) as [m|] eqn:Em; cbn -[Z.leb] in E.
  2: { injection E as <- <-. by rewrite Hk0. }
  destruct (5 <=? m); [injection E as <- <-; by rewrite Hk0|].
  call_inv E. simpl in E, Hk1. unfold hash_at in E, Hk1. rewrite Hk0, Ek in E, Hk1. simpl in E, Hk1.
  case_bool_decide as Hd; simpl in E.
  - call_inv E. simpl in E, Hk2. unfold hash_at in E, Hk2. rewrite Hk1, Ek in E, Hk2. simpl in E, Hk2.
    call_inv E. simpl in E, Hk3. rewrite M_bind_run in E. destruct c; simpl in E.
    + destruct (call_run (DELETE key) s4) as (s5 & Edel & Hdel & _).
      rewrite M_bind_run, Edel in E. simpl in E, Hdel. injection E as <- <-. split_and!; [done|done|].
      rewrite Hdel. apply lookup_delete_eq.
    + injection E as <- <-. split_and!; [done|done|]. by rewrite Hk3, Hk2.
  - call_inv E. simpl in E, Hk2. unfold hash_at in E, Hk2. rewrite Hk1, Ek in E, Hk2. simpl in E, Hk2.
    destruct (parse_in_range _ 1); simpl in E, Hk2; injection E as <- <-; rewrite Hk2;
      (split; [by auto|]).
    + unfold deadline_at. by rewrite lookup_insert_eq, Ek.
    + done.
Qed.

Lemma cached_Ok_inv {A} (m : M W A) w a w' : cached ctx_err m w = (Ok a, w') -> m w = (Ok a, w').
Proof.
  unfold cached. intros (r & w1 & [([=] & _)|(x & [= ->] & _ & E)]%try_inv & Hr)%M_bind_Ok_inv.
  destruct x as [b|e|]; [|done|done]. by injection Hr as <- <-.
Qed.

Lemma cached_invalid {A} (m : M W A) w w' : cached ctx_err m w <> (Err (ESentinel ErrInvalidCode), w').
Proof.
  unfold cached. intros [(r & w1 & [([=] & _)|(x & [= ->] & _ & E)]%try_inv & Hr)|[(e & [([=] & _)|(x & [=] & _)]%try_inv & _)|[_ [=]]]]%M_bind_inv.
  destruct x as [b|e|]; [done| |done]. apply M_bind_inv in Hr as [(w2 & w3 & E2 & Hr)|[(e2 & [=] & _)|[_ [=]]]].
  unfold throw, cacheError in Hr. by repeat case_match; simplify_eq.
Qed.

Lemma guessed_worsens d n e : guessed d (n + 1) e -> guessed d n e.
Proof.
  unfold guessed. destruct e as [[[x|h|x] dl]|]; try done. intros (Hd & m & Hm & Hle).
  split; [done|]. exists m. split; [done|lia].
Qed.

(** The counter moves with a wrong guess, unless it has reached the limit. *)
Lemma verifyScript_guessed key d0 n d c st r st' :
  0 <= n -> verifyScript (S := S) key d c st = (r, st') ->
  guessed d0 n (keys st !! key) ->
  guessed d0 n (keys st' !! key) /\
  (d <> d0 -> is_ok r = true -> guessed d0 (n + 1) (keys st' !! key)).
Proof.
  intros Hn E%verifyScript_inv. destruct (keys st !! key) as [[[x|h|x] dl]|]; simpl.
  1, 3: destruct E as [Hr ->]; split; [done|intros _ Hok; congruence].
  2: by destruct E as [_ ->].
  intros (Hd & m & Hm & Hle). rewrite Hm in E. destruct (5 <=? m) eqn:H5.
  { bool_prop. destruct E as [_ ->]. simpl. split; [by eauto|]. intros _ _. split; [done|]. exists m. split; [done|lia]. }
  bool_prop. rewrite Hd in E. case_bool_decide as Hdd.
  { destruct E as (_ & _ & ->). destruct c; simpl; (split; [by eauto|congruence]). }
  destruct E as [_ ->]. destruct (h !! "errors") as [t|] eqn:Ht; [|done]. simpl in Hm. simpl.
  unfold parse_in_range. rewrite Hm. simpl. unfold check_int64.
  replace ((min_int64 <=? m + 1) && (m + 1 <=? max_int64)) with true by (unfold min_int64, max_int64; lia).
  simpl. rewrite lookup_insert_ne, lookup_insert_eq by done. simpl.
  rewrite ParseInt_FormatInt by (unfold in_int64, min_int64, max_int64; lia).
  split; [|intros _ _]; (split; [done|]); exists (m + 1); (split; [done|lia]).
Qed.

(** At the limit nothing passes. *)
Lemma verifyScript_locked key d0 d c st r st' n : 5 <= n ->
  verifyScript (S := S) key d c st = (r, st') -> guessed d0 n (keys st !! key) -> r = Ok [] \/ is_ok r = false.
Proof.
  intros Hn E%verifyScript_inv. destruct (keys st !! key) as [[[x|h|x] dl]|]; simpl.
  1, 3: intros _; right; apply E.
  2: intros _; left; apply E.
  intros (_ & m & Hm & Hle). rewrite Hm in E. left. rewrite (proj2 (Z.leb_le 5 m)) in E by lia. apply E.
Qed.

Lemma verify_keeps_guessed key d0 n d c :
  0 <= n -> within (keeps (at_key key (guessed d0 n))) (verifyScript (S := S) key d c).
Proof.
  intros Hn st Hst. destruct (verifyScript key d c st) as [r st'] eqn:E.
  by apply (verifyScript_guessed _ d0 n) in E as [? _].
Qed.

(** *** What a stored code leaves *)
Definition remaining (now : Z) (dl : option Z) : Z := match dl with Some t => t - now | None => -1 end.

(** One more request: the counter and its deadline. *)
Definition incremented (now : Z) (before : option entry) (n : Z) (dl : option Z) : Prop :=
  match before with
  | None => n = 1 /\ dl = Some (now + 3600000)
  | Some (mkEntry (VString c) d) =>
      parse_in_range c 1 = Some n /\ dl = if n =? 1 then Some (now + 3600000) else d
  | Some _ => False
  end.

Lemma limit_step_inv key limit retry st r st' :
  limit_step (S := S) key limit retry st = (Ok r, st') ->
  (forall k, k <> key -> keys st' !! k = keys st !! k) /\ server_ms st' = server_ms st /\
  exists n dl, keys st' !! key = Some (mkEntry (VString (FormatInt n)) dl) /\
  incremented (server_ms st) (keys st !! key) n dl /\ retry <= r /\ (limit < n -> ceil_seconds (remaining (server_ms st) dl) <= r).
Proof.
  intros E.
  assert (within (fun a b : S => forall k, k <> key -> keys b !! k = keys a !! k) (limit_step key limit retry)) as Hw.
  { assert (PreOrder (fun a b : S => forall k, k <> key -> keys b !! k = keys a !! k)) as Hpre.
    { split; [by intros x|]. intros x y z Hxy Hyz k Hk. by rewrite Hyz, Hxy. }
    unfold limit_step. solve_within; intros x k Hk; by apply call_other. }
  pose proof (Hw st) as Hoth. rewrite E in Hoth. simpl in Hoth. split; [exact Hoth|]. clear Hw Hoth.
  unfold limit_step in E. call_inv E. simpl in E, Hk.
  assert (exists n d0, (documented (INCR key) (server_ms st) (keys st)).1 = Ok n /\
    keys s0 !! key = Some (mkEntry (VString (FormatInt n)) d0) /\
    match keys st !! key with
    | None => n = 1 /\ d0 = None
    | Some (mkEntry (VString c) d) => parse_in_range c 1 = Some n /\ d0 = d
    | Some _ => False
    end) as (n & d0 & Hdoc & Hs0 & Hbef).
  { simpl. destruct (keys st !! key) as [[[c|h|z] d]|] eqn:Ek; [|done|done|].
    - destruct (parse_in_range c 1) as [n|]; [|done]. exists n, d. rewrite Hk. simpl. by rewrite lookup_insert_eq.
    - exists 1, None. rewrite Hk. simpl. by rewrite lookup_insert_eq. }
  simpl in Hdoc. rewrite Hdoc in E. rewrite M_bind_run in E.
  assert (exists s1 dl, when (n =? 1) (_ ← redis_call (EXPIRE key 3600); mret tt) s0 = (Ok tt, s1) /\
    server_ms s1 = server_ms st /\ keys s1 !! key = Some (mkEntry (VString (FormatInt n)) dl) /\
    dl = if n =? 1 then Some (server_ms st + 3600000) else d0) as (s1 & dl & E1 & Ht1 & Hs1 & Hdl).
  { destruct (n =? 1); simpl; [|by eauto 6].
    destruct (call_run (EXPIRE key 3600) s0) as (s1 & E1 & Hk1 & Ht1). exists s1. eexists.
    rewrite M_bind_run, E1. simpl in *. unfold expire in *. rewrite Hs0 in *. simpl in *.
    split_and!; [done|congruence| |done]. rewrite Hk1, lookup_insert_eq, Ht. done. }
  rewrite E1 in E. assert (incremented (server_ms st) (keys st !! key) n dl) as Hbef'.
  { unfold incremented. destruct (keys st !! key) as [[[c|h|z] d]|]; try done; destruct Hbef as [? ->]; subst; done. }
  destruct (limit <? n) eqn:Hl; bool_prop.
  - call_inv E. simpl in E, Hk0. rewrite Hs1 in E. injection E as <- <-. split; [congruence|].
    exists n, dl. rewrite Hk0. split_and!; try done; [lia|]. intros _. unfold remaining. destruct dl; [|lia].
    rewrite Ht1. lia.
  - injection E as <- <-. split; [done|]. exists n, dl. split_and!; try done; lia.
Qed.

(** A successful issue, from the state its script ran in to the one it left. *)
Lemma issueScript_stored key cooldown le li d id m n st st' r :
  key <> cooldown -> key <> le -> key <> li -> le <> li -> le <> cooldown -> cooldown <> li ->
  issueScript (S := S) key cooldown le li d id m n st = (Ok r, st') -> r <= 0 ->
  (exists h dl, keys st' !! key = Some (mkEntry (VHash h) dl) /\ h !! "digest" = Some d /\ h !! "errors" = Some "0") /\
  keys st' !! cooldown = Some (mkEntry (VString "1") (Some (server_ms st + 60000))) /\
  (forall v t, keys st !! cooldown = Some (mkEntry v (Some t)) -> t = server_ms st) /\
  (exists c dl, keys st' !! le = Some (mkEntry (VString (FormatInt c)) dl) /\
    incremented (server_ms st) (keys st !! le) c dl /\ (m < c -> ceil_seconds (remaining (server_ms st) dl) <= 0)).
Proof.
  intros Hn1 Hn2 Hn3 Hn4 Hn5 Hn6 E Hr. unfold issueScript in E.
  apply M_bind_Ok_inv in E as (r1 & s1 & E1 & E). apply limit_step_inv in E1 as (Ho1 & Ht1 & c & dl & Hc & Hbef & Hr1 & Hover).
  apply M_bind_Ok_inv in E as (r2 & s2 & E2 & E). apply limit_step_inv in E2 as (Ho2 & Ht2 & _ & _ & _ & _ & Hr2 & _).
  call_inv E. simpl in E, Hk. rewrite Ho2, Ho1 in E by done.
  set (p := match keys st !! cooldown with None => _ | Some _ => _ end) in E.
  destruct (0 <? _) eqn:Hz; [injection E as <- <-; bool_prop; lia|]. bool_prop.
  call_inv E. simpl in E, Hk0. call_inv E. simpl in E, Hk1. unfold hash_at in E, Hk1.
  rewrite Hk0, lookup_insert_ne, Hk, Ho2, Ho1 in E, Hk1 by done.
  destruct (keys st !! key) as [[[x|h|x] d0]|] eqn:Ekey; simpl in E, Hk1; try done.
  all: call_inv E; simpl in E, Hk2; unfold expire in E, Hk2; rewrite Hk1, lookup_insert_eq in E, Hk2;
    simpl in E, Hk2; injection E as <- <-; split_and!.
  1, 5: eexists _, _; rewrite Hk2, lookup_insert_eq; simpl; (split; [done|]);
    rewrite !(lookup_insert_ne _ _ "digest"), lookup_insert_eq, lookup_insert_eq by done; done.
  1, 4: rewrite Hk2, !lookup_insert_ne, lookup_insert_eq, Ht, Ht2, Ht1 by done; done.
  1, 3: intros v t Hv; pose proof (key_alive _ _ _ _ Hv eq_refl); unfold p in Hz; rewrite Hv in Hz;
    unfold ceil_seconds in Hz; rewrite Ht2, Ht1 in Hz;
    pose proof (Z.div_lt_upper_bound (- (t - server_ms st)) 1000 0); lia.
  all: exists c, dl; rewrite Hk2, !lookup_insert_ne, ?Hk, Ho2 by done; (split_and!; [done|done|lia]).
Qed.

(** *** The operations, from the store's side *)
#[local] Instance ticks_preorder : PreOrder ticks.
Proof. unfold ticks. split; [intros w; reflexivity|intros w1 w2 w3 ? ?; by etransitivity]. Qed.

Lemma randomID_ticks : within ticks (randomID rand_read).
Proof. unfold randomID. pose proof rand_read_ticks. solve_within. Qed.

Lemma Issue_Ok_inv e p ip w code w' :
  Issue e p ip w = (Ok code, w') ->
  exists st st' id r, keys_tick (redis_store w) st /\ keys_tick st' (redis_store w') /\ r <= 0 /\
    issueScript (emailKey e p) (emailKey e p +:+ ":cooldown") (limitEmailKey e) (limitIPKey ip)
      (code_digest (emailKey e p) code) id 10 50 st = (Ok r, st').
Proof.
  unfold AuthCache.Issue. intros (n & w1 & E1%cached_Ok_inv & E)%M_bind_Ok_inv.
  apply M_bind_Ok_inv in E as (id & w2 & E2%cached_Ok_inv & E).
  apply M_bind_Ok_inv in E as (r & w3 & E3%cached_Ok_inv%eval_Ok & E).
  destruct E3 as (st & st' & Ht & Es & Ht'). destruct (0 <? r) eqn:Hr; [done|]. bool_prop.
  injection E as <- <-. exists st, st', id, r. split_and!; try done.
  etransitivity; [|exact Ht]. etransitivity.
  - pose proof (rand_int_ticks 1000000 w) as Hri. by rewrite E1 in Hri.
  - pose proof (randomID_ticks w1) as Hid. by rewrite E2 in Hid.
Qed.

Lemma issue_stored e p ip w code w' :
  Issue e p ip w = (Ok code, w') ->
  at_key (emailKey e p) (guessed (code_digest (emailKey e p) code) 0) (redis_store w').
Proof.
  intros (st & st' & id & r & _ & Ht & Hr & E)%Issue_Ok_inv.
  apply (at_key_stable _ _ I _ _ Ht).
  apply issueScript_stored in E as ((h & dl & Hk & Hd & He) & _); try done.
  - unfold at_key. rewrite Hk. simpl. rewrite Hd, He. split; [done|]. exists 0. split; [done|lia].
  - apply emailKey_cooldown.
  - apply emailKey_limit_email.
  - apply emailKey_limit_ip.
  - apply limit_email_ip.
  - apply limit_email_cooldown.
  - apply cooldown_limit_ip.
Qed.

(** A verification that answered ran its script on the store. *)
Lemma verify_ran e p c w r w' :
  run_op (OpVerify e p c) w = (r, w') -> is_ok r = true \/ r = Err (ESentinel ErrInvalidCode) ->
  exists v, redis_eval (verifyScript (emailKey e p) (code_digest (emailKey e p) c) false) w = (Ok v, w') /\
    (is_ok r = true -> v <> []).
Proof.
  simpl. unfold discard, AuthCache.Verify. intros E Hr.
  rewrite M_bind_run in E. rewrite (M_bind_run (gets now)) in E. simpl in E. rewrite M_bind_run in E.
  destruct (cached ctx_err _ w) as [[v|err|] w2] eqn:E2 in E; simpl in E.
  - apply cached_Ok_inv in E2. exists v. unfold of_res in E.
    destruct (code_receipt (now w) v) eqn:Ev; injection E as <- <-; (split; [done|]); [|done|done].
    intros _ ->. done.
  - injection E as <- <-. destruct Hr as [?|[= ->]]; [done|]. by apply cached_invalid in E2.
  - injection E as <- <-. by destruct Hr.
Qed.

Lemma verify_consume_ran e p c w r w' :
  run_op (OpVerifyAndConsume e p c) w = (r, w') -> is_ok r = true \/ r = Err (ESentinel ErrInvalidCode) ->
  exists v, redis_eval (verifyScript (emailKey e p) (code_digest (emailKey e p) c) true) w = (Ok v, w') /\
    (is_ok r = true -> v <> []).
Proof.
  simpl. unfold AuthCache.VerifyAndConsume. intros E Hr. rewrite M_bind_run in E.
  destruct (cached ctx_err _ w) as [[v|err|] w2] eqn:E2 in E.
  - apply cached_Ok_inv in E2. exists v. destruct (negb _) eqn:Hl; injection E as <- <-; (split; [done|]); [done|].
    intros _ ->. done.
  - injection E as <- <-. destruct Hr as [?|[= ->]]; [done|]. by apply cached_invalid in E2.
  - injection E as <- <-. by destruct Hr.
Qed.

(** The scripts of the guesses of a history move the counter. *)
Lemma guess_counts key d0 n d c (w : W) v w' :
  0 <= n -> redis_eval (verifyScript key d c) w = (Ok v, w') -> d <> d0 ->
  at_key key (guessed d0 n) (redis_store w) -> at_key key (guessed d0 (n + 1)) (redis_store w').
Proof.
  intros Hn (st & st' & Ht & E & Ht')%eval_Ok Hd Hg. apply (at_key_stable _ _ I _ _ Ht'). unfold at_key.
  apply (at_key_stable _ _ I _ _ Ht) in Hg.
  apply (verifyScript_guessed _ d0 n) in E as [_ Hb]; [by apply Hb|done|done].
Qed.

Lemma guess_locked key d0 d c (w : W) v w' :
  redis_eval (verifyScript key d c) w = (Ok v, w') -> at_key key (guessed d0 5) (redis_store w) -> v = [].
Proof.
  intros (st & st' & Ht & E & Ht')%eval_Ok Hg. apply (at_key_stable _ _ I _ _ Ht) in Hg.
  apply (verifyScript_locked _ d0 _ _ _ _ _ 5) in E as [[= ->]|?]; done.
Qed.

(** No operation but an issue for the mailbox resets the counter. *)
Definition no_issue (key : string) (op : cache_op) : Prop :=
  match op with OpIssue e p _ => emailKey e p <> key | _ => True end.

Lemma email_harmless e p Q op :
  no_issue (emailKey e p) op -> Q None ->
  (forall d c, within (keeps (at_key (emailKey e p) Q)) (verifyScript (S := S) (emailKey e p) d c)) ->
  harmless (emailKey e p) Q op.
Proof.
  intros Hop HQ Hv. destruct op as [e' p' ip|e' p' c|e' p' c|e' p' r|v|id|id]; simpl in *; try done.
  - split_and!; [congruence|apply emailKey_cooldown|apply emailKey_limit_email|apply emailKey_limit_ip].
  - by right.
  - by right.
  - intros n w b w' _. apply emailKey_challenge.
  - left. apply emailKey_challenge.
Qed.

(** A guess that was answered, of a code that is not the one of digest [d]. *)
Definition wrong_guess (key d : string) (op : cache_op) (r : res unit) : bool :=
  match op with
  | OpVerify e p c | OpVerifyAndConsume e p c =>
      bool_decide (emailKey e p = key) && negb (bool_decide (code_digest key c = d)) &&
      bool_decide (r = Err (ESentinel ErrInvalidCode))
  | _ => false
  end.

Lemma guesses_step e p d op n w r w' :
  no_issue (emailKey e p) op -> 0 <= n /\ at_key (emailKey e p) (guessed d n) (redis_store w) ->
  run_op op w = (r, w') ->
  0 <= n + (if wrong_guess (emailKey e p) d op r then 1 else 0) /\
  at_key (emailKey e p) (guessed d (n + if wrong_guess (emailKey e p) d op r then 1 else 0)) (redis_store w').
Proof.
  intros Hop [Hn Hg] E. split; [case_match; lia|].
  destruct (wrong_guess _ _ _ _) eqn:Hw.
  - destruct op as [| e' p' c|e' p' c| | | |]; try done; unfold wrong_guess in Hw; bool_prop; subst r.
    all: first [apply verify_ran in E|apply verify_consume_ran in E]; [|by right].
    all: destruct E as (v & E & _); rewrite H3 in E; by eapply guess_counts.
  - rewrite Z.add_0_r. pose proof (harmless_keeps (emailKey e p) (guessed d n) I op
      (email_harmless _ _ _ _ Hop I (fun d' c => verify_keeps_guessed _ d n d' c Hn)) w Hg) as Hk.
    by rewrite E in Hk.
Qed.

(** A mailbox whose counter is at the limit accepts nothing. *)
Lemma locked_refuses e p d w :
  at_key (emailKey e p) (guessed d 5) (redis_store w) ->
  (forall c r v, Verify e p c w <> (Ok r, v)) /\ (forall c v, VerifyAndConsume e p c w <> (Ok tt, v)).
Proof.
  intros Hg. split.
  - intros c r v E. destruct (verify_ran e p c w (Ok tt) v) as (x & Ex & Hx); [|by left|].
    + simpl. unfold discard. by rewrite (M_bind_Ok _ _ _ _ _ E).
    + apply Hx; [done|]. by eapply guess_locked.
  - intros c v E. destruct (verify_consume_ran e p c w (Ok tt) v) as (x & Ex & Hx); [done|by left|].
    apply Hx; [done|]. by eapply guess_locked.
Qed.


(** *** Using a code *)
Definition gone (e : option entry) : Prop := e = None.

Lemma verify_keeps_gone key d c : within (keeps (at_key key gone)) (verifyScript (S := S) key d c).
Proof.
  intros st Hst. destruct (verifyScript key d c st) as [r st'] eqn:E. unfold at_key, gone in *. simpl.
  apply verifyScript_inv in E. rewrite Hst in E. by destruct E.
Qed.

Lemma gone_refuses e p w :
  at_key (emailKey e p) gone (redis_store w) ->
  (forall c r v, Verify e p c w <> (Ok r, v)) /\ (forall c v, VerifyAndConsume e p c w <> (Ok tt, v)) /\
  (forall r v, Consume e p r w <> (Ok tt, v)).
Proof.
  intros Hg. destruct (locked_refuses e p "" w) as [Hv Hvc].
  { unfold at_key, gone in *. by rewrite Hg. }
  split_and!; [done|done|]. intros r v. unfold AuthCache.Consume.
  intros (n & w1 & E%cached_Ok_inv%eval_Ok & Hn)%M_bind_Ok_inv. destruct E as (st & st' & Ht & E & _).
  apply (at_key_stable _ gone eq_refl _ _ Ht) in Hg. unfold at_key, gone in Hg.
  unfold consumeScript in E. call_inv E. simpl in E. unfold hash_at in E. rewrite Hg in E. simpl in E.
  by injection E as <- <-.
Qed.

Lemma VerifyAndConsume_gone e p c w w' :
  VerifyAndConsume e p c w = (Ok tt, w') -> at_key (emailKey e p) gone (redis_store w').
Proof.
  intros E. destruct (verify_consume_ran e p c w (Ok tt) w') as (v & Ev & Hv); [done|by left|].
  apply eval_Ok in Ev as (st & st' & _ & E2 & Ht). apply (at_key_stable _ gone eq_refl _ _ Ht).
  unfold at_key, gone. apply verifyScript_inv in E2. specialize (Hv eq_refl).
  destruct (keys st !! emailKey e p) as [[[x|h|x] dl]|]; [by destruct E2| |by destruct E2|by destruct E2].
  - destruct (h !! "errors" ≫= ParseInt); [|by destruct E2]. case_match; [destruct E2 as [[= ->] _]; done|].
    case_bool_decide; [by destruct E2 as (_ & _ & ?)|]. destruct E2 as [[[= ->]|?] _]; done.
Qed.

Lemma Consume_gone e p r w w' :
  Consume e p r w = (Ok tt, w') -> at_key (emailKey e p) gone (redis_store w').
Proof.
  unfold AuthCache.Consume. intros (n & w1 & E%cached_Ok_inv%eval_Ok & Hn)%M_bind_Ok_inv.
  destruct E as (st & st' & _ & E & Ht). destruct (negb (n =? 1)) eqn:Hn1; [done|]. injection Hn as <-. bool_prop. subst n.
  apply (at_key_stable _ gone eq_refl _ _ Ht). unfold consumeScript in E. call_inv E. simpl in E.
  destruct (hash_at (emailKey e p) (keys st)) as [h|err|]; simpl in E; [|done|done].
  destruct (negb _); [done|]. call_inv E. simpl in E, Hk0. injection E as <-.
  unfold at_key, gone. rewrite Hk0. apply lookup_delete_eq.
Qed.

(** A code is used at most once.  When a code has been verified and
    consumed, in one step or by consuming its receipt, nothing is verified or
    consumed for that mailbox and purpose after any history of operations
    that issues no other code for it. *)
Theorem code_single_use e p w w' ops :
  (exists c, VerifyAndConsume e p c w = (Ok tt, w')) \/ (exists r, Consume e p r w = (Ok tt, w')) ->
  Forall (no_issue (emailKey e p)) ops ->
  let w2 := run_ops ops w' in
  (forall c r v, Verify e p c w2 <> (Ok r, v)) /\
  (forall c v, VerifyAndConsume e p c w2 <> (Ok tt, v)) /\
  (forall r v, Consume e p r w2 <> (Ok tt, v)).
Proof.
  intros Hused Hops. apply gone_refuses.
  apply (run_ops_keeps (no_issue (emailKey e p)) (fun w => at_key (emailKey e p) gone (redis_store w))); [|done|].
  - intros op Hop. apply harmless_keeps; [done|]. apply email_harmless; [done|done|apply verify_keeps_gone].
  - destruct Hused as [(c & E)|(r & E)]; [by eapply VerifyAndConsume_gone|by eapply Consume_gone].
Qed.

(** *** The pace of codes

    From an issue on, and until the instant [T], the cooldown key lasts. *)
Definition cooling (T : Z) (key : string) (st : S) : Prop :=
  T <= server_ms st \/ exists v t, keys st !! key = Some (mkEntry v (Some t)) /\ T <= t.

Lemma cooling_stable T key : stable (cooling T key).
Proof.
  intros st st' Ht [Hle|(v & t & Hk & Hle)]; [left; pose proof (tick_time _ _ Ht); lia|].
  destruct (decide (server_ms st' <= t)) as [Hc|Hc]; [right|left; lia].
  exists v, t. split; [|done]. apply (tick_keeps _ _ _ _ Ht Hk). by intros t' [= <-].
Qed.

Lemma leaves_cooling {A} T key (f : M S A) : within (leaves key) f -> within (keeps (cooling T key)) f.
Proof.
  intros Hf st. specialize (Hf st). unfold leaves, same in Hf. injection Hf as Hk Ht.
  unfold keeps, cooling. by rewrite Hk, Ht.
Qed.

Lemma limit_step_leaves k key limit retry : key <> k -> within (leaves k) (limit_step (S := S) key limit retry).
Proof. intros Hne. unfold limit_step. solve_within; by apply leaves_call. Qed.

(** The script only overwrites a cooldown that has run out. *)
Lemma issueScript_cooling T key cooldown le li d id m n :
  le <> cooldown -> li <> cooldown ->
  within (keeps (cooling T cooldown)) (issueScript (S := S) key cooldown le li d id m n).
Proof.
  intros Hle Hli. unfold issueScript.
  apply within_bind; [apply _|by apply leaves_cooling, limit_step_leaves|intros r1].
  apply within_bind; [apply _|by apply leaves_cooling, limit_step_leaves|intros r2].
  intros st Hst. destruct (call_run (PTTL cooldown) st) as (s0 & E & Hk & Ht).
  rewrite M_bind_run, E. simpl in *. destruct (0 <? _) eqn:Hz; simpl.
  - unfold cooling in *. by rewrite Hk, Ht.
  - bool_prop. assert (T <= server_ms s0) as Hpast.
    { destruct Hst as [?|(v & t & Hc & Hle')]; [lia|]. rewrite Hc in Hz. unfold ceil_seconds in Hz.
      pose proof (Z.div_lt_upper_bound (- (t - server_ms st)) 1000 0). lia. }
    left. set (f := _ ≫= _). assert (within (same server_ms) f) as Hf.
    { unfold f. solve_within; intros x; apply call_time. }
    specialize (Hf s0). unfold same in Hf. lia.
Qed.

(** What every operation does to a key of the limiter. *)
Definition limiter_key (k : string) : Prop :=
  (forall e p, k <> emailKey e p) /\ (forall id, k <> challenge_key id).

Section Limiter.
Variable k : string.
Variable P : S -> Prop.
Hypothesis Hk : limiter_key k.
Hypothesis HP : stable P.
Hypothesis Hleaves : forall A (f : M S A), within (leaves k) f -> within (keeps P) f.
Let R : W -> W -> Prop := keeps (fun w => P (redis_store w)).

Lemma limiter_eval {A} (f : M S A) : within (keeps P) f -> within R (cached ctx_err (redis_eval f)).
Proof. intros Hf. apply within_cached; [unfold R; apply _|]. by apply eval_keeps. Qed.

Lemma limiter_ticks {A} (m : M W A) : within ticks m -> within R m.
Proof. intros Hm w Hw. by eapply HP; [apply Hm|]. Qed.

Lemma limiter_keeps op :
  match op with
  | OpIssue e p ip => forall id d, within (keeps P)
      (issueScript (emailKey e p) (emailKey e p +:+ ":cooldown") (limitEmailKey e) (limitIPKey ip) d id 10 50)
  | _ => True
  end -> within R (run_op op).
Proof.
  destruct Hk as [Hke Hkc]. assert (PreOrder R) as HR by (unfold R; apply _).
  pose proof (fun n => within_cached R _ (limiter_ticks _ (rand_int_ticks n))) as Hint.
  pose proof (within_cached R _ (limiter_ticks _ randomID_ticks)) as Hid.
  assert (forall A (f : M S A), within (leaves k) f -> within R (cached ctx_err (redis_eval f))) as Hoth
    by (intros; by apply limiter_eval, Hleaves).
  destruct op as [e p ip|e p c|e p c|e p r|v|id|id]; simpl; intros Hop; unfold discard.
  - unfold AuthCache.Issue. pose proof (fun id d => limiter_eval _ (Hop id d)). solve_within.
  - unfold AuthCache.Verify. pose proof (fun d => Hoth _ _ (verifyScript_leaves k _ d false (Hke e p))). solve_within.
  - unfold AuthCache.VerifyAndConsume.
    pose proof (fun d => Hoth _ _ (verifyScript_leaves k _ d true (Hke e p))). solve_within.
  - unfold AuthCache.Consume. assert (forall id, within (leaves k) (consumeScript (S := S) (emailKey e p) id)) as Hc.
    { intros id. unfold consumeScript. solve_within; apply leaves_call; simpl; congruence. }
    pose proof (fun id => Hoth _ _ (Hc id)). solve_within.
  - unfold AuthCache.challenge_Issue.
    pose proof (fun id u n => Hoth _ _ (challengeIssue_leaves k _ u n (Hkc id))). solve_within.
  - unfold AuthCache.challenge_Attempt. pose proof (Hoth _ _ (challengeAttempt_leaves k _ (Hkc id))).
    pose proof (within_cached R (throw (A := Challenge) (EText "strconv.ParseInt: parsing")) ltac:(solve_within)).
    solve_within.
  - unfold AuthCache.challenge_Consume. assert (within (leaves k) (redis_call (DELETE (challenge_key id)))) as Hd.
    { apply leaves_call. simpl. intros E. by eapply Hkc. }
    apply Hoth in Hd. solve_within.
Qed.
End Limiter.

Lemma issueScript_time key cooldown le li d id m n :
  within (same server_ms) (issueScript (S := S) key cooldown le li d id m n).
Proof. unfold issueScript, limit_step. solve_within; intros st; apply call_time. Qed.

Lemma cooldown_limiter e p : limiter_key (emailKey e p +:+ ":cooldown").
Proof. split; intros; apply not_eq_sym; [apply emailKey_cooldown|apply challenge_cooldown]. Qed.

Lemma limit_limiter e : limiter_key (limitEmailKey e).
Proof. split; intros; apply not_eq_sym; [apply emailKey_limit_email|apply challenge_limit_email]. Qed.

Lemma op_cooling T e p op :
  within (keeps (fun w => cooling T (emailKey e p +:+ ":cooldown") (redis_store w))) (run_op op).
Proof.
  apply (limiter_keeps (emailKey e p +:+ ":cooldown")); [apply cooldown_limiter|apply cooling_stable|
    intros; by apply leaves_cooling|].
  destruct op as [e' p' ip| | | | | |]; try done. intros id d.
  destruct (decide (emailKey e' p' = emailKey e p)) as [E|Hne].
  - rewrite E. apply issueScript_cooling; [apply limit_email_cooldown|apply not_eq_sym, cooldown_limit_ip].
  - apply leaves_cooling, issueScript_leaves.
    + apply not_eq_sym, emailKey_cooldown.
    + intros E. apply Hne. symmetry. by apply cooldown_inj.
    + apply not_eq_sym, limit_email_cooldown.
    + apply cooldown_limit_ip.
Qed.

(** The requests counted for a mailbox since the counter was absent, in the
    hour that ends at [D]. *)
Definition limited (D c : Z) (key : string) (st : S) : Prop :=
  D <= server_ms st \/
  D <= server_ms st + 3600000 /\
  match keys st !! key with
  | None => c = 0
  | Some (mkEntry (VString x) (Some t)) => exists m, ParseInt x = Some m /\ c <= m /\ D <= t
  | _ => False
  end.

Lemma limited_stable D c key : stable (limited D c key).
Proof.
  intros st st' Ht Hl. pose proof (tick_time _ _ Ht). destruct Hl as [?|[HD Hl]]; [left; lia|].
  destruct (tick_lookup _ _ key Ht) as [E|E]; unfold limited; rewrite E; [right; split; [lia|done]|].
  destruct (keys st !! key) as [[[x|h|z] [t|]]|] eqn:Ek; try done; [|right; split; [lia|done]].
  destruct Hl as (m & _ & _ & Hd). left.
  destruct (decide (server_ms st' <= t)) as [Hc|Hc]; [|lia].
  assert (keys st' !! key = Some (mkEntry (VString x) (Some t))) as E'
    by (apply (tick_keeps _ _ _ _ Ht Ek); by intros t' [= <-]). congruence.
Qed.

Lemma leaves_limited {A} D c key (f : M S A) : within (leaves key) f -> within (keeps (limited D c key)) f.
Proof.
  intros Hf st. specialize (Hf st). unfold leaves, same in Hf. injection Hf as Hk Ht.
  unfold keeps, limited. by rewrite Hk, Ht.
Qed.

Lemma incremented_limited D c key st n dl :
  limited D c key st -> incremented (server_ms st) (keys st !! key) n dl ->
  D <= server_ms st \/ (c + 1 <= n /\ ParseInt (FormatInt n) = Some n /\ exists t, dl = Some t /\ D <= t).
Proof.
  unfold incremented. intros [?|[HD Hl]] Hi; [by left|right].
  destruct (keys st !! key) as [[[x|h|z] [t|]]|]; try done.
  - destruct Hl as (m & Hm & Hle & Ht), Hi as [Hp ->]. unfold parse_in_range in Hp. rewrite Hm in Hp. simpl in Hp.
    unfold check_int64 in Hp. case_match; [|done]. injection Hp as <-. bool_prop. split; [lia|]. split.
    + by apply ParseInt_FormatInt.
    + case_match; eexists; (split; [done|lia]).
  - destruct Hi as [-> ->]. subst c. split; [lia|]. split; [done|]. eexists. split; [done|lia].
Qed.

Lemma limit_step_err key limit retry st r st' :
  limit_step (S := S) key limit retry st = (r, st') -> is_ok r = false ->
  keys st' = keys st /\ server_ms st' = server_ms st.
Proof.
  unfold limit_step. intros E Hr. call_inv E. destruct ((documented (INCR key) _ _).1) as [n|err|] eqn:Ed.
  - exfalso. rewrite M_bind_run in E.
    assert (exists s1, when (n =? 1) (_ ← redis_call (EXPIRE key 3600); mret tt) s0 = (Ok tt, s1)) as (s1 & E1).
    { destruct (n =? 1); simpl; [|by eauto]. destruct (call_run (EXPIRE key 3600) s0) as (s1 & E1 & _).
      exists s1. rewrite M_bind_run, E1. simpl. by destruct (expire _ _ _ _). }
    rewrite E1 in E. destruct (limit <? n); [|by injection E as <- <-].
    call_inv E. simpl in E. by injection E as <- <-.
  - injection E as <- <-. split; [|done]. rewrite Hk. simpl in *. by repeat case_match; simplify_eq.
  - injection E as <- <-. split; [|done]. rewrite Hk. simpl in *. by repeat case_match; simplify_eq.
Qed.

Lemma limited_weaken D c key st : 0 <= c -> limited D (c + 1) key st -> limited D c key st.
Proof.
  intros Hc [?|[HD Hl]]; [by left|right; split; [done|]].
  destruct (keys st !! key) as [[[x|h|z] [t|]]|]; try done; [|lia].
  destruct Hl as (m & Hm & Hle & Ht). exists m. split_and!; [done|lia|done].
Qed.

(** The state a counted request leaves. *)
Lemma after_increment D c key st st' n dl :
  limited D c key st -> incremented (server_ms st) (keys st !! key) n dl ->
  keys st' !! key = Some (mkEntry (VString (FormatInt n)) dl) -> server_ms st' = server_ms st ->
  limited D (c + 1) key st'.
Proof.
  intros Hl Hi E Ht. destruct (incremented_limited _ _ _ _ _ _ Hl Hi) as [?|(Hle & Hn & t & -> & Hd)].
  - left. lia.
  - destruct Hl as [?|[HD _]]; [left; lia|]. right. rewrite E. split; [lia|]. by exists n.
Qed.

Lemma limit_step_limited D c key limit retry :
  0 <= c -> within (keeps (limited D c key)) (limit_step (S := S) key limit retry).
Proof.
  intros Hc st Hl. destruct (limit_step key limit retry st) as [r st'] eqn:E. simpl. destruct r as [a|e|].
  - apply limit_step_inv in E as (_ & Ht & n & dl & E & Hi & _). apply limited_weaken; [done|].
    by eapply after_increment.
  - apply limit_step_err in E as [E Ht]; [|done]. unfold limited. by rewrite E, Ht.
  - apply limit_step_err in E as [E Ht]; [|done]. unfold limited. by rewrite E, Ht.
Qed.

Lemma issueScript_limited D c key cooldown le li d id m n :
  0 <= c -> le <> key -> le <> cooldown -> le <> li ->
  within (keeps (limited D c le)) (issueScript (S := S) key cooldown le li d id m n).
Proof.
  intros Hc Hn1 Hn2 Hn3. unfold issueScript. apply within_bind; [apply _|by apply limit_step_limited|intros r1].
  apply leaves_limited. unfold limit_step. solve_within; apply leaves_call; simpl; congruence.
Qed.

(** A code that was issued for the mailbox of a limit. *)
Definition issued (limit : string) (op : cache_op) (r : res unit) : bool :=
  match op with OpIssue e _ _ => bool_decide (limitEmailKey e = limit) && is_ok r | _ => false end.

Lemma issue_counts D c e p ip w code w' :
  Issue e p ip w = (Ok code, w') -> 0 <= c ->
  limited D c (limitEmailKey e) (redis_store w) ->
  limited D (c + 1) (limitEmailKey e) (redis_store w') /\ (c + 1 <= 10 \/ D <= server_ms (redis_store w')).
Proof.
  intros (st & st' & id & r & Ht & Ht' & Hr & E)%Issue_Ok_inv Hc Hl.
  apply (limited_stable _ _ _ _ _ Ht) in Hl. pose proof (tick_time _ _ Ht').
  pose proof (issueScript_time (emailKey e p) (emailKey e p +:+ ":cooldown") (limitEmailKey e) (limitIPKey ip)
    (code_digest (emailKey e p) code) id 10 50 st) as Htime. rewrite E in Htime. unfold same in Htime. simpl in Htime.
  apply issueScript_stored in E as (_ & _ & _ & n & dl & Hk & Hi & Hover); try done;
    [|apply emailKey_cooldown|apply emailKey_limit_email|apply emailKey_limit_ip|apply limit_email_ip
     |apply limit_email_cooldown|apply cooldown_limit_ip].
  split; [by apply (limited_stable _ _ _ _ _ Ht'); eapply after_increment|].
  destruct (incremented_limited _ _ _ _ _ _ Hl Hi) as [?|(Hle & _ & t & -> & Hd)]; [right; lia|].
  destruct (decide (10 < n)) as [Hn|Hn]; [right|left; lia]. specialize (Hover Hn).
  unfold ceil_seconds, remaining in Hover.
  destruct (decide (D <= server_ms st)) as [|Hlt]; [lia|exfalso].
  pose proof (Z.div_lt_upper_bound (- (t - server_ms st)) 1000 0). lia.
Qed.

Lemma op_limited D c e op :
  0 <= c -> within (keeps (fun w => limited D c (limitEmailKey e) (redis_store w))) (run_op op).
Proof.
  intros Hc. apply (limiter_keeps (limitEmailKey e)); [apply limit_limiter|apply limited_stable|
    intros; by apply leaves_limited|].
  destruct op as [e' p' ip| | | | | |]; try done. intros id d.
  destruct (decide (limitEmailKey e' = limitEmailKey e)) as [E|Hne].
  - rewrite E. apply issueScript_limited; [done|apply not_eq_sym, emailKey_limit_email|
      apply limit_email_cooldown|apply limit_email_ip].
  - apply leaves_limited, issueScript_leaves.
    + apply not_eq_sym, emailKey_limit_email.
    + apply limit_email_cooldown.
    + done.
    + apply limit_email_ip.
Qed.

Lemma run_op_time op : within (fun w w' => server_ms (redis_store w) <= server_ms (redis_store w')) (run_op op).
Proof.
  intros w. pose proof (limiter_keeps (limitEmailKey "") (fun st => server_ms (redis_store w) <= server_ms st)
    (limit_limiter "")) as Hk. apply Hk; [| | |lia].
  - intros st st' Ht Hle. pose proof (tick_time _ _ Ht). lia.
  - intros A f Hf st Hle. specialize (Hf st). unfold leaves, same in Hf. injection Hf as _ Ht. lia.
  - destruct op; try done. intros id d st Hle. pose proof (issueScript_time (emailKey email purpose)
      (emailKey email purpose +:+ ":cooldown") (limitEmailKey email) (limitIPKey ip) d id 10 50 st) as Ht.
    unfold same in Ht. lia.
Qed.

Lemma run_ops_time ops w : server_ms (redis_store w) <= server_ms (redis_store (run_ops ops w)).
Proof.
  apply (run_ops_keeps (fun _ => True) (fun v => server_ms (redis_store w) <= server_ms (redis_store v))); [| |lia].
  - intros op _ v Hv. pose proof (run_op_time op v). simpl in *. lia.
  - by apply Forall_true.
Qed.

(** Codes are paced.  After a code has been issued for a mailbox and a
    purpose, and whatever operations follow, the next one is issued a minute
    later at the earliest, by the clock of the server; and in any history that
    starts without a counter for an address and lasts less than an hour, at
    most ten codes are issued for it, for all purposes together. *)
Theorem codes_are_paced e p ip w code w' ops :
  Issue e p ip w = (Ok code, w') ->
  (forall e2 p2 ip2 code2 w3, Issue e2 p2 ip2 (run_ops ops w') = (Ok code2, w3) ->
     emailKey e2 p2 = emailKey e p ->
     server_ms (redis_store w) + 60000 <= server_ms (redis_store w3)) /\
  (forall w0 ops0, keys (redis_store w0) !! limitEmailKey e = None ->
     server_ms (redis_store (run_ops ops0 w0)) < server_ms (redis_store w0) + 3600000 ->
     tally (issued (limitEmailKey e)) ops0 w0 <= 10).
Proof.
  intros E. split.
  - intros e2 p2 ip2 code2 w3 E2 Hkey. set (T := server_ms (redis_store w) + 60000).
    assert (cooling T (emailKey e p +:+ ":cooldown") (redis_store (run_ops ops w'))) as Hc.
    { apply (run_ops_keeps (fun _ => True) (fun v => cooling T _ (redis_store v))); [intros op _; apply op_cooling|
        by apply Forall_true|].
      apply Issue_Ok_inv in E as (st & st' & id & r & Ht & Ht' & Hr & E). apply (cooling_stable _ _ _ _ Ht').
      apply issueScript_stored in E as (_ & Hcool & _); try done;
        [|apply emailKey_cooldown|apply emailKey_limit_email|apply emailKey_limit_ip|apply limit_email_ip
         |apply limit_email_cooldown|apply cooldown_limit_ip].
      right. eexists _, _. split; [exact Hcool|]. pose proof (tick_time _ _ Ht). lia. }
    apply Issue_Ok_inv in E2 as (st & st' & id & r & Ht & Ht' & Hr & E2).
    apply (cooling_stable _ _ _ _ Ht) in Hc. pose proof (tick_time _ _ Ht').
    pose proof (issueScript_time (emailKey e2 p2) (emailKey e2 p2 +:+ ":cooldown") (limitEmailKey e2) (limitIPKey ip2)
      (code_digest (emailKey e2 p2) code2) id 10 50 st) as Htime. rewrite E2 in Htime. unfold same in Htime. simpl in Htime.
    apply issueScript_stored in E2 as (_ & _ & Hcool & _); try done;
      [|apply emailKey_cooldown|apply emailKey_limit_email|apply emailKey_limit_ip|apply limit_email_ip
       |apply limit_email_cooldown|apply cooldown_limit_ip].
    rewrite Hkey in Hcool. destruct Hc as [?|(v & t & Hk & Hle)]; [lia|]. apply Hcool in Hk. lia.
  - intros w0 ops0 Hnone Hend. set (D := server_ms (redis_store w0) + 3600000) in *.
    destruct (tally_keeps (fun _ => True) (issued (limitEmailKey e))
      (fun c w => 0 <= c /\ limited D c (limitEmailKey e) (redis_store w) /\ (c <= 10 \/ D <= server_ms (redis_store w)))
      ops0 0 w0) as (_ & _ & [Hle|Hle]); [|by apply Forall_true| |lia|lia].
    + intros op c w1 r w2 _ (Hc & Hl & Hb) Er. destruct (issued _ op r) eqn:Hi.
      * destruct op as [e2 p2 ip2| | | | | |]; try done. unfold issued in Hi. bool_prop. destruct r as [[]|?|]; try done.
        simpl in Er. unfold discard in Er. apply M_bind_Ok_inv in Er as (code2 & w3 & Ei & [= <-]).
        rewrite <- H3 in *. split; [lia|]. by eapply issue_counts.
      * rewrite Z.add_0_r. split; [done|]. split; [pose proof (op_limited D c e op Hc w1 Hl) as Hl2; by rewrite Er in Hl2|].
        destruct Hb as [?|?]; [by left|right]. pose proof (run_op_time op w1) as Ht. rewrite Er in Ht. simpl in Ht. lia.
    + split; [done|]. split; [|by left]. right. rewrite Hnone. split; [lia|done].
Qed.

(** *** Attempts on a challenge *)
Definition attempted (n : Z) (e : option entry) : Prop :=
  match e with
  | Some (mkEntry (VHash h) _) => exists m, h !! "attempts" ≫= ParseInt = Some m /\ Z.min n 5 <= m
  | _ => True
  end.

Lemma challengeAttempt_inv key n st r st' :
  0 <= n -> challengeAttemptScript (S := S) key st = (r, st') -> attempted n (keys st !! key) ->
  attempted n (keys st' !! key) /\
  (is_ok r = true -> attempted (n + 1) (keys st' !! key)) /\
  (5 <= n -> is_ok r = true -> r = Ok []).
Proof.
  intros Hn E Ha. unfold challengeAttemptScript in E. call_inv E. simpl in E, Hk.
  destruct (keys st !! key) as [[v dl]|] eqn:Ek; simpl in E.
  2: { injection E as <- <-. by rewrite Hk, Ek. }
  call_inv E. simpl in E, Hk0. unfold hash_at in E, Hk0. rewrite Hk, Ek in E, Hk0.
  destruct v as [x|h|x]; simpl in E, Hk0.
  1, 3: injection E as <- <-; rewrite Hk0, Ek; done.
  destruct Ha as (m & Hm & Hle). destruct (h !! "attempts") as [t|] eqn:Ht'; [|done]. simpl in Hm.
  unfold parse_in_range in E, Hk0. simpl in E, Hk0. rewrite Hm in E, Hk0. simpl in E, Hk0.
  unfold check_int64 in E, Hk0. destruct ((min_int64 <=? m + 1) && (m + 1 <=? max_int64)) eqn:Hr; simpl in E, Hk0.
  2: { injection E as <- <-. rewrite Hk0, Ek. simpl. rewrite Ht'. simpl. split; [by eauto|done]. }
  assert (attempted (n + 1) (keys s1 !! key)) as Ha1.
  { rewrite Hk0, lookup_insert_eq. simpl. rewrite lookup_insert_eq. simpl. exists (m + 1).
    rewrite ParseInt_FormatInt; [split; [done|lia]|]. bool_prop. unfold in_int64. lia. }
  assert (keys st' = keys s1 /\ (5 <= n -> is_ok r = true -> r = Ok [])) as [-> Hlast].
  { destruct (5 <? m + 1) eqn:H5; [by injection E as <- <-|]. bool_prop.
    call_inv E. simpl in E, Hk1. destruct (hash_at key (keys s1)) as [h1|err|] eqn:Eh; simpl in E, Hk1;
      [|injection E as <- <-; split; [done|done]|injection E as <- <-; done].
    call_inv E. simpl in E, Hk2. rewrite Hk1, Eh in E, Hk2. simpl in E, Hk2. injection E as <- <-.
    split; [congruence|lia]. }
  split; [|by split].
  revert Ha1. unfold attempted. destruct (keys s1 !! key) as [[[x|h1|x] dl1]|]; try done.
  intros (m1 & Hm1 & Hle1). exists m1. split; [done|lia].
Qed.

Lemma attempt_keeps key n :
  0 <= n -> within (keeps (at_key key (attempted n))) (challengeAttemptScript (S := S) key).
Proof.
  intros Hn st Hst. destruct (challengeAttemptScript key st) as [r st'] eqn:E.
  by apply (challengeAttempt_inv _ n) in E as [? _].
Qed.

(** An attempt on the challenge that was answered. *)
Definition attempt_on (key : string) (op : cache_op) (r : res unit) : bool :=
  match op with
  | OpAttempt id => (len id =? 64) && bool_decide (challenge_key id = key) &&
                    (is_ok r || bool_decide (r = Err (ESentinel ErrInvalidCode)))
  | _ => false
  end.

Lemma attempt_ran id w r w' :
  run_op (OpAttempt id) w = (r, w') -> len id = 64 -> is_ok r = true \/ r = Err (ESentinel ErrInvalidCode) ->
  exists v, redis_eval (challengeAttemptScript (challenge_key id)) w = (Ok v, w') /\ (is_ok r = true -> v <> []).
Proof.
  simpl. unfold discard, AuthCache.challenge_Attempt. intros E Hlen Hr. rewrite M_bind_run in E.
  rewrite Hlen in E. simpl in E. rewrite M_bind_run in E.
  destruct (cached ctx_err _ w) as [[v|err|] w2] eqn:E2 in E; simpl in E.
  - apply cached_Ok_inv in E2. exists v. destruct v as [|u [|ver [|x l]]]; try (injection E as <- <-; done).
    destruct (ParseInt ver); [by injection E as <- <-|]. exfalso.
    destruct (cached ctx_err (throw _) w2) as [r3 w3] eqn:E3. pose proof E3 as E4.
    unfold cached, throw, try in E4. rewrite M_bind_run in E4. simpl in E4. unfold M_bind, get_world in E4.
    injection E4 as <- <-. injection E as <- <-. destruct Hr as [?|[= Hc]]; [done|].
    rewrite Hc in E3. by apply cached_invalid in E3.
  - injection E as <- <-. destruct Hr as [?|[= ->]]; [done|]. by apply cached_invalid in E2.
  - injection E as <- <-. by destruct Hr.
Qed.

Lemma challenge_harmless id n op :
  0 <= n -> (forall m v b v', rand_read m v = (Ok b, v') -> challenge_key id <> challenge_key (hex_EncodeToString b)) ->
  harmless (challenge_key id) (attempted n) op.
Proof.
  intros Hn Hfresh. destruct op as [e p ip|e p c|e p c|e p r|v|id'|id']; simpl; try done.
  - split_and!; [apply not_eq_sym, emailKey_challenge|apply challenge_cooldown|apply challenge_limit_email|
      apply challenge_limit_ip].
  - left. apply not_eq_sym, emailKey_challenge.
  - left. apply not_eq_sym, emailKey_challenge.
  - right. by apply attempt_keeps.
Qed.

Lemma attempts_step id op n w r w' :
  (forall m v b v', rand_read m v = (Ok b, v') -> challenge_key id <> challenge_key (hex_EncodeToString b)) ->
  0 <= n /\ at_key (challenge_key id) (attempted n) (redis_store w) -> run_op op w = (r, w') ->
  0 <= n + (if attempt_on (challenge_key id) op r then 1 else 0) /\
  at_key (challenge_key id) (attempted (n + if attempt_on (challenge_key id) op r then 1 else 0)) (redis_store w').
Proof.
  intros Hfresh [Hn Ha] E. split; [case_match; lia|]. destruct (attempt_on _ _ _) eqn:Ho.
  - destruct op as [| | | | |id2|]; try done. unfold attempt_on in Ho.
    apply andb_true_iff in Ho as [[Hlen Hkey]%andb_true_iff Hr]. bool_prop.
    apply attempt_ran in E as (v & E & _); [|done|destruct Hr as [?|Hr]; [by left|right; by bool_prop]].
    apply eval_Ok in E as (st & st' & Ht & E & Ht'). rewrite Hkey in E.
    apply (at_key_stable _ (attempted (n + 1)) I _ _ Ht'). apply (at_key_stable _ (attempted n) I _ _ Ht) in Ha.
    by apply (challengeAttempt_inv _ n) in E as (_ & Hb & _); [apply Hb| |].
  - rewrite Z.add_0_r. pose proof (harmless_keeps (challenge_key id) (attempted n) I op
      (challenge_harmless id n op Hn Hfresh) w Ha) as Hk. by rewrite E in Hk.
Qed.

(** A challenge survives five attempts.  From any state in which the key
    of a challenge holds a challenge or nothing, and whatever operations
    follow, once five attempts on it have been answered no attempt finds it
    any more, as long as no identifier drawn in between has the same digest. *)
Theorem challenge_attempts_bounded id w ops :
  (forall m v b v', rand_read m v = (Ok b, v') -> challenge_key id <> challenge_key (hex_EncodeToString b)) ->
  at_key (challenge_key id) (attempted 0) (redis_store w) ->
  5 <= tally (attempt_on (challenge_key id)) ops w ->
  forall c v, challenge_Attempt id (run_ops ops w) <> (Ok c, v).
Proof.
  intros Hfresh Hw Ht c v E.
  destruct (tally_keeps (fun _ => True) (attempt_on (challenge_key id))
    (fun n w => 0 <= n /\ at_key (challenge_key id) (attempted n) (redis_store w)) ops 0 w
    (fun op n v r v' _ => attempts_step id op n v r v' Hfresh)) as [Hpos Ha]; [by apply Forall_true|done|].
  rewrite Z.add_0_l in Ha, Hpos.
  assert (len id = 64) as Hlen.
  { unfold AuthCache.challenge_Attempt in E. destruct (len id =? 64) eqn:Hl; [by bool_prop|done]. }
  destruct (attempt_ran id (run_ops ops w) (Ok tt) v) as (x & Ex & Hx); [|done|by left|].
  - simpl. unfold discard. by rewrite (M_bind_Ok _ _ _ _ _ E).
  - apply eval_Ok in Ex as (st & st' & Ht1 & Ex & _). apply (at_key_stable _ (attempted (tally (attempt_on (challenge_key id)) ops w)) I _ _ Ht1) in Ha.
    apply (challengeAttempt_inv _ (tally (attempt_on (challenge_key id)) ops w)) in Ex as (_ & _ & Hlast); [|done|done].
    apply Hx; [done|]. by injection (Hlast Ht eq_refl).
Qed.
End Cache.

(** ** A server with one mailbox *)
Module Example.
#[export] Instance unicode : Unicode := {| unicode_lower := fun s => s; unicode_equal_fold := String.eqb |}.
Definition hmac (_ v : string) : string := v.
Definition int_ (_ : Z) : M TimedServer Z := mret 123456.
Definition read_ (_ : Z) : M TimedServer string := mret "bbbbbbbbbbbbbbbbbbbbbbbbbbbbbbbb".
Definition clock (_ : TimedServer) : Z := 0.
Definition no_err (_ : TimedServer) : option LibErr := None.
Definition store : Store := New "test" "pepper".

Lemma int_ticks n : within ticks (int_ n).
Proof. intros w. unfold ticks. reflexivity. Qed.
Lemma read_ticks n : within ticks (read_ n).
Proof. intros w. unfold ticks. reflexivity. Qed.

(** An empty server whose evaluations come after the given delays. *)
Definition server (delays : list N) : TimedServer :=
  mkTimed (mkKeyStore ∅ 0) (map (fun ms => (ms, None)) delays).

Definition issue (w : TimedServer) := Issue hmac int_ read_ no_err store " A@example.com" "login" "::1" w.
Definition guess (c : string) : cache_op := OpVerifyAndConsume "a@example.com" "login" c.
Definition run (ops : list cache_op) (w : TimedServer) : TimedServer :=
  run_ops hmac int_ read_ clock no_err store ops w.

(** A challenge of version 7. *)
Definition challenge_id : string := of_bytes (replicate 64 "a"%char).
Definition challenged : TimedServer :=
  mkTimed (mkKeyStore {[ challenge_key hmac store challenge_id :=
    mkEntry (VHash {[ "user" := "u"; "version" := "7"; "attempts" := "0" ]}) (Some 300000) ]} 0) [].
End Example.
#[local] Existing Instance Example.unicode.


(** The code that was consumed is not accepted again. *)
Lemma code_single_use_witness :
  let w' := (Example.issue (Example.server [])).2 in
  exists w2, VerifyAndConsume Example.hmac Example.no_err Example.store "a@example.com" "login" "123456" w' = (Ok tt, w2) /\
  forall v, VerifyAndConsume Example.hmac Example.no_err Example.store "a@example.com" "login" "123456"
     (Example.run [Example.guess "1"; OpAttempt "x"] w2) <> (Ok tt, v).
Proof.
  intros w'.
  destruct (VerifyAndConsume Example.hmac Example.no_err Example.store "a@example.com" "login" "123456" w')
    as [r w2] eqn:E.
  assert (r = Ok tt) as -> by (vm_compute in E; by injection E).
  exists w2. split; [reflexivity|].
  destruct (code_single_use Example.hmac Example.int_ Example.read_ Example.clock Example.no_err Example.store
    Example.int_ticks Example.read_ticks "a@example.com" "login" w' w2 [Example.guess "1"; OpAttempt "x"])
    as (_ & Hv & _).
  - left. exists "123456". exact E.
  - repeat constructor.
  - exact (Hv "123456").
Defined.

(** A second code after thirty seconds is refused, after sixty it is issued;
    and of twelve requests a minute apart ten are served. *)
Lemma codes_are_paced_witness :
  let requests := replicate 12 (OpIssue "a@example.com" "login" "::1") in
  let w0 := Example.server (replicate 12 60000%N) in
  (Example.issue (Example.issue (Example.server [0; 30000]%N)).2).1 = Err (ERateLimit 30) /\
  is_ok (Example.issue (Example.issue (Example.server [0; 60000]%N)).2).1 = true /\
  tally Example.hmac Example.int_ Example.read_ Example.clock Example.no_err Example.store
    (issued Example.hmac Example.store (limitEmailKey Example.hmac Example.store "a@example.com")) requests w0 = 10 /\
  tally Example.hmac Example.int_ Example.read_ Example.clock Example.no_err Example.store
    (issued Example.hmac Example.store (limitEmailKey Example.hmac Example.store "a@example.com")) requests w0 <= 10.
Proof.
  intros requests w0. split; [vm_compute; reflexivity|]. split; [vm_compute; reflexivity|].
  split; [vm_compute; reflexivity|].
  destruct (codes_are_paced Example.hmac Example.int_ Example.read_ Example.clock Example.no_err Example.store
    Example.int_ticks Example.read_ticks "a@example.com" "login" "::1" (Example.server []) "123456"
    (Example.issue (Example.server [])).2 []) as [_ Hten].
  - vm_compute. reflexivity.
  - apply Hten; vm_compute; reflexivity.
Defined.

(** Five attempts on a challenge are answered, the sixth is not. *)
Lemma challenge_attempts_bounded_witness :
  let tries := replicate 5 (OpAttempt Example.challenge_id) in
  (challenge_Attempt Example.hmac Example.no_err Example.store Example.challenge_id
     (Example.run (take 4 tries) Example.challenged)).1 = Ok (mkChallenge "u" 7) /\
  forall c v, challenge_Attempt Example.hmac Example.no_err Example.store Example.challenge_id
     (Example.run tries Example.challenged) <> (Ok c, v).
Proof.
  intros tries. split; [vm_compute; reflexivity|].
  apply (challenge_attempts_bounded Example.hmac Example.int_ Example.read_ Example.clock Example.no_err Example.store
    Example.int_ticks Example.read_ticks).
  - intros m v b v' E. injection E as <- <-. vm_compute. discriminate.
  - vm_compute. exists 0. split; [reflexivity|discriminate].
  - vm_compute. discriminate.
Defined.
