(* ===== verification/Totp.v ===== *)
(** * Second factors ([pkg/platform/authcrypto/crypto.go])

    One-time codes of RFC 6238, recovery codes and the encryption of the
    secrets.  HMAC, AES-GCM, base 32 and the text of a URL are parameters;
    [HmacLaws] and [AeadLaws] say what the code relies on. *)
From S2P Require Import Prelude GoStrings Strconv IamSQL Iam.

(** The primitives of [crypto/hmac], [crypto/cipher] and [encoding/base32]. *)
Class Primitives := {
  hmac_sha1 : string -> string -> string;
  hmac_sha256 : string -> string -> string;
  (** [Seal] and [Open] of the AEAD for a key: nonce, text, additional data *)
  aead_seal : string -> string -> string -> string -> string;
  aead_open : string -> string -> string -> string -> option string;
  base32_encode : string -> string;
  base32_decode : string -> option string;
  (** [url.URL.String] of the enrolment link: issuer, email, secret *)
  otpauth_url : string -> string -> string -> string;
}.

Class PrimitivesLaws `{Primitives} := {
  hmac_sha1_size : forall key v, len (hmac_sha1 key v) = 20;
  aead_open_seal : forall key nonce text data, aead_open key nonce (aead_seal key nonce text data) data = Some text;
  aead_open_other : forall key nonce text data data',
    data <> data' -> aead_open key nonce (aead_seal key nonce text data) data' = None;
  base32_roundtrip : forall b, base32_decode (base32_encode b) = Some b;
}.

(** @src pkg/platform/authcrypto/crypto.go:24-28 Crypto *)
Record Crypto := mkCrypto { aead_key : string; pepper : string; issuer : string }.

(** @src pkg/platform/authcrypto/crypto.go:30-43 New *)
Definition New (key pepper issuer : string) : res Crypto :=
  if negb (len key =? 32) || (len pepper <? 32)
  then Err (EText "authentication encryption key and pepper must be 32 bytes")
  else Ok (mkCrypto key pepper issuer).

Definition NonceSize : Z := 12.

(** [binary.BigEndian] *)
Definition PutUint64 (z : Z) : string :=
  of_bytes (map (fun i => of_code (Z.land (Z.shiftr z (8 * i)) 255)) [7; 6; 5; 4; 3; 2; 1; 0]).
Definition Uint32 (b0 b1 b2 b3 : ascii) : Z :=
  Z.lor (Z.lor (Z.shiftl (code b0) 24) (Z.shiftl (code b1) 16)) (Z.lor (Z.shiftl (code b2) 8) (code b3)).

Section Crypto.
Context {W : Type} `{Primitives} `{Unicode}.
Variable rand_read : Z -> M W string.
Variable c : Crypto.

(** @src pkg/platform/authcrypto/crypto.go:44-50 Encrypt *)
Definition Encrypt (secret user : string) : M W string :=
  nonce ← rand_read NonceSize;
  mret (nonce +:+ aead_seal (aead_key c) nonce secret user).

(** @src pkg/platform/authcrypto/crypto.go:51-61 Decrypt *)
Definition Decrypt (raw user : string) : res string :=
  if len raw <? NonceSize then Err ErrInvalidCode
  else
    let n := Z.to_nat NonceSize in
    match aead_open (aead_key c) (of_bytes (take n (bytes raw))) (of_bytes (drop n (bytes raw))) user with
    | Some v => Ok v
    | None => Err ErrInvalidCode
    end.

(** @src pkg/platform/authcrypto/crypto.go:62-72 NewSecret *)
Definition NewSecret (email : string) : M W (string * string) :=
  b ← rand_read 20;
  let secret := base32_encode b in
  mret (secret, otpauth_url (issuer c) email secret).

(** The code of a step; an index out of range panics.
    @src pkg/platform/authcrypto/crypto.go:92-99 Verify *)
Definition hotp (key : string) (step : Z) : res string :=
  let digest := bytes (hmac_sha1 key (PutUint64 step)) in
  match last digest with
  | None => Panic
  | Some b =>
      let o := Z.to_nat (Z.land (code b) 15) in
      match slice o (o + 4) digest with
      | [b0; b1; b2; b3] => Ok (pad6 (Z.land (Uint32 b0 b1 b2 b3) 2147483647 mod 1000000))
      | _ => Panic
      end
  end.

(** The loop over the steps of the window. *)
Fixpoint first_match (key code : string) (last : Z) (steps : list Z) : res Z :=
  match steps with
  | [] => Err ErrInvalidCode
  | step :: rest =>
      if (step <=? last) || (step <? 0) then first_match key code last rest
      else
        expected ← hotp key step;
        if String.eqb expected code then Ok step else first_match key code last rest
  end.

(** The step of the clock: integer division truncates. *)
Definition time_step (now : Z) : Z := Z.quot (now / Second) 30.

(** @src pkg/platform/authcrypto/crypto.go:73-105 Verify *)
Definition Verify (secret code : string) (now last : Z) : res Z :=
  if negb (len code =? 6) then Err ErrInvalidCode
  else if negb (forallb is_digit (bytes code)) then Err ErrInvalidCode
  else match base32_decode secret with
  | None => Err ErrInvalidCode
  | Some key =>
      let current := time_step now in
      first_match key code last [current; current + -1; current + 1]
  end.

(** @src pkg/platform/authcrypto/crypto.go:106-110 RecoveryHash *)
Definition RecoveryHash (code : string) : string :=
  hex_EncodeToString (hmac_sha256 (pepper c) ("recovery:" +:+ ToLower (TrimSpace code))).

(** @src pkg/platform/authcrypto/crypto.go:111-123 RecoveryCodes *)
Definition RecoveryCodes : M W (list string * list string) :=
  codes ← map_each (seq 0 10) (fun _ => b ← rand_read 16; mret (hex_EncodeToString b));
  mret (codes, map RecoveryHash codes).

(** The implementation of the interface of the authentication service. *)
Definition crypto : SecondFactorCrypto W :=
  mkSecondFactorCrypto W NewSecret Encrypt Decrypt Verify RecoveryCodes RecoveryHash.
End Crypto.

(** ** Properties *)
Section Properties.
Context {W : Type} `{PrimitivesLaws} `{Unicode}.
Variable rand_read : Z -> M W string.
Variable c : Crypto.

(** The code of a step always exists: the offset leaves room for four bytes. *)
Lemma hotp_total key step : exists code, hotp key step = Ok code.
Proof.
  unfold hotp. pose proof (hmac_sha1_size key (PutUint64 step)) as Hs. rewrite len_bytes in Hs.
  set (d := bytes _) in *. destruct (last d) as [b|] eqn:Hl.
  2: { apply last_None in Hl. by rewrite Hl in Hs. }
  assert (0 <= Z.land (code b) 15 < 16) as Ho.
  { change 15 with (Z.ones 4). rewrite Z.land_ones by lia. apply Z.mod_pos_bound. lia. }
  set (o := Z.to_nat (Z.land (code b) 15)).
  assert (length (slice o (o + 4) d) = 4%nat) as Hlen.
  { unfold slice. rewrite length_take, length_drop. lia. }
  destruct (slice o (o + 4) d) as [|b0 [|b1 [|b2 [|b3 [|]]]]]; try done. eauto.
Qed.

Definition usable (last step : Z) : Prop := last < step /\ 0 <= step.

Lemma first_match_spec key code last steps :
  (exists step, first_match key code last steps = Ok step /\ step ∈ steps /\ usable last step /\ hotp key step = Ok code) \/
  (first_match key code last steps = Err ErrInvalidCode /\
   forall step, step ∈ steps -> usable last step -> hotp key step <> Ok code).
Proof.
  induction steps as [|step steps IH]; simpl.
  { right. split; [done|]. intros step Hin. by apply not_elem_of_nil in Hin. }
  destruct ((step <=? last) || (step <? 0)) eqn:Hu.
  - destruct IH as [(s & E & Hin & Hs)|[E Hno]]; [left; exists s; split_and!; try done; [by right|apply Hs|apply Hs]|right].
    split; [done|]. intros s Hin. apply elem_of_cons in Hin as [->|Hin]; [|by apply Hno].
    unfold usable. intros Hus. apply orb_true_iff in Hu as [Hu|Hu]; bool_prop; lia.
  - bool_prop. destruct (hotp_total key step) as (x & Ex). rewrite Ex. simpl.
    destruct (String.eqb_spec x code) as [->|Hne].
    + left. exists step. split_and!; [done|by left|split; lia|done].
    + destruct IH as [(s & E & Hin & Hs)|[E Hno]]; [left; exists s; split_and!; try done; [by right|apply Hs|apply Hs]|right].
      split; [done|]. intros s Hin. apply elem_of_cons in Hin as [->|Hin]; [|by apply Hno]. congruence.
Qed.

(** C34: what a one-time code proves.  [Verify] never panics.  It accepts
    exactly the texts of six digits that are the code of a step at most one
    away from the clock's, not before the epoch and later than the last
    accepted one, and returns such a step; everything else is
    [ErrInvalidCode].  A code is thus accepted for 90 seconds at most, and no
    code of a step is accepted after that step or a later one was. *)
Theorem Verify_spec secret code now last :
  (forall step, Verify secret code now last = Ok step ->
     exists key, base32_decode secret = Some key /\ hotp key step = Ok code /\ is_email_code code = true /\
       last < step /\ 0 <= step /\ Z.abs (step - time_step now) <= 1) /\
  (forall key step, base32_decode secret = Some key -> hotp key step = Ok code -> is_email_code code = true ->
     last < step -> 0 <= step -> Z.abs (step - time_step now) <= 1 -> is_ok (Verify secret code now last) = true) /\
  (is_ok (Verify secret code now last) = false -> Verify secret code now last = Err ErrInvalidCode).
Proof.
  assert (is_email_code code = (len code =? 6) && forallb is_digit (bytes code)) as Hcode.
  { unfold is_email_code. f_equal. unfold len. destruct (String.length code =? 6)%nat eqn:E.
    - apply Nat.eqb_eq in E. by rewrite E.
    - apply Nat.eqb_neq in E. symmetry. apply Z.eqb_neq. lia. }
  unfold Verify. rewrite Hcode. destruct (len code =? 6); cbn [negb andb]; [|split_and!; done].
  destruct (forallb is_digit (bytes code)); cbn [negb andb]; [|split_and!; done].
  destruct (base32_decode secret) as [key|]; [|split_and!; done].
  set (t := time_step now).
  assert (forall step, step ∈ [t; t + -1; t + 1] <-> Z.abs (step - t) <= 1) as Hwin.
  { intros step. rewrite !elem_of_cons, elem_of_nil. lia. }
  destruct (first_match_spec key code last [t; t + -1; t + 1]) as [(s & E & Hin & Hu & Hh)|[E Hno]]; rewrite E.
  - split_and!; [|done|done]. intros step [= <-]. exists key. apply Hwin in Hin. by destruct Hu.
  - split_and!; [done| |done]. intros k step [= <-] Hh _ Hl H0' Ha. exfalso. by apply (Hno step); [apply Hwin| |].
Qed.

(** An encrypted secret is decrypted for its user and for no other. *)
Lemma Decrypt_Encrypt secret user w raw w' :
  (forall v v' nonce, rand_read NonceSize v = (Ok nonce, v') -> len nonce = NonceSize) ->
  Encrypt rand_read c secret user w = (Ok raw, w') ->
  Decrypt c raw user = Ok secret /\ forall other, other <> user -> Decrypt c raw other = Err ErrInvalidCode.
Proof.
  intros Hlen. unfold Encrypt. intros (nonce & w1 & E & Hr)%M_bind_Ok_inv. injection Hr as <- <-.
  apply Hlen in E. unfold Decrypt. rewrite !len_bytes in *. rewrite bytes_app, length_app.
  assert (Z.to_nat NonceSize = length (bytes nonce)) as Hn by lia.
  rewrite Hn, take_app_length, drop_app_length, !of_bytes_bytes.
  rewrite (proj2 (Z.ltb_ge _ NonceSize)) by lia. split; [by rewrite aead_open_seal|].
  intros other Hne. by rewrite aead_open_other.
Qed.
End Properties.

(** ** A toy cryptography *)
Module Example.
#[export] Instance unicode : Unicode := {| unicode_lower := fun s => s; unicode_equal_fold := String.eqb |}.

(** The digest of a step ends with its last digits. *)
Definition pad20 (s : string) : string :=
  of_bytes (take 20 (rev (bytes s) ++ replicate 20 (of_code 0))).

#[export] Instance primitives : Primitives := {
  hmac_sha1 key v := pad20 (key +:+ v);
  hmac_sha256 key v := key +:+ v;
  aead_seal key nonce text data := hex_EncodeToString data +:+ "|" +:+ text;
  aead_open key nonce ct data :=
    let '(before, text, found) := Cut ct "|" in
    if found && String.eqb before (hex_EncodeToString data) then Some text else None;
  base32_encode s := s;
  base32_decode s := Some s;
  otpauth_url i e s := i +:+ e +:+ s;
}.

Definition now : Z := 1000 * 30 * Second.
Definition code_at (step : Z) : string := match hotp "key" step with Ok x => x | _ => "" end.
End Example.
#[local] Existing Instance Example.primitives.

Lemma cut_hex l m : cut_on "|" (hex_encode l ++ "|"%char :: m) = Some (hex_encode l, m).
Proof.
  assert (Forall (fun a => a <> "|"%char) (hex_encode l)) as Hl.
  { induction l as [|a l IH]; simpl; [constructor|]. pose proof (code_range a).
    assert (forall z, 0 <= z < 16 -> hex_digit z <> "|"%char) as Hd.
    { intros z Hz E. pose proof (hex_value_digit z Hz) as Hv. by rewrite E in Hv. }
    repeat (apply Forall_cons; split); try done; apply Hd; Z.to_euclidean_division_equations; lia. }
  induction Hl as [|a l' Ha _ IH]; simpl; [done|]. rewrite bool_decide_eq_false_2 by done. by rewrite IH.
Qed.

Lemma Cut_hex data text :
  Cut (hex_EncodeToString data +:+ "|" +:+ text) "|" = (hex_EncodeToString data, text, true).
Proof.
  unfold Cut, hex_EncodeToString. rewrite bytes_app, bytes_of_bytes. simpl. rewrite cut_hex.
  by rewrite of_bytes_bytes.
Qed.

Lemma pad20_size s : len (Example.pad20 s) = 20.
Proof.
  unfold Example.pad20. rewrite len_bytes, bytes_of_bytes, length_take, length_app, length_replicate. lia.
Qed.

#[local] Instance example_laws : PrimitivesLaws.
Proof.
  split; simpl.
  - intros key v. apply pad20_size.
  - intros key nonce text data. rewrite Cut_hex. simpl. by rewrite String.eqb_refl.
  - intros key nonce text data data' Hne. rewrite Cut_hex. simpl.
    destruct (String.eqb_spec (hex_EncodeToString data) (hex_EncodeToString data')) as [E|]; [|done].
    by apply hex_EncodeToString_inj in E.
  - done.
Qed.

(** The code of the next step is accepted, and not twice. *)
Lemma Verify_spec_witness :
  exists code, hotp "key" 1001 = Ok code /\ is_ok (Verify "key" code Example.now 1000) = true /\
    Verify "key" code Example.now 1001 = Err ErrInvalidCode.
Proof.
  destruct (hotp "key" 1001) as [code|e|] eqn:E; [|vm_compute in E; discriminate E..].
  exists code. split; [reflexivity|]. assert (is_email_code code = true) as Hc
    by (vm_compute in E; injection E as <-; reflexivity).
  destruct (Verify_spec "key" code Example.now 1000) as (_ & Hacc & _).
  destruct (Verify_spec "key" code Example.now 1001) as (_ & _ & Hrej).
  split; [apply (Hacc "key" 1001 eq_refl E Hc); vm_compute; first [reflexivity|discriminate]|].
  apply Hrej. vm_compute in E. injection E as <-. vm_compute. reflexivity.
Defined.
