(* ===== verification/IamStore.v ===== *)
(** * The PostgreSQL stores of the identity module
    ([pkg/platform/database/iamstore], files repository and authentication)

    The stores run the statements of [IamSQL] on a server [Pg W IamDB].
    [pgtype]'s UUID scanner and SHA-256 are parameters, as is the clock that
    [time.Now] reads.  [beginner] tells whether the store was built with a
    transaction beginner. *)
From S2P Require Import Prelude GoStrings Pagination Postgres TaskSQL IamSQL Iam.

(** [pgtype.UUID.Scan] of a text: the sixteen bytes it denotes. *)
Class UuidScan := uuid_scan : string -> option string.

(** What its documentation promises: the canonical text is accepted. *)
Definition uuid_text (id : string) : string := of_bytes (format_bytes (hex_encode (bytes id))).
Class UuidScanLaws `{UuidScan} := {
  uuid_scan_ok : forall v id, uuid_scan v = Some id -> uuid_ok id;
  uuid_scan_text : forall id, uuid_ok id -> uuid_scan (uuid_text id) = Some id;
}.

(** ** Conversions *)

(** @src pkg/platform/database/iamstore/repository.go:468-474 parseUUID *)
Definition parseUUID `{UuidScan} (value : string) : res string :=
  match uuid_scan value with
  | Some id => Ok id
  | None => Err (EText ("invalid UUID " +:+ value))
  end.

(** @src pkg/platform/database/iamstore/repository.go:476-482 uuidString *)
Definition uuidString (uuid : option string) : string :=
  match uuid with None => "" | Some id => uuid_text id end.

(** @src pkg/platform/database/iamstore/repository.go:491-493 optionalText *)
Definition optionalText (value : string) : option string :=
  if is_empty value then None else Some value.

(** @src pkg/platform/database/iamstore/repository.go:495-512 mapDBError *)
Definition mapDBError (err : error) : error :=
  if errors_is PgxNoRows err then ErrNotFound
  else match pg_code err with
       | Some "23505" => ErrDuplicateIdentity
       | Some "23503" => ErrNotFound
       | _ => err
       end.

(** [return mapDBError(f(...))] *)
Definition mapped {W A} (m : M W A) : M W A := fun w =>
  match m w with
  | (Err e, w') => (Err (mapDBError e), w')
  | (r, w') => (r, w')
  end.

(** @src pkg/platform/database/iamstore/repository.go:534-536 userFromDB *)
Definition userFromDB (row : UserRow) : User :=
  mkUser (u_EmailVerifiedAt row) (uuidString (Some (u_ID row))) (u_Email row) (u_Username row)
    (u_DisplayName row) (u_PasswordHash row) (u_IsActive row) (u_CreatedAt row) (u_UpdatedAt row) [].

(** @src pkg/platform/database/iamstore/repository.go:538-540 roleFromDB *)
Definition roleFromDB (row : RoleRow) : Role :=
  mkRole (uuidString (Some (r_ID row))) (r_Name row) (r_Description row) (r_IsSystem row).

(** @src pkg/platform/database/iamstore/repository.go:542-548 rolesFromDB *)
Definition rolesFromDB (rows : list RoleRow) : list Role := map roleFromDB rows.

(** @src pkg/platform/database/iamstore/repository.go:550-552 permissionFromDB *)
Definition permissionFromDB (row : PermissionRow) : Permission :=
  mkPermission (uuidString (Some (p_ID row))) (p_Name row) (p_Description row).

(** @src pkg/platform/database/iamstore/repository.go:554-560 roleDetailFromDB *)
Definition roleDetailFromDB (role : RoleRow) (permissions : list PermissionRow) : RoleDetail :=
  mkRoleDetail (uuidString (Some (r_ID role))) (r_Name role) (r_Description role) (r_IsSystem role)
    (map permissionFromDB permissions).

(** @src pkg/platform/database/iamstore/repository.go:562-569 uuidIn *)
Definition uuidIn (values : list string) (wanted : string) : bool := existsb (String.eqb wanted) values.

(** @src pkg/platform/database/iamstore/repository.go:571-583 preferencesFromDB *)
Definition preferencesFromDB (row : PreferenceRow) : Preferences :=
  mkPreferences (pr_Theme row) (pr_ColorMode row) (pr_AccentColor row) (pr_FontScale row) (pr_RadiusScale row).

(** @src pkg/platform/database/iamstore/authentication.go:64-66 securityFromDB *)
Definition securityFromDB (v : SecurityRow) : SecurityState :=
  mkSecurityState
    (mkSecuritySettings (s_RecoveryCodesExpiresAt v) (s_Mode v) (0 <? len (default "" (s_TotpSecret v)))
       (Z.of_nat (length (s_RecoveryHashes v))))
    (s_Version v) (s_TotpSecret v) (s_PendingSecret v) (s_PendingExpiresAt v) (s_LastTotpStep v)
    (s_RecoveryHashes v).

(** @src pkg/platform/database/iamstore/authentication.go:67-81 securityParams *)
Definition securityParams (id : string) (v : SecurityState) (version : Z) : SaveSecuritySettingsParams :=
  mkSaveSecurity id (Mode (sec_Settings v)) (Secret v) (PendingSecret v) (PendingExpiresAt v)
    (LastTOTPStep v) (RecoveryHashes v) version (RecoveryCodesExpiresAt (sec_Settings v)).

(** ** The stores *)
Section Stores.
Context {W : Type} `{Pg W IamDB} `{UuidScan} `{Ilike} `{Collation}.
Variable beginner : bool.
Variable now : W -> Z.
Variable sha256 : string -> string.

(** *** [Store] ([repository.go]) *)

(** @src pkg/platform/database/iamstore/repository.go:69-75 FindByEmail *)
Definition store_FindByEmail (email : string) : M W User :=
  row ← mapped (pg_exec (GetUserByEmail email));
  mret (userFromDB row).

(** @src pkg/platform/database/iamstore/repository.go:77-87 FindByID *)
Definition store_FindByID (id : string) : M W User :=
  uuid ← of_res (parseUUID id);
  row ← mapped (pg_exec (GetUserByID uuid));
  mret (userFromDB row).

(** @src pkg/platform/database/iamstore/repository.go:89-99 GetPreferences *)
Definition store_GetPreferences (id : string) : M W Preferences :=
  userID ← of_res (parseUUID id);
  row ← mapped (pg_exec (GetUserPreferences userID));
  mret (preferencesFromDB row).

(** @src pkg/platform/database/iamstore/repository.go:101-114 PutPreferences *)
Definition store_PutPreferences (id : string) (p : Preferences) : M W unit :=
  userID ← of_res (parseUUID id);
  mapped (pg_exec (UpsertUserPreferences userID
    (mkPreferenceRow (Theme p) (ColorMode p) (AccentColor p) (FontScale p) (RadiusScale p)))).

(** The filter is the query text and the optional flag.
    @src pkg/platform/database/iamstore/repository.go:116-144 List *)
Definition store_List (filter : string * option bool) (limit offset : Z) : M W (list User * Z) :=
  let params := mkUserFilterParams (optionalText filter.1) filter.2 in
  rows ← pg_exec (ListUsers params (int32 limit) (int32 offset));
  total ← pg_exec (CountUsers params);
  users ← map_each rows (fun row =>
    roles ← mapped (pg_exec (ListRolesForUser (u_ID row)));
    let user := userFromDB row in
    mret (mkUser (user_EmailVerifiedAt user) (user_ID user) (user_Email user) (user_Username user)
            (user_DisplayName user) (user_PasswordHash user) (user_Active user) (user_CreatedAt user)
            (user_UpdatedAt user) (rolesFromDB roles)));
  mret (users, total).

(** @src pkg/platform/database/iamstore/repository.go:146-152 Create *)
Definition store_Create (input : CreateUserInput) : M W User :=
  row ← mapped (pg_exec (CreateUser (mkCreateUser (cui_Email input) (cui_Username input)
                                       (cui_Password input) (cui_DisplayName input))));
  mret (userFromDB row).

(** @src pkg/platform/database/iamstore/repository.go:523-532 setActive *)
Definition setActive (userID : string) (active : bool) : M W unit :=
  rows ← mapped (pg_exec (SetUserActive userID active));
  if (rows : Z) =? 0 then throw ErrNotFound else mret tt.

(** @src pkg/platform/database/iamstore/repository.go:154-167 SetActive *)
Definition store_SetActive (id : string) (active : bool) : M W unit :=
  uuid ← of_res (parseUUID id);
  rows ← mapped (pg_exec (SetUserActive uuid active));
  if (rows : Z) =? 0 then throw ErrNotFound else mret tt.

(** @src pkg/platform/database/iamstore/repository.go:514-521 withTransaction *)
Definition withTransaction {A} (fn : M W A) : M W A :=
  if negb beginner then throw ErrManagementUnavailable else RunInTx beginner (Some fn).

(** @src pkg/platform/database/iamstore/repository.go:218-229 withLockedSecurity *)
Definition withLockedSecurity {A} (id : string) (fn : SecurityRow -> M W A) : M W A :=
  withTransaction (
    _ ← mapped (pg_exec (EnsureSecuritySettings id));
    security ← mapped (pg_exec (LockSecuritySettings id));
    fn security).

(** @src pkg/platform/database/iamstore/repository.go:169-194 UpdateUser *)
Definition store_UpdateUser (id : string) (input : UpdateUserInput) : M W User :=
  userID ← of_res (parseUUID id);
  row ← mapped (withLockedSecurity userID (fun security =>
    current ← mapped (pg_exec (GetUserByID userID));
    if negb (String.eqb (u_Email current) (uui_Email input)) && String.eqb (s_Mode security) "email"
    then throw ErrAuthenticationForbidden
    else mapped (pg_exec (UpdateUserProfile userID (uui_Email input) (uui_Username input)
                            (uui_DisplayName input)))));
  mret (userFromDB row).

(** @src pkg/platform/database/iamstore/repository.go:196-216 UpdateUserPassword *)
Definition store_UpdateUserPassword (id passwordHash : string) : M W unit :=
  userID ← of_res (parseUUID id);
  withLockedSecurity userID (fun _ =>
    _ ← mapped (pg_exec (InvalidatePasswordCredentials userID));
    rows ← mapped (pg_exec (UpdateUserPassword userID passwordHash));
    if (rows : Z) =? 0 then throw ErrNotFound else mret tt).

(** @src pkg/platform/database/iamstore/repository.go:231-255 SetUserActive *)
Definition store_SetUserActive (id : string) (active : bool) : M W unit :=
  if active then store_SetActive id true
  else
    userID ← of_res (parseUUID id);
    withTransaction (
      _ ← mapped (pg_exec (GetUserByID userID));
      _ ← mapped (pg_exec LockSystemAdminRole);
      adminIDs ← mapped (pg_exec LockActiveSystemAdministratorIDs);
      if uuidIn adminIDs userID && (length adminIDs =? 1)%nat then throw ErrLastActiveAdministrator
      else setActive userID false).

(** @src pkg/platform/database/iamstore/repository.go:257-263 PermissionsForUser *)
Definition store_PermissionsForUser (id : string) : M W (list string) :=
  uuid ← of_res (parseUUID id);
  pg_exec (ListUserPermissions uuid).

(** @src pkg/platform/database/iamstore/repository.go:265-275 Roles *)
Definition store_Roles : M W (list Role) :=
  rows ← pg_exec ListRoles;
  mret (map roleFromDB rows).

(** @src pkg/platform/database/iamstore/repository.go:277-291 Role *)
Definition store_Role (id : string) : M W RoleDetail :=
  roleID ← of_res (parseUUID id);
  role ← mapped (pg_exec (GetRoleByID roleID));
  permissions ← mapped (pg_exec (ListRolePermissions roleID));
  mret (roleDetailFromDB role permissions).

(** @src pkg/platform/database/iamstore/repository.go:293-299 CreateRole *)
Definition store_CreateRole (input : RoleInput) : M W Role :=
  role ← mapped (pg_exec (CreateRole (ri_Name input) (ri_Description input)));
  mret (roleFromDB role).

(** @src pkg/platform/database/iamstore/repository.go:301-318 UpdateRole *)
Definition store_UpdateRole (id : string) (input : RoleInput) : M W Role :=
  roleID ← of_res (parseUUID id);
  existing ← mapped (pg_exec (GetRoleByID roleID));
  if r_IsSystem existing && negb (String.eqb (r_Name existing) (ri_Name input))
  then throw ErrSystemRoleProtected
  else
    role ← mapped (pg_exec (UpdateRole roleID (ri_Name input) (ri_Description input)));
    mret (roleFromDB role).

(** @src pkg/platform/database/iamstore/repository.go:320-340 DeleteRole *)
Definition store_DeleteRole (id : string) : M W unit :=
  roleID ← of_res (parseUUID id);
  role ← mapped (pg_exec (GetRoleByID roleID));
  if r_IsSystem role then throw ErrSystemRoleProtected
  else
    rows ← mapped (pg_exec (DeleteRole roleID));
    if (rows : Z) =? 0 then throw ErrNotFound else mret tt.

(** @src pkg/platform/database/iamstore/repository.go:342-385 ReplaceUserRoles *)
Definition store_ReplaceUserRoles (id : string) (roleIDs : list string) : M W unit :=
  userID ← of_res (parseUUID id);
  parsedRoleIDs ← map_each roleIDs (fun roleID => of_res (parseUUID roleID));
  withTransaction (
    _ ← mapped (pg_exec (GetUserByID userID));
    adminRole ← mapped (pg_exec LockSystemAdminRole);
    adminIDs ← mapped (pg_exec LockActiveSystemAdministratorIDs);
    _ ← for_each parsedRoleIDs (fun roleID => _ ← mapped (pg_exec (GetRoleByID roleID)); mret tt);
    if uuidIn adminIDs userID && (length adminIDs =? 1)%nat && negb (uuidIn parsedRoleIDs (r_ID adminRole))
    then throw ErrLastActiveAdministrator
    else
      _ ← mapped (pg_exec (DeleteUserRoles userID));
      for_each parsedRoleIDs (fun roleID => mapped (pg_exec (AssignUserRole userID roleID)))).

(** @src pkg/platform/database/iamstore/repository.go:387-423 ReplaceRolePermissions *)
Definition store_ReplaceRolePermissions (id : string) (permissionIDs : list string) : M W unit :=
  roleID ← of_res (parseUUID id);
  parsedPermissionIDs ← map_each permissionIDs (fun permissionID => of_res (parseUUID permissionID));
  withTransaction (
    role ← mapped (pg_exec (GetRoleByID roleID));
    if r_IsSystem role then throw ErrSystemRoleProtected
    else
      _ ← for_each parsedPermissionIDs (fun permissionID =>
            _ ← mapped (pg_exec (GetPermissionByID permissionID)); mret tt);
      _ ← mapped (pg_exec (DeleteRolePermissions roleID));
      for_each parsedPermissionIDs (fun permissionID =>
        mapped (pg_exec (GrantRolePermission roleID permissionID)))).

(** @src pkg/platform/database/iamstore/repository.go:425-435 Permissions *)
Definition store_Permissions : M W (list Permission) :=
  rows ← pg_exec ListPermissions;
  mret (map permissionFromDB rows).

(** @src pkg/platform/database/iamstore/repository.go:437-447 AssignRole *)
Definition store_AssignRole (userID roleID : string) : M W unit :=
  user ← of_res (parseUUID userID);
  role ← of_res (parseUUID roleID);
  mapped (pg_exec (AssignUserRole user role)).

(** @src pkg/platform/database/iamstore/repository.go:449-466 GrantPermission *)
Definition store_GrantPermission (roleID permissionID : string) : M W unit :=
  role ← of_res (parseUUID roleID);
  permission ← of_res (parseUUID permissionID);
  existing ← mapped (pg_exec (GetRoleByID role));
  if r_IsSystem existing then throw ErrSystemRoleProtected
  else mapped (pg_exec (GrantRolePermission role permission)).

(** *** [AuthenticationStore] ([authentication.go]) *)

(** @src pkg/platform/database/iamstore/authentication.go:26-32 Authentication *)
Definition store_Authentication : M W AuthenticationState :=
  r ← pg_exec GetAuthenticationSettings;
  mret (mkAuthenticationState
          (mkAuthenticationSettings (a_PasswordLoginEnabled r) (a_RegistrationEnabled r)
             (a_RegistrationEmailVerificationRequired r) (a_AllowedEmailDomains r))
          (uuidString (a_BootstrapAdminUserID r)) (a_InitializedAt r)).

(** @src pkg/platform/database/iamstore/authentication.go:33-35 PutAuthentication *)
Definition store_PutAuthentication (v : AuthenticationSettings) : M W unit :=
  pg_exec (PutAuthenticationSettings (PasswordLoginEnabled v) (RegistrationEnabled v)
             (RegistrationEmailVerificationRequired v) (AllowedEmailDomains v)).

(** @src pkg/platform/database/iamstore/authentication.go:36-49 Initialize *)
Definition store_Initialize (id : string) : M W unit :=
  u ← of_res (parseUUID id);
  n ← pg_exec (InitializeAuthentication u);
  if negb (n =? 1) then throw ErrInvalidCredentials else mret tt.

(** @src pkg/platform/database/iamstore/authentication.go:50-63 Security *)
Definition store_Security (id : string) : M W SecurityState :=
  u ← of_res (parseUUID id);
  _ ← pg_exec (EnsureSecuritySettings u);
  v ← pg_exec (GetSecuritySettings u);
  mret (securityFromDB v).

(** @src pkg/platform/database/iamstore/authentication.go:82-120 SaveSecurity *)
Definition store_SaveSecurity (id : string) (v : SecurityState) (version : Z) : M W unit :=
  u ← of_res (parseUUID id);
  if String.eqb (Mode (sec_Settings v)) "email" then
    RunInTx beginner (Some (
      _ ← mapped (pg_exec (LockSecuritySettings u));
      user ← mapped (pg_exec (GetUserByID u));
      if bool_decide (u_EmailVerifiedAt user = None) then throw ErrEmailNotVerified
      else
        n ← pg_exec (SaveSecuritySettings (securityParams u v version));
        if negb (n =? 1) then throw ErrSecurityConflict else mret tt))
  else
    n ← pg_exec (SaveSecuritySettings (securityParams u v version));
    if negb (n =? 1) then throw ErrSecurityConflict else mret tt.

(** The receipt of a verified code is spent in the transaction that uses it.
    @src pkg/platform/database/iamstore/authentication.go:154-162 Register *)
Definition spend_receipt (receipt : CodeReceipt) : M W unit :=
  _ ← pg_exec PruneAuthenticationConsumptions;
  r ← try (pg_exec (InsertAuthenticationConsumption ("email:" +:+ rc_ID receipt) (rc_ExpiresAt receipt)));
  match r with
  | Err e => if errors_is ErrDuplicateIdentity (mapDBError e) then throw ErrInvalidCode else throw e
  | _ => mret tt
  end.

(** @src pkg/platform/database/iamstore/authentication.go:121-185 Register *)
Definition store_Register (input : CreateUserInput) (receipt : option CodeReceipt) : M W User :=
  RunInTx beginner (Some (
    settings ← pg_exec LockAuthenticationSettings;
    if bool_decide (a_InitializedAt settings = None) || negb (a_RegistrationEnabled settings)
    then throw ErrAuthenticationForbidden
    else if a_RegistrationEmailVerificationRequired settings && bool_decide (receipt = None)
    then throw ErrEmailCodeRequired
    else if (0 <? length (a_AllowedEmailDomains settings))%nat &&
            negb (existsb (fun d => HasSuffix (cui_Email input) ("@" +:+ d)) (a_AllowedEmailDomains settings))
    then throw ErrAuthenticationForbidden
    else
      let receipt := if negb (a_RegistrationEmailVerificationRequired settings) then None else receipt in
      _ ← match receipt with
          | Some receipt =>
              t ← gets now;
              if negb (after (rc_ExpiresAt receipt) t) then throw ErrInvalidCode
              else spend_receipt receipt
          | None => mret tt
          end;
      user ← mapped (pg_exec (CreateUser (mkCreateUser (cui_Email input) (cui_Username input)
                                (cui_Password input) (cui_DisplayName input))));
      user ← match receipt with
             | Some _ => pg_exec (MarkEmailVerified (u_ID user))
             | None => mret user
             end;
      role ← pg_exec (GetRoleByName "user");
      _ ← pg_exec (AssignUserRole (u_ID user) (r_ID role));
      mret (userFromDB user))).

(** @src pkg/platform/database/iamstore/authentication.go:186-237 ConsumeCredential *)
Definition store_ConsumeCredential (id credential : string) (version step : Z) (recovery : string) :
    M W unit :=
  u ← of_res (parseUUID id);
  RunInTx beginner (Some (
    r ← pg_exec (LockSecuritySettings u);
    if negb (s_Version r =? version) || (len (default "" (s_TotpSecret r)) =? 0) then throw ErrInvalidCode
    else
      _ ← if is_empty credential then mret tt
          else
            _ ← pg_exec PruneAuthenticationConsumptions;
            t ← gets now;
            inserted ← try (pg_exec (InsertAuthenticationConsumption
                         ("challenge:" +:+ hex_EncodeToString (sha256 credential)) (t + 10 * Minute)));
            match inserted with Err _ => throw ErrInvalidCode | _ => mret tt end;
      if negb (is_empty recovery) then
        t ← gets now;
        if negb (match s_RecoveryCodesExpiresAt r with Some e => after e t | None => false end)
        then throw ErrInvalidCode
        else if negb (existsb (fun h => String.eqb h recovery) (s_RecoveryHashes r))
        then throw ErrInvalidCode
        else pg_exec (SaveConsumedSecurityCredential u (s_LastTotpStep r)
                        (List.filter (fun h => negb (String.eqb h recovery)) (s_RecoveryHashes r)))
      else if step <=? s_LastTotpStep r then throw ErrInvalidCode
      else pg_exec (SaveConsumedSecurityCredential u step (s_RecoveryHashes r)))).

(** @src pkg/platform/database/iamstore/authentication.go:245-294 VerifyEmail *)
Definition store_VerifyEmail (id email : string) (receipt : CodeReceipt) : M W User :=
  u ← of_res (parseUUID id);
  RunInTx beginner (Some (
    _ ← pg_exec (EnsureSecuritySettings u);
    _ ← mapped (pg_exec (LockSecuritySettings u));
    _ ← mapped (pg_exec (LockUser u));
    user ← mapped (pg_exec (GetUserByID u));
    if negb (u_IsActive user) then throw ErrInactiveUser
    else if negb (String.eqb (u_Email user) email) then throw ErrSecurityConflict
    else
      t ← gets now;
      if is_empty (rc_ID receipt) || negb (after (rc_ExpiresAt receipt) t) then throw ErrInvalidCode
      else
        _ ← spend_receipt receipt;
        user ← pg_exec (MarkEmailVerified u);
        mret (userFromDB user))).
End Stores.

(** ** Every operation of the stores

    All but [Store.SetActive], which deactivates without a guard: the service
    calls it only when it has no [ManagementRepository]. *)
Inductive store_op :=
  | op_Create (input : CreateUserInput)
  | op_UpdateUser (id : string) (input : UpdateUserInput)
  | op_UpdateUserPassword (id hash : string)
  | op_SetUserActive (id : string) (active : bool)
  | op_CreateRole (input : RoleInput)
  | op_UpdateRole (id : string) (input : RoleInput)
  | op_DeleteRole (id : string)
  | op_ReplaceUserRoles (id : string) (roleIDs : list string)
  | op_ReplaceRolePermissions (id : string) (permissionIDs : list string)
  | op_AssignRole (userID roleID : string)
  | op_GrantPermission (roleID permissionID : string)
  | op_PutPreferences (id : string) (p : Preferences)
  | op_PutAuthentication (v : AuthenticationSettings)
  | op_Initialize (id : string)
  | op_Security (id : string)
  | op_SaveSecurity (id : string) (v : SecurityState) (version : Z)
  | op_Register (input : CreateUserInput) (receipt : option CodeReceipt)
  | op_ConsumeCredential (id credential : string) (version step : Z) (recovery : string)
  | op_VerifyEmail (id email : string) (receipt : CodeReceipt).

Definition forget {W A} (m : M W A) : M W unit := _ ← m; mret tt.

Definition run_op {W} `{Pg W IamDB, UuidScan} (beginner : bool) (now : W -> Z) (sha256 : string -> string)
    (op : store_op) : M W unit :=
  match op with
  | op_Create input => forget (store_Create input)
  | op_UpdateUser id input => forget (store_UpdateUser beginner id input)
  | op_UpdateUserPassword id hash => store_UpdateUserPassword beginner id hash
  | op_SetUserActive id active => store_SetUserActive beginner id active
  | op_CreateRole input => forget (store_CreateRole input)
  | op_UpdateRole id input => forget (store_UpdateRole id input)
  | op_DeleteRole id => store_DeleteRole id
  | op_ReplaceUserRoles id roleIDs => store_ReplaceUserRoles beginner id roleIDs
  | op_ReplaceRolePermissions id permissionIDs => store_ReplaceRolePermissions beginner id permissionIDs
  | op_AssignRole userID roleID => store_AssignRole userID roleID
  | op_GrantPermission roleID permissionID => store_GrantPermission roleID permissionID
  | op_PutPreferences id p => store_PutPreferences id p
  | op_PutAuthentication v => store_PutAuthentication v
  | op_Initialize id => store_Initialize id
  | op_Security id => forget (store_Security id)
  | op_SaveSecurity id v version => store_SaveSecurity beginner id v version
  | op_Register input receipt => forget (store_Register beginner now input receipt)
  | op_ConsumeCredential id credential version step recovery =>
      store_ConsumeCredential beginner now sha256 id credential version step recovery
  | op_VerifyEmail id email receipt => forget (store_VerifyEmail beginner now id email receipt)
  end.

(** A history of operations, whatever their results. *)
Fixpoint run_ops {W} `{Pg W IamDB, UuidScan} (beginner : bool) (now : W -> Z) (sha256 : string -> string)
    (ops : list store_op) (w : W) : W :=
  match ops with
  | [] => w
  | op :: ops => run_ops beginner now sha256 ops (run_op beginner now sha256 op w).2
  end.

(** ** Lemmas *)
Lemma mapped_Ok_inv {W A} (m : M W A) w a w' : mapped m w = (Ok a, w') -> m w = (Ok a, w').
Proof. unfold mapped. destruct (m w) as [[] ?]; by intros [= <- <-]. Qed.

Lemma mapped_world {W A} (m : M W A) w : (mapped m w).2 = (m w).2.
Proof. unfold mapped. by destruct (m w) as [[] ?]. Qed.

Lemma bind_pure_world {W A B} (m : M W A) (k : A -> M W B) w :
  (forall a w, (k a w).2 = w) -> ((m ≫= k) w).2 = (m w).2.
Proof. intros Hk. rewrite M_bind_run. by destruct (m w) as [[] ?]; simpl; rewrite ?Hk. Qed.

Lemma within_mapped {W A} (R : W -> W -> Prop) (m : M W A) : within R m -> within R (mapped m).
Proof. intros Hm w. specialize (Hm w). unfold mapped. by destruct (m w) as [[] ?]. Qed.
#[export] Hint Resolve within_mapped : within.

Lemma within_forget {W A} (R : W -> W -> Prop) `{!PreOrder R} (m : M W A) : within R m -> within R (forget m).
Proof. intros Hm. unfold forget. solve_within. Qed.
#[export] Hint Resolve within_forget : within.

(** Take apart the successful run of a sequence of statements. *)
Ltac run_inv H :=
  go_inv H;
  repeat match goal with
  | E : mapped _ _ = (Ok _, _) |- _ => apply mapped_Ok_inv in E
  | E : pg_exec _ _ = (Ok _, _) |- _ =>
      let env := fresh "env" in let Henv := fresh "Henv" in
      apply exec_Ok_inv in E as (env & Henv & E)
  | E : of_res _ _ = (Ok _, _) |- _ => injection E as ? ?; subst
  | E : gets _ _ = (Ok _, _) |- _ => injection E as ? ?; subst
  | E : one_row _ _ = Ok _ |- _ => apply one_row_inv in E as [? ?]
  end.

(** *** Moving along the statements' changes *)
Section Along.
Context {W : Type} `{PgLaws W IamDB} `{UuidScan}.
Context (R : IamDB -> IamDB -> Prop) `{!PreOrder R} (allowed : change_kind -> Prop).
Hypothesis allowed_plain : allowed plain.
Hypothesis changes_along : forall k d d', allowed k -> iam_change k d d' -> R d d'.

Definition along (w w' : W) : Prop := R (pg_tables w) (pg_tables w').

#[local] Instance along_preorder : PreOrder along.
Proof.
  split; unfold along; [by intros x|]. intros x y z Hx Hy. by etransitivity.
Qed.

Lemma exec_along {A} k (s : stmt IamDB A) : allowed k -> changes k s -> within along (pg_exec s).
Proof. intros Hk Hs. apply (exec_within R). intros env d a d' ? E. by eapply changes_along, Hs. Qed.

Lemma exec_plain_along {A} (s : stmt IamDB A) : changes plain s -> within along (pg_exec s).
Proof. by apply exec_along. Qed.

Lemma RunInTx_along {A} b (fn : M W A) : tx_body fn -> within along fn -> within along (RunInTx b (Some fn)).
Proof. apply (RunInTx_within R). Qed.

Lemma withTransaction_along {A} b (fn : M W A) :
  tx_body fn -> within along fn -> within along (withTransaction b fn).
Proof.
  intros Hb Hf. unfold withTransaction. destruct b; simpl; [|apply within_throw, _].
  by apply RunInTx_along.
Qed.

(** The kind an operation needs besides the plain statements. *)
Definition op_kind (op : store_op) : change_kind :=
  match op with
  | op_UpdateUser _ _ => edits_profile
  | op_SetUserActive _ false => deactivates
  | op_UpdateRole _ _ | op_DeleteRole _ => edits_role
  | op_ReplaceUserRoles _ _ => unassigns
  | op_SaveSecurity _ _ _ => sets_mode
  | op_ReplaceRolePermissions _ _ | op_GrantPermission _ _ => edits_grants
  | _ => plain
  end.

#[local] Hint Resolve exec_plain_along : within.
#[local] Hint Extern 5 (within along (pg_exec _)) =>
  eapply exec_along; [eassumption|solve [auto with iam_kind]] : within.
#[local] Hint Extern 2 (changes _ _) => solve [auto with iam_kind] : within.
#[local] Hint Extern 1 (within along (withTransaction _ _)) =>
  apply withTransaction_along; unfold tx_body; solve_within : within.
#[local] Hint Extern 1 (within along (RunInTx _ _)) =>
  apply RunInTx_along; unfold tx_body; solve_within : within.

Lemma op_along b now sha256 op : allowed (op_kind op) -> within along (run_op b now sha256 op).
Proof.
  intros Hop. destruct op; simpl in Hop |- *; unfold forget.
  all: unfold store_Create, store_UpdateUser, store_UpdateUserPassword, store_SetUserActive,
    store_SetActive, setActive, store_CreateRole, store_UpdateRole, store_DeleteRole,
    store_ReplaceUserRoles, store_ReplaceRolePermissions, store_AssignRole, store_GrantPermission,
    store_PutPreferences, store_PutAuthentication, store_Initialize, store_Security,
    store_SaveSecurity, store_Register, store_ConsumeCredential, store_VerifyEmail,
    spend_receipt, withLockedSecurity.
  all: try destruct active; solve_within.
Qed.
End Along.

(** The result of a query that reads, and the unchanged tables. *)
Ltac read_inv E :=
  let Hrow := fresh "Hrow" in let Ht := fresh "Ht" in
  first [ apply one_row_inv in E as [Hrow Ht] | injection E as Hrow Ht; symmetry in Hrow, Ht ];
  try rewrite Ht in *.

(** *** Moving along a relation from the tables an operation starts with *)
Section Moves.
Context {W : Type} `{PgLaws W IamDB}.
Context (R : IamDB -> IamDB -> Prop) `{!Reflexive R}.

Definition moves {A} (m : M W A) : Prop := forall w, R (pg_tables w) (pg_tables (m w).2).

(** Parsing the arguments runs no statement. *)
Lemma parse_moves {A B} (r : res A) (k : A -> M W B) :
  (forall a, r = Ok a -> moves (k a)) -> moves (of_res r ≫= k).
Proof. intros Hk w. rewrite M_bind_run. destruct r; simpl; [by apply Hk|done..]. Qed.

Lemma parse_all_world {A B} (f : A -> res B) l (w : W) : (map_each l (fun v => of_res (f v)) w).2 = w.
Proof.
  induction l as [|v l IH]; simpl; [done|]. rewrite M_bind_run. destruct (f v); simpl; [|done|done].
  rewrite M_bind_run. by destruct (map_each l _ w) as [[] w1].
Qed.

Lemma parse_all_moves {A B C} (f : A -> res B) l (k : list B -> M W C) :
  (forall bs, moves (k bs)) -> moves (map_each l (fun v => of_res (f v)) ≫= k).
Proof.
  intros Hk w. rewrite M_bind_run. pose proof (parse_all_world f l w) as Hl.
  destruct (map_each l _ w) as [r w1]. simpl in Hl. subst w1. destruct r; [by apply Hk|done..].
Qed.

(** A query followed by what uses its row. *)
Lemma read_moves {A B} (s : stmt IamDB A) (known : A -> IamDB -> Prop) (k : A -> M W B) :
  (forall env d a d', s env d = Ok (a, d') -> known a d /\ d' = d) ->
  (forall a w, known a (pg_tables w) -> R (pg_tables w) (pg_tables (k a w).2)) ->
  moves (mapped (pg_exec s) ≫= k).
Proof.
  intros Hs Hk w. rewrite M_bind_run. unfold mapped.
  destruct (pg_exec s w) as [[a|e|] w1] eqn:E; [| |by apply exec_no_panic in E]; simpl.
  - apply exec_Ok_inv in E as (env & _ & [Hknown Ht]%Hs). rewrite <- Ht. apply Hk. by rewrite Ht.
  - by apply exec_point in E as [->|(env & a & _ & [_ ->]%Hs)].
Qed.

(** A last statement, whose result is only mapped. *)
Lemma write_moves {A B} (s : stmt IamDB A) (k : A -> M W B) w :
  (forall a w, (k a w).2 = w) ->
  (forall env a d', s env (pg_tables w) = Ok (a, d') -> R (pg_tables w) d') ->
  R (pg_tables w) (pg_tables ((mapped (pg_exec s) ≫= k) w).2).
Proof.
  intros Hk Hs. rewrite bind_pure_world, mapped_world by done.
  destruct (pg_exec s w) as [r w1] eqn:E. apply exec_point in E. simpl.
  destruct E as [->|(env & a & _ & E)]; [done|eauto].
Qed.

Lemma tx_moves {A} b (fn : M W A) :
  tx_body fn ->
  (forall w a w', fn w = (Ok a, w') -> R (pg_tables w) (pg_tables w')) -> moves (withTransaction b fn).
Proof.
  intros Hb Hfn. unfold withTransaction. destruct b; simpl; [|by intros w].
  by apply (RunInTx_ok_within R).
Qed.

(** The roles are looked up one after the other. *)
Lemma lookup_all {A} (q : string -> stmt IamDB A) (table : IamDB -> gmap string A) rs (w w' : W) x :
  (forall r env d a d', q r env d = Ok (a, d') -> table d !! r = Some a /\ d' = d) ->
  for_each rs (fun r => _ ← mapped (pg_exec (q r)); mret tt) w = (Ok x, w') ->
  pg_tables w' = pg_tables w /\ forall r, r ∈ rs -> is_Some (table (pg_tables w) !! r).
Proof.
  intros Hq. revert w. induction rs as [|r rs IH]; intros w; simpl.
  - intros [= <- <-]. split; [done|]. by intros r Hr%elem_of_nil.
  - intros E. run_inv E. run_inv E0.
    apply Hq in E1 as [Hr Ht]. destruct (IH _ E) as [Ht' Hall]. rewrite Ht in *. split; [done|].
    intros s [->|Hs]%elem_of_cons; [eauto|by apply Hall].
Qed.

End Moves.

(** ** The last administrator *)
Definition admin_ok (d : IamDB) : Prop := wf d /\ has_admin d.
Definition admin_along (d d' : IamDB) : Prop := admin_ok d -> admin_ok d'.

#[local] Instance admin_along_preorder : PreOrder admin_along.
Proof. split; unfold admin_along; repeat intro; eauto. Qed.

Lemma admin_spared k d d' : spares_admins k -> iam_change k d d' -> admin_along d d'.
Proof. intros Hk Hc [Hwf Ha]. split; [by eapply wf_change|by eapply change_has_admin]. Qed.

(** The pairs [LockActiveSystemAdministratorIDs] reads. *)
Definition admin_pairs (d : IamDB) : list (string * string) := where_ (active_admin d) (elements (user_roles d)).

Lemma elem_of_admin_pairs d ur : ur ∈ admin_pairs d <-> ur ∈ user_roles d /\ active_admin d ur = true.
Proof. unfold admin_pairs. by rewrite elem_of_where, elem_of_elements. Qed.

Lemma uuidIn_spec l x : uuidIn l x = true <-> x ∈ l.
Proof.
  unfold uuidIn. rewrite existsb_exists, list_elem_of_In.
  split; [intros (y & Hy & ->%String.eqb_eq); done|intros Hx; exists x; by rewrite String.eqb_refl].
Qed.

Lemma admin_role_unique d u v r s :
  wf d -> active_admin d (u, r) = true -> active_admin d (v, s) = true -> r = s.
Proof.
  intros Hwf (x & y & _ & Hy & _ & Hsy)%active_admin_inv (x' & y' & _ & Hy' & _ & Hsy')%active_admin_inv.
  unfold is_system_admin in *. apply andb_prop in Hsy as [Hn%String.eqb_eq _], Hsy' as [Hn'%String.eqb_eq _].
  by apply (wf_role_name d Hwf r s y y'); rewrite ?Hn, ?Hn'.
Qed.

(** Unless [u] is the only one, there is another active administrator. *)
Lemma another_admin d u :
  wf d -> has_admin d ->
  uuidIn (map fst (admin_pairs d)) u && (length (map fst (admin_pairs d)) =? 1)%nat = false ->
  exists v r, v <> u /\ (v, r) ∈ user_roles d /\ active_admin d (v, r) = true.
Proof.
  intros Hwf (ur & Hur & Ha) Hg.
  assert (NoDup (admin_pairs d)) as Hnd.
  { unfold admin_pairs, where_. apply NoDup_ListNoDup, List.NoDup_filter, NoDup_ListNoDup, NoDup_elements. }
  assert (ur ∈ admin_pairs d) as Hin by by apply elem_of_admin_pairs.
  destruct (decide (ur.1 = u)) as [Heq|Hne]; [|exists ur.1, ur.2; by destruct ur].
  assert (exists vs, vs ∈ admin_pairs d /\ vs <> ur) as (vs & Hvs & Hne).
  { rewrite length_map in Hg.
    replace (uuidIn _ u) with true in Hg.
    2:{ symmetry. apply uuidIn_spec, list_elem_of_fmap. by exists ur. }
    destruct (admin_pairs d) as [|a [|b l]]; [by apply elem_of_nil in Hin|done|].
    destruct (decide (a = ur)) as [->|]; [|exists a; split; [left|done]].
    exists b. split; [right; left|]. intros ->. apply NoDup_cons in Hnd as [Hnd _]. apply Hnd. left. }
  apply elem_of_admin_pairs in Hvs as [Hvs Hav]. destruct ur as [u1 r], vs as [v s]. simpl in Heq. subst u1.
  exists v, s. split_and!; [|done|done]. intros ->. apply Hne. f_equal.
  by eapply admin_role_unique.
Qed.

(** What an administrator needs to survive a change. *)
Lemma admin_survives d v r d' :
  (v, r) ∈ user_roles d' -> active_admin d (v, r) = true -> users d' !! v = users d !! v ->
  (forall y, roles d !! r = Some y -> is_system_admin y = true ->
     exists y', roles d' !! r = Some y' /\ is_system_admin y' = true) ->
  has_admin d'.
Proof.
  intros Hin (x0 & y & Hx & Hy & Hax & Hsy)%active_admin_inv Hu Hr.
  destruct (Hr _ Hy Hsy) as (y' & Hy' & Hsy'). exists (v, r). split; [done|].
  apply active_admin_inv. exists x0, y'. split_and!; [congruence|done|done|done].
Qed.

Section Admin.
Context {W : Type} `{PgLaws W IamDB} `{UuidScan}.

Lemma ops_wf b now sha256 op (w : W) : wf (pg_tables w) -> wf (pg_tables (run_op b now sha256 op w).2).
Proof.
  refine (op_along (fun d d' => wf d -> wf d') (fun _ => True) I _ b now sha256 op I w).
  intros k d d' _. apply wf_change.
Qed.

Abbreviation keeps_has_admin := (moves (W := W) (fun d d' => admin_ok d -> has_admin d')).

#[local] Instance has_admin_reflexive : Reflexive (fun d d' : IamDB => admin_ok d -> has_admin d').
Proof. by intros d []. Qed.

Lemma plain_op_admin b now sha256 op :
  spares_admins (op_kind op) -> keeps_has_admin (run_op b now sha256 op).
Proof.
  intros Hop w Hw. refine (proj2 (op_along admin_along spares_admins _ admin_spared b now sha256 op Hop w Hw)).
  by split_and!.
Qed.

Lemma SetUserActive_admin b id active : keeps_has_admin (store_SetUserActive b id active).
Proof.
  destruct active.
  { apply (plain_op_admin b (fun _ => 0) (fun s => s) (op_SetUserActive id true)). by split_and!. }
  apply parse_moves; [apply _|]. intros u _. apply tx_moves; [apply _|unfold tx_body, setActive; solve_within|].
  intros w a w' E [Hwf Ha]. unfold setActive in E. run_inv E.
  read_inv E0. read_inv E1. read_inv E2. subst a2.
  destruct (another_admin _ u Hwf Ha Hb) as (v & r & Hne & Hin & Hadm).
  apply SetUserActive_effect in E3 as [(_ & _ & ->)|(x & _ & _ & -> & _)]; [by exists (v, r)|].
  apply (admin_survives (pg_tables w) v r); [done|done| |eauto]. simpl. by rewrite lookup_insert_ne.
Qed.

(** What is assigned one after the other. *)
Lemma assign_all u rs (w w' : W) x :
  for_each rs (fun r => mapped (pg_exec (AssignUserRole u r))) w = (Ok x, w') ->
  users (pg_tables w') = users (pg_tables w) /\ roles (pg_tables w') = roles (pg_tables w) /\
  user_roles (pg_tables w') = user_roles (pg_tables w) ∪ list_to_set (map (pair u) rs).
Proof.
  revert w. induction rs as [|r rs IH]; intros w; simpl.
  - intros [= <- <-]. split_and!; [done|done|]. by rewrite union_empty_r_L.
  - intros E. run_inv E. destruct a. apply AssignUserRole_effect in E0 as [Hd Hin].
    destruct (IH _ E) as (Hu & Hr & Hur). rewrite Hu, Hr, Hur.
    assert (users (pg_tables w0) = users (pg_tables w) /\ roles (pg_tables w0) = roles (pg_tables w) /\
            user_roles (pg_tables w0) = {[ (u, r) ]} ∪ user_roles (pg_tables w)) as (Hu1 & Hr1 & ->).
    { destruct Hd as [Hd|(_ & _ & Hd)]; rewrite Hd in *; split_and!; try done.
      symmetry. apply subseteq_union_1_L. by apply singleton_subseteq_l. }
    rewrite Hu1, Hr1. split_and!; [done|done|]. simpl.
    by rewrite !(assoc_L (∪)), (comm_L (∪) _ {[ (u, r) ]}).
Qed.

Lemma ReplaceUserRoles_admin b id roleIDs : keeps_has_admin (store_ReplaceUserRoles b id roleIDs).
Proof.
  apply parse_moves; [apply _|]. intros u _. apply parse_all_moves; [apply _|]. intros rs.
  apply tx_moves; [apply _|unfold tx_body; solve_within|].
  intros w a w' E [Hwf Ha]. run_inv E. read_inv E0. read_inv E1. read_inv E2. subst a2.
  apply (lookup_all _ roles) in E3 as [Ht2 Hall]; [|by intros ????? [? ?]%one_row_inv].
  rewrite Ht2 in *. read_inv E4. apply assign_all in E as (Hu & Hr & Hur).
  rewrite Ht3, Ht1 in *. simpl in Hu, Hr, Hur.
  destruct (uuidIn (map fst (admin_pairs (pg_tables w))) u &&
            (length (map fst (admin_pairs (pg_tables w))) =? 1)%nat) eqn:Honly.
  - unfold admin_pairs in Honly. rewrite Honly in Hb. simpl in Hb. apply negb_false_iff, uuidIn_spec in Hb.
    apply andb_prop in Honly as [Hself%uuidIn_spec _].
    apply list_elem_of_fmap in Hself as ([v r] & -> & [_ Hadm]%elem_of_admin_pairs).
    apply active_admin_inv in Hadm as (x & y & Hx & Hy & Hax & Hsy).
    apply first_Some in Hrow0 as [(k & Hk)%elem_of_rows Hsa].
    exists (v, r_ID a1). rewrite Hur. split.
    + apply elem_of_union_r, elem_of_list_to_set, list_elem_of_fmap. by exists (r_ID a1).
    + apply active_admin_inv. exists x, a1. rewrite Hu, Hr. split_and!; try done.
      by rewrite (wf_role_id _ Hwf _ _ Hk).
  - destruct (another_admin _ u Hwf Ha Honly) as (v & r & Hne & Hin & Hadm).
    apply (admin_survives (pg_tables w) v r); [|done|by rewrite Hu|rewrite Hr; eauto].
    rewrite Hur. apply elem_of_union_l, elem_of_filter. by split.
Qed.

Lemma UpdateRole_admin id input : keeps_has_admin (store_UpdateRole id input).
Proof.
  apply parse_moves; [apply _|]. intros u _.
  apply (read_moves _ _ (fun r d => roles d !! u = Some r)).
  { by intros ???? [? ?]%one_row_inv. }
  intros r w Hr. destruct (r_IsSystem r && _) eqn:Hb; [by intros []|].
  apply (write_moves (fun d d' => admin_ok d -> has_admin d')); [done|].
  intros env r' d' (r0 & Hr0 & -> & _ & ->)%UpdateRole_effect [Hwf Ha].
  simplify_eq. destruct Ha as ([v s] & Hin & Hadm).
  apply (admin_survives (pg_tables w) v s); [exact Hin|exact Hadm|done|]. intros y Hy Hsy. simpl.
  destruct (decide (u = s)) as [<-|Hne]; [|rewrite lookup_insert_ne by done; eauto].
  simplify_eq. rewrite lookup_insert_eq. eexists; split; [done|]. unfold is_system_admin in *. simpl.
  apply andb_prop in Hsy as [Hn Hs]. rewrite Hs in Hb |- *. simpl in Hb.
  apply negb_false_iff, String.eqb_eq in Hb. by rewrite <- Hb, Hn.
Qed.

Lemma DeleteRole_admin id : keeps_has_admin (store_DeleteRole id).
Proof.
  apply parse_moves; [apply _|]. intros u _.
  apply (read_moves _ _ (fun r d => roles d !! u = Some r)).
  { by intros ???? [? ?]%one_row_inv. }
  intros r w Hr. destruct (r_IsSystem r) eqn:Hb; [by intros []|].
  apply (write_moves (fun d d' => admin_ok d -> has_admin d')); [by intros n w1; case_match|].
  intros env n d' [(_ & _ & ->)|(r0 & _ & Hr0 & ->)]%DeleteRole_effect [Hwf Ha]; [done|].
  destruct Ha as ([v s] & Hin & Hadm). simplify_eq.
  assert (s <> u) as Hne.
  { intros ->. apply active_admin_inv in Hadm as (x & y & _ & Hy & _ & Hsy). simplify_eq.
    unfold is_system_admin in Hsy. rewrite Hb in Hsy. by destruct (String.eqb _ _). }
  apply (admin_survives (pg_tables w) v s); [|done|done|].
  - simpl. by apply elem_of_filter.
  - intros y Hy Hsy. simpl. exists y. by rewrite lookup_delete_ne.
Qed.

Lemma forget_world {A} (m : M W A) w : (forget m w).2 = (m w).2.
Proof. unfold forget. rewrite M_bind_run. by destruct (m w) as [[] ?]. Qed.

Lemma op_admin b now sha256 op (w : W) :
  admin_ok (pg_tables w) -> admin_ok (pg_tables (run_op b now sha256 op w).2).
Proof.
  intros Hw. split; [by apply ops_wf, Hw|].
  destruct op; try (apply plain_op_admin; [by split_and!|exact Hw]); simpl.
  - by apply SetUserActive_admin.
  - rewrite forget_world. by apply UpdateRole_admin.
  - by apply DeleteRole_admin.
  - by apply ReplaceUserRoles_admin.
Qed.
End Admin.

(** ** The verified mailbox *)
Definition email_ok (d : IamDB) : Prop := wf d /\ email_verified d.
Definition email_along (d d' : IamDB) : Prop := email_ok d -> email_ok d'.

#[local] Instance email_along_preorder : PreOrder email_along.
Proof. split; unfold email_along; repeat intro; eauto. Qed.

Definition spares_emails (k : change_kind) : Prop := k <> edits_profile /\ k <> sets_mode.

Lemma email_spared k d d' : spares_emails k -> iam_change k d d' -> email_along d d'.
Proof.
  intros [Hk1 Hk2] Hc [Hwf Ha]. split; [by eapply wf_change|by eapply change_email_verified].
Qed.

Section Email.
Context {W : Type} `{PgLaws W IamDB} `{UuidScan}.

(** The only way a profile update breaks the invariant is refused. *)
Lemma UpdateUserProfile_email id email username name env d u' d' s current :
  UpdateUserProfile id email username name env d = Ok (u', d') ->
  security d !! id = Some s -> users d !! id = Some current ->
  negb (String.eqb (u_Email current) email) && String.eqb (s_Mode s) "email" = false ->
  env_ok env -> email_ok d -> email_ok d'.
Proof.
  intros E Hs Hu Hb Henv [Hwf He]. split.
  { eapply (wf_change edits_profile), Hwf. by eapply UpdateUserProfile_changes. }
  apply UpdateUserProfile_effect in E as (u & _ & Hu' & -> & _). simplify_eq.
  intros j t v Ht Hm Hv. simpl in Ht, Hv.
  apply lookup_insert_Some in Hv as [[<- <-]|[_ Hv]]; [|by eapply He].
  simplify_eq. rewrite Hm in Hb. simpl in *. rewrite andb_true_r in Hb.
  apply negb_false_iff in Hb. rewrite Hb. by eapply He.
Qed.

Lemma SaveSecurity_email p env d n d' u :
  SaveSecuritySettings p env d = Ok (n, d') -> users d !! ss_UserID p = Some u ->
  ss_Mode p = "email" -> u_EmailVerifiedAt u <> None -> env_ok env ->
  email_ok d -> email_ok d'.
Proof.
  intros E Hu Hm Hv Henv [Hwf He]. split.
  { eapply (wf_change sets_mode), Hwf. by eapply SaveSecuritySettings_changes. }
  apply SaveSecuritySettings_effect in E as [(_ & -> & _)|(s & _ & Hs & _ & _ & ->)]; [done|].
  intros j t v Ht Hmt Hj. simpl in Ht, Hj.
  apply lookup_insert_Some in Ht as [[<- <-]|[_ Ht]]; [|by eapply He]. congruence.
Qed.

Lemma SaveSecurity_not_email p :
  ss_Mode p <> "email" -> forall env d n d', env_ok env ->
  SaveSecuritySettings p env d = Ok (n, d') -> email_along d d'.
Proof.
  intros Hm env d n d' Henv E [Hwf He]. split.
  { eapply (wf_change sets_mode), Hwf. by eapply SaveSecuritySettings_changes. }
  apply SaveSecuritySettings_effect in E as [(_ & -> & _)|(s & _ & Hs & _ & _ & ->)]; [done|].
  intros j t v Ht Hmt Hj. simpl in Ht, Hj.
  apply lookup_insert_Some in Ht as [[<- <-]|[_ Ht]]; [done|by eapply He].
Qed.

Lemma tx_email {A} b (fn : M W A) w :
  tx_body fn ->
  (forall w a w', fn w = (Ok a, w') -> email_ok (pg_tables w) -> email_ok (pg_tables w')) ->
  email_ok (pg_tables w) -> email_ok (pg_tables (RunInTx b (Some fn) w).2).
Proof. intros Hb Hfn. by apply (RunInTx_ok_within email_along). Qed.

Lemma op_email b now sha256 op (w : W) :
  email_ok (pg_tables w) -> email_ok (pg_tables (run_op b now sha256 op w).2).
Proof.
  intros Hw. destruct op; try (refine (op_along email_along spares_emails _ email_spared _ _ _ _ _ w Hw);
    [by split|try destruct active; by split]); simpl.
  - rewrite forget_world. unfold store_UpdateUser. rewrite M_bind_run.
    destruct (parseUUID id) as [u|e|]; [|done|done]. simpl.
    rewrite bind_pure_world, mapped_world by done.
    unfold withLockedSecurity, withTransaction. destruct b; simpl; [|done].
    apply tx_email; [unfold tx_body; solve_within| |done].
    intros w1 a w2 E Hw1. run_inv E. read_inv E1. read_inv E2.
    assert (email_ok (pg_tables w0)) as Hw0
      by (refine (email_spared plain _ _ _ _ Hw1); [by split|by eapply EnsureSecuritySettings_changes]).
    eapply UpdateUserProfile_email; [exact E|..]; rewrite ?Ht; eauto.
  - unfold store_SaveSecurity. rewrite M_bind_run.
    destruct (parseUUID id) as [u|e|]; [|done|done]. simpl.
    destruct (String.eqb_spec (Mode (sec_Settings v)) "email") as [Hm|Hm].
    + apply tx_email; [unfold tx_body; solve_within| |done].
      intros w1 a w2 E Hw1. run_inv E. read_inv E0. read_inv E1. bool_prop.
      eapply SaveSecurity_email; [exact E2|exact Hrow0|exact Hm|done|done|done].
    + rewrite bind_pure_world by (intros; by case_match).
      refine (exec_within email_along _ _ w Hw).
      intros env d n d' Henv. by apply SaveSecurity_not_email.
Qed.
End Email.

(** ** Stale versions

    A version of a user's security row is stale when the row has moved past
    it: it never becomes current again, and nothing that presents it is
    accepted. *)
Definition stale (u : string) (version : Z) (d : IamDB) : Prop :=
  exists s, security d !! u = Some s /\ version < s_Version s.

Section Stale.
Context {W : Type} `{PgLaws W IamDB} `{UuidScan}.
Context (b : bool) (now : W -> Z) (sha256 : string -> string).

Lemma stale_grows u v d d' : versions_grow d d' -> stale u v d -> stale u v d'.
Proof. intros Hg (s & Hs & Hv). destruct (Hg _ _ Hs) as (t & Ht & ?). exists t. split; [done|lia]. Qed.

Lemma op_versions_grow op (w : W) :
  versions_grow (pg_tables w) (pg_tables (run_op b now sha256 op w).2).
Proof.
  refine (op_along versions_grow (fun _ => True) I _ b now sha256 op I w).
  intros k d d' _. apply change_versions_grow.
Qed.

Lemma ops_versions_grow ops (w : W) :
  versions_grow (pg_tables w) (pg_tables (run_ops b now sha256 ops w)).
Proof.
  revert w. induction ops as [|op ops IH]; intros w; simpl; [reflexivity|].
  etransitivity; [apply op_versions_grow|apply IH].
Qed.

(** The statements on the consumptions leave the security rows. *)
Definition same_security : W -> W -> Prop := same (fun w => security (pg_tables w)).

Lemma exec_same_security {A} (s : stmt IamDB A) :
  (forall env d a d', s env d = Ok (a, d') -> security d' = security d) -> within same_security (pg_exec s).
Proof.
  intros Hs. apply (exec_within (fun d d' => security d' = security d)). intros env d a d' _. apply Hs.
Qed.

Lemma Prune_same_security : within same_security (pg_exec PruneAuthenticationConsumptions).
Proof. apply exec_same_security. by intros env d a d' [= _ <-]. Qed.

Lemma Insert_same_security c t : within same_security (pg_exec (InsertAuthenticationConsumption c t)).
Proof. apply exec_same_security. by intros env d a d' [_ ->]%InsertConsumption_effect. Qed.
#[local] Hint Resolve Prune_same_security Insert_same_security : within.

(** What the transaction of [ConsumeCredential] checked when it succeeded. *)
Definition spent (step : Z) (recovery : string) (s s' : SecurityRow) : Prop :=
  default "" (s_TotpSecret s) <> "" /\ s_Version s' = s_Version s + 1 /\
  s_Mode s' = s_Mode s /\ s_TotpSecret s' = s_TotpSecret s /\
  if is_empty recovery
  then s_LastTotpStep s < step /\ s_LastTotpStep s' = step /\ s_RecoveryHashes s' = s_RecoveryHashes s
  else recovery ∈ s_RecoveryHashes s /\ s_LastTotpStep s' = s_LastTotpStep s /\
       s_RecoveryHashes s' = List.filter (fun h => negb (String.eqb h recovery)) (s_RecoveryHashes s).

Lemma ConsumeCredential_Ok_inv id credential version step recovery (w w' : W) x :
  store_ConsumeCredential b now sha256 id credential version step recovery w = (Ok x, w') ->
  exists u s s', parseUUID id = Ok u /\
    security (pg_tables w) !! u = Some s /\ s_Version s = version /\
    security (pg_tables w') !! u = Some s' /\ spent step recovery s s'.
Proof.
  unfold store_ConsumeCredential. intros E.
  destruct (parseUUID id) as [u|e|]; [|discriminate|discriminate]. simpl in E.
  apply RunInTx_Ok_inv in E as (w1 & w2 & <- & E & ->); [|unfold tx_body; solve_within].
  run_inv E; read_inv E0; apply orb_false_elim in Hb as [Hv Hs]; bool_prop.
  all: match goal with
    | E1 : (if is_empty ?c then _ else _) ?wa = (Ok _, ?wb) |- _ =>
        assert (same_security wa wb) as Hsame by (refine (within_run _ _ _ _ _ _ E1); solve_within);
        unfold same_security, same in Hsame; rewrite Ht in Hsame
    end.
  all: match goal with
    | E : SaveConsumedSecurityCredential _ _ _ _ _ = _ |- _ =>
        apply SaveConsumed_effect in E as [[Hn _]|(s & Hs' & Hd)]; [congruence|]
    end.
  all: eexists u, a, _; split_and!; [done|done|done|by rewrite Hd; apply lookup_insert_eq|].
  all: assert (s = a) as -> by congruence; unfold spent; simpl; match goal with
    | Hb : negb (is_empty _) = true |- _ => apply negb_true_iff in Hb
    | Hb : negb (is_empty _) = false |- _ => apply negb_false_iff in Hb
    | _ => idtac end.
  all: match goal with Hb : is_empty _ = _ |- _ => rewrite Hb end.
  all: split_and!; try done; try lia; try (intros He; by rewrite He in Hs).
  apply existsb_exists in Hb2 as (h & Hh%list_elem_of_In & ->%String.eqb_eq). done.
Qed.

(** Nothing that presents a stale version is accepted. *)
Lemma stale_credential id u credential version step recovery (w : W) :
  parseUUID id = Ok u -> stale u version (pg_tables w) ->
  is_ok (store_ConsumeCredential b now sha256 id credential version step recovery w).1 = false.
Proof.
  intros Hu (s & Hs & Hv).
  destruct (store_ConsumeCredential _ _ _ _ _ _ _ _ w) as [[x|e|] w'] eqn:E; [exfalso|done|done].
  apply ConsumeCredential_Ok_inv in E as (u' & t & t' & Hu' & Ht & <- & _).
  rewrite Hu in Hu'. injection Hu' as <-. rewrite Hs in Ht. injection Ht as <-. lia.
Qed.

(** The row a successful [SaveSecurity] wrote, at the version it named. *)
Lemma SaveSecurity_Ok_inv id v version (w w' : W) x :
  store_SaveSecurity b id v version w = (Ok x, w') ->
  exists u s s', parseUUID id = Ok u /\ security (pg_tables w) !! u = Some s /\ s_Version s = version /\
    security (pg_tables w') !! u = Some s' /\ s_Version s' = version + 1 /\
    s_Mode s' = Mode (sec_Settings v) /\ s_TotpSecret s' = Secret v /\ s_PendingSecret s' = PendingSecret v /\
    s_RecoveryHashes s' = RecoveryHashes v /\ s_LastTotpStep s' = LastTOTPStep v /\
    (Mode (sec_Settings v) = "email" -> exists x, users (pg_tables w) !! u = Some x /\ u_EmailVerifiedAt x <> None).
Proof.
  unfold store_SaveSecurity. intros E.
  destruct (parseUUID id) as [u|e|]; [|discriminate|discriminate].
  rewrite M_bind_run in E. cbn beta iota delta [of_res] in E.
  assert (forall p env n d d', SaveSecuritySettings p env d = Ok (n, d') -> n = 1 ->
    exists s s', security d !! ss_UserID p = Some s /\ s_Version s = ss_Version p /\
    security d' !! ss_UserID p = Some s' /\ s_Version s' = ss_Version p + 1 /\
    s_Mode s' = ss_Mode p /\ s_TotpSecret s' = ss_TotpSecret p /\ s_PendingSecret s' = ss_PendingSecret p /\
    s_RecoveryHashes s' = ss_RecoveryHashes p /\ s_LastTotpStep s' = ss_LastTotpStep p) as Hsave.
  { intros p env n d d' [(-> & _)|(s & _ & Hs & Hv & _ & ->)]%SaveSecuritySettings_effect Hn; [done|].
    eexists s, _. split_and!; [done|done|simpl; apply lookup_insert_eq|by simpl; rewrite Hv|done..]. }
  destruct (String.eqb_spec (Mode (sec_Settings v)) "email") as [Hm|Hm].
  - apply RunInTx_Ok_inv in E as (w1 & w2 & <- & E & ->); [|unfold tx_body; solve_within].
    run_inv E. read_inv E0. read_inv E1. bool_prop.
    destruct (Hsave _ _ _ _ _ E2 Hb0) as (s & s' & ? & ? & ? & ? & ? & ? & ? & ? & ?).
    exists u, s, s'. split_and!; eauto.
  - run_inv E. bool_prop. destruct (Hsave _ _ _ _ _ E0 Hb) as (s & s' & ? & ? & ? & ? & ? & ? & ? & ? & ?).
    exists u, s, s'. by split_and!.
Qed.

(** What [SaveSecurity] may do, whatever it returns. *)
Lemma SaveSecurity_point id v version (w : W) :
  let d := pg_tables w in let d' := pg_tables (store_SaveSecurity b id v version w).2 in
  d' = d \/ exists u s s', parseUUID id = Ok u /\ security d !! u = Some s /\ s_Version s = version /\
    s_Mode s' = Mode (sec_Settings v) /\ s_TotpSecret s' = Secret v /\ d' = with_security <[u := s']> d.
Proof.
  intros d d'. subst d d'. unfold store_SaveSecurity. rewrite M_bind_run.
  destruct (parseUUID id) as [u|e|]; [|by left..]. cbn beta iota delta [of_res].
  set (R := fun d d' : IamDB => d' = d \/ exists u0 s s', Ok u = Ok u0 /\ security d !! u0 = Some s /\
    s_Version s = version /\ s_Mode s' = Mode (sec_Settings v) /\ s_TotpSecret s' = Secret v /\
    d' = with_security <[u0 := s']> d).
  assert (Reflexive R) as HR by (intros d; by left).
  assert (forall env n d d', SaveSecuritySettings (securityParams u v version) env d = Ok (n, d') -> R d d') as Hsave.
  { intros env n d d' [(_ & -> & _)|(s & _ & Hs & Hv & _ & ->)]%SaveSecuritySettings_effect; [by left|].
    right. eexists u, s, _. split_and!; [done|exact Hs|exact Hv| | |reflexivity]; done. }
  match goal with |- ?d' = ?d \/ _ => change (R d d') end.
  destruct (String.eqb _ _).
  - apply (RunInTx_ok_within R); [unfold tx_body; solve_within|].
    intros w1 x w2 E. run_inv E. read_inv E0. read_inv E1. by eapply Hsave.
  - rewrite bind_pure_world by (intros; by case_match).
    apply (exec_within R). intros env d a d' _. apply Hsave.
Qed.

Lemma stale_save id u v version (w : W) :
  parseUUID id = Ok u -> stale u version (pg_tables w) ->
  is_ok (store_SaveSecurity b id v version w).1 = false.
Proof.
  intros Hu (s & Hs & Hv).
  destruct (store_SaveSecurity _ _ _ _ w) as [[x|e|] w'] eqn:E; [exfalso|done|done].
  apply SaveSecurity_Ok_inv in E as (u' & t & t' & Hu' & Ht & <- & _).
  rewrite Hu in Hu'. injection Hu' as <-. rewrite Hs in Ht. injection Ht as <-. lia.
Qed.
(** What a successful password update leaves. *)
Lemma UpdateUserPassword_Ok_inv id hash (w w' : W) x :
  store_UpdateUserPassword b id hash w = (Ok x, w') ->
  exists u y s', parseUUID id = Ok u /\
    users (pg_tables w') !! u = Some y /\ u_PasswordHash y = hash /\
    security (pg_tables w') !! u = Some s' /\ s_PendingSecret s' = None /\ s_PendingExpiresAt s' = None /\
    (forall s, security (pg_tables w) !! u = Some s ->
       s_Version s' = s_Version s + 1 /\ s_Mode s' = s_Mode s /\ s_TotpSecret s' = s_TotpSecret s /\
       s_RecoveryHashes s' = s_RecoveryHashes s).
Proof.
  unfold store_UpdateUserPassword, withLockedSecurity, withTransaction. intros E.
  destruct (parseUUID id) as [u|e|]; [|discriminate|discriminate].
  rewrite M_bind_run in E. cbn beta iota delta [of_res] in E.
  destruct b; simpl in E; [|discriminate].
  apply RunInTx_Ok_inv in E as (w1 & w2 & <- & E & ->); [|unfold tx_body; solve_within].
  run_inv E. read_inv E1. bool_prop.
  apply InvalidatePassword_effect in E2 as [[Hn _]|(s & Hs & Hd)]; [congruence|].
  apply UpdateUserPassword_effect in E3 as [(-> & _)|(y & _ & Hy & Hd' & _)]; [done|].
  eexists u, _, _. rewrite Hd', Hd. split_and!; [done|simpl; apply lookup_insert_eq|done
    |simpl; apply lookup_insert_eq|done|done|].
  intros s0 Hs0. simpl.
  apply EnsureSecuritySettings_effect in E0 as [[Ht0 _]|(Hnone & _)]; [|congruence].
  rewrite Ht0, Hs0 in Hs. by injection Hs as <-.
Qed.
End Stale.

(** ** System roles *)

(** A system role keeps its name, its mark and its permissions. *)
Definition system_same (d d' : IamDB) : Prop := forall id r,
  roles d !! id = Some r -> r_IsSystem r = true ->
  exists r', roles d' !! id = Some r' /\ r_IsSystem r' = true /\ r_Name r' = r_Name r /\
    forall p, (id, p) ∈ role_permissions d' <-> (id, p) ∈ role_permissions d.

#[global] Instance system_same_preorder : PreOrder system_same.
Proof.
  split; [intros d id r Hr Hs; by exists r|].
  intros d1 d2 d3 H12 H23 id r Hr Hs.
  destruct (H12 _ _ Hr Hs) as (r2 & Hr2 & Hs2 & Hn2 & Hp2).
  destruct (H23 _ _ Hr2 Hs2) as (r3 & Hr3 & Hs3 & Hn3 & Hp3).
  exists r3. split_and!; [done|done|congruence|]. intros p. by rewrite Hp3, Hp2.
Qed.

Definition spares_roles (k : change_kind) : Prop := k <> edits_role /\ k <> edits_grants.

Lemma system_spared k d d' : spares_roles k -> iam_change k d d' -> system_same d d'.
Proof.
  intros [Hk1 Hk2] Hc id r Hr Hs.
  destruct Hc as [| |s Hn Hf| | | | | | |d' _ Hrs _ _ Hg]; simpl; try done; try by exists r.
  - exists r. by rewrite lookup_insert_ne by (intros <-; congruence).
  - destruct Hg as [?|Hg]; [done|]. exists r. by rewrite Hrs, Hg.
Qed.

(** Grants of a role that is not a system role. *)
Lemma grants_system_same k d d' u r :
  iam_change k d d' -> k = edits_grants -> roles d !! u = Some r -> r_IsSystem r = false ->
  (forall id p, id <> u -> (id, p) ∈ role_permissions d' <-> (id, p) ∈ role_permissions d) ->
  roles d' = roles d -> system_same d d'.
Proof.
  intros _ _ Hu Hs Hp Hr id s Hid Hsys. exists s. rewrite Hr. split_and!; [done|done|done|].
  intros p. apply Hp. intros ->. congruence.
Qed.

Section System.
Context {W : Type} `{PgLaws W IamDB} `{UuidScan}.

Lemma GrantRolePermission_system u p env d x d' r :
  GrantRolePermission u p env d = Ok (x, d') -> roles d !! u = Some r -> r_IsSystem r = false ->
  system_same d d' /\ roles d' = roles d.
Proof.
  intros E Hu Hs. unfold GrantRolePermission in E. case_bool_decide; [by injection E as _ <-|].
  res_inv E. injection E as _ <-. split; [|done].
  eapply (grants_system_same edits_grants); [by apply ch_other; auto|done|exact Hu|done| |done].
  intros id q Hne. simpl. rewrite elem_of_union, elem_of_singleton. split; [|by right].
  by intros [[= -> ->]|?].
Qed.

Lemma grant_all_system u rs (w w' : W) x r :
  for_each rs (fun p => mapped (pg_exec (GrantRolePermission u p))) w = (Ok x, w') ->
  roles (pg_tables w) !! u = Some r -> r_IsSystem r = false -> system_same (pg_tables w) (pg_tables w').
Proof.
  intros E Hu Hs. revert w E Hu. induction rs as [|p rs IH]; intros w E Hu; simpl in E; run_inv E; [done|].
  destruct (GrantRolePermission_system _ _ _ _ _ _ _ E0 Hu Hs) as [Hsame Hr].
  etransitivity; [exact Hsame|]. apply (IH _ E). by rewrite Hr.
Qed.

Lemma op_system b now sha256 op : moves (W := W) system_same (run_op b now sha256 op).
Proof.
  destruct op; try (intros w; refine (op_along system_same spares_roles _ system_spared b now sha256 _ _ w);
    [by split|try destruct active; by split]); simpl.
  - intros w. rewrite forget_world. revert w. apply parse_moves; [apply _|]. intros u _.
    apply (read_moves _ _ (fun r d => roles d !! u = Some r)).
    { by intros ???? [? ?]%one_row_inv. }
    intros r w Hr. destruct (r_IsSystem r && _) eqn:Hb; [done|].
    apply write_moves; [apply _|done|]. intros env r' d' (r0 & Hr0 & -> & _ & ->)%UpdateRole_effect.
    simplify_eq. intros j s Hj Hs. simpl.
    destruct (decide (u = j)) as [<-|Hne]; [|exists s; by rewrite lookup_insert_ne].
    simplify_eq. rewrite lookup_insert_eq. eexists; split_and!; [done|done| |done]. simpl.
    rewrite Hs in Hb. simpl in Hb. by apply negb_false_iff, String.eqb_eq in Hb.
  - apply parse_moves; [apply _|]. intros u _.
    apply (read_moves _ _ (fun r d => roles d !! u = Some r)).
    { by intros ???? [? ?]%one_row_inv. }
    intros r w Hr. destruct (r_IsSystem r) eqn:Hb; [done|].
    apply write_moves; [apply _|by intros n w1; case_match|].
    intros env n d' [(_ & _ & ->)|(r0 & _ & Hr0 & ->)]%DeleteRole_effect; [done|].
    intros j s Hj Hs. simpl. assert (j <> u) as Hne by congruence.
    exists s. rewrite lookup_delete_ne by done. split_and!; [done|done|done|].
    intros p. rewrite elem_of_filter. by split; [intros [_ ?]|intros ?; split].
  - apply parse_moves; [apply _|]. intros u _. apply parse_all_moves; [apply _|]. intros ps.
    apply tx_moves; [apply _|unfold tx_body; solve_within|].
    intros w [] w' E. run_inv E. read_inv E0.
    apply (lookup_all _ permissions) in E1 as [Ht1 _]; [|by intros ????? [? ?]%one_row_inv].
    rewrite Ht1, Ht in *. injection E2 as _ Hd.
    assert (system_same (pg_tables w) (pg_tables w2)) as Hdel.
    { rewrite <- Hd. eapply (grants_system_same edits_grants); [by apply ch_other; auto|done|exact Hrow|done| |done].
      intros j p Hne. simpl. rewrite elem_of_filter. by split; [intros [_ ?]|intros ?; split]. }
    etransitivity; [exact Hdel|]. eapply grant_all_system; [exact E| |done]. by rewrite <- Hd.
  - apply parse_moves; [apply _|]. intros u _. apply parse_moves; [apply _|]. intros p _.
    apply (read_moves _ _ (fun r d => roles d !! u = Some r)).
    { by intros ???? [? ?]%one_row_inv. }
    intros r w Hr. destruct (r_IsSystem r) eqn:Hb; [done|]. rewrite mapped_world.
    destruct (pg_exec _ w) as [x w1] eqn:E. simpl.
    apply exec_point in E as [->|(env & a & _ & E)]; [done|].
    by eapply GrantRolePermission_system in E as [? _].
Qed.

Lemma ops_system b now sha256 ops (w : W) :
  system_same (pg_tables w) (pg_tables (run_ops b now sha256 ops w)).
Proof.
  revert w. induction ops as [|op ops IH]; intros w; simpl; [reflexivity|].
  etransitivity; [apply op_system|apply IH].
Qed.
End System.

(** ** Registration *)
Section Register.
Context {W : Type} `{PgLaws W IamDB} `{UuidScan}.
Context (b : bool) (now : W -> Z).

Definition policy_admits (a : AuthenticationRow) (email : string) (receipt : option CodeReceipt) : Prop :=
  a_InitializedAt a <> None /\ a_RegistrationEnabled a = true /\
  (a_RegistrationEmailVerificationRequired a = true -> receipt <> None) /\
  (a_AllowedEmailDomains a = [] \/
   exists d, d ∈ a_AllowedEmailDomains a /\ HasSuffix email ("@" +:+ d) = true).

(** The statements on the consumptions leave the other tables. *)
Definition same_users (d d' : IamDB) : Prop :=
  users d' = users d /\ roles d' = roles d /\ user_roles d' = user_roles d /\ security d' = security d.

Lemma same_users_wf d d' : same_users d d' -> wf d -> wf d'.
Proof. intros (?&?&?&?). apply (wf_change edits_grants), ch_other; auto. Qed.

#[local] Instance same_users_preorder : PreOrder same_users.
Proof.
  split; [by intros d|]. intros d1 d2 d3 (?&?&?&?) (?&?&?&?). split_and!; congruence.
Qed.

#[local] Instance same_users_along : PreOrder (along (W := W) same_users) := along_preorder same_users.

Lemma spend_same_users receipt : within (along (W := W) same_users) (spend_receipt receipt).
Proof.
  assert (forall c t, within (along (W := W) same_users) (pg_exec (InsertAuthenticationConsumption c t))).
  { intros c t. apply (exec_within same_users). by intros env d a d' _ [_ ->]%InsertConsumption_effect. }
  assert (within (along (W := W) same_users) (pg_exec PruneAuthenticationConsumptions)).
  { apply (exec_within same_users). by intros env d a d' _ [= _ <-]. }
  unfold spend_receipt. solve_within.
Qed.

(** A receipt is spent: recorded, and not recorded before. *)
Lemma spend_recorded receipt (w w' : W) x :
  spend_receipt receipt w = (Ok x, w') ->
  consumptions (pg_tables w') !! ("email:" +:+ rc_ID receipt) = Some (timestamptz (rc_ExpiresAt receipt)).
Proof.
  unfold spend_receipt. intros E. run_inv E.
  all: match goal with E : try _ _ = _ |- _ => apply try_inv in E as [[? _]|(y & [= <-] & Hp & E)] end;
    try done.
  apply exec_Ok_inv in E1 as (env1 & _ & [_ ->]%InsertConsumption_effect). simpl. apply lookup_insert_eq.
Qed.

(** The account a successful registration created. *)
Definition registered (input : CreateUserInput) (required : bool) (d d' : IamDB) (usr : User) : Prop :=
  exists u row role r, usr = userFromDB row /\
    users d !! u = None /\ users d' = <[u := row]> (users d) /\
    u_Email row = cui_Email input /\ u_Username row = cui_Username input /\
    u_PasswordHash row = cui_Password input /\ u_IsActive row = true /\
    (u_EmailVerifiedAt row <> None <-> required = true) /\
    roles d' = roles d /\ roles d !! role = Some r /\ r_Name r = "user" /\
    user_roles d' = {[ (u, role) ]} ∪ user_roles d.

Lemma registered_same input required d d1 d' usr :
  same_users d d1 -> registered input required d1 d' usr -> registered input required d d' usr.
Proof.
  intros (Hu & Hr & Hur & _) (u & row & role & r & H'). rewrite Hu, Hr, Hur in H'. by exists u, row, role, r.
Qed.

Lemma create_registered input required (w w' : W) usr :
  wf (pg_tables w) ->
  (user ← mapped (pg_exec (CreateUser (mkCreateUser (cui_Email input) (cui_Username input)
                                (cui_Password input) (cui_DisplayName input))));
   user ← (if required : bool then pg_exec (MarkEmailVerified (u_ID user)) else mret user);
   role ← pg_exec (GetRoleByName "user");
   _ ← pg_exec (AssignUserRole (u_ID user) (r_ID role));
   mret (userFromDB user)) w = (Ok usr, w') ->
  registered input required (pg_tables w) (pg_tables w') usr /\
  consumptions (pg_tables w') = consumptions (pg_tables w).
Proof.
  intros Hwf E. run_inv E. destruct a2.
  apply CreateUser_effect in E0 as (Ha & Hnone & _ & Hd0).
  assert (exists verified, (verified <> None <-> required = true) /\
    a0 = mkUserRow (u_ID a) (u_Email a) (u_Username a) (u_PasswordHash a) (u_DisplayName a)
           (u_IsActive a) (u_CreatedAt a) (u_UpdatedAt a) verified /\
    pg_tables w1 = with_users <[u_ID a := a0]> (pg_tables w)) as (verified & Hv & Ha0 & Hd1).
  { destruct required; [run_inv E1|change ((@Ok UserRow a, w0) = (Ok a0, w1)) in E1; injection E1 as <- <-].
    - apply MarkEmailVerified_effect in E1 as (y & -> & Hy & Hd & _). rewrite Hd0 in Hy, Hd.
      simpl in Hy. rewrite lookup_insert_eq in Hy. injection Hy as <-.
      eexists. split_and!; [|reflexivity|]; [done|]. rewrite Hd. unfold with_users. simpl.
      by rewrite insert_insert_eq.
    - exists None. rewrite Hd0. split_and!; [done|by rewrite Ha|done]. }
  apply one_row_inv in E2 as [[(k & Hk)%elem_of_rows Hname%String.eqb_eq]%first_Some Hd2].
  rewrite Hd1 in Hk. simpl in Hk. pose proof (wf_role_id _ Hwf _ _ Hk) as Hid.
  rewrite Hid in E3. rewrite Hd2, Hd1 in E3. apply AssignUserRole_effect in E3 as [Hd3 Hin].
  assert (users (pg_tables w') = <[u_ID a := a0]> (users (pg_tables w)) /\
          roles (pg_tables w') = roles (pg_tables w) /\
          user_roles (pg_tables w') = {[ (u_ID a0, k) ]} ∪ user_roles (pg_tables w) /\
          consumptions (pg_tables w') = consumptions (pg_tables w)) as (Hu & Hr & Hur & Hc).
  { destruct Hd3 as [Hd3|(_ & _ & Hd3)]; rewrite Hd3 in *; [|done]. split_and!; [done|done| |done].
    symmetry. apply subseteq_union_1_L. by apply singleton_subseteq_l. }
  split; [|exact Hc]. exists (u_ID a), a0, k, a1. rewrite Hu, Hr, Hur. subst a0 a. by split_and!.
Qed.

Lemma policy_checked (a : AuthenticationRow) email receipt :
  bool_decide (a_InitializedAt a = None) || negb (a_RegistrationEnabled a) = false ->
  a_RegistrationEmailVerificationRequired a && bool_decide (receipt = None) = false ->
  (0 <? length (a_AllowedEmailDomains a))%nat &&
    negb (existsb (fun d => HasSuffix email ("@" +:+ d)) (a_AllowedEmailDomains a)) = false ->
  policy_admits a email receipt.
Proof.
  intros Hi Hv Hd. bool_prop. split_and!; [done|done| |].
  - intros Hq. rewrite Hq in Hv. destruct Hv as [?|Hv]; [done|]. by bool_prop.
  - destruct Hd as [Hd|Hd].
    + left. apply Nat.ltb_ge in Hd. by destruct (a_AllowedEmailDomains a); [|simpl in Hd; lia].
    + right. apply negb_false_iff, existsb_exists in Hd as (x & Hx%list_elem_of_In & ?). eauto.
Qed.
End Register.

(** The last active administrator survives every history of operations
    of the stores, whatever they return and whatever faults the server
    injects: if a user is active and has the system role [admin], one still
    is at the end, and the constraints of the schema still hold. *)
Theorem administrator_never_lost {W} `{PgLaws W IamDB, UuidScan} (b : bool) (now : W -> Z)
    (sha256 : string -> string) (ops : list store_op) (w : W) :
  admin_ok (pg_tables w) -> admin_ok (pg_tables (run_ops b now sha256 ops w)).
Proof.
  revert w. induction ops as [|op ops IH]; intros w Hw; simpl; [done|]. apply IH. by apply op_admin.
Qed.

(** A user whose login asks for an emailed code always has a verified
    address, after every history of operations of the stores: profile edits
    and policy changes cannot be combined into a user who is locked out or
    whose code goes to an address nobody verified. *)
Theorem email_login_is_verified {W} `{PgLaws W IamDB, UuidScan} (b : bool) (now : W -> Z)
    (sha256 : string -> string) (ops : list store_op) (w : W) :
  email_ok (pg_tables w) -> email_ok (pg_tables (run_ops b now sha256 ops w)).
Proof.
  revert w. induction ops as [|op ops IH]; intros w Hw; simpl; [done|]. apply IH. by apply op_email.
Qed.

(** A second factor is spent at most once.  A successful
    [ConsumeCredential] checked the version it was given, that TOTP is set up,
    and either that the step is later than the last accepted one, which it
    becomes, or that the recovery code's hash is stored, which it no longer
    is; it advances the version.  After any further history of operations,
    every [ConsumeCredential] or [SaveSecurity] at the old version is
    refused: outstanding challenges and stale writes are dead. *)
Theorem credential_single_use {W} `{PgLaws W IamDB, UuidScan} (b : bool) (now : W -> Z)
    (sha256 : string -> string) id credential version step recovery (w w1 : W) :
  store_ConsumeCredential b now sha256 id credential version step recovery w = (Ok tt, w1) ->
  (exists u s s', parseUUID id = Ok u /\
     security (pg_tables w) !! u = Some s /\ s_Version s = version /\
     security (pg_tables w1) !! u = Some s' /\ spent step recovery s s') /\
  forall ops credential' step' recovery' v,
    let w2 := run_ops b now sha256 ops w1 in
    is_ok (store_ConsumeCredential b now sha256 id credential' version step' recovery' w2).1 = false /\
    is_ok (store_SaveSecurity b id v version w2).1 = false.
Proof.
  intros E. apply ConsumeCredential_Ok_inv in E as (u & s & s' & Hu & Hs & Hv & Hs' & Hsp).
  split; [by exists u, s, s'|]. intros ops credential' step' recovery' v w2.
  assert (stale u version (pg_tables w2)) as Hst.
  { eapply stale_grows; [apply ops_versions_grow|]. exists s'. destruct Hsp as (_ & Hsp & _).
    split; [done|lia]. }
  split; [by eapply stale_credential|by eapply stale_save].
Qed.

(** A password change takes everything the old password authorised with
    it.  A successful [UpdateUserPassword] stores the new hash, clears the
    pending enrolment and advances the version in one transaction, keeping
    the second factor itself; from then on, whatever operations follow,
    nothing issued at the old version is accepted. *)
Theorem password_change_revokes {W} `{PgLaws W IamDB, UuidScan} (b : bool) (now : W -> Z)
    (sha256 : string -> string) id hash (w w1 : W) :
  store_UpdateUserPassword b id hash w = (Ok tt, w1) ->
  exists u y s', parseUUID id = Ok u /\
    users (pg_tables w1) !! u = Some y /\ u_PasswordHash y = hash /\
    security (pg_tables w1) !! u = Some s' /\ s_PendingSecret s' = None /\
    forall s, security (pg_tables w) !! u = Some s ->
      s_Version s' = s_Version s + 1 /\ s_Mode s' = s_Mode s /\ s_TotpSecret s' = s_TotpSecret s /\
      forall ops credential step recovery v,
        let w2 := run_ops b now sha256 ops w1 in
        is_ok (store_ConsumeCredential b now sha256 id credential (s_Version s) step recovery w2).1 = false /\
        is_ok (store_SaveSecurity b id v (s_Version s) w2).1 = false.
Proof.
  intros E. apply UpdateUserPassword_Ok_inv in E as (u & y & s' & Hu & Hy & Hh & Hs' & Hp & _ & Hold).
  exists u, y, s'. split_and!; try done. intros s Hs. destruct (Hold s Hs) as (Hv & Hm & Ht & _).
  split_and!; [done|done|done|]. intros ops credential step recovery v w2.
  assert (stale u (s_Version s) (pg_tables w2)) as Hst.
  { eapply stale_grows; [apply ops_versions_grow|]. exists s'. split; [done|lia]. }
  split; [by eapply stale_credential|by eapply stale_save].
Qed.

(** C30: registration obeys the policy in force when it commits.  A
    successful [Register] found, in the same transaction, the settings
    initialised and registration enabled, the domain allowed when a list is
    set, and, when verification is required, an unexpired receipt, which is
    recorded as spent; the only account it adds is active, has the given
    address, name and hash, is verified exactly when verification is required,
    and is assigned the role [user] and nothing else. *)
Theorem Register_obeys_policy {W} `{PgLaws W IamDB, UuidScan} (b : bool) (now : W -> Z)
    input receipt (w w' : W) usr :
  wf (pg_tables w) ->
  store_Register b now input receipt w = (Ok usr, w') ->
  let a := authentication_settings (pg_tables w) in
  policy_admits a (cui_Email input) receipt /\
  (a_RegistrationEmailVerificationRequired a = true -> exists r, receipt = Some r /\
     (forall t, (forall w, t <= now w) -> t < rc_ExpiresAt r) /\
     consumptions (pg_tables w') !! ("email:" +:+ rc_ID r) = Some (timestamptz (rc_ExpiresAt r))) /\
  registered input (a_RegistrationEmailVerificationRequired a) (pg_tables w) (pg_tables w') usr.
Proof.
  intros Hwf E a. unfold store_Register in E.
  apply RunInTx_Ok_inv in E as (w1 & w2 & Ht & E & ->); [|unfold tx_body, spend_receipt; solve_within].
  rewrite <- Ht in Hwf |- *. subst a. rewrite <- Ht. clear w Ht.
  apply M_bind_Ok_inv in E as (a & w3 & E0 & E). apply exec_Ok_inv in E0 as (env & _ & E0).
  injection E0 as <- Ht. go_inv_step E; [discriminate|]. go_inv_step E; [discriminate|].
  go_inv_step E; [discriminate|]. split; [by apply policy_checked|].
  set (a := authentication_settings (pg_tables w1)) in *.
  apply M_bind_Ok_inv in E as ([] & w4 & Hspend & E).
  destruct (a_RegistrationEmailVerificationRequired a) eqn:Hreq; simpl in Hb0, Hspend, E.
  - destruct receipt as [r|]; [|done]. go_inv Hspend. injection E0 as <- <-. bool_prop.
    pose proof (spend_recorded _ _ _ _ Hspend) as Hrec.
    pose proof (within_run _ _ _ _ _ (spend_same_users r) Hspend) as Hsame.
    unfold along in Hsame. rewrite <- Ht in Hsame.
    apply (create_registered input true) in E as [Hreg Hc]; [|by eapply same_users_wf].
    split; [|by eapply registered_same]. intros _. exists r. rewrite Hc. split_and!; [done| |done].
    intros t Hmin. specialize (Hmin w3). unfold after in Hb2. apply Z.ltb_lt in Hb2. lia.
  - injection Hspend as <-. apply (create_registered input false) in E as [Hreg _]; [|by rewrite <- Ht].
    rewrite <- Ht in Hreg. by split.
Qed.

(** ** A database *)
Module Example.
(** The scanner on the canonical texts: hexadecimal digits with dashes. *)
#[global] Instance canonical_scan : UuidScan := fun v =>
  match hex_decode (remove_dashes (bytes v)) with
  | Some l => if (length l =? 16)%nat then Some (of_bytes l) else None
  | None => None
  end.

Definition admin_id : string := "administrator-01".
Definition member_id : string := "ordinary-user-02".
Definition admin_role : string := "the-admin-role-3".
Definition user_role : string := "the--user-role-4".

Definition user_row (id email name : string) (verified : option Z) : UserRow :=
  mkUserRow id email name "hash" "" true 0 0 verified.

Definition db : IamDB := mkIamDB
  (<[admin_id := user_row admin_id "root@example.com" "root" (Some 1)]>
    {[ member_id := user_row member_id "ann@example.com" "ann" None ]})
  (<[admin_role := mkRoleRow admin_role "admin" "" true]> {[ user_role := mkRoleRow user_role "user" "" true ]})
  {[ "permission-read5" := mkPermissionRow "permission-read5" "users:read" "" ]}
  {[ (admin_id, admin_role) ]}
  {[ (admin_role, "permission-read5") ]}
  (mkAuthenticationRow true true true ["example.com"] (Some admin_id) (Some 1))
  (<[admin_id := mkSecurityRow "totp" (Some "sealed") None None 40 ["h1"; "h2"] (Some (10 * Hour)) 7]>
    {[ member_id := default_security ]})
  ∅ ∅.

Definition world : Conn IamDB := conn db.
Definition clock (c : Conn IamDB) : Z := conn_now c.

Lemma lookup2 {A} (i j k : string) (x y z : A) :
  (<[i := x]> {[ j := y ]} : gmap string A) !! k = Some z -> (k = i /\ z = x) \/ (k = j /\ z = y).
Proof.
  intros [[<- <-]|[_ [<- <-]%lookup_singleton_Some]]%lookup_insert_Some; auto.
Qed.

Lemma db_wf : wf db.
Proof.
  split; simpl.
  - by intros id u [[-> ->]|[-> ->]]%lookup2.
  - by intros id u [[-> _]|[-> _]]%lookup2.
  - by intros id u [[-> ->]|[-> ->]]%lookup2.
  - by intros i j u v [[-> ->]|[-> ->]]%lookup2 [[-> ->]|[-> ->]]%lookup2.
  - by intros i j u v [[-> ->]|[-> ->]]%lookup2 [[-> ->]|[-> ->]]%lookup2.
  - intros id s [[-> _]|[-> _]]%lookup2; by eexists.
  - intros u r [= -> ->]%elem_of_singleton. split; by eexists.
Qed.

Lemma db_has_admin : has_admin db.
Proof. exists (admin_id, admin_role). split; reflexivity. Qed.

Lemma db_email : email_verified db.
Proof. intros id s u [[-> ->]|[-> ->]]%lookup2; by intros [=]. Qed.
End Example.

(** Taking the last administrator's role, deactivating it or deleting its
    role fails, and it is still there. *)
Lemma administrator_never_lost_witness :
  let ops := [op_ReplaceUserRoles (uuid_text Example.admin_id) [uuid_text Example.user_role];
              op_SetUserActive (uuid_text Example.admin_id) false;
              op_DeleteRole (uuid_text Example.admin_role);
              op_UpdateRole (uuid_text Example.admin_role) (mkRoleInput "renamed" "")] in
  map (fun op => (run_op true Example.clock (fun s => s) op Example.world).1) ops =
    [Err ErrLastActiveAdministrator; Err ErrLastActiveAdministrator; Err ErrSystemRoleProtected;
     Err ErrSystemRoleProtected] /\
  admin_ok (pg_tables (run_ops true Example.clock (fun s => s) ops Example.world)).
Proof.
  intros ops. split; [vm_compute; reflexivity|].
  apply (administrator_never_lost true Example.clock (fun s => s) ops Example.world).
  split; [apply Example.db_wf|apply Example.db_has_admin].
Defined.

(** The email policy is refused to an unverified user. *)
Lemma email_login_is_verified_witness :
  let st := mkSecurityState (mkSecuritySettings None "email" false 0) 0 None None None (-1) [] in
  let ops := [op_SaveSecurity (uuid_text Example.member_id) st 0] in
  (run_op true Example.clock (fun s => s) (op_SaveSecurity (uuid_text Example.member_id) st 0)
     Example.world).1 = Err ErrEmailNotVerified /\
  email_ok (pg_tables (run_ops true Example.clock (fun s => s) ops Example.world)).
Proof.
  intros st ops. split; [vm_compute; reflexivity|].
  apply (email_login_is_verified true Example.clock (fun s => s) ops Example.world).
  split; [apply Example.db_wf|apply Example.db_email].
Defined.

(** A recovery code is accepted once. *)
Lemma credential_single_use_witness :
  let run := store_ConsumeCredential true Example.clock (fun s => s) (uuid_text Example.admin_id) "chal" 7 (-1) "h1" in
  exists w1, run Example.world = (Ok tt, w1) /\ is_ok (run w1).1 = false.
Proof.
  intros run. exists (run Example.world).2. split; [vm_compute; reflexivity|].
  destruct (credential_single_use true Example.clock (fun s => s) (uuid_text Example.admin_id) "chal" 7 (-1) "h1"
           Example.world (run Example.world).2) as [_ Hdead]; [vm_compute; reflexivity|].
  destruct (Hdead [] "chal" (-1) "h1" (mkSecurityState (mkSecuritySettings None "totp" false 0) 0 None None None 0 []))
    as [Hd _].
  exact Hd.
Defined.

(** After a password reset the version the challenge was issued at is dead. *)
Lemma password_change_revokes_witness :
  let run := store_UpdateUserPassword true (uuid_text Example.admin_id) "new hash" in
  exists w1, run Example.world = (Ok tt, w1) /\
    exists u y, users (pg_tables w1) !! u = Some y /\ u_PasswordHash y = "new hash".
Proof.
  intros run. exists (run Example.world).2. split; [vm_compute; reflexivity|].
  destruct (password_change_revokes true Example.clock (fun s => s) (uuid_text Example.admin_id) "new hash"
    Example.world (run Example.world).2) as (u & y & s' & _ & Hy & Hh & _); [vm_compute; reflexivity|].
  exists u, y. exact (conj Hy Hh).
Defined.

Lemma Register_obeys_policy_witness :
  let input := mkCreateUserInput "bob@example.com" "bob" "hash" "" in
  let run := store_Register true Example.clock input (Some (mkCodeReceipt "code-1" Hour)) in
  exists usr w', run Example.world = (Ok usr, w') /\
    registered input true Example.db (pg_tables w') usr /\
    is_ok (store_Register true Example.clock (mkCreateUserInput "eve@evil.com" "eve" "hash" "")
             (Some (mkCodeReceipt "code-2" Hour)) Example.world).1 = false.
Proof.
  intros input run.
  destruct (run Example.world) as [[usr|e|] w'] eqn:E; [|vm_compute in E; discriminate E..].
  exists usr, w'. split; [done|]. split; [|vm_compute; reflexivity].
  destruct (Register_obeys_policy true Example.clock input (Some (mkCodeReceipt "code-1" Hour)) Example.world w' usr)
    as (_ & _ & Hreg); [exact Example.db_wf|exact E|exact Hreg].
Defined.
