(* ===== verification/Admin.v ===== *)
(** * The bootstrap administrator
    ([internal/app/admin.go], [internal/app/admin_atomic.go])

    Seeding finds or creates the account of the configured address, gives it
    the role [admin] and binds it in the singleton row of the settings, all in
    one transaction that starts by locking that row. *)
From S2P Require Import Prelude GoStrings Postgres IamSQL Iam IamStore.

(** @src internal/app/admin.go:14-14 AdminBootstrap *)
Record AdminBootstrap := mkAdminBootstrap { ab_Email : string; ab_Username : string; ab_Password : string }.

(** @src internal/app/admin.go:47-50 isUniqueViolation *)
Definition isUniqueViolation (err : error) : bool := bool_decide (pg_code err = Some "23505").

Section Seed.
Context {W : Type} `{Pg W IamDB} `{Unicode} (hasher : PasswordService W).

(** The account of the address, found or created.
    @src internal/app/admin.go:23-36 (BootstrapAdmin) user *)
Definition bootstrap_user (input : AdminBootstrap) : M W UserRow :=
  found ← try (pg_exec (GetUserByEmail (ab_Email input)));
  found ←
    match found with
    | Err err =>
        if errors_is PgxNoRows err then
          hash ← wrap "hash bootstrap admin password" (pw_Hash hasher (ab_Password input));
          created ← try (pg_exec (CreateUser (mkCreateUser (ab_Email input) (ab_Username input) hash "Administrator")));
          match created with
          | Err err => if isUniqueViolation err then try (pg_exec (GetUserByEmail (ab_Email input))) else mret created
          | _ => mret created
          end
        else mret found
    | _ => mret found
    end;
  wrap "load bootstrap admin" (of_res found).

(** @src internal/app/admin.go:22-45 BootstrapAdmin *)
Definition BootstrapAdmin (input : AdminBootstrap) : M W unit :=
  user ← bootstrap_user input;
  role ← wrap "load admin role" (pg_exec (GetRoleByName "admin"));
  wrap "assign admin role" (pg_exec (AssignUserRole (u_ID user) (r_ID role))).

(** @src internal/app/admin_atomic.go:18-48 (SeedBootstrapAdmin) transaction *)
Definition seed_body (input : AdminBootstrap) : M W unit :=
  settings ← pg_exec LockAuthenticationSettings;
  _ ← match a_BootstrapAdminUserID settings with
      | None => mret tt
      | Some id =>
          user ← pg_exec (GetUserByID id);
          if negb (String.eqb (u_Email user) (ab_Email input))
          then throw (EText "bootstrap administrator is already bound to a different account") else mret tt
      end;
  _ ← BootstrapAdmin input;
  user ← pg_exec (GetUserByEmail (ab_Email input));
  n ← pg_exec (BindBootstrapAdmin (u_ID user));
  if negb (n =? 1) then throw (EText "bootstrap administrator binding conflict") else mret tt.

(** @src internal/app/admin_atomic.go:17-17 (SeedBootstrapAdmin) email *)
Definition normal (input : AdminBootstrap) : AdminBootstrap :=
  mkAdminBootstrap (ToLower (TrimSpace (ab_Email input))) (ab_Username input) (ab_Password input).

(** @src internal/app/admin_atomic.go:16-49 SeedBootstrapAdmin *)
Definition SeedBootstrapAdmin (beginner : bool) (input : AdminBootstrap) : M W unit :=
  RunInTx beginner (Some (seed_body (normal input))).

(** ** What seeding does *)

(** [u] is a new account of the address, with the name of the configuration
    and a hash of its password; nothing else is touched. *)
Definition created (input : AdminBootstrap) (u : UserRow) (d d' : IamDB) : Prop :=
  u_Email u = ab_Email input /\ u_Username u = ab_Username input /\ u_DisplayName u = "Administrator" /\ u_IsActive u = true /\
  (exists w w', pw_Hash hasher (ab_Password input) w = (Ok (u_PasswordHash u), w')) /\
  (forall id v, users d !! id = Some v -> u_Email v <> ab_Email input) /\ users d !! u_ID u = None /\
  d' = with_users <[u_ID u := u]> d.

(** Seeding binds the account [u] of the address, which was bound already or
    takes a free place: an account that exists is kept as it is, password
    included, and gets the role; otherwise one is created. *)
Definition seeded (input : AdminBootstrap) (d d' : IamDB) : Prop :=
  exists u role r, wf d' /\ u_Email u = ab_Email input /\ users d' !! u_ID u = Some u /\
    roles d !! role = Some r /\ r_Name r = "admin" /\
    (a_BootstrapAdminUserID (authentication_settings d) = None \/ a_BootstrapAdminUserID (authentication_settings d) = Some (u_ID u)) /\
    a_BootstrapAdminUserID (authentication_settings d') = Some (u_ID u) /\
    user_roles d' = {[ (u_ID u, role) ]} ∪ user_roles d /\
    roles d' = roles d /\ role_permissions d' = role_permissions d /\ security d' = security d /\
    (users d' = users d \/ exists d1, created input u d d1 /\ users d' = users d1).

(** The place is taken by the account of another address. *)
Definition bound_elsewhere (input : AdminBootstrap) (d : IamDB) : Prop :=
  exists id v, a_BootstrapAdminUserID (authentication_settings d) = Some id /\ users d !! id = Some v /\ u_Email v <> ab_Email input.

Context `{!PgLaws W IamDB}.
Hypothesis hash_aside : forall p, within (same (fun w => (pg_tables w, pg_saved w))) (pw_Hash hasher p).

Lemma hash_same p w r w' : pw_Hash hasher p w = (r, w') -> pg_tables w' = pg_tables w /\ pg_saved w' = pg_saved w.
Proof. intros E. specialize (hash_aside p w). rewrite E in hash_aside. by injection hash_aside. Qed.

Lemma find_inv email w u w' : wf (pg_tables w) -> pg_exec (GetUserByEmail email) w = (Ok u, w') ->
  pg_tables w' = pg_tables w /\ users (pg_tables w) !! u_ID u = Some u /\ u_Email u = email.
Proof.
  intros Hwf E. apply exec_Ok_inv in E as (env & _ & E).
  apply one_row_inv in E as [[(k & Hk)%elem_of_rows He%String.eqb_eq]%first_Some Hd].
  by rewrite (wf_user_id _ Hwf _ _ Hk).
Qed.

Lemma find_Err_inv email w e w' : wf (pg_tables w) -> pg_exec (GetUserByEmail email) w = (Err e, w') -> pg_tables w' = pg_tables w.
Proof.
  intros Hwf E. apply pg_exec_outcome in E as [E|(env & a & _ & E)]; [done|]. by apply one_row_inv in E as [_ ->].
Qed.

Lemma created_wf input u d d' : wf d -> uuid_ok (u_ID u) -> identity_taken (u_ID u) (u_Email u) (u_Username u) d = false ->
  created input u d d' -> wf d'.
Proof. intros Hwf Hid Hf (_ & _ & _ & _ & _ & _ & _ & ->). by apply wf_insert_user. Qed.

(** A run of [CreateUser], successful or only thought to have failed. *)
Lemma create_effect input hash w u env d d' :
  wf d -> env_ok env -> pw_Hash hasher (ab_Password input) w.1 = (Ok hash, w.2) ->
  CreateUser (mkCreateUser (ab_Email input) (ab_Username input) hash "Administrator") env d = Ok (u, d') ->
  created input u d d' /\ wf d'.
Proof.
  intros Hwf Henv Hh E. apply CreateUser_effect in E as (Hu & Hnone & Hfree & Hd).
  assert (created input u d d') as Hc.
  { subst u. simpl in *. split_and!; simpl; eauto. intros id v Hv.
    destruct (decide (id = pg_gen_random_uuid env)) as [->|Hne]; [congruence|].
    by eapply identity_taken_false. }
  split; [done|]. eapply created_wf; try done. by rewrite Hu.
Qed.

(** The account that is found is the old one or the new one. *)
Definition account (input : AdminBootstrap) (u : UserRow) (d d' : IamDB) : Prop :=
  wf d' /\ u_Email u = ab_Email input /\ users d' !! u_ID u = Some u /\ (d' = d \/ created input u d d').

Lemma created_account input u v d d' : wf d' -> created input u d d' -> users d' !! u_ID v = Some v -> u_Email v = ab_Email input ->
  account input v d d'.
Proof.
  intros Hwf Hc Hv He. assert (v = u) as ->.
  { pose proof Hc as (_ & _ & _ & _ & _ & Hno & Hnone & ->). simpl in Hv.
    apply lookup_insert_Some in Hv as [[_ ->]|[_ Hv]]; [done|]. by destruct (Hno _ _ Hv). }
  split_and!; auto.
Qed.

Lemma bootstrap_user_Ok input w u w' : wf (pg_tables w) -> bootstrap_user input w = (Ok u, w') ->
  account input u (pg_tables w) (pg_tables w').
Proof.
  intros Hwf E. unfold bootstrap_user in E.
  apply M_bind_Ok_inv in E as (found & w1 & E1 & E). apply M_bind_Ok_inv in E as (found' & w2 & E2 & E).
  apply wrap_Ok_inv in E. injection E as -> <-.
  apply try_inv in E1 as [[? _]|(x & [= <-] & Hx & E1)]; [done|].
  destruct found as [v|err|]; [| |done].
  - injection E2 as <- <-. destruct (find_inv _ _ _ _ Hwf E1) as (Ht & Hv & He). unfold account. rewrite Ht. auto.
  - apply find_Err_inv in E1 as Ht; [|done]. destruct (errors_is _ _); [|by injection E2].
    rewrite <- Ht in Hwf |- *. clear w Ht E1 Hx.
    apply M_bind_Ok_inv in E2 as (hash & w3 & Eh & E2). apply wrap_Ok_inv in Eh. destruct (hash_same _ _ _ _ Eh) as [Ht _].
    apply M_bind_Ok_inv in E2 as (made & w4 & Ec & E2). apply try_inv in Ec as [[? _]|(x & [= <-] & Hx & Ec)]; [done|].
    rewrite <- Ht in Hwf |- *. pose proof (fun v env d' He => create_effect input hash (w1, w3) v env (pg_tables w3) d' Hwf He Eh) as Hcreate.
    destruct made as [v|err'|]; [| |done].
    + injection E2 as <- <-. apply exec_Ok_inv in Ec as (env & Henv & Ec). destruct (Hcreate _ _ _ Henv Ec) as [Hc Hwf'].
      pose proof Hc as (He & _ & _ & _ & _ & _ & _ & Hd). eapply created_account; [done|done| |done]. rewrite Hd. by apply lookup_insert_eq.
    + destruct (isUniqueViolation err'); [|by injection E2].
      apply try_inv in E2 as [[? _]|(x & [= <-] & _ & E2)]; [done|].
      apply pg_exec_outcome in Ec as [Ec|(env & v & Henv & Ec)].
      * assert (wf (pg_tables w4)) as Hwf' by by rewrite Ec. destruct (find_inv _ _ _ _ Hwf' E2) as (Ht' & Hv & He).
        unfold account. rewrite Ht', <- Ec. auto.
      * destruct (Hcreate _ _ _ Henv Ec) as [Hc Hwf']. destruct (find_inv _ _ _ _ Hwf' E2) as (Ht' & Hv & He).
        rewrite Ht'. by eapply created_account.
Qed.

(** [BootstrapAdmin] gives the account the role and changes nothing else. *)
Definition promoted (input : AdminBootstrap) (u : UserRow) (role : string) (r : RoleRow) (d d' : IamDB) : Prop :=
  wf d' /\ u_Email u = ab_Email input /\ users d' !! u_ID u = Some u /\ roles d !! role = Some r /\ r_Name r = "admin" /\
  user_roles d' = {[ (u_ID u, role) ]} ∪ user_roles d /\ roles d' = roles d /\ role_permissions d' = role_permissions d /\
  security d' = security d /\ authentication_settings d' = authentication_settings d /\
  (users d' = users d \/ exists d1, created input u d d1 /\ users d' = users d1).

Lemma account_grants_none input u d d' : account input u d d' ->
  roles d' = roles d /\ role_permissions d' = role_permissions d /\ security d' = security d /\
  authentication_settings d' = authentication_settings d /\ user_roles d' = user_roles d /\
  (users d' = users d \/ exists d1, created input u d d1 /\ users d' = users d1).
Proof.
  intros (_ & _ & _ & [->|Hc]); [by auto 10|]. split_and!; try by destruct Hc as (_ & _ & _ & _ & _ & _ & _ & ->).
  right. by exists d'.
Qed.

Lemma BootstrapAdmin_Ok input w w' : wf (pg_tables w) -> BootstrapAdmin input w = (Ok tt, w') ->
  exists u role r, promoted input u role r (pg_tables w) (pg_tables w').
Proof.
  intros Hwf E. apply M_bind_Ok_inv in E as (u & w1 & Eu & E). apply bootstrap_user_Ok in Eu as Hacc; [|done].
  pose proof (account_grants_none _ _ _ _ Hacc) as (Hro & Hrp & Hse & Has & Hur & Hus). destruct Hacc as (Hwf1 & He & Hu & _).
  apply M_bind_Ok_inv in E as (r & w2 & Er & E). apply wrap_Ok_inv in Er, E.
  apply exec_Ok_inv in Er as (env & _ & Er). apply one_row_inv in Er as [[(k & Hk)%elem_of_rows Hname%String.eqb_eq]%first_Some Hd2].
  rewrite (wf_role_id _ Hwf1 _ _ Hk) in E.
  apply exec_Ok_inv in E as (env' & Henv' & E). rewrite Hd2 in E. pose proof E as [Hd Hin]%AssignUserRole_effect.
  exists u, k, r. split.
  { eapply (wf_change plain); [eapply (AssignUserRole_changes plain); done|done]. }
  rewrite <- Hro, <- Hrp, <- Hse, <- Has, <- Hur.
  destruct Hd as [Hd|(_ & _ & Hd)]; rewrite Hd in *; split_and!; try done.
  symmetry. apply subseteq_union_1_L. by apply singleton_subseteq_l.
Qed.

Lemma BindBootstrapAdmin_Ok id w w' : pg_exec (BindBootstrapAdmin id) w = (Ok 1, w') ->
  (a_BootstrapAdminUserID (authentication_settings (pg_tables w)) = None \/
   a_BootstrapAdminUserID (authentication_settings (pg_tables w)) = Some id) /\
  exists a, a_BootstrapAdminUserID a = Some id /\ pg_tables w' = with_authentication (fun _ => a) (pg_tables w).
Proof.
  intros (env & _ & E)%exec_Ok_inv. unfold BindBootstrapAdmin in E. destruct (_ || _) eqn:Hfree; [|done].
  res_inv E. injection E as Hd. split; [apply orb_true_iff in Hfree as [?|?]; bool_prop; auto|]. eexists (mkAuthenticationRow _ _ _ _ (Some id) _). split; [done|]. by rewrite <- Hd.
Qed.

Lemma guard_Ok input (a : AuthenticationRow) w w' :
  (match a_BootstrapAdminUserID a with
   | None => mret tt
   | Some id =>
       user ← pg_exec (GetUserByID id);
       if negb (String.eqb (u_Email user) (ab_Email input))
       then throw (EText "bootstrap administrator is already bound to a different account") else mret tt
   end) w = (Ok tt, w') ->
  pg_tables w' = pg_tables w /\
  forall id v, a_BootstrapAdminUserID a = Some id -> users (pg_tables w) !! id = Some v -> u_Email v = ab_Email input.
Proof.
  destruct (a_BootstrapAdminUserID a) as [id|]; [|by intros [= <-]]. intros E.
  apply M_bind_Ok_inv in E as (v & w1 & Ev & E). apply exec_Ok_inv in Ev as (env & _ & Ev). apply one_row_inv in Ev as [Ev Ht].
  destruct (negb _) eqn:He; [done|]. injection E as <-. split; [done|]. intros id' v' [= <-] Hv'.
  apply negb_false_iff, String.eqb_eq in He. congruence.
Qed.

Lemma seed_body_Ok input w w' : wf (pg_tables w) -> seed_body input w = (Ok tt, w') ->
  seeded input (pg_tables w) (pg_tables w') /\ ~ bound_elsewhere input (pg_tables w).
Proof.
  intros Hwf E. unfold seed_body in E.
  apply M_bind_Ok_inv in E as (a & w1 & E0 & E). apply exec_Ok_inv in E0 as (env & _ & E0). injection E0 as <- Ht.
  apply M_bind_Ok_inv in E as ([] & w2 & Eb & E). apply guard_Ok in Eb as [Ht2 Hbound]. rewrite <- Ht in Ht2, Hbound.
  apply M_bind_Ok_inv in E as ([] & w3 & Ep & E). rewrite <- Ht2 in Hwf. apply BootstrapAdmin_Ok in Ep as (u & role & r & Hp); [|done].
  rewrite Ht2 in Hp. destruct Hp as (Hwf3 & He & Hu & Hr & Hname & Hur & Hro & Hrp & Hse & Has & Hus).
  apply M_bind_Ok_inv in E as (v & w4 & Ef & E). destruct (find_inv _ _ _ _ Hwf3 Ef) as (Ht4 & Hv & Hev).
  assert (v = u) as ->.
  { assert (u_ID v = u_ID u) as Hid by (eapply (wf_email _ Hwf3); [done|done|congruence]). congruence. }
  apply M_bind_Ok_inv in E as (n & w5 & En & E). destruct (negb _) eqn:Hn; [done|]. injection E as ->.
  bool_prop. subst n. apply BindBootstrapAdmin_Ok in En as (Hfree & a & Ha & Hd). rewrite Ht4 in Hfree, Hd. rewrite Has in Hfree.
  split; [|intros (id & w0 & Hid & Hw0 & Hne); by destruct (Hne (Hbound _ _ Hid Hw0))].
  assert (wf (pg_tables w')) as Hwf' by (eapply (wf_change plain); [|exact Hwf3]; rewrite Hd; apply ch_other; auto).
  exists u, role, r. rewrite Hd in *. by split_and!.
Qed.

Lemma seed_tx_body input : tx_body (seed_body input).
Proof.
  assert (forall p, within (same (B := option IamDB) pg_saved) (pw_Hash hasher p)) as Hh.
  { intros p w. destruct (pw_Hash hasher p w) as [r w'] eqn:E. by destruct (hash_same _ _ _ _ E). }
  unfold tx_body, seed_body, BootstrapAdmin, bootstrap_user. solve_within.
Qed.

Lemma seed_outcome b input w r w' : wf (pg_tables w) -> SeedBootstrapAdmin b input w = (r, w') ->
  (pg_tables w' = pg_tables w \/ seeded (normal input) (pg_tables w) (pg_tables w')) /\
  (r = Ok tt -> seeded (normal input) (pg_tables w) (pg_tables w')) /\
  (bound_elsewhere (normal input) (pg_tables w) -> r <> Ok tt /\ pg_tables w' = pg_tables w).
Proof.
  intros Hwf E. unfold SeedBootstrapAdmin in E.
  assert (r = Ok tt -> seeded (normal input) (pg_tables w) (pg_tables w') /\ ~ bound_elsewhere (normal input) (pg_tables w)) as Hok.
  { intros ->. apply RunInTx_Ok_inv in E as (w1 & w2 & Ht & E & ->); [|apply seed_tx_body].
    rewrite <- Ht in Hwf |- *. by apply seed_body_Ok in E. }
  set (R := fun d d' => d' = d \/ (wf d -> seeded (normal input) d d' /\ ~ bound_elsewhere (normal input) d)).
  assert (Reflexive R) as Hrefl by (intros d; by left).
  assert (R (pg_tables w) (pg_tables w')) as HR.
  { pose proof (RunInTx_ok_within R b (seed_body (normal input)) (seed_tx_body _)) as Hw.
    specialize (Hw ltac:(intros w1 [] w2 E1; right; intros Hwf1; by apply seed_body_Ok) w). by rewrite E in Hw. }
  split_and!; [|naive_solver|intros Hb; split; [naive_solver|]]; destruct HR as [HR|HR]; naive_solver.
Qed.

(** The account an earlier seed bound is there. *)
Lemma seeded_binds input input' d d' : seeded input d d' -> ab_Email input' <> ab_Email input -> bound_elsewhere input' d'.
Proof. intros (u & role & r & _ & He & Hu & _ & _ & _ & Hb & _) Hne. exists (u_ID u), u. split_and!; [done|done|congruence]. Qed.

Lemma seeded_again input input' d d' d'' : seeded input d d' -> seeded input' d' d'' -> ab_Email input' = ab_Email input -> users d'' = users d'.
Proof.
  intros (u & role & r & _ & He & Hu & _) (v & role' & r' & _ & _ & _ & _ & _ & _ & _ & _ & _ & _ & _ & Hus) Hee.
  destruct Hus as [?|(d1 & (_ & _ & _ & _ & _ & Hno & _) & _)]; [done|]. destruct (Hno _ _ Hu). congruence.
Qed.
End Seed.

(** C21: the bootstrap administrator is seeded once.  A successful
    [SeedBootstrapAdmin] leaves the account of the address bound, with the
    role [admin]; it created that account, with the configured name and a
    hash of the configured password, only when no account had the address, and
    changed no other.  An unsuccessful one leaves the tables as they were,
    unless its commit went through unacknowledged.  From then on another seed
    neither creates an account nor replaces a password, and fails without any
    effect when it names another address. *)
Theorem SeedBootstrapAdmin_once {W} `{PgLaws W IamDB, Unicode} (hasher : PasswordService W) (b : bool) (input : AdminBootstrap) (w w' : W) (r : res unit) :
  (forall p, within (same (fun w => (pg_tables w, pg_saved w))) (pw_Hash hasher p)) ->
  wf (pg_tables w) -> SeedBootstrapAdmin hasher b input w = (r, w') ->
  (pg_tables w' = pg_tables w \/ seeded hasher (normal input) (pg_tables w) (pg_tables w')) /\
  (r = Ok tt ->
     seeded hasher (normal input) (pg_tables w) (pg_tables w') /\
     forall b2 input2 (w2 w3 : W) r2, pg_tables w2 = pg_tables w' ->
       SeedBootstrapAdmin hasher b2 input2 w2 = (r2, w3) ->
       users (pg_tables w3) = users (pg_tables w2) /\
       (ab_Email (normal input2) <> ab_Email (normal input) -> r2 <> Ok tt /\ pg_tables w3 = pg_tables w2)).
Proof.
  intros Hh Hwf E. destruct (seed_outcome hasher Hh _ _ _ _ _ Hwf E) as (Hd & Hok & _). split; [done|].
  intros Hr. specialize (Hok Hr). split; [done|]. intros b2 input2 w2 w3 r2 Ht E2.
  assert (wf (pg_tables w2)) as Hwf2 by (rewrite Ht; by destruct Hok as (? & ? & ? & ? & _)).
  destruct (seed_outcome hasher Hh _ _ _ _ _ Hwf2 E2) as (Hd2 & _ & Hb2). rewrite Ht in *.
  destruct (decide (ab_Email (normal input2) = ab_Email (normal input))) as [He|Hne].
  - split; [|done]. destruct Hd2 as [->|Hd2]; [done|]. by eapply seeded_again.
  - destruct (Hb2 (seeded_binds _ _ _ _ _ Hok Hne)) as [? Ht3]. by rewrite Ht3.
Qed.

(** A database whose settings bind nobody. *)
Module Unbound.
#[export] Instance unicode : Unicode := {| unicode_lower := fun s => s; unicode_equal_fold := String.eqb |}.
Definition db : IamDB := with_authentication (fun a => mkAuthenticationRow (a_PasswordLoginEnabled a) (a_RegistrationEnabled a)
  (a_RegistrationEmailVerificationRequired a) (a_AllowedEmailDomains a) None None) Example.db.
Definition hasher : PasswordService (Conn IamDB) := mkPasswordService _ (fun p w => (Ok ("hash of " +:+ p), w)) (fun _ _ => Ok false).
Definition boss : AdminBootstrap := mkAdminBootstrap " Boss@Example.com " "boss" "s3cret".
Definition seed (input : AdminBootstrap) : M (Conn IamDB) unit := SeedBootstrapAdmin hasher true input.
Definition after : Conn IamDB := (seed boss (conn db)).2.

Lemma seed_db_wf : wf db.
Proof. destruct Example.db_wf. by split. Qed.

Lemma hashes_aside p : within (same (fun w : Conn IamDB => (pg_tables w, pg_saved w))) (pw_Hash hasher p).
Proof. by intros w. Qed.
End Unbound.
#[local] Existing Instance Unbound.unicode.

(** The seed binds a new account, finds it again, and refuses another one. *)
Lemma SeedBootstrapAdmin_once_witness :
  map (fun u => (u_Email u, u_PasswordHash u)) (rows (users (pg_tables Unbound.after)))
    ≡ₚ [("root@example.com", "hash"); ("ann@example.com", "hash"); ("boss@example.com", "hash of s3cret")] /\
  is_ok (Unbound.seed Unbound.boss Unbound.after).1 = true /\
  users (pg_tables (Unbound.seed Unbound.boss Unbound.after).2) = users (pg_tables Unbound.after) /\
  (let again := Unbound.seed (mkAdminBootstrap "ann@example.com" "ann" "mine") Unbound.after in
   again.1 <> Ok tt /\ pg_tables again.2 = pg_tables Unbound.after).
Proof.
  assert ((Unbound.seed Unbound.boss (conn Unbound.db)).1 = Ok tt) as Hok by (vm_compute; reflexivity).
  destruct (SeedBootstrapAdmin_once Unbound.hasher true Unbound.boss (conn Unbound.db) Unbound.after
    (Unbound.seed Unbound.boss (conn Unbound.db)).1 Unbound.hashes_aside Unbound.seed_db_wf) as [_ H].
  { unfold Unbound.after, Unbound.seed. apply surjective_pairing. }
  destruct (H Hok) as [_ Hagain]. split_and!.
  - vm_compute. solve_Permutation.
  - vm_compute. reflexivity.
  - apply (Hagain true Unbound.boss Unbound.after _ (Unbound.seed Unbound.boss Unbound.after).1 eq_refl). apply surjective_pairing.
  - destruct (Hagain true (mkAdminBootstrap "ann@example.com" "ann" "mine") Unbound.after _
      (Unbound.seed (mkAdminBootstrap "ann@example.com" "ann" "mine") Unbound.after).1 eq_refl (surjective_pairing _)) as [_ Hother].
    apply Hother. vm_compute. discriminate.
Defined.
