(* ===== verification/AuditTrail.v ===== *)
(** * Audit trail ([pkg/modules/audit], [pkg/platform/database/auditstore])

    The service, the best-effort recorder and the PostgreSQL store over the
    statements of [dbgen/audit.sql.go].  The metadata of an event is a
    [map[string]any], whose type and JSON encoding are parameters. *)
From S2P Require Import Prelude GoStrings Netip Pagination Postgres TaskSQL IamStore.

(** ** Domain *)
Definition Result := string.
Definition ResultSuccess : Result := "success".
Definition ResultFailure : Result := "failure".

(** @src pkg/modules/audit/audit.go:23-26 RequestMetadata *)
Record RequestMetadata := mkRequestMetadata { rm_IPAddress : option Addr; rm_UserAgent : string }.

Class JsonMap (J : Type) := {
  json_empty : J;
  json_Marshal : J -> res string;
  json_Unmarshal : string -> res J;
}.

Section Types.
Context (J : Type).
(** A nil map is [None].
    @src pkg/modules/audit/audit.go:39-49 NewEvent *)
Record NewEvent := mkNewEvent {
  ne_RequestID : string; ne_ActorID : option string; ne_Action : string; ne_Result : Result;
  ne_ResourceType : string; ne_ResourceID : string; ne_IPAddress : option Addr; ne_UserAgent : string;
  ne_Metadata : option J;
}.

(** @src pkg/modules/audit/audit.go:51-63 Event *)
Record Event := mkEvent {
  ev_ID : string; ev_RequestID : string; ev_ActorID : option string; ev_Action : string; ev_Result : Result;
  ev_ResourceType : string; ev_ResourceID : string; ev_IPAddress : option Addr; ev_UserAgent : string;
  ev_Metadata : J; ev_CreatedAt : Z;
}.
End Types.
Arguments mkNewEvent {J}. Arguments ne_RequestID {J}. Arguments ne_ActorID {J}. Arguments ne_Action {J}.
Arguments ne_Result {J}. Arguments ne_ResourceType {J}. Arguments ne_ResourceID {J}. Arguments ne_IPAddress {J}.
Arguments ne_UserAgent {J}. Arguments ne_Metadata {J}.
Arguments mkEvent {J}. Arguments ev_ID {J}. Arguments ev_RequestID {J}. Arguments ev_ActorID {J}.
Arguments ev_Action {J}. Arguments ev_Result {J}. Arguments ev_ResourceType {J}. Arguments ev_ResourceID {J}.
Arguments ev_IPAddress {J}. Arguments ev_UserAgent {J}. Arguments ev_Metadata {J}. Arguments ev_CreatedAt {J}.

(** @src pkg/modules/audit/audit.go:65-74 Filter *)
Record Filter := mkFilter {
  f_RequestID : string; f_ActorID : string; f_Action : string; f_Result : Result;
  f_ResourceType : string; f_ResourceID : string; f_From : option Z; f_To : option Z;
}.

(** @src pkg/modules/audit/audit.go:76-80 Query *)
Record Query := mkQuery { q_Filter : Filter; q_Page : Z; q_Size : Z }.

(** @src pkg/modules/audit/audit.go:82-85 Repository *)
Record Repository (W J : Type) := mkRepository {
  repo_Create : NewEvent J -> M W (Event J);
  repo_List : Filter -> Z -> Z -> M W (list (Event J) * Z);
}.
Arguments mkRepository {W J}. Arguments repo_Create {W J}. Arguments repo_List {W J}.

(** @src pkg/modules/audit/audit.go:117-125 validate *)
Definition validate {J} (event : NewEvent J) : res unit :=
  if is_empty (TrimSpace (ne_RequestID event)) || is_empty (TrimSpace (ne_Action event)) ||
     is_empty (TrimSpace (ne_ResourceType event))
  then Err (EWrap "request ID, action, and resource type are required" ErrInvalidEvent)
  else if negb (String.eqb (ne_Result event) ResultSuccess) && negb (String.eqb (ne_Result event) ResultFailure)
  then Err (EWrap "result must be success or failure" ErrInvalidEvent)
  else Ok tt.

Section Service.
Context {W J : Type}.
Variable repository : Repository W J.

(** @src pkg/modules/audit/audit.go:95-103 Record *)
Definition Service_Record (event : NewEvent J) : M W (Event J) :=
  _ ← of_res (validate event); repo_Create repository event.

(** @src pkg/modules/audit/audit.go:105-115 List *)
Definition Service_List (query : Query) : M W (PageOf (Event J)) :=
  let '(page, size) := Normalize (q_Page query) (q_Size query) in
  '(items, total) ← repo_List repository (q_Filter query) size (int64 ((page - 1) * size));
  mret (New (Some items) page size total).
End Service.

(** The recorder of the best effort, and what it tells its observers.
    [observer] says whether one is set and whether it also observes records.
    @src pkg/modules/audit/best_effort.go:16-20 BestEffortRecorder *)
Record BestEffortRecorder (W J : Type) := mkBestEffort {
  be_Record : option (NewEvent J -> M W (Event J));
  be_log : error -> M W unit;
  be_AuditWriteFailed : option (string -> M W unit);
  be_ObserveAudit : option (string -> string -> M W unit);
}.
Arguments mkBestEffort {W J}. Arguments be_Record {W J}. Arguments be_log {W J}.
Arguments be_AuditWriteFailed {W J}. Arguments be_ObserveAudit {W J}.

(** The primary outcome is what a Go caller holds in [primaryErr]; the
    recorder returns it whatever becomes of the event.
    @src pkg/modules/audit/best_effort.go:30-43 Preserve *)
Definition Preserve {W J} (recorder : BestEffortRecorder W J) (event : NewEvent J) (primaryErr : option error) :
    M W (option error) :=
  match be_Record recorder with
  | None => mret primaryErr
  | Some record =>
      r ← try (record event);
      _ ← match r with
          | Err err =>
              _ ← be_log recorder err;
              match be_AuditWriteFailed recorder with Some f => f (ne_Action event) | None => mret tt end
          | _ =>
              match be_ObserveAudit recorder with
              | Some f => f (ne_Action event) (ne_Result event)
              | None => mret tt
              end
          end;
      mret primaryErr
  end.

(** ** The table and its statements *)

(** @src pkg/platform/database/dbgen/models.go:13-25 AuditLog *)
Record AuditLog := mkAuditLog {
  al_ID : string; al_RequestID : string; al_ActorID : option string; al_Action : string; al_Result : string;
  al_ResourceType : string; al_ResourceID : option string; al_IpAddress : option Addr; al_UserAgent : option string;
  al_Metadata : string; al_CreatedAt : Z;
}.

(** The identifiers of [users], which [actor_id] references, and the table. *)
Record AuditDB := mkAuditDB { audit_users : gset string; audit_logs : gmap string AuditLog }.

(** A text parameter must be UTF-8 without a zero byte. *)
Definition untranslatable_character : error := EPg "22021".
Definition text_ok (s : string) : bool := valid_utf8 (bytes s) && negb (existsb (fun a => code a =? 0) (bytes s)).
Definition text_opt_ok (s : option string) : bool := match s with Some s => text_ok s | None => true end.

(** The driver drops the zone of an address, which [inet] does not have. *)
Definition inet (a : Addr) : Addr := match a with V6 n _ => V6 n "" | V4 _ => a end.

(** The constraints of the table.
    @src pkg/migrations/000002_audit.up.sql:13-16 audit_logs *)
Definition audit_checks (r : AuditLog) : bool :=
  not_blank (al_RequestID r) && not_blank (al_Action r) &&
  (String.eqb (al_Result r) "success" || String.eqb (al_Result r) "failure") && not_blank (al_ResourceType r).

(** @src pkg/platform/database/dbgen/audit.sql.go:62-72 CreateAuditLogParams *)
Record CreateAuditLogParams := mkCreateAuditLog {
  ca_RequestID : string; ca_ActorID : option string; ca_Action : string; ca_Result : string;
  ca_ResourceType : string; ca_ResourceID : option string; ca_IpAddress : option Addr;
  ca_UserAgent : option string; ca_Metadata : string;
}.

(** The parameters of the two filtered statements.
    @src pkg/platform/database/dbgen/audit.sql.go:27-36 CountFilteredAuditLogsParams *)
Record FilterParams := mkFilterParams {
  fp_requestID : option string; fp_actorID : option string; fp_action : option string; fp_result : option string;
  fp_resourceType : option string; fp_resourceID : option string; fp_fromTime : option Z; fp_toTime : option Z;
}.

Section Statements.
Context `{Jsonb}.
Notation "x ← m ; k" := (mbind (M := res) (fun x => k) m)
  (at level 20, m at level 100, k at level 200, only parsing).

(** @src pkg/platform/database/dbgen/audit.sql.go:54-101 (Queries) CreateAuditLog *)
Definition CreateAuditLog (p : CreateAuditLogParams) : stmt AuditDB AuditLog := fun env d =>
  _ ← require (text_ok (ca_RequestID p) && text_ok (ca_Action p) && text_ok (ca_Result p) &&
               text_ok (ca_ResourceType p) && text_opt_ok (ca_ResourceID p) && text_opt_ok (ca_UserAgent p))
        untranslatable_character;
  metadata ← jsonb_param (ca_Metadata p);
  let id := pg_gen_random_uuid env in
  let r := mkAuditLog id (ca_RequestID p) (ca_ActorID p) (ca_Action p) (ca_Result p) (ca_ResourceType p)
             (ca_ResourceID p) (inet <$> ca_IpAddress p) (ca_UserAgent p) metadata (timestamptz (pg_NOW env)) in
  _ ← require (audit_checks r) check_violation;
  _ ← require (bool_decide (audit_logs d !! id = None)) unique_violation;
  _ ← require (match ca_ActorID p with Some a => bool_decide (a ∈ audit_users d) | None => true end)
        foreign_key_violation;
  Ok (r, mkAuditDB (audit_users d) (<[id := r]> (audit_logs d))).

(** [$n IS NULL OR column = $n] *)
Definition matches_text (p : option string) (column : option string) : bool :=
  match p with None => true | Some v => bool_decide (column = Some v) end.

(** @src pkg/platform/database/dbgen/audit.sql.go:15-25 countFilteredAuditLogs *)
Definition audit_matches (p : FilterParams) (r : AuditLog) : bool :=
  matches_text (fp_requestID p) (Some (al_RequestID r)) && matches_text (fp_actorID p) (al_ActorID r) &&
  matches_text (fp_action p) (Some (al_Action r)) && matches_text (fp_result p) (Some (al_Result r)) &&
  matches_text (fp_resourceType p) (Some (al_ResourceType r)) && matches_text (fp_resourceID p) (al_ResourceID r) &&
  (match fp_fromTime p with None => true | Some t => timestamptz t <=? al_CreatedAt r end) &&
  (match fp_toTime p with None => true | Some t => al_CreatedAt r <=? timestamptz t end).

Definition filter_texts_ok (p : FilterParams) : bool :=
  text_opt_ok (fp_requestID p) && text_opt_ok (fp_action p) && text_opt_ok (fp_result p) &&
  text_opt_ok (fp_resourceType p) && text_opt_ok (fp_resourceID p).

(** @src pkg/platform/database/dbgen/audit.sql.go:38-52 CountFilteredAuditLogs *)
Definition CountFilteredAuditLogs (p : FilterParams) : stmt AuditDB Z := fun _ d =>
  _ ← require (filter_texts_ok p) untranslatable_character;
  Ok (Z.of_nat (length (where_ (audit_matches p) (rows (audit_logs d)))), d).

(** [ORDER BY created_at DESC, id DESC]
    @src pkg/platform/database/dbgen/audit.sql.go:105-117 listFilteredAuditLogs *)
Definition latest_first : AuditLog -> AuditLog -> bool :=
  then_by (fun x y => Z.compare (al_CreatedAt y) (al_CreatedAt x)) (fun x y => String.leb (al_ID y) (al_ID x)).

(** @src pkg/platform/database/dbgen/audit.sql.go:130-171 ListFilteredAuditLogs *)
Definition ListFilteredAuditLogs (p : FilterParams) (limit offset : Z) : stmt AuditDB (list AuditLog) := fun _ d =>
  _ ← require (filter_texts_ok p) untranslatable_character;
  rows ← limit_offset limit offset (order_by latest_first (where_ (audit_matches p) (rows (audit_logs d))));
  Ok (rows, d).
End Statements.

(** ** The store *)
Section Store.
Context {W J : Type} `{Pg W AuditDB} `{UuidScan} `{Jsonb} `{JsonMap J}.

(** @src pkg/platform/database/auditstore/repository.go:144-153 optionalUUID *)
Definition optionalUUID (value : option string) : res (option string) :=
  match value with
  | None => Ok None
  | Some v =>
      if is_empty v then Ok None
      else match uuid_scan v with Some id => Ok (Some id) | None => Err (EText "invalid UUID") end
  end.

(** [fmt.Sprintf] of the sixteen bytes.
    @src pkg/platform/database/auditstore/repository.go:174-177 uuidString *)
Definition audit_uuidString (id : string) : string := uuid_text id.

(** The identifier and the creation time of a row the server returns are
    never NULL.
    @src pkg/platform/database/auditstore/repository.go:117-142 toEvent *)
Definition toEvent (row : AuditLog) : res (Event J) :=
  metadata ← (if is_empty (al_Metadata row) then Ok json_empty
              else match json_Unmarshal (al_Metadata row) with
                   | Err e => Err (EWrap "decode audit metadata" e)
                   | r => r
                   end);
  Ok (mkEvent (audit_uuidString (al_ID row)) (al_RequestID row) (audit_uuidString <$> al_ActorID row)
        (al_Action row) (al_Result row) (al_ResourceType row) (default "" (al_ResourceID row))
        (al_IpAddress row) (default "" (al_UserAgent row)) metadata (al_CreatedAt row)).

(** @src pkg/platform/database/auditstore/repository.go:28-53 Create *)
Definition store_Create (event : NewEvent J) : M W (Event J) :=
  encoded ← wrap "encode audit metadata" (of_res (json_Marshal (default json_empty (ne_Metadata event))));
  actorID ← wrap "parse actor ID" (of_res (optionalUUID (ne_ActorID event)));
  row ← wrap "create audit log"
    (pg_exec (CreateAuditLog (mkCreateAuditLog (ne_RequestID event) actorID (ne_Action event) (ne_Result event)
       (ne_ResourceType event) (optionalText (ne_ResourceID event)) (ne_IPAddress event)
       (optionalText (ne_UserAgent event)) encoded)));
  of_res (toEvent row).

(** @src pkg/platform/database/auditstore/repository.go:103-115 newFilterParams *)
Definition newFilterParams (filter : Filter) : res FilterParams :=
  actorID ← (if is_empty (f_ActorID filter) then Ok None
             else match uuid_scan (f_ActorID filter) with
                  | Some id => Ok (Some id)
                  | None => Err (EText "parse audit actor filter")
                  end);
  Ok (mkFilterParams (optionalText (f_RequestID filter)) actorID (optionalText (f_Action filter))
        (optionalText (f_Result filter)) (optionalText (f_ResourceType filter)) (optionalText (f_ResourceID filter))
        (f_From filter) (f_To filter)).

Definition maxDatabaseInt32 : Z := 2 ^ 31 - 1.

(** @src pkg/platform/database/auditstore/repository.go:55-90 List *)
Definition store_List (filter : Filter) (limit offset : Z) : M W (list (Event J) * Z) :=
  if (limit <? 1) || (offset <? 0) || (maxDatabaseInt32 <? limit) || (maxDatabaseInt32 <? offset)
  then throw (EText "limit must be positive and offset non-negative")
  else
    params ← of_res (newFilterParams filter);
    rows ← wrap "list filtered audit logs" (pg_exec (ListFilteredAuditLogs params (int32 limit) (int32 offset)));
    items ← map_each rows (fun row => of_res (toEvent row));
    total ← wrap "count filtered audit logs" (pg_exec (CountFilteredAuditLogs params));
    mret (items, total).

Definition PostgresAudit : Repository W J := mkRepository store_Create store_List.
End Store.
Arguments store_Create {W J _ _ _ _}.
Arguments PostgresAudit {W J _ _ _ _}.

(** ** What the store promises *)

(** The event a row becomes in the table, and the one a caller reads. *)
Definition row_of {J} (env : PgEnv) (actor : option string) (metadata : string) (event : NewEvent J) : AuditLog :=
  mkAuditLog (pg_gen_random_uuid env) (ne_RequestID event) actor (ne_Action event) (ne_Result event)
    (ne_ResourceType event) (optionalText (ne_ResourceID event)) (inet <$> ne_IPAddress event)
    (optionalText (ne_UserAgent event)) metadata (timestamptz (pg_NOW env)).

Definition texts_ok {J} (event : NewEvent J) : bool :=
  text_ok (ne_RequestID event) && text_ok (ne_Action event) && text_ok (ne_ResourceType event) &&
  text_opt_ok (optionalText (ne_ResourceID event)) && text_opt_ok (optionalText (ne_UserAgent event)).

(** A string of spaces is empty once trimmed. *)
Lemma blank_trims s : not_blank s = false -> TrimSpace s = "".
Proof.
  unfold not_blank, TrimSpace. intros Hb%negb_false_iff. rewrite forallb_forall in Hb.
  assert (trim_left (bytes s) = []) as ->; [|done].
  induction (bytes s) as [|a l IH]; [done|].
  assert (space1 a = true) as Ha by (unfold space1; rewrite (Hb a) by (by left); apply orb_true_r).
  unfold trim_left. cbn [drop_spaces]. rewrite Ha. apply IH. intros x Hx. apply Hb. by right.
Qed.

Lemma validate_Ok {J} (event : NewEvent J) : validate event = Ok tt ->
  TrimSpace (ne_RequestID event) <> "" /\ TrimSpace (ne_Action event) <> "" /\
  TrimSpace (ne_ResourceType event) <> "" /\
  (ne_Result event = ResultSuccess \/ ne_Result event = ResultFailure).
Proof.
  unfold validate. destruct (is_empty (TrimSpace (ne_RequestID event))) eqn:E1; [done|].
  destruct (is_empty (TrimSpace (ne_Action event))) eqn:E2; [done|].
  destruct (is_empty (TrimSpace (ne_ResourceType event))) eqn:E3; [done|]. simpl.
  rewrite is_empty_false in E1, E2, E3.
  destruct (String.eqb_spec (ne_Result event) ResultSuccess) as [->|]; [by auto|].
  destruct (String.eqb_spec (ne_Result event) ResultFailure) as [->|]; [by auto|done].
Qed.

Lemma not_blank_trim s : TrimSpace s <> "" -> not_blank s = true.
Proof. intros Hs. destruct (not_blank s) eqn:E; [done|]. by apply blank_trims in E. Qed.

Lemma validate_checks {J} (event : NewEvent J) env actor metadata :
  validate event = Ok tt -> audit_checks (row_of env actor metadata event) = true.
Proof.
  intros (H1' & H2' & H3' & Hr)%validate_Ok. unfold audit_checks. simpl. rewrite !not_blank_trim by done.
  by destruct Hr as [->| ->].
Qed.

Lemma validate_result {J} (event : NewEvent J) : validate event = Ok tt -> text_ok (ne_Result event) = true.
Proof. by intros (_ & _ & _ & [->| ->])%validate_Ok. Qed.

Section Promises.
Context {W J : Type} `{PgLaws W AuditDB} `{UuidScan} `{Jsonb} `{JsonMap J}.

(** The statement on a validated event. *)
Definition params_of (event : NewEvent J) (actor : option string) (encoded : string) : CreateAuditLogParams :=
  mkCreateAuditLog (ne_RequestID event) actor (ne_Action event) (ne_Result event) (ne_ResourceType event)
    (optionalText (ne_ResourceID event)) (ne_IPAddress event) (optionalText (ne_UserAgent event)) encoded.

Definition actor_known (actor : option string) (d : AuditDB) : bool :=
  match actor with Some a => bool_decide (a ∈ audit_users d) | None => true end.

(** Whatever the parameters, an inserted row is new and obeys the schema. *)
Lemma CreateAuditLog_inv p env d r d' : CreateAuditLog p env d = Ok (r, d') ->
  audit_users d' = audit_users d /\ audit_logs d' = <[al_ID r := r]> (audit_logs d) /\
  audit_logs d !! al_ID r = None /\ audit_checks r = true /\ actor_known (al_ActorID r) d = true /\
  al_ID r = pg_gen_random_uuid env.
Proof.
  unfold CreateAuditLog. intros E. res_inv E. injection E as <- <-.
  unfold require in *. repeat match goal with Hx : (if ?b then _ else _) = Ok _ |- _ => destruct b eqn:?; [clear Hx|done] end.
  bool_prop. simpl in *. by split_and!.
Qed.

(** Why the server refuses the row of a validated event. *)
Definition refusal (event : NewEvent J) (env : PgEnv) (actor : option string) (d : AuditDB) : option error :=
  if negb (texts_ok event) then Some untranslatable_character
  else if negb (bool_decide (audit_logs d !! pg_gen_random_uuid env = None)) then Some unique_violation
  else if negb (actor_known actor d) then Some foreign_key_violation
  else None.

Lemma CreateAuditLog_run event actor encoded stored env d :
  validate event = Ok tt -> is_empty encoded = false -> jsonb_in encoded = Some stored ->
  CreateAuditLog (params_of event actor encoded) env d =
    match refusal event env actor d with
    | Some e => Err e
    | None => let r := row_of env actor stored event in
              Ok (r, mkAuditDB (audit_users d) (<[al_ID r := r]> (audit_logs d)))
    end.
Proof.
  intros Hv He Hj. pose proof (validate_checks event env actor stored Hv) as Hc.
  unfold row_of in *. unfold CreateAuditLog, refusal, jsonb_param. simpl. rewrite He, Hj, (validate_result _ Hv), andb_true_r.
  fold (texts_ok event). destruct (texts_ok event); simpl; [|done].
  rewrite Hc. simpl. case_bool_decide; simpl; [|done].
  unfold actor_known. destruct actor; [|done]. by case_bool_decide.
Qed.

(** The metadata of the event can be stored and read back. *)
Definition storable (event : NewEvent J) (stored : string) (metadata : J) : Prop :=
  exists encoded, json_Marshal (default json_empty (ne_Metadata event)) = Ok encoded /\ is_empty encoded = false /\
    jsonb_in encoded = Some stored /\ is_empty stored = false /\ json_Unmarshal stored = Ok metadata.

Lemma Record_run event actor encoded (w : W) :
  validate event = Ok tt -> json_Marshal (default json_empty (ne_Metadata event)) = Ok encoded ->
  optionalUUID (ne_ActorID event) = Ok actor ->
  Service_Record PostgresAudit event w =
    (wrap "create audit log" (pg_exec (CreateAuditLog (params_of event actor encoded))) ≫=
       fun row => of_res (toEvent row)) w.
Proof. intros Hv Hm Ha. unfold Service_Record. rewrite Hv. simpl. unfold store_Create. by rewrite Hm, Ha. Qed.

(** What recording an event returns on a server that answers.  An invalid
    event and a malformed actor are refused without a statement; a text that
    is not UTF-8 (the user agent is the client's) or an actor that is not a
    user is refused by the server and leaves the table as it was; in every
    other case the row is inserted and the caller gets it back. *)
Theorem Service_Record_outcome (event : NewEvent J) (stored : string) (metadata : J) (w : W) :
  pg_up w -> storable event stored metadata ->
  exists env r w', env_ok env /\ Service_Record PostgresAudit event w = (r, w') /\
  match validate event, optionalUUID (ne_ActorID event) with
  | Err e, _ => r = Err e /\ w' = w
  | Ok _, Err e => r = Err (EWrap "parse actor ID" e) /\ w' = w
  | Ok _, Ok actor =>
      let d := pg_tables w in
      let row := row_of env actor stored event in
      match refusal event env actor d with
      | Some e => r = Err (EWrap "create audit log" e) /\ pg_tables w' = d
      | None => r = toEvent row /\ is_ok r = true /\
                pg_tables w' = mkAuditDB (audit_users d) (<[al_ID row := row]> (audit_logs d))
      end
  | _, _ => False
  end.
Proof.
  intros Hup (encoded & Hm & He & Hj & Hs & Hu).
  destruct (validate event) as [[]|e|] eqn:Hv; [| |unfold validate in Hv; repeat case_match; done].
  2: { exists (mkPgEnv 0 (fresh_uuid 0)), (Err e), w. unfold Service_Record. rewrite Hv. by split_and!. }
  destruct (optionalUUID (ne_ActorID event)) as [actor|e|] eqn:Ha.
  2: { exists (mkPgEnv 0 (fresh_uuid 0)), (Err (EWrap "parse actor ID" e)), w.
       unfold Service_Record. rewrite Hv. simpl. unfold store_Create. rewrite Hm, Ha. by split_and!. }
  2: { unfold optionalUUID in Ha. repeat case_match; done. }
  rewrite (Record_run event actor encoded) by done.
  destruct (pg_exec_up _ (CreateAuditLog (params_of event actor encoded)) w Hup) as (env & Henv & Hrun).
  exists env. rewrite (CreateAuditLog_run event actor encoded stored) in Hrun by done.
  cbv zeta. destruct (refusal event env actor (pg_tables w)) as [e|]; destruct Hrun as (w' & E & Ht & _).
  - exists (Err (EWrap "create audit log" e)), w'. split_and!; [done| |done..]. apply M_bind_Err, wrap_Err, E.
  - exists (toEvent (row_of env actor stored event)), w'.
    split_and!; [done|by etransitivity; [apply M_bind_Ok, wrap_Ok, E|]|done| |done].
    unfold toEvent. simpl. by rewrite Hs, Hu.
Qed.

(** *** Histories *)
Inductive audit_op := OpRecord (event : NewEvent J) | OpList (query : Query).

(** The acknowledged events of a history, and the world it leaves. *)
Fixpoint run_audit (ops : list audit_op) (w : W) : list (NewEvent J * Event J) * W :=
  match ops with
  | [] => ([], w)
  | OpRecord event :: ops =>
      let '(r, w1) := Service_Record PostgresAudit event w in
      let '(acks, w2) := run_audit ops w1 in
      (match r with Ok e => (event, e) :: acks | _ => acks end, w2)
  | OpList query :: ops => run_audit ops (Service_List PostgresAudit query w).2
  end.

(** Every row obeys the schema. *)
Definition audit_wf (d : AuditDB) : Prop :=
  map_Forall (fun id r => al_ID r = id /\ audit_checks r = true /\ actor_known (al_ActorID r) d = true) (audit_logs d).

(** Rows are only added. *)
Definition appended (d d' : AuditDB) : Prop :=
  audit_users d' = audit_users d /\ audit_logs d ⊆ audit_logs d' /\ (audit_wf d -> audit_wf d').

#[global] Instance appended_preorder : PreOrder appended.
Proof.
  split; [by intros d|]. intros d1 d2 d3 (E1 & S1 & W1) (E2 & S2 & W2).
  split_and!; [congruence|by transitivity (audit_logs d2)|auto].
Qed.

(** The row of an acknowledged event. *)
Definition on_record (d : AuditDB) (ack : NewEvent J * Event J) : Prop :=
  exists env actor stored, let row := row_of env actor stored ack.1 in
    audit_logs d !! al_ID row = Some row /\ optionalUUID (ne_ActorID ack.1) = Ok actor /\ toEvent row = Ok ack.2.

Lemma on_record_appended d d' ack : appended d d' -> on_record d ack -> on_record d' ack.
Proof.
  intros (_ & Hs & _) (env & actor & stored & Hk & Hrest). exists env, actor, stored. split; [|done].
  by eapply lookup_weaken.
Qed.

Lemma CreateAuditLog_appended p env d r d' : CreateAuditLog p env d = Ok (r, d') -> appended d d'.
Proof.
  intros (Hu & Hl & Hn & Hc & Ha & _)%CreateAuditLog_inv. unfold appended, audit_wf. rewrite Hl. split_and!; [done| |].
  - by apply insert_subseteq.
  - intros Hwf. apply map_Forall_insert_2; [split_and!; [done..|]|].
    + unfold actor_known in *. by rewrite Hu.
    + eapply map_Forall_impl; [exact Hwf|]. simpl. unfold actor_known. by rewrite Hu.
Qed.

Lemma CreateAuditLog_row event actor encoded env d r d' :
  CreateAuditLog (params_of event actor encoded) env d = Ok (r, d') ->
  (exists stored, r = row_of env actor stored event) /\ audit_logs d' !! al_ID r = Some r.
Proof.
  intros E. pose proof (CreateAuditLog_inv _ _ _ _ _ E) as (_ & Hl & _). rewrite Hl.
  split; [|apply lookup_insert_eq]. unfold CreateAuditLog in E. res_inv E. injection E as <- _. simpl. eauto.
Qed.

Definition grows (w w' : W) : Prop := appended (pg_tables w) (pg_tables w').

#[local] Instance grows_preorder : PreOrder grows.
Proof. split; unfold grows; [by intros w|]. intros w1 w2 w3 H12 H23. by etransitivity. Qed.

Lemma Create_grows p : within grows (pg_exec (CreateAuditLog p)).
Proof. apply (exec_within appended). intros env d a d' _. apply CreateAuditLog_appended. Qed.

Lemma Record_grows event : within grows (Service_Record PostgresAudit event).
Proof. pose proof Create_grows. unfold Service_Record. simpl. unfold store_Create. solve_within. Qed.

Lemma read_grows {A} (s : stmt AuditDB A) : (forall env d a d', s env d = Ok (a, d') -> d' = d) -> within grows (pg_exec s).
Proof. intros Hs. apply (exec_within appended). by intros env d a d' _ ->%Hs. Qed.

Lemma List_grows query : within grows (Service_List PostgresAudit query).
Proof.
  assert (forall p l o, within grows (pg_exec (ListFilteredAuditLogs p l o))) as Hl.
  { intros p l o. apply read_grows. intros env d a d' E. unfold ListFilteredAuditLogs in E. res_inv E. by injection E as _ <-. }
  assert (forall p, within grows (pg_exec (CountFilteredAuditLogs p))) as Hc.
  { intros p. apply read_grows. intros env d a d' E. unfold CountFilteredAuditLogs in E. res_inv E. by injection E as _ <-. }
  unfold Service_List. simpl. unfold store_List. solve_within.
Qed.

Lemma Record_acks event (w w' : W) e :
  Service_Record PostgresAudit event w = (Ok e, w') -> on_record (pg_tables w') (event, e).
Proof.
  unfold Service_Record. simpl. unfold store_Create. intros E. go_inv E.
  repeat match goal with Hx : wrap _ _ _ = (Ok _, _) |- _ => apply wrap_Ok_inv in Hx end.
  repeat match goal with Hx : of_res _ _ = (Ok _, _) |- _ => injection Hx as ? ?; subst end.
  apply exec_Ok_inv in E3 as (env & _ & E3). apply CreateAuditLog_row in E3 as [(stored & ->) Hk].
  by exists env, a1, stored.
Qed.


(** *** Listing *)
Definition decodable (d : AuditDB) : Prop := map_Forall (fun _ r => is_ok (toEvent (J := J) r) = true) (audit_logs d).

(** The matching rows, latest first. *)
Definition timeline (params : FilterParams) (d : AuditDB) : list AuditLog :=
  order_by latest_first (where_ (audit_matches params) (rows (audit_logs d))).

Lemma map_each_toEvent l (w : W) : Forall (fun r => is_ok (toEvent (J := J) r) = true) l ->
  exists items, map_each l (fun row => of_res (toEvent (J := J) row)) w = (Ok items, w) /\ map toEvent l = map Ok items.
Proof.
  induction 1 as [|r l Hr _ (items & E & Em)]; [by exists []|]. simpl.
  destruct (toEvent (J := J) r) as [e|e|] eqn:He; [|done..]. exists (e :: items). rewrite !M_bind_run. simpl.
  rewrite M_bind_run, E. simpl. by rewrite Em.
Qed.

Lemma timeline_perm params d : timeline params d ≡ₚ where_ (audit_matches params) (rows (audit_logs d)).
Proof. apply merge_sort_Permutation. Qed.

Lemma timeline_decodable params d : decodable d -> Forall (fun r => is_ok (toEvent (J := J) r) = true) (timeline params d).
Proof.
  intros Hd. rewrite timeline_perm, Forall_forall. intros r Hr%list_elem_of_In.
  unfold where_ in Hr. apply List.filter_In in Hr as [Hr _]. apply list_elem_of_In in Hr.
  apply list_elem_of_fmap in Hr as ([id r'] & -> & Hin%elem_of_map_to_list). by apply Hd in Hin.
Qed.

(** A listing.  When the filter is well formed and the page lies within
    the offsets of the database, a server that answers gives exactly that page
    of the matching rows, latest first, with the total count; beyond them the
    request is refused. *)
Theorem Service_List_page (query : Query) (params : FilterParams) (w : W) :
  pg_up w -> newFilterParams (q_Filter query) = Ok params ->
  filter_texts_ok params = true -> decodable (pg_tables w) ->
  let '(page, size) := Normalize (q_Page query) (q_Size query) in
  let l := timeline params (pg_tables w) in
  (page - 1) * size <= max_int64 ->
  exists r w', Service_List PostgresAudit query w = (r, w') /\ pg_tables w' = pg_tables w /\
  if maxDatabaseInt32 <? (page - 1) * size then is_err r = true
  else exists items, r = Ok (New (Some items) page size (Z.of_nat (length l))) /\
                     map toEvent (window page size l) = map Ok items.
Proof.
  intros Hup Hp Ht Hd. pose proof (Normalize_bounds (q_Page query) (q_Size query)) as Hn.
  unfold Service_List, MaxSize in *. destruct (Normalize (q_Page query) (q_Size query)) as [page size].
  intros Hpage. set (l := timeline params (pg_tables w)). rewrite int64_id by (unfold in_int64, min_int64, max_int64 in *; nia).
  simpl. unfold store_List, maxDatabaseInt32.
  rewrite (proj2 (Z.ltb_ge size 1)), (proj2 (Z.ltb_ge ((page - 1) * size) 0)), (proj2 (Z.ltb_ge (2 ^ 31 - 1) size)) by nia.
  destruct (2 ^ 31 - 1 <? (page - 1) * size) eqn:Hb; simpl.
  { do 2 eexists. by split_and!. }
  bool_prop. rewrite Hp. rewrite !int32_id by (unfold in_int32; nia).
  destruct (pg_exec_up _ (ListFilteredAuditLogs params size ((page - 1) * size)) w Hup) as (env & _ & Hl).
  unfold ListFilteredAuditLogs at 1, limit_offset in Hl. rewrite Ht in Hl. simpl in Hl.
  rewrite (proj2 (Z.ltb_ge size 0)), (proj2 (Z.ltb_ge ((page - 1) * size) 0)) in Hl by nia. simpl in Hl.
  destruct Hl as (w1 & E1 & Ht1 & Hup1).
  fold (timeline params (pg_tables w)) in E1. fold l in E1. fold (window page size l) in E1.
  destruct (map_each_toEvent (window page size l) w1) as (items & Ei & Em).
  { apply Forall_take, Forall_drop. by apply timeline_decodable. }
  destruct (pg_exec_up _ (CountFilteredAuditLogs params) w1 Hup1) as (env2 & _ & Hc).
  unfold CountFilteredAuditLogs at 1 in Hc. rewrite Ht in Hc. simpl in Hc. destruct Hc as (w2 & E2 & Ht2 & _).
  exists (Ok (New (Some items) page size (Z.of_nat (length l)))), w2. split_and!; [|congruence|by exists items].
  unfold wrap. rewrite !M_bind_run. simpl. rewrite !M_bind_run, E1, M_bind_run, Ei, M_bind_run, E2. simpl.
  rewrite Ht1. unfold l. by rewrite (Permutation_length (timeline_perm params (pg_tables w))).
Qed.
End Promises.

(** ** The theorems at concrete inputs *)
Module Example.
#[local] Instance scan : UuidScan := fun s => of_bytes <$> hex_decode (remove_dashes (bytes s)).
#[local] Instance jsonb : Jsonb := Some.
#[local] Instance json : JsonMap unit := {
  json_empty := tt; json_Marshal _ := Ok "{}"; json_Unmarshal _ := Ok tt }.

Definition user : string := fresh_uuid 7.
Definition db : AuditDB := mkAuditDB {[ user ]} ∅.
Definition login (agent : string) : NewEvent unit :=
  mkNewEvent "request-1" (Some (uuid_text user)) "auth.login" ResultSuccess "session" "" None agent None.
(** A byte that is not UTF-8. *)
Definition bad_agent : string := of_bytes [of_code 255].

Definition stored_row : AuditLog := Eval vm_compute in row_of (conn_env (conn db)) (Some user) "{}" (login "curl").
Definition full : AuditDB := mkAuditDB {[ user ]} {[ al_ID stored_row := stored_row ]}.
Definition everything : Query := mkQuery (mkFilter "" "" "" "" "" "" None None) 1 20.

Lemma login_storable agent : storable (login agent) "{}" tt.
Proof. by exists "{}". Qed.

Lemma db_up d : pg_up (conn d : Conn AuditDB).
Proof. done. Qed.
End Example.
#[local] Existing Instances Example.scan Example.jsonb Example.json.

Lemma Service_Record_outcome_witness :
  exists r w', Service_Record PostgresAudit (Example.login Example.bad_agent) (conn Example.db) = (r, w') /\
    r = Err (EWrap "create audit log" untranslatable_character) /\ audit_logs (pg_tables w') = ∅.
Proof.
  destruct (Service_Record_outcome (Example.login Example.bad_agent) "{}" tt (conn Example.db)
    (Example.db_up _) (Example.login_storable _)) as (env & r & w' & _ & E & Hr).
  exists r, w'. split; [exact E|]. destruct Hr as [-> Ht]. split; [reflexivity|]. by rewrite Ht.
Defined.


Lemma Service_List_page_witness :
  exists r w' items, Service_List PostgresAudit Example.everything (conn Example.full) = (r, w') /\
    r = Ok (New (Some items) 1 20 1) /\ map toEvent [Example.stored_row] = map (Ok (A := Event unit)) items.
Proof.
  destruct (Service_List_page Example.everything (mkFilterParams None None None None None None None None)
    (conn Example.full) (Example.db_up _) eq_refl eq_refl ltac:(by apply map_Forall_singleton) ltac:(done))
    as (r & w' & E & _ & items & Hr & Hi).
  exists r, w', items. split_and!; [exact E|exact Hr|exact Hi].
Defined.
