(* ===== verification/IamService.v ===== *)
(** * The identity service ([pkg/modules/iam/service.go])

    The operations on the interfaces of [Iam].  [authentication] is the
    repository of the attached authentication service, if one is attached:
    all that the service asks of it besides [Login], which is in
    [AuthenticationService].  [Subject] of the request's context is an
    argument. *)
From S2P Require Import Prelude GoStrings Pagination IamSQL Iam.

(** @src pkg/modules/iam/service.go:11-11 dummyPasswordHash *)
Definition dummyPasswordHash : string :=
  "$argon2id$v=19$m=65536,t=3,p=2$AAAAAAAAAAAAAAAAAAAAAA$AAAAAAAAAAAAAAAAAAAAAAAAAAAAAAAAAAAAAAAAAAA".

(** The access token issuer and its lifetime in seconds. *)
Record Tokens (W : Type) := mkTokens { jwt_Issue : string -> M W string; jwt_seconds : Z }.
Arguments jwt_Issue {W}. Arguments jwt_seconds {W}.

(** @src pkg/modules/iam/service.go:13-22 Service *)
Record Service (W : Type) := mkService {
  authentication : option (AuthenticationRepository W);
  users_ : UserRepository W;
  rbac : option (RBACRepository W);
  preferences_ : option (PreferencesRepository W);
  management : option (ManagementRepository W);
  passwords : PasswordService W;
  jwt : Tokens W;
  refresh : Sessions W;
}.
Arguments mkService {W}. Arguments authentication {W}. Arguments users_ {W}. Arguments rbac {W}.
Arguments preferences_ {W}. Arguments management {W}. Arguments passwords {W}. Arguments jwt {W}.
Arguments refresh {W}.

(** @src pkg/modules/iam/service.go:32-34 NewServiceWithManagement *)
Definition NewServiceWithManagement {W} (users : UserRepository W) (rbac : option (RBACRepository W))
    (preferences : option (PreferencesRepository W)) (management : option (ManagementRepository W))
    (passwords : PasswordService W) (jwt : Tokens W) (refresh : Sessions W) : Service W :=
  mkService None users rbac preferences management passwords jwt refresh.

(** @src pkg/modules/iam/service.go:351-358 normalizeRoleInput *)
Definition normalizeRoleInput (input : RoleInput) : res RoleInput :=
  let name := TrimSpace (ri_Name input) in
  let description := TrimSpace (ri_Description input) in
  if is_empty name then Err ErrInvalidUserInput else Ok (mkRoleInput name description).

(** The loop of [normalizedIDs] over what is left, with what it has seen. *)
Fixpoint normalized_loop (values : list string) (seen : gset string) (result : list string) : res (list string) :=
  match values with
  | [] => Ok result
  | value :: values =>
      let value := TrimSpace value in
      if is_empty value then Err ErrInvalidUserInput
      else if bool_decide (value ∈ seen) then normalized_loop values seen result
      else normalized_loop values ({[ value ]} ∪ seen) (result ++ [value])
  end.

(** @src pkg/modules/iam/service.go:360-375 normalizedIDs *)
Definition normalizedIDs (values : list string) : res (list string) := normalized_loop values ∅ [].

Section Operations.
Context {W : Type} `{Unicode}.
Variable s : Service W.

(** @src pkg/modules/iam/service.go:389-391 tokenPair *)
Definition tokenPair (access refresh : string) : TokenPair :=
  mkTokenPair access refresh "Bearer" (jwt_seconds (jwt s)).

(** @src pkg/modules/iam/service.go:377-387 issuePair *)
Definition issuePair (userID : string) : M W TokenPair :=
  access ← jwt_Issue (jwt s) userID;
  refresh ← sess_Issue (refresh s) userID;
  mret (tokenPair access refresh).

(** @src pkg/modules/iam/service.go:330-342 requireInitialized *)
Definition requireInitialized : M W unit :=
  match authentication s with
  | None => mret tt
  | Some repo =>
      state ← repo_Authentication repo;
      if bool_decide (st_InitializedAt state = None) then throw ErrInvalidCredentials else mret tt
  end.

(** A lookup whose [ErrNotFound] is returned as [notFound]. *)
Definition find_user (userID : string) (notFound : error) : M W User :=
  r ← try (FindByID (users_ s) userID);
  match r with
  | Ok user => mret user
  | Err err => if errors_is ErrNotFound err then throw notFound else throw err
  | Panic => panic
  end.

(** @src pkg/modules/iam/service.go:313-328 requireActiveUser *)
Definition requireActiveUser (userID : string) : M W unit :=
  _ ← requireInitialized;
  user ← find_user userID ErrNotFound;
  if negb (user_Active user) then throw ErrInactiveUser else mret tt.

(** @src pkg/modules/iam/service.go:68-95 Refresh *)
Definition Refresh (raw : string) : M W TokenPair :=
  _ ← requireInitialized;
  userID ← sess_Lookup (refresh s) raw;
  user ← find_user userID ErrInvalidRefreshToken;
  if negb (user_Active user) then throw ErrInvalidRefreshToken
  else
    access ← jwt_Issue (jwt s) userID;
    next ← sess_Rotate (refresh s) raw userID;
    mret (tokenPair access next).

(** @src pkg/modules/iam/service.go:97-97 Logout *)
Definition Logout (raw : string) : M W unit := sess_Revoke (refresh s) raw.
(** @src pkg/modules/iam/service.go:98-100 RevokeAll *)
Definition RevokeAll (userID : string) : M W unit := sess_RevokeAll (refresh s) userID.

(** @src pkg/modules/iam/service.go:102-128 CurrentUser *)
Definition CurrentUser (userID : string) : M W AuthenticatedUser :=
  _ ← requireInitialized;
  user ← find_user userID ErrNotFound;
  if negb (user_Active user) then throw ErrInactiveUser
  else match rbac s with
       | None => mret (mkAuthenticatedUser user [])
       | Some rbac =>
           permissions ← PermissionsForUser rbac userID;
           mret (mkAuthenticatedUser user permissions)
       end.

(** @src pkg/modules/iam/service.go:130-142 Preferences *)
Definition Service_Preferences (userID : string) : M W Preferences :=
  _ ← requireActiveUser userID;
  match preferences_ s with
  | None => throw ErrNotFound
  | Some repo =>
      r ← try (GetPreferences repo userID);
      match r with
      | Err err => if errors_is ErrNotFound err then mret DefaultPreferences else throw err
      | Ok p => mret p
      | Panic => panic
      end
  end.

(** @src pkg/modules/iam/service.go:144-155 PutPreferences *)
Definition Service_PutPreferences (userID : string) (p : Preferences) : M W unit :=
  _ ← of_option_error (Preferences_Validate p);
  _ ← requireActiveUser userID;
  match preferences_ s with
  | None => throw ErrNotFound
  | Some repo => PutPreferences repo userID p
  end.

(** @src pkg/modules/iam/service.go:157-167 Users *)
Definition Users (q : UserQuery) : M W (PageOf User) :=
  let '(page, size) := Normalize (uq_Page q) (uq_Size q) in
  '(items, total) ← List_ (users_ s) (TrimSpace (uq_Query q), uq_Active q) size (int64 ((page - 1) * size));
  mret (New (Some items) page size total).

(** @src pkg/modules/iam/service.go:169-181 CreateUser *)
Definition Service_CreateUser (input : CreateUserInput) : M W User :=
  let email := ToLower (TrimSpace (cui_Email input)) in
  let username := TrimSpace (cui_Username input) in
  if is_empty email || is_empty username || (len (cui_Password input) <? 12) then throw ErrInvalidUserInput
  else
    hash ← pw_Hash (passwords s) (cui_Password input);
    Create (users_ s) (mkCreateUserInput email username hash (cui_DisplayName input)).

(** @src pkg/modules/iam/service.go:344-349 managementRepository *)
Definition managementRepository : res (ManagementRepository W) :=
  match management s with Some m => Ok m | None => Err ErrManagementUnavailable end.

(** @src pkg/modules/iam/service.go:183-195 UpdateUser *)
Definition UpdateUser (userID : string) (input : UpdateUserInput) : M W User :=
  let email := ToLower (TrimSpace (uui_Email input)) in
  let username := TrimSpace (uui_Username input) in
  let displayName := TrimSpace (uui_DisplayName input) in
  if is_empty email || is_empty username then throw ErrInvalidUserInput
  else
    management ← of_res managementRepository;
    mg_UpdateUser management userID (mkUpdateUserInput email username displayName).

(** @src pkg/modules/iam/service.go:197-213 ResetUserPassword *)
Definition ResetUserPassword (userID password : string) : M W unit :=
  if len password <? 12 then throw ErrInvalidUserInput
  else
    management ← of_res managementRepository;
    hash ← pw_Hash (passwords s) password;
    _ ← sess_RevokeAll (refresh s) userID;
    mg_UpdateUserPassword management userID hash.

(** @src pkg/modules/iam/service.go:215-228 SetUserActive *)
Definition Service_SetUserActive (subject userID : string) (active : bool) : M W unit :=
  _ ← if active then mret tt
      else if negb (is_empty subject) && String.eqb subject userID then throw ErrCannotDeactivateSelf
      else sess_RevokeAll (refresh s) userID;
  match management s with
  | Some m => mg_SetUserActive m userID active
  | None => SetActive (users_ s) userID active
  end.

(** A call on a nil interface panics. *)
Definition with_rbac {A} (f : RBACRepository W -> M W A) : M W A :=
  match rbac s with Some r => f r | None => panic end.

(** @src pkg/modules/iam/service.go:229-229 Roles *)
Definition Service_Roles : M W (list Role) := with_rbac Roles.
(** @src pkg/modules/iam/service.go:230-232 Permissions *)
Definition Service_Permissions : M W (list Permission) := with_rbac Permissions.

(** @src pkg/modules/iam/service.go:233-243 ReplaceUserRoles *)
Definition ReplaceUserRoles (userID : string) (roleIDs : list string) : M W unit :=
  management ← of_res managementRepository;
  roleIDs ← of_res (normalizedIDs roleIDs);
  mg_ReplaceUserRoles management userID roleIDs.

(** @src pkg/modules/iam/service.go:244-250 Role *)
Definition Service_Role (roleID : string) : M W RoleDetail :=
  management ← of_res managementRepository;
  mg_Role management roleID.

(** @src pkg/modules/iam/service.go:251-261 CreateRole *)
Definition Service_CreateRole (input : RoleInput) : M W Role :=
  management ← of_res managementRepository;
  input ← of_res (normalizeRoleInput input);
  mg_CreateRole management input.

(** @src pkg/modules/iam/service.go:262-272 UpdateRole *)
Definition Service_UpdateRole (roleID : string) (input : RoleInput) : M W Role :=
  management ← of_res managementRepository;
  input ← of_res (normalizeRoleInput input);
  mg_UpdateRole management roleID input.

(** @src pkg/modules/iam/service.go:273-279 DeleteRole *)
Definition Service_DeleteRole (roleID : string) : M W unit :=
  management ← of_res managementRepository;
  mg_DeleteRole management roleID.

(** @src pkg/modules/iam/service.go:280-290 ReplaceRolePermissions *)
Definition ReplaceRolePermissions (roleID : string) (permissionIDs : list string) : M W unit :=
  management ← of_res managementRepository;
  permissionIDs ← of_res (normalizedIDs permissionIDs);
  mg_ReplaceRolePermissions management roleID permissionIDs.

(** @src pkg/modules/iam/service.go:291-293 AssignRole *)
Definition Service_AssignRole (userID roleID : string) : M W unit :=
  with_rbac (fun r => AssignRole r userID roleID).
(** @src pkg/modules/iam/service.go:294-296 GrantPermission *)
Definition Service_GrantPermission (roleID permissionID : string) : M W unit :=
  with_rbac (fun r => GrantPermission r roleID permissionID).

(** @src pkg/modules/iam/service.go:297-311 Authorize *)
Definition Authorize (userID required : string) : M W unit :=
  _ ← match authentication s with Some _ => requireActiveUser userID | None => mret tt end;
  p ← with_rbac (fun r => PermissionsForUser r userID);
  if negb (HasPermission p required) then throw ErrPermissionDenied else mret tt.
End Operations.

(** ** Permissions *)
Lemma cut_on_spec sep l :
  match cut_on sep l with
  | Some (a, b) => l = a ++ sep :: b /\ sep ∉ a
  | None => sep ∉ l
  end.
Proof.
  induction l as [|x l IH]; simpl; [by apply not_elem_of_nil|].
  case_bool_decide as Hx; [subst; split; [done|by apply not_elem_of_nil]|].
  destruct (cut_on sep l) as [[a b]|].
  - destruct IH as [-> Ha]. split; [done|]. apply not_elem_of_cons. by split.
  - apply not_elem_of_cons. by split.
Qed.

(** The first separator is where the text is cut. *)
Lemma cut_on_unique sep a b : sep ∉ a -> cut_on sep (a ++ sep :: b) = Some (a, b).
Proof.
  induction a as [|x a IH]; simpl; intros Ha.
  - by rewrite bool_decide_eq_true_2.
  - apply not_elem_of_cons in Ha as [Hx Ha]. rewrite bool_decide_eq_false_2 by done. by rewrite IH.
Qed.

Lemma bytes_inj s t : bytes s = bytes t -> s = t.
Proof. intros E. by rewrite <- (of_bytes_bytes s), E, of_bytes_bytes. Qed.

Lemma Cut_spec s m a :
  ":"%char ∉ bytes m -> s = m +:+ ":" +:+ a -> Cut s ":" = (m, a, true).
Proof.
  intros Hm ->. unfold Cut. rewrite !bytes_app. simpl. rewrite cut_on_unique by done.
  by rewrite !of_bytes_bytes.
Qed.

Lemma Cut_found s m a : Cut s ":" = (m, a, true) -> s = m +:+ ":" +:+ a /\ (":"%char ∉ bytes m).
Proof.
  unfold Cut. pose proof (cut_on_spec ":" (bytes s)) as Hc.
  destruct (cut_on _ _) as [[x y]|]; [|done]. intros [= <- <-]. destruct Hc as [Hs Hx].
  split; [|by rewrite bytes_of_bytes]. apply bytes_inj. rewrite !bytes_app, !bytes_of_bytes. done.
Qed.

(** What grants a permission.  A required permission is granted exactly
    when it is not empty and the list holds it, or [*], or [module:*] for the
    module before its first colon; a module's wildcard grants nothing of
    another module, and nothing to a name without a colon. *)
Theorem HasPermission_spec granted required :
  HasPermission granted required = true <->
  required <> "" /\ exists p, p ∈ granted /\
    (p = "*" \/ p = required \/
     exists module action, required = module +:+ ":" +:+ action /\ (":"%char ∉ bytes module) /\
                           p = module +:+ ":*").
Proof.
  unfold HasPermission. destruct (is_empty required) eqn:He.
  { apply is_empty_true in He as ->. split; [done|by intros [? _]]. }
  apply is_empty_false in He. destruct (Cut required ":") as [[m a] found] eqn:Hcut.
  rewrite existsb_exists. setoid_rewrite <- list_elem_of_In. split.
  - intros (p & Hp & Hb). split; [done|]. exists p. split; [done|].
    apply orb_prop in Hb as [Hb|Hb]; [apply orb_prop in Hb as [ ->%String.eqb_eq | ->%String.eqb_eq ]; auto|].
    apply andb_prop in Hb as [-> ->%String.eqb_eq]. right; right.
    apply Cut_found in Hcut as [? ?]. by exists m, a.
  - intros (_ & p & Hp & [ -> | [ -> | (m' & a' & Hr & Hm & ->) ] ]); eexists; (split; [exact Hp|]).
    + done.
    + by rewrite String.eqb_refl, orb_true_r.
    + rewrite (Cut_spec _ _ _ Hm Hr) in Hcut. injection Hcut as <- _ <-.
      by rewrite String.eqb_refl, !orb_true_r.
Qed.

(** ** Identifier lists *)
Lemma normalized_loop_spec values seen result :
  (forall x, x ∈ seen <-> x ∈ result) -> NoDup result ->
  match normalized_loop values seen result with
  | Ok ids => NoDup ids /\ Forall (fun v => TrimSpace v <> "") values /\
      (exists added, ids = result ++ added) /\
      forall x, x ∈ ids <-> x ∈ result \/ x ∈ map TrimSpace values
  | Err e => e = ErrInvalidUserInput /\ Exists (fun v => TrimSpace v = "") values
  | Panic => False
  end.
Proof.
  revert seen result. induction values as [|v values IH]; intros seen result Hseen Hnd; cbn [normalized_loop].
  { split_and!; [done|constructor|exists []; by rewrite app_nil_r|].
    intros x. simpl. rewrite elem_of_nil. tauto. }
  destruct (is_empty (TrimSpace v)) eqn:He.
  { apply is_empty_true in He. split; [done|by left]. }
  apply is_empty_false in He. case_bool_decide as Hin.
  - specialize (IH seen result Hseen Hnd). destruct (normalized_loop values seen result) as [ids|e|]; [| |done].
    + destruct IH as (? & ? & ? & Hx). split_and!; [done|by constructor|done|].
      intros x. rewrite Hx. cbn [map]. rewrite elem_of_cons. apply Hseen in Hin.
      split; [tauto|]. intros [?|[->|?]]; tauto.
    + destruct IH. split; [done|by right].
  - assert (TrimSpace v ∉ result) as Hnew by by rewrite <- Hseen.
    assert (forall x, x ∈ {[ TrimSpace v ]} ∪ seen <-> x ∈ result ++ [TrimSpace v]) as Hseen'.
    { intros x. rewrite elem_of_union, elem_of_app, Hseen, elem_of_singleton, elem_of_cons, elem_of_nil. tauto. }
    assert (NoDup (result ++ [TrimSpace v])) as Hnd'.
    { apply NoDup_app. split_and!; [done| |apply NoDup_singleton].
      intros x Hx [->|Hn]%elem_of_cons; [done|by apply elem_of_nil in Hn]. }
    specialize (IH _ _ Hseen' Hnd'). destruct (normalized_loop values _ _) as [ids|e|]; [| |done].
    + destruct IH as (? & ? & (added & ->) & Hx).
      split_and!; [done|by constructor|exists (TrimSpace v :: added); by rewrite <- app_assoc|].
      intros x. rewrite Hx. cbn [map]. rewrite elem_of_app, !elem_of_cons, elem_of_nil. tauto.
    + destruct IH as [? ?]. split; [done|by right].
Qed.

(** A list of identifiers is normalised to its distinct trimmed values,
    and refused with [ErrInvalidUserInput] exactly when one of them is
    blank; normalising again changes nothing. *)
Theorem normalizedIDs_spec values :
  match normalizedIDs values with
  | Ok ids => NoDup ids /\ (forall x, x ∈ ids <-> x ∈ map TrimSpace values) /\ ("" ∉ ids) /\
              exists ids', normalizedIDs ids = Ok ids' /\ forall x, x ∈ ids' <-> x ∈ ids
  | Err e => e = ErrInvalidUserInput /\ Exists (fun v => TrimSpace v = "") values
  | Panic => False
  end.
Proof.
  unfold normalizedIDs.
  assert (forall l, match normalized_loop l ∅ [] with
    | Ok ids => NoDup ids /\ Forall (fun v => TrimSpace v <> "") l /\
        forall x, x ∈ ids <-> x ∈ map TrimSpace l
    | Err e => e = ErrInvalidUserInput /\ Exists (fun v => TrimSpace v = "") l
    | Panic => False end) as Hspec.
  { intros l. assert (forall x : string, x ∈ (∅ : gset string) <-> x ∈ []) as Hno
      by (intros x; rewrite elem_of_nil; set_solver +).
    pose proof (normalized_loop_spec l ∅ []) as Hl.
    destruct (normalized_loop l ∅ []) as [ids|e|]; [|apply Hl; [done|constructor]..].
    destruct Hl as (? & ? & _ & Hx); [done|constructor|]. split_and!; [done|done|].
    intros x. rewrite Hx, elem_of_nil. tauto. }
  pose proof (Hspec values) as Hv. destruct (normalized_loop values ∅ []) as [ids|e|]; [|done|done].
  destruct Hv as (Hnd & Hall & Hx).
  assert (forall x, x ∈ ids -> TrimSpace x = x /\ x <> "") as Htrim.
  { intros x (v & -> & Hv)%Hx%list_elem_of_fmap. rewrite Forall_forall in Hall.
    split; [apply TrimSpace_idem|by apply Hall]. }
  split_and!; [done|done|intros Hempty; by apply Htrim in Hempty as [_ ?]|].
  pose proof (Hspec ids) as Ha. destruct (normalized_loop ids ∅ []) as [ids'|e|]; [|exfalso|done].
  - destruct Ha as (_ & _ & Hx'). exists ids'. split; [done|]. intros x. rewrite Hx', list_elem_of_fmap. split.
    + intros (y & -> & Hy). destruct (Htrim y Hy) as [-> _]. done.
    + intros Hy. exists x. destruct (Htrim x Hy) as [-> _]. done.
  - destruct Ha as [_ Hex]. apply Exists_exists in Hex as (y & Hy & Hb). destruct (Htrim y Hy). congruence.
Qed.

(** ** Preferences *)

Lemma elem_of_2 x a b : bool_decide (x ∈ [a; b]) = String.eqb x a || String.eqb x b.
Proof.
  case_bool_decide as Hx; symmetry.
  - apply orb_true_iff. apply elem_of_cons in Hx as [->|Hx]; [left; apply String.eqb_refl|].
    apply list_elem_of_singleton in Hx as ->. right. apply String.eqb_refl.
  - apply orb_false_iff. split; apply String.eqb_neq; intros ->; apply Hx; [left|right; left].
Qed.

Lemma elem_of_3 x a b c : bool_decide (x ∈ [a; b; c]) = String.eqb x a || String.eqb x b || String.eqb x c.
Proof.
  rewrite <- orb_assoc, <- elem_of_2.
  destruct (String.eqb_spec x a) as [->|Hne]; simpl; [apply bool_decide_eq_true_2; left|].
  apply bool_decide_ext. rewrite elem_of_cons. tauto.
Qed.

(** The service accepts exactly the preferences the table accepts, so
    that storing validated preferences never fails on a constraint. *)
Theorem Preferences_Validate_spec p :
  Preferences_Validate p = None <->
  preference_checks (mkPreferenceRow (Theme p) (ColorMode p) (AccentColor p) (FontScale p) (RadiusScale p)) = true.
Proof.
  unfold Preferences_Validate, preference_checks. simpl. rewrite elem_of_2, !elem_of_3.
  rewrite <- !negb_orb.
  destruct (_ || _) eqn:E1; [|done]. destruct (String.eqb (ColorMode p) _ || _ || _); [|done].
  destruct (String.eqb (FontScale p) _ || _ || _); [|done].
  destruct (String.eqb (RadiusScale p) _ || _ || _); [|done]. simpl.
  destruct (AccentColor p) as [a|]; [|done]. by destruct (is_accent_color a).
Qed.
