(* ===== verification/AuthenticationService.v ===== *)
(** * The authentication service ([pkg/modules/iam/authentication_service.go])

    Login with its second factors, registration, enrolment and the policy
    operations, on the interfaces of [Iam].  [now] is the service's clock. *)
From S2P Require Import Prelude GoStrings IamSQL Iam IamService.

(** @src pkg/modules/iam/authentication_service.go:11-11 DefaultRecoveryCodeTTL *)
Definition DefaultRecoveryCodeTTL : Z := 30 * 24 * Hour.

(** @src pkg/modules/iam/authentication_service.go:13-22 AuthenticationService *)
Record AuthenticationService (W : Type) := mkAuthenticationService {
  recoveryTTL : Z;
  base : Service W;
  repo : AuthenticationRepository W;
  codes : VerificationCodeStore W;
  mail : Mailer W;
  crypto : SecondFactorCrypto W;
  challenges : Challenges W;
  now : W -> Z;
}.
Arguments mkAuthenticationService {W}. Arguments recoveryTTL {W}. Arguments base {W}. Arguments repo {W}.
Arguments codes {W}. Arguments mail {W}. Arguments crypto {W}. Arguments challenges {W}. Arguments now {W}.

(** The base service is attached to the new one: it reads the settings
    through the same repository.
    @src pkg/modules/iam/authentication_service.go:24-32 NewAuthenticationService *)
Definition NewAuthenticationService {W} (b : Service W) (repo : AuthenticationRepository W)
    (codes : VerificationCodeStore W) (mail : Mailer W) (crypto : SecondFactorCrypto W)
    (challenges : Challenges W) (time_Now : W -> Z) (recoveryTTL : option Z) : AuthenticationService W :=
  let ttl := match recoveryTTL with
             | Some t => if 0 <? t then t else DefaultRecoveryCodeTTL
             | None => DefaultRecoveryCodeTTL
             end in
  mkAuthenticationService ttl
    (mkService (Some repo) (users_ b) (rbac b) (preferences_ b) (management b) (passwords b) (jwt b) (refresh b))
    repo codes mail crypto challenges time_Now.

(** [fields[k] = v] on the map of a [FieldValidationError]. *)
Definition set_field (k v : string) (fields : list (string * string)) : list (string * string) :=
  (k, v) :: List.filter (fun f => negb (String.eqb f.1 k)) fields.
Definition set_field_if (b : bool) (k v : string) (fields : list (string * string)) : list (string * string) :=
  if b then set_field k v fields else fields.

Section Operations.
Context {W : Type} `{Unicode} `{MailParser}.
Variable s : AuthenticationService W.

(** The unknown user is compared against a fixed hash.
    @src pkg/modules/iam/authentication_service.go:33-47 credentials *)
Definition credentials (input : LoginInput) : M W User :=
  r ← try (FindByEmail (users_ (base s)) (ToLower (TrimSpace (li_Email input))));
  let hash := match r with Ok user => user_PasswordHash user | _ => dummyPasswordHash end in
  ok ← try (of_res (pw_Verify (passwords (base s)) (li_Password input) hash));
  match r with
  | Err e => if negb (errors_is ErrNotFound e) then throw e else throw ErrInvalidCredentials
  | Panic => panic
  | Ok user =>
      match ok with
      | Ok true => if negb (user_Active user) then throw ErrInvalidCredentials else mret user
      | _ => throw ErrInvalidCredentials
      end
  end.

Definition no_challenge (pair : TokenPair) : LoginResult := mkLoginResult pair "" "" 0.

(** @src pkg/modules/iam/authentication_service.go:48-113 Login *)
Definition Login (input : LoginInput) : M W LoginResult :=
  state ← repo_Authentication (repo s);
  user ← credentials input;
  if bool_decide (st_InitializedAt state = None) then
    if is_empty (st_BootstrapAdminUserID state) ||
       negb (String.eqb (user_ID user) (st_BootstrapAdminUserID state))
    then throw ErrInvalidCredentials
    else
      pair ← issuePair (base s) (user_ID user);
      r ← try (repo_Initialize (repo s) (user_ID user));
      match r with
      | Err e =>
          _ ← ignore (Logout (base s) (RefreshToken pair));
          throw e
      | _ => mret (no_challenge pair)
      end
  else if negb (PasswordLoginEnabled (st_Settings state)) then throw ErrInvalidCredentials
  else
    security ← repo_Security (repo s) (user_ID user);
    let mode := Mode (sec_Settings security) in
    if String.eqb mode "email" then
      if bool_decide (user_EmailVerifiedAt user = None) then throw ErrInvalidCredentials
      else if is_empty (li_EmailCode input) then throw ErrEmailCodeRequired
      else if negb (is_email_code (li_EmailCode input))
      then throw (EFields [("email_code", "must contain six digits")])
      else
        _ ← code_VerifyAndConsume (codes s) (user_Email user) EmailCodeLogin (li_EmailCode input);
        pair ← issuePair (base s) (user_ID user);
        mret (no_challenge pair)
    else if String.eqb mode "totp" then
      if negb (TOTPEnabled (sec_Settings security)) then throw ErrInvalidCredentials
      else
        current ← FindByID (users_ (base s)) (user_ID user);
        if negb (user_Active current) || negb (String.eqb (user_PasswordHash current) (user_PasswordHash user))
        then throw ErrInvalidCredentials
        else
          challenge ← ch_Issue (challenges s) (mkChallenge (user_ID user) (Version security));
          mret (mkLoginResult (mkTokenPair "" "" "" 0) "totp_required" challenge 300)
    else
      pair ← issuePair (base s) (user_ID user);
      mret (no_challenge pair).

(** A time that is set and not past. *)
Definition unexpired (t : option Z) (w : W) : bool :=
  match t with Some t => after t (now s w) | None => false end.

(** @src pkg/modules/iam/authentication_service.go:386-417 consumeProof *)
Definition consumeProof (id : string) (security : SecurityState) (credential code recovery : string) :
    M W unit :=
  if Bool.eqb (is_empty code) (is_empty recovery) then throw ErrInvalidCode
  else if negb (is_empty code) then
    secret ← of_res (Decrypt (crypto s) (default "" (Secret security)) id);
    w ← get_world;
    step ← of_res (Verify (crypto s) secret code (now s w) (LastTOTPStep security));
    repo_ConsumeCredential (repo s) id credential (Version security) step ""
  else
    w ← get_world;
    if negb (unexpired (RecoveryCodesExpiresAt (sec_Settings security)) w) then throw ErrInvalidCode
    else
      let hash := RecoveryHash (crypto s) recovery in
      if negb (existsb (fun h => String.eqb h hash) (RecoveryHashes security)) then throw ErrInvalidCode
      else repo_ConsumeCredential (repo s) id credential (Version security) (-1) hash.

(** @src pkg/modules/iam/authentication_service.go:114-157 VerifyLogin *)
Definition VerifyLogin (input : VerifyInput) : M W TokenPair :=
  let code := vi_Code input in
  let fields := set_field_if (is_empty (vi_ChallengeID input)) "challenge_id" "required" [] in
  let fields := set_field_if (Bool.eqb (is_empty code) (is_empty (vi_RecoveryCode input)))
                  "code" "provide either code or recovery_code" fields in
  let fields := set_field_if (negb (is_empty code) && negb (is_email_code code))
                  "code" "must contain six digits" fields in
  if (0 <? length fields)%nat then throw (EFields fields)
  else
    challenge ← ch_Attempt (challenges s) (vi_ChallengeID input);
    r ← try (FindByID (users_ (base s)) (ch_UserID challenge));
    match r with
    | Ok user =>
        if negb (user_Active user) then throw ErrInvalidCredentials
        else
          state ← repo_Authentication (repo s);
          if bool_decide (st_InitializedAt state = None) || negb (PasswordLoginEnabled (st_Settings state))
          then throw ErrInvalidCredentials
          else
            security ← repo_Security (repo s) (user_ID user);
            if negb (String.eqb (Mode (sec_Settings security)) "totp") ||
               negb (TOTPEnabled (sec_Settings security)) ||
               negb (Version security =? ch_Version challenge)
            then throw ErrInvalidCode
            else
              _ ← consumeProof (user_ID user) security (vi_ChallengeID input) code (vi_RecoveryCode input);
              _ ← ch_Consume (challenges s) (vi_ChallengeID input);
              issuePair (base s) (user_ID user)
    | _ => throw ErrInvalidCredentials
    end.

(** The text of a normalised address: empty when it is not one. *)
Definition normalized (email : string) : string := default "" (normalizeEmail email).

(** @src pkg/modules/iam/authentication_service.go:158-190 RequestEmailCode *)
Definition RequestEmailCode (email purpose ip : string) : M W unit :=
  state ← repo_Authentication (repo s);
  if String.eqb purpose "register" &&
     (bool_decide (st_InitializedAt state = None) || negb (RegistrationEnabled (st_Settings state)))
  then throw ErrAuthenticationForbidden
  else
    let fields := set_field_if (negb (String.eqb purpose EmailCodeRegister) &&
                                negb (String.eqb purpose EmailCodeLogin))
                    "purpose" "must be register or login" [] in
    let fields := set_field_if (bool_decide (normalizeEmail email = None))
                    "email" "must be a valid email address" fields in
    let email := normalized email in
    if (0 <? length fields)%nat then throw (EFields fields)
    else
      code ← code_Issue (codes s) email purpose ip;
      r ← try (mail s email purpose code);
      match r with
      | Err e => if errors_is ErrMailRejected e then mret tt else throw e
      | _ => mret tt
      end.

(** @src pkg/modules/iam/authentication_service.go:191-252 Register *)
Definition Register (input : RegisterInput) : M W User :=
  state ← repo_Authentication (repo s);
  let settings := st_Settings state in
  if bool_decide (st_InitializedAt state = None) || negb (RegistrationEnabled settings)
  then throw ErrAuthenticationForbidden
  else
    let email := normalized (reg_Email input) in
    let username := TrimSpace (reg_Username input) in
    let fields := set_field_if (bool_decide (normalizeEmail (reg_Email input) = None))
                    "email" "must be a valid email address" [] in
    let n := RuneCountInString username in
    let fields := set_field_if ((n =? 0) || (100 <? n)) "username" "must contain 1 to 100 characters" fields in
    let n := RuneCountInString (reg_Password input) in
    let fields := set_field_if ((n <? 12) || (1024 <? n)) "password" "must contain 12 to 1024 characters" fields in
    if (0 <? length fields)%nat then throw (EFields fields)
    else
      _ ← if (0 <? length (AllowedEmailDomains settings))%nat then
            match Cut email "@" with
            | (_, domain, true) =>
                if negb (existsb (fun d => EqualFold d domain) (AllowedEmailDomains settings))
                then throw ErrAuthenticationForbidden else mret tt
            | _ => panic
            end
          else mret tt;
      receipt ← if RegistrationEmailVerificationRequired settings then
                  if is_empty (reg_EmailCode input) then throw ErrEmailCodeRequired
                  else if negb (is_email_code (reg_EmailCode input))
                  then throw (EFields [("email_code", "must contain six digits")])
                  else
                    r ← code_Verify (codes s) email EmailCodeRegister (reg_EmailCode input);
                    mret (Some r)
                else mret None;
      hash ← pw_Hash (passwords (base s)) (reg_Password input);
      user ← repo_Register (repo s) (mkCreateUserInput email username hash "") receipt;
      _ ← match receipt with
          | Some r => ignore (code_Consume (codes s) email EmailCodeRegister r)
          | None => mret tt
          end;
      mret user.

(** @src pkg/modules/iam/authentication_service.go:253-256 Settings *)
Definition Settings : M W AuthenticationSettings :=
  v ← repo_Authentication (repo s);
  mret (st_Settings v).

(** @src pkg/modules/iam/authentication_service.go:257-268 PutSettings *)
Definition PutSettings (v : AuthenticationSettings) : M W unit :=
  _ ← of_option_error (Settings_Validate v);
  repo_PutAuthentication (repo s)
    (mkAuthenticationSettings (PasswordLoginEnabled v) (RegistrationEnabled v)
       (RegistrationEmailVerificationRequired v) (map ToLower (AllowedEmailDomains v))).

(** The [SecuritySettings] of a state with some fields replaced. *)
Definition with_settings (v : SecurityState) (settings : SecuritySettings) : SecurityState :=
  mkSecurityState settings (Version v) (Secret v) (PendingSecret v) (PendingExpiresAt v) (LastTOTPStep v)
    (RecoveryHashes v).
Definition with_mode (mode : string) (v : SecuritySettings) : SecuritySettings :=
  mkSecuritySettings (RecoveryCodesExpiresAt v) mode (TOTPEnabled v) (RecoveryCodesRemaining v).

(** An error of the repository carries the zero value, whose settings show no
    recovery codes.
    @src pkg/modules/iam/authentication_service.go:269-278 Security *)
Definition Security (id : string) : M W SecuritySettings :=
  _ ← requireActiveUser (base s) id;
  v ← repo_Security (repo s) id;
  w ← get_world;
  let settings := sec_Settings v in
  if negb (unexpired (RecoveryCodesExpiresAt settings) w)
  then mret (mkSecuritySettings (RecoveryCodesExpiresAt settings) (Mode settings) (TOTPEnabled settings) 0)
  else mret settings.

(** @src pkg/modules/iam/authentication_service.go:279-309 PutSecurity *)
Definition PutSecurity (id mode : string) : M W SecuritySettings :=
  _ ← requireInitialized (base s);
  user ← FindByID (users_ (base s)) id;
  if negb (user_Active user) then throw ErrInvalidCredentials
  else
    security ← repo_Security (repo s) id;
    let enabled := TOTPEnabled (sec_Settings security) in
    if negb (String.eqb mode "default") && negb (String.eqb mode "email") && negb (String.eqb mode "totp")
    then throw ErrInvalidUserInput
    else if enabled && negb (String.eqb mode "totp") then throw ErrAuthenticationForbidden
    else if String.eqb mode "email" && bool_decide (user_EmailVerifiedAt user = None)
    then throw ErrEmailNotVerified
    else if String.eqb mode "totp" && negb enabled then throw ErrAuthenticationForbidden
    else
      let settings := with_mode mode (sec_Settings security) in
      _ ← repo_SaveSecurity (repo s) id (with_settings security settings) (Version security);
      mret settings.

(** The password of the account, asked again: an error of the hash and a
    wrong password look the same. *)
Definition verify_password (user : User) (password : string) : M W unit :=
  ok ← try (of_res (pw_Verify (passwords (base s)) password (user_PasswordHash user)));
  match ok with
  | Ok true => mret tt
  | _ => throw ErrInvalidCredentials
  end.

(** @src pkg/modules/iam/authentication_service.go:310-347 Enroll *)
Definition Enroll (id : string) (proof : SecurityProof) : M W Enrollment :=
  _ ← requireInitialized (base s);
  user ← FindByID (users_ (base s)) id;
  if negb (user_Active user) then throw ErrInvalidCredentials
  else
    _ ← verify_password user (sp_Password proof);
    security ← repo_Security (repo s) id;
    if TOTPEnabled (sec_Settings security) then throw ErrSecurityConflict
    else
      '(secret, uri) ← NewSecret (crypto s) (user_Email user);
      encrypted ← Encrypt (crypto s) secret id;
      w ← get_world;
      let expiry := now s w + 10 * Minute in
      _ ← repo_SaveSecurity (repo s) id
            (mkSecurityState (sec_Settings security) (Version security) (Secret security) (Some encrypted)
               (Some expiry) (LastTOTPStep security) (RecoveryHashes security)) (Version security);
      mret (mkEnrollment secret uri 600).

(** @src pkg/modules/iam/authentication_service.go:348-385 Confirm *)
Definition Confirm (id code : string) : M W (list string) :=
  _ ← requireActiveUser (base s) id;
  security ← repo_Security (repo s) id;
  w ← get_world;
  if TOTPEnabled (sec_Settings security) || negb (unexpired (PendingExpiresAt security) w)
  then throw ErrInvalidCode
  else
    secret ← of_res (Decrypt (crypto s) (default "" (PendingSecret security)) id);
    step ← of_res (Verify (crypto s) secret code (now s w) (-1));
    '(codes, hashes) ← RecoveryCodes (crypto s);
    w ← get_world;
    let expiry := now s w + recoveryTTL s in
    _ ← repo_SaveSecurity (repo s) id
          (mkSecurityState (mkSecuritySettings (Some expiry) "totp" true (Z.of_nat (length hashes)))
             (Version security) (PendingSecret security) None None step hashes) (Version security);
    mret codes.

(** The disabled state, saved at the version the consumed proof advanced to. *)
Definition disabled (security : SecurityState) : SecurityState :=
  mkSecurityState (mkSecuritySettings None "default" false 0) (int64 (Version security + 1)) None None None (-1) [].

(** @src pkg/modules/iam/authentication_service.go:418-459 Disable *)
Definition Disable (id : string) (proof : SecurityProof) : M W unit :=
  _ ← requireInitialized (base s);
  user ← FindByID (users_ (base s)) id;
  if negb (user_Active user) then throw ErrInvalidCredentials
  else
    _ ← verify_password user (sp_Password proof);
    security ← repo_Security (repo s) id;
    if negb (TOTPEnabled (sec_Settings security)) then RevokeAll (base s) id
    else
      _ ← consumeProof id security "" (sp_Code proof) (sp_RecoveryCode proof);
      _ ← repo_SaveSecurity (repo s) id (disabled security) (Version (disabled security));
      RevokeAll (base s) id.

(** @src pkg/modules/iam/authentication_service.go:498-510 emailVerificationUser *)
Definition emailVerificationUser (id : string) : M W User :=
  _ ← requireInitialized (base s);
  user ← FindByID (users_ (base s)) id;
  if negb (user_Active user) then throw ErrInactiveUser else mret user.

(** @src pkg/modules/iam/authentication_service.go:462-475 RequestEmailVerification *)
Definition RequestEmailVerification (id ip : string) : M W unit :=
  user ← emailVerificationUser id;
  code ← code_Issue (codes s) (user_Email user) EmailCodeVerify ip;
  r ← try (mail s (user_Email user) EmailCodeVerify code);
  match r with
  | Err e => if errors_is ErrMailRejected e then throw ErrAuthenticationUnavailable else throw e
  | _ => mret tt
  end.

(** @src pkg/modules/iam/authentication_service.go:477-496 VerifyEmail *)
Definition VerifyEmail (id code : string) : M W User :=
  user ← emailVerificationUser id;
  if negb (is_email_code code) then throw (EFields [("email_code", "must contain six digits")])
  else
    receipt ← code_Verify (codes s) (user_Email user) EmailCodeVerify code;
    verified ← repo_VerifyEmail (repo s) id (user_Email user) receipt;
    _ ← ignore (code_Consume (codes s) (user_Email user) EmailCodeVerify receipt);
    mret verified.

End Operations.

(** ** [Service.Login], which delegates when a service is attached *)

(** @src pkg/modules/iam/service.go:36-66 Login *)
Definition Service_Login {W} `{Unicode} (s : Service W) (attached : option (AuthenticationService W))
    (email password : string) : M W TokenPair :=
  match attached with
  | Some a =>
      result ← Login a (mkLoginInput email password "");
      if String.eqb (lr_Status result) "totp_required" then throw ErrInvalidCredentials
      else mret (lr_TokenPair result)
  | None =>
      r ← try (FindByEmail (users_ s) (ToLower (TrimSpace email)));
      let hash := match r with Ok user => user_PasswordHash user | _ => dummyPasswordHash end in
      ok ← try (of_res (pw_Verify (passwords s) password hash));
      match r with
      | Err err => if errors_is ErrNotFound err then throw ErrInvalidCredentials else throw err
      | Panic => panic
      | Ok user =>
          match ok with
          | Err e => throw e
          | Ok false => throw ErrInvalidCredentials
          | Ok true => if negb (user_Active user) then throw ErrInactiveUser else issuePair s (user_ID user)
          | Panic => panic
          end
      end
  end.
