(* ===== verification/Identity.v ===== *)
(** * The identity services on PostgreSQL ([internal/app/api.go])

    The composition the API server builds: the services of [IamService] and
    [AuthenticationService] on the stores of [IamStore].  The other
    collaborators (password hashing, tokens, sessions, codes, mail, factor
    cryptography and challenges) are [Parts]; [PartsLaws] says that they do
    not write the identity tables. *)
From S2P Require Import Prelude GoStrings Pagination Postgres TaskSQL IamSQL Iam IamStore IamService AuthenticationService.

Record Parts (W : Type) := mkParts {
  part_passwords : PasswordService W;
  part_jwt : Tokens W;
  part_refresh : Sessions W;
  part_codes : VerificationCodeStore W;
  part_mail : Mailer W;
  part_crypto : SecondFactorCrypto W;
  part_challenges : Challenges W;
}.
Arguments part_passwords {W}. Arguments part_jwt {W}. Arguments part_refresh {W}. Arguments part_codes {W}.
Arguments part_mail {W}. Arguments part_crypto {W}. Arguments part_challenges {W}.

Section Assembly.
Context {W : Type} `{Pg W IamDB} `{UuidScan} `{Ilike} `{Collation}.
Variable clock : W -> Z.
Variable sha256 : string -> string.

(** The store implements four interfaces of the module.
    @src pkg/platform/database/iamstore/repository.go:49-67 Store *)
Definition PostgresUsers : UserRepository W :=
  mkUserRepository W store_FindByEmail store_FindByID store_List store_Create store_SetActive.
Definition PostgresRBAC : RBACRepository W :=
  mkRBACRepository W store_PermissionsForUser store_Roles store_Permissions store_AssignRole store_GrantPermission.
Definition PostgresPreferences : PreferencesRepository W :=
  mkPreferencesRepository W store_GetPreferences store_PutPreferences.
Definition PostgresManagement : ManagementRepository W :=
  mkManagementRepository W (store_UpdateUser true) (store_UpdateUserPassword true) (store_SetUserActive true)
    (store_ReplaceUserRoles true) store_Role store_CreateRole store_UpdateRole store_DeleteRole
    (store_ReplaceRolePermissions true).

(** @src pkg/platform/database/iamstore/authentication.go:18-25 AuthenticationStore *)
Definition PostgresAuthentication : AuthenticationRepository W :=
  mkAuthenticationRepository W store_Authentication store_PutAuthentication store_Initialize store_Security
    (store_SaveSecurity true) (store_Register true clock) (store_VerifyEmail true clock)
    (store_ConsumeCredential true clock sha256).

(** The authentication service, whose [base] is the service attached to it.
    @src internal/app/api.go:131-146 BuildAPI *)
Definition BuildAuthentication (parts : Parts W) (recoveryTTL : Z) : AuthenticationService W :=
  NewAuthenticationService
    (NewServiceWithManagement PostgresUsers (Some PostgresRBAC) (Some PostgresPreferences)
       (Some PostgresManagement) (part_passwords parts) (part_jwt parts) (part_refresh parts))
    PostgresAuthentication (part_codes parts) (part_mail parts) (part_crypto parts) (part_challenges parts)
    clock (Some recoveryTTL).
End Assembly.

(** Nothing but the stores writes the identity tables. *)
Class PartsLaws {W : Type} `{Pg W IamDB} (parts : Parts W) := {
  Hash_tables : forall p, within (same pg_tables) (pw_Hash (part_passwords parts) p);
  jwt_tables : forall u, within (same pg_tables) (jwt_Issue (part_jwt parts) u);
  Issue_tables : forall u, within (same pg_tables) (sess_Issue (part_refresh parts) u);
  Lookup_tables : forall t, within (same pg_tables) (sess_Lookup (part_refresh parts) t);
  Rotate_tables : forall t u, within (same pg_tables) (sess_Rotate (part_refresh parts) t u);
  Revoke_tables : forall t, within (same pg_tables) (sess_Revoke (part_refresh parts) t);
  RevokeAll_tables : forall u, within (same pg_tables) (sess_RevokeAll (part_refresh parts) u);
  code_Issue_tables : forall e p ip, within (same pg_tables) (code_Issue (part_codes parts) e p ip);
  code_Verify_tables : forall e p c, within (same pg_tables) (code_Verify (part_codes parts) e p c);
  code_VerifyAndConsume_tables : forall e p c,
    within (same pg_tables) (code_VerifyAndConsume (part_codes parts) e p c);
  code_Consume_tables : forall e p r, within (same pg_tables) (code_Consume (part_codes parts) e p r);
  mail_tables : forall e p c, within (same pg_tables) (part_mail parts e p c);
  NewSecret_tables : forall e, within (same pg_tables) (NewSecret (part_crypto parts) e);
  Encrypt_tables : forall x y, within (same pg_tables) (Encrypt (part_crypto parts) x y);
  RecoveryCodes_tables : within (same pg_tables) (RecoveryCodes (part_crypto parts));
  ch_Issue_tables : forall c, within (same pg_tables) (ch_Issue (part_challenges parts) c);
  ch_Attempt_tables : forall c, within (same pg_tables) (ch_Attempt (part_challenges parts) c);
  ch_Consume_tables : forall c, within (same pg_tables) (ch_Consume (part_challenges parts) c);
}.

(** ** What the store operations return *)
Section Reads.
Context {W : Type} `{PgLaws W IamDB} `{UuidScan} `{Ilike} `{Collation}.

Lemma exec_one_row {A} (q : IamDB -> option A) (w w' : W) a :
  pg_exec (fun _ d => one_row (q d) d) w = (Ok a, w') ->
  q (pg_tables w) = Some a /\ pg_tables w' = pg_tables w.
Proof. intros E. apply exec_Ok_inv in E as (env & _ & [? ?]%one_row_inv). done. Qed.

Lemma of_res_bind_inv {A B} (r : res A) (k : A -> M W B) w b w' :
  (of_res r ≫= k) w = (Ok b, w') -> exists a, r = Ok a /\ k a w = (Ok b, w').
Proof. rewrite M_bind_run. destruct r; simpl; [eauto|discriminate|discriminate]. Qed.

Lemma store_FindByID_Ok id (w w' : W) u :
  store_FindByID id w = (Ok u, w') ->
  exists uuid row, parseUUID id = Ok uuid /\ users (pg_tables w) !! uuid = Some row /\
    u = userFromDB row /\ pg_tables w' = pg_tables w.
Proof.
  intros (uuid & Hp & E)%of_res_bind_inv.
  apply M_bind_Ok_inv in E as (row & w1 & E%mapped_Ok_inv%exec_one_row & [= <- <-]).
  destruct E. by exists uuid, row.
Qed.

Lemma store_FindByEmail_Ok email (w w' : W) u :
  store_FindByEmail email w = (Ok u, w') ->
  exists uuid row, users (pg_tables w) !! uuid = Some row /\ u_Email row = email /\
    u = userFromDB row /\ pg_tables w' = pg_tables w.
Proof.
  intros (row & w1 & E%mapped_Ok_inv%exec_one_row & [= <- <-])%M_bind_Ok_inv.
  destruct E as [[(uuid & Hu)%elem_of_rows He%String.eqb_eq]%first_Some Ht]. by exists uuid, row.
Qed.

Lemma store_Authentication_Ok (w w' : W) st :
  store_Authentication w = (Ok st, w') ->
  let a := authentication_settings (pg_tables w) in
  pg_tables w' = pg_tables w /\
  st_InitializedAt st = a_InitializedAt a /\
  PasswordLoginEnabled (st_Settings st) = a_PasswordLoginEnabled a /\
  RegistrationEnabled (st_Settings st) = a_RegistrationEnabled a.
Proof.
  intros (r & w1 & E & [= <- <-])%M_bind_Ok_inv.
  apply exec_Ok_inv in E as (env & _ & [= <- Ht]). rewrite <- Ht. done.
Qed.

Lemma store_Security_Ok id (w w' : W) v :
  store_Security id w = (Ok v, w') ->
  exists uuid row, parseUUID id = Ok uuid /\ v = securityFromDB row /\
    security (pg_tables w') !! uuid = Some row /\
    users (pg_tables w') = users (pg_tables w) /\
    authentication_settings (pg_tables w') = authentication_settings (pg_tables w) /\
    (forall s, security (pg_tables w) !! uuid = Some s -> pg_tables w' = pg_tables w /\ s = row) /\
    (security (pg_tables w) !! uuid = None -> row = default_security).
Proof.
  intros (uuid & Hp & E)%of_res_bind_inv. exists uuid.
  apply M_bind_Ok_inv in E as ([] & w1 & E1 & E).
  apply M_bind_Ok_inv in E as (row & w2 & [Hrow Ht2]%exec_one_row & [= <- <-]).
  apply exec_Ok_inv in E1 as (env & _ & E1). exists row. rewrite Ht2.
  apply EnsureSecuritySettings_effect in E1 as [[Ht1 [s0 Hs0]]|(Hn & _ & Ht1)]; rewrite Ht1 in *.
  - split_and!; [done|done|done|done|done|intros s Hs; split; [done|congruence]|congruence].
  - simpl in Hrow. rewrite lookup_insert_eq in Hrow.
    split_and!; [done|done|simpl; rewrite lookup_insert_eq; congruence|done|done|congruence|congruence].
Qed.

(** The operations that only read. *)
Lemma read_tables {A} (s : stmt IamDB A) :
  (forall env d a d', s env d = Ok (a, d') -> d' = d) -> within (same (pg_tables (W := W))) (pg_exec s).
Proof. intros Hs. by apply exec_read_only. Qed.

Lemma one_row_tables {A} (q : IamDB -> option A) :
  within (same (pg_tables (W := W))) (pg_exec (fun _ d => one_row (q d) d)).
Proof. apply read_tables. by intros env d a d' [_ ->]%one_row_inv. Qed.

Lemma pure_tables {A} (q : IamDB -> A) : within (same (pg_tables (W := W))) (pg_exec (fun _ d => Ok (q d, d))).
Proof. apply read_tables. by intros env d a d' [= _ <-]. Qed.

Lemma FindByID_tables id : within (same (pg_tables (W := W))) (store_FindByID id).
Proof.
  unfold store_FindByID. apply within_bind; [apply _|solve_within|intros uuid].
  apply within_bind; [apply _|apply within_mapped, one_row_tables|solve_within].
Qed.

Lemma FindByEmail_tables email : within (same (pg_tables (W := W))) (store_FindByEmail email).
Proof. unfold store_FindByEmail. apply within_bind; [apply _|apply within_mapped, one_row_tables|solve_within]. Qed.

Lemma Authentication_tables : within (same (pg_tables (W := W))) store_Authentication.
Proof. unfold store_Authentication. apply within_bind; [apply _|apply pure_tables|solve_within]. Qed.

Lemma List_tables f l o : within (same (pg_tables (W := W))) (store_List f l o).
Proof.
  unfold store_List. apply within_bind; [apply _| |intros rows].
  { apply read_tables. intros env d a d' E. unfold ListUsers in E. res_inv E. by injection E as _ <-. }
  apply within_bind; [apply _|apply pure_tables|intros total].
  apply within_bind; [apply _| |solve_within]. apply within_map_each; [apply _|intros row].
  apply within_bind; [apply _|apply within_mapped, pure_tables|solve_within].
Qed.

Lemma PermissionsForUser_tables id : within (same (pg_tables (W := W))) (store_PermissionsForUser id).
Proof. unfold store_PermissionsForUser. apply within_bind; [apply _|solve_within|intros; apply pure_tables]. Qed.

Lemma Roles_tables : within (same (pg_tables (W := W))) store_Roles.
Proof. unfold store_Roles. apply within_bind; [apply _|apply pure_tables|solve_within]. Qed.

Lemma Permissions_tables : within (same (pg_tables (W := W))) store_Permissions.
Proof. unfold store_Permissions. apply within_bind; [apply _|apply pure_tables|solve_within]. Qed.

Lemma Role_tables id : within (same (pg_tables (W := W))) (store_Role id).
Proof.
  unfold store_Role. apply within_bind; [apply _|solve_within|intros r].
  apply within_bind; [apply _|apply within_mapped, one_row_tables|intros x].
  apply within_bind; [apply _|apply within_mapped, pure_tables|solve_within].
Qed.

Lemma GetPreferences_tables id : within (same (pg_tables (W := W))) (store_GetPreferences id).
Proof.
  unfold store_GetPreferences. apply within_bind; [apply _|solve_within|intros r].
  apply within_bind; [apply _|apply within_mapped, one_row_tables|solve_within].
Qed.

Lemma PermissionsForUser_Ok id (w w' : W) l :
  store_PermissionsForUser id w = (Ok l, w') ->
  exists uuid, parseUUID id = Ok uuid /\ pg_tables w' = pg_tables w /\
    forall name, name ∈ l <-> exists k p, permissions (pg_tables w) !! k = Some p /\
      granted (pg_tables w) uuid p = true /\ p_Name p = name.
Proof.
  intros (uuid & Hp & E)%of_res_bind_inv. exists uuid. split; [done|].
  apply exec_Ok_inv in E as (env & _ & [= <- Ht]). split; [done|].
  intros name. rewrite elem_of_order_by, elem_of_remove_dups, list_elem_of_fmap. split.
  - intros (p & -> & [(k & Hk)%elem_of_rows Hg]%elem_of_where). by exists k, p.
  - intros (k & p & Hk & Hg & <-). exists p. split; [done|]. apply elem_of_where. split; [|done].
    apply elem_of_rows. by exists k.
Qed.
End Reads.

(** ** The services *)
Section Services.
Context {W : Type} `{PgLaws W IamDB} `{UuidScanLaws} `{Ilike} `{Collation} `{Unicode} `{MailParser}.
Context (clock : W -> Z) (sha256 : string -> string) (parts : Parts W) `{!PartsLaws parts} (recoveryTTL : Z).

Definition svc : AuthenticationService W := BuildAuthentication clock sha256 parts recoveryTTL.

Lemma parse_text d uuid row :
  wf d -> users d !! uuid = Some row -> parseUUID (user_ID (userFromDB row)) = Ok uuid.
Proof.
  intros Hwf Hu. unfold parseUUID, userFromDB. simpl.
  rewrite (wf_user_id d Hwf _ _ Hu), uuid_scan_text; [done|by eapply (wf_ids d Hwf)].
Qed.

(** Running one of the parts leaves the tables. *)
Lemma part_run {A} (m : M W A) w r w' :
  within (same pg_tables) m -> m w = (r, w') -> pg_tables w' = pg_tables w.
Proof. intros Hm E. exact (within_run _ _ _ _ _ Hm E). Qed.

(** [credentials]: who it lets through. *)
Lemma credentials_Ok input (w w' : W) user :
  credentials svc input w = (Ok user, w') ->
  pg_tables w' = pg_tables w /\
  exists uuid row, users (pg_tables w) !! uuid = Some row /\ user = userFromDB row /\
    u_Email row = ToLower (TrimSpace (li_Email input)) /\ u_IsActive row = true /\
    pw_Verify (part_passwords parts) (li_Password input) (u_PasswordHash row) = Ok true.
Proof.
  unfold credentials. intros E.
  apply M_bind_Ok_inv in E as (r & w1 & Er & E). simpl in Er.
  assert (pg_tables w1 = pg_tables w) as Ht1
    by (eapply part_run; [|exact Er]; apply within_try, FindByEmail_tables).
  apply M_bind_Ok_inv in E as (ok & w2 & Eok & E).
  apply try_inv in Er as [[? _]|(x & [= <-] & _ & Er)]; [done|].
  destruct r as [u|e|]; [|by destruct (negb _)|done].
  apply store_FindByEmail_Ok in Er as (uuid & row & Hrow & He & -> & _).
  apply try_inv in Eok as [[? _]|(x & [= <-] & _ & Eok)]; [done|].
  injection Eok as Hok <-. destruct ok as [[]|e|]; [|done..].
  destruct (user_Active (userFromDB row)) eqn:Ha; simpl in E; [|done]. injection E as <- <-.
  split; [done|]. exists uuid, row. by split_and!.
Qed.

Lemma issuePair_Ok u (w w' : W) p :
  issuePair (base svc) u w = (Ok p, w') -> pg_tables w' = pg_tables w.
Proof.
  intros E. eapply part_run; [|exact E]. unfold issuePair. simpl.
  apply within_bind; [apply _|apply jwt_tables|intros a].
  apply within_bind; [apply _|apply Issue_tables|solve_within].
Qed.

(** C16: what a login proves.  On an initialised system a login that succeeds
    was for an active user with that address and a password its hash
    accepts, with password login enabled.  If the user's policy is [totp] no
    token is returned, only a challenge to answer; if it is [email] the
    address is verified and the code was accepted and consumed. *)
Theorem Login_requires_factors input (w w' : W) r :
  wf (pg_tables w) ->
  a_InitializedAt (authentication_settings (pg_tables w)) <> None ->
  Login svc input w = (Ok r, w') ->
  a_PasswordLoginEnabled (authentication_settings (pg_tables w)) = true /\
  exists uuid row s, users (pg_tables w) !! uuid = Some row /\
    u_Email row = ToLower (TrimSpace (li_Email input)) /\ u_IsActive row = true /\
    pw_Verify (part_passwords parts) (li_Password input) (u_PasswordHash row) = Ok true /\
    security (pg_tables w') !! uuid = Some s /\
    (s_Mode s = "totp" -> lr_Status r = "totp_required" /\ lr_TokenPair r = mkTokenPair "" "" "" 0) /\
    (s_Mode s = "email" -> u_EmailVerifiedAt row <> None /\ is_email_code (li_EmailCode input) = true /\
       exists w1 w2, code_VerifyAndConsume (part_codes parts) (u_Email row) EmailCodeLogin
                       (li_EmailCode input) w1 = (Ok tt, w2)).
Proof.
  intros Hwf Hinit E. unfold Login in E. simpl in E.
  apply M_bind_Ok_inv in E as (state & w1 & (Ht1 & Hi & Hp & _)%store_Authentication_Ok & E).
  apply M_bind_Ok_inv in E as (user & w2 & (Ht2 & uuid & row & Hrow & -> & He & Ha & Hpw)%credentials_Ok & E).
  rewrite Ht1 in *. rewrite Hi in E. rewrite bool_decide_eq_false_2 in E by done.
  destruct (PasswordLoginEnabled (st_Settings state)) eqn:Hlogin; simpl in E; [|done].
  split; [congruence|]. exists uuid, row.
  apply M_bind_Ok_inv in E as (v & w3 & (uuid' & s & Hparse & -> & Hs & _)%store_Security_Ok & E).
  assert (uuid' = uuid) as ->.
  { assert (@Ok string uuid' = Ok uuid) as [= ->]; [|done].
    rewrite <- Hparse. by apply (parse_text (pg_tables w)). }
  exists s. simpl in E. rewrite <- Hs.
  destruct (String.eqb_spec (s_Mode s) "email") as [Hm|Hm].
  - go_inv E. apply negb_false_iff in Hb1. bool_prop. destruct a.
    apply (part_run _ _ _ _ (code_VerifyAndConsume_tables _ _ _)) in E0 as Ht4.
    apply issuePair_Ok in E1. rewrite E1, Ht4. split_and!; try done.
    + intros Ht. rewrite Hm in Ht. done.
    + intros _. split_and!; [done|done|by eexists _, _].
  - destruct (String.eqb_spec (s_Mode s) "totp") as [Hm'|Hm'].
    + go_inv E. apply (part_run _ _ _ _ (FindByID_tables _)) in E0.
      apply (part_run _ _ _ _ (ch_Issue_tables _)) in E1. rewrite E1, E0. by split_and!.
    + go_inv E. apply issuePair_Ok in E0. rewrite E0. by split_and!.
Qed.
(** [consumeProof]: the proof it spent. *)
Lemma consumeProof_Ok id uuid security_ credential code recovery s (w w' : W) x :
  parseUUID id = Ok uuid -> security (pg_tables w) !! uuid = Some s ->
  security_ = securityFromDB s ->
  consumeProof svc id security_ credential code recovery w = (Ok x, w') ->
  exists step hash s', security (pg_tables w') !! uuid = Some s' /\ spent step hash s s' /\
    if is_empty code
    then hash = RecoveryHash (part_crypto parts) recovery
    else hash = "" /\ exists secret, Decrypt (part_crypto parts) (default "" (s_TotpSecret s)) id = Ok secret /\
         Verify (part_crypto parts) secret code (clock w) (s_LastTotpStep s) = Ok step.
Proof.
  intros Hid Hs -> E. unfold consumeProof in E. simpl in E.
  assert (forall credential version step hash (w w' : W) x,
    store_ConsumeCredential true clock sha256 id credential version step hash w = (Ok x, w') ->
    security (pg_tables w) !! uuid = Some s ->
    exists s', security (pg_tables w') !! uuid = Some s' /\ spent step hash s s') as Hconsume.
  { intros c v step hash w1 w2 y (u & t & t' & Hu & Ht & _ & Ht' & Hsp)%ConsumeCredential_Ok_inv Hs1.
    rewrite Hid in Hu. injection Hu as <-. rewrite Hs1 in Ht. injection Ht as <-. by exists t'. }
  destruct (is_empty code) eqn:Hc; simpl in E.
  - destruct (is_empty recovery) eqn:Hr; [done|]. simpl in E.
    go_inv E. injection E0 as <- <-. destruct (Hconsume _ _ _ _ _ _ _ E Hs) as (s' & Hs' & Hsp).
    by eexists _, _, s'.
  - destruct (is_empty recovery) eqn:Hr; [|done]. simpl in E.
    apply of_res_bind_inv in E as (secret & Hdec & E).
    apply M_bind_Ok_inv in E as (w1 & w2 & [= <- <-] & E).
    apply of_res_bind_inv in E as (step & Hver & E).
    destruct (Hconsume _ _ _ _ _ _ _ E Hs) as (s' & Hs' & Hsp).
    exists step, "", s'. split_and!; [done|done|done|]. by exists secret.
Qed.

End Services.

(** ** Every operation of the services *)
Inductive svc_op :=
  | do_Login (input : LoginInput) | do_VerifyLogin (input : VerifyInput)
  | do_RequestEmailCode (email purpose ip : string) | do_Register (input : RegisterInput)
  | do_Settings | do_PutSettings (v : AuthenticationSettings)
  | do_Security (id : string) | do_PutSecurity (id mode : string)
  | do_Enroll (id : string) (proof : SecurityProof) | do_Confirm (id code : string)
  | do_Disable (id : string) (proof : SecurityProof)
  | do_RequestEmailVerification (id ip : string) | do_VerifyEmail (id code : string)
  | do_Refresh (raw : string) | do_Logout (raw : string) | do_RevokeAll (id : string)
  | do_CurrentUser (id : string) | do_Preferences (id : string)
  | do_PutPreferences (id : string) (p : Preferences) | do_Users (q : UserQuery)
  | do_CreateUser (input : CreateUserInput) | do_UpdateUser (id : string) (input : UpdateUserInput)
  | do_ResetUserPassword (id password : string) | do_SetUserActive (subject id : string) (active : bool)
  | do_ReplaceUserRoles (id : string) (roleIDs : list string) | do_Roles | do_Role (id : string)
  | do_CreateRole (input : RoleInput) | do_UpdateRole (id : string) (input : RoleInput)
  | do_DeleteRole (id : string) | do_ReplaceRolePermissions (id : string) (permissionIDs : list string)
  | do_Permissions | do_AssignRole (userID roleID : string) | do_GrantPermission (roleID permissionID : string)
  | do_Authorize (userID required : string).

Section Histories.
Context {W : Type} `{PgLaws W IamDB} `{UuidScan} `{Ilike} `{Collation} `{Unicode} `{MailParser}.
Context (clock : W -> Z) (sha256 : string -> string) (parts : Parts W) (recoveryTTL : Z).

Definition run_svc (op : svc_op) : M W unit :=
  let s := svc clock sha256 parts recoveryTTL in
  match op with
  | do_Login input => forget (Login s input)
  | do_VerifyLogin input => forget (VerifyLogin s input)
  | do_RequestEmailCode email purpose ip => RequestEmailCode s email purpose ip
  | do_Register input => forget (Register s input)
  | do_Settings => forget (Settings s)
  | do_PutSettings v => PutSettings s v
  | do_Security id => forget (Security s id)
  | do_PutSecurity id mode => forget (PutSecurity s id mode)
  | do_Enroll id proof => forget (Enroll s id proof)
  | do_Confirm id code => forget (Confirm s id code)
  | do_Disable id proof => Disable s id proof
  | do_RequestEmailVerification id ip => RequestEmailVerification s id ip
  | do_VerifyEmail id code => forget (VerifyEmail s id code)
  | do_Refresh raw => forget (Refresh (base s) raw)
  | do_Logout raw => Logout (base s) raw
  | do_RevokeAll id => RevokeAll (base s) id
  | do_CurrentUser id => forget (CurrentUser (base s) id)
  | do_Preferences id => forget (Service_Preferences (base s) id)
  | do_PutPreferences id p => Service_PutPreferences (base s) id p
  | do_Users q => forget (Users (base s) q)
  | do_CreateUser input => forget (Service_CreateUser (base s) input)
  | do_UpdateUser id input => forget (UpdateUser (base s) id input)
  | do_ResetUserPassword id password => ResetUserPassword (base s) id password
  | do_SetUserActive subject id active => Service_SetUserActive (base s) subject id active
  | do_ReplaceUserRoles id roleIDs => ReplaceUserRoles (base s) id roleIDs
  | do_Roles => forget (Service_Roles (base s))
  | do_Role id => forget (Service_Role (base s) id)
  | do_CreateRole input => forget (Service_CreateRole (base s) input)
  | do_UpdateRole id input => forget (Service_UpdateRole (base s) id input)
  | do_DeleteRole id => Service_DeleteRole (base s) id
  | do_ReplaceRolePermissions id permissionIDs => ReplaceRolePermissions (base s) id permissionIDs
  | do_Permissions => forget (Service_Permissions (base s))
  | do_AssignRole userID roleID => Service_AssignRole (base s) userID roleID
  | do_GrantPermission roleID permissionID => Service_GrantPermission (base s) roleID permissionID
  | do_Authorize userID required => Authorize (base s) userID required
  end.

(** A history of operations of the services, whatever their results. *)
Fixpoint run_svcs (ops : list svc_op) (w : W) : W :=
  match ops with
  | [] => w
  | op :: ops => run_svcs ops (run_svc op w).2
  end.
End Histories.

(** The operations that write a security row as a whole. *)
Definition whole_security (op : store_op) : Prop :=
  match op with op_SaveSecurity _ _ _ => True | _ => False end.
Definition sets_security (op : svc_op) : Prop :=
  match op with do_PutSecurity _ _ | do_Enroll _ _ | do_Confirm _ _ | do_Disable _ _ => True | _ => False end.

Section Refinement.
Context {W : Type} `{PgLaws W IamDB} `{UuidScan} `{Ilike} `{Collation} `{Unicode} `{MailParser}.
Context (clock : W -> Z) (sha256 : string -> string) (parts : Parts W) `{!PartsLaws parts} (recoveryTTL : Z).

(** Tables along which the operations of the stores move; with [saves], also
    those that write a security row as a whole. *)
Context (R : IamDB -> IamDB -> Prop) `{!PreOrder R} (saves : Prop).
Hypothesis stores_along : forall op (w : W), (whole_security op -> saves) ->
  R (pg_tables w) (pg_tables (run_op true clock sha256 op w).2).

#[local] Instance along_R_preorder : PreOrder (along (W := W) R) := along_preorder R.

Lemma same_along {A} (m : M W A) : within (same pg_tables) m -> within (along R) m.
Proof. intros Hm w. unfold along. specialize (Hm w). unfold same in Hm. by rewrite Hm. Qed.

Lemma op_forget_along {A} op (m : M W A) :
  (whole_security op -> saves) -> run_op true clock sha256 op = forget m -> within (along R) m.
Proof. intros Hs E w. unfold along. rewrite <- (forget_world m w), <- E. by apply stores_along. Qed.

Lemma op_along_R op m :
  (whole_security op -> saves) -> run_op true clock sha256 op = m -> within (along R) m.
Proof. intros Hs <- w. by apply stores_along. Qed.

(** The writes of the stores, and what reads or runs elsewhere. *)
Ltac by_store :=
  first
    [ eapply (op_forget_along (op_Create _)); [by intros []|reflexivity]
    | eapply (op_forget_along (op_UpdateUser _ _)); [by intros []|reflexivity]
    | eapply (op_forget_along (op_CreateRole _)); [by intros []|reflexivity]
    | eapply (op_forget_along (op_UpdateRole _ _)); [by intros []|reflexivity]
    | eapply (op_forget_along (op_Security _)); [by intros []|reflexivity]
    | eapply (op_forget_along (op_Register _ _)); [by intros []|reflexivity]
    | eapply (op_forget_along (op_VerifyEmail _ _ _)); [by intros []|reflexivity]
    | eapply (op_along_R (op_UpdateUserPassword _ _)); [by intros []|reflexivity]
    | eapply (op_along_R (op_SetUserActive _ _)); [by intros []|reflexivity]
    | eapply (op_along_R (op_DeleteRole _)); [by intros []|reflexivity]
    | eapply (op_along_R (op_ReplaceUserRoles _ _)); [by intros []|reflexivity]
    | eapply (op_along_R (op_ReplaceRolePermissions _ _)); [by intros []|reflexivity]
    | eapply (op_along_R (op_AssignRole _ _)); [by intros []|reflexivity]
    | eapply (op_along_R (op_GrantPermission _ _)); [by intros []|reflexivity]
    | eapply (op_along_R (op_PutPreferences _ _)); [by intros []|reflexivity]
    | eapply (op_along_R (op_PutAuthentication _)); [by intros []|reflexivity]
    | eapply (op_along_R (op_Initialize _)); [by intros []|reflexivity]
    | eapply (op_along_R (op_SaveSecurity _ _ _)); [by auto|reflexivity]
    | eapply (op_along_R (op_ConsumeCredential _ _ _ _ _)); [by intros []|reflexivity] ].

Ltac by_parts :=
  apply same_along;
  first
    [ apply FindByID_tables | apply FindByEmail_tables | apply Authentication_tables
    | apply Hash_tables | apply jwt_tables | apply Issue_tables | apply Lookup_tables | apply Rotate_tables
    | apply Revoke_tables | apply RevokeAll_tables | apply code_Issue_tables | apply code_Verify_tables
    | apply code_VerifyAndConsume_tables | apply code_Consume_tables | apply mail_tables
    | apply NewSecret_tables | apply Encrypt_tables | apply RecoveryCodes_tables | apply ch_Issue_tables
    | apply ch_Attempt_tables | apply ch_Consume_tables | apply List_tables | apply PermissionsForUser_tables
    | apply Roles_tables | apply Role_tables | apply Permissions_tables | apply GetPreferences_tables ].

#[local] Hint Extern 1 (within (along R) _) => by_store : within.
#[local] Hint Extern 2 (within (along R) _) => by_parts : within.

(** Every operation of the services is a sequence of operations of the
    stores and of the parts: it moves the tables along what they do. *)
Lemma svc_along op :
  (sets_security op -> saves) -> within (along R) (run_svc clock sha256 parts recoveryTTL op).
Proof.
  intros Hsaves. destruct op; simpl in Hsaves; try specialize (Hsaves I); cbn -[store_Register]; unfold Login, VerifyLogin, RequestEmailCode, Register, Settings, PutSettings, Security,
    PutSecurity, Enroll, Confirm, Disable, RequestEmailVerification, VerifyEmail, Refresh, Logout,
    RevokeAll, CurrentUser, Service_Preferences, Service_PutPreferences, Users, Service_CreateUser,
    UpdateUser, ResetUserPassword, Service_SetUserActive, ReplaceUserRoles, Service_Roles, Service_Role,
    Service_CreateRole, Service_UpdateRole, Service_DeleteRole, ReplaceRolePermissions,
    Service_Permissions, Service_AssignRole, Service_GrantPermission, Authorize, with_rbac,
    credentials, consumeProof, emailVerificationUser, verify_password, requireActiveUser,
    requireInitialized, find_user, issuePair, managementRepository, RevokeAll, Logout;
    cbn -[store_Register].
  all: repeat match goal with |- context [of_res (Ok ?a) ≫= ?k] => change (of_res (Ok a) ≫= k) with (k a) end.
  all: try (apply within_forget; [apply _|]); solve_within.
Qed.

Lemma consumeProof_along id security credential code recovery :
  within (along R) (consumeProof (svc clock sha256 parts recoveryTTL) id security credential code recovery).
Proof. unfold consumeProof. cbn -[store_Register]. solve_within. Qed.

Lemma svcs_along ops w :
  saves -> R (pg_tables w) (pg_tables (run_svcs clock sha256 parts recoveryTTL ops w)).
Proof.
  intros Hs. revert w. induction ops as [|op ops IH]; intros w; simpl; [reflexivity|].
  etransitivity; [by apply (svc_along op (fun _ => Hs) w)|apply IH].
Qed.
End Refinement.

Section Promises.
Context {W : Type} `{PgLaws W IamDB} `{UuidScanLaws} `{Ilike} `{Collation} `{Unicode} `{MailParser}.
Context (clock : W -> Z) (sha256 : string -> string) (parts : Parts W) `{!PartsLaws parts} (recoveryTTL : Z).
Abbreviation service := (svc clock sha256 parts recoveryTTL).
Abbreviation run := (run_svcs clock sha256 parts recoveryTTL).

#[local] Instance wf_preorder : PreOrder (fun d d' : IamDB => wf d -> wf d').
Proof. split; repeat intro; eauto. Qed.

Lemma svcs_wf ops (w : W) : wf (pg_tables w) -> wf (pg_tables (run ops w)).
Proof. apply (svcs_along clock sha256 parts recoveryTTL (fun d d' => wf d -> wf d') True); [|done]. intros. by apply ops_wf. Qed.

Lemma svcs_versions ops (w : W) : versions_grow (pg_tables w) (pg_tables (run ops w)).
Proof. apply (svcs_along clock sha256 parts recoveryTTL versions_grow True); [|done]. intros. apply op_versions_grow. Qed.

(** C2: no sequence of operations of the services breaks what the stores
    guard: after any history, whatever its results, an active administrator
    remains, users with the email policy are verified, and the system roles
    keep their names and permissions. *)
Theorem services_keep_guards ops (w : W) :
  let d := pg_tables w in let d' := pg_tables (run ops w) in
  wf d ->
  wf d' /\ (has_admin d -> has_admin d') /\ (email_verified d -> email_verified d') /\ system_same d d'.
Proof.
  intros d d' Hwf. split_and!.
  - by apply svcs_wf.
  - intros Ha. apply (svcs_along clock sha256 parts recoveryTTL admin_along True); [|done|by split].
    intros op w0 _ Hw. by apply op_admin.
  - intros He. apply (svcs_along clock sha256 parts recoveryTTL email_along True); [|done|by split].
    intros op w0 _ Hw. by apply op_email.
  - apply (svcs_along clock sha256 parts recoveryTTL system_same True); [|done]. intros op w0 _. apply op_system.
Qed.

(** What a successful [VerifyLogin] found and spent. *)
Lemma VerifyLogin_Ok_inv input (w w' : W) pair c w0 :
  wf (pg_tables w) ->
  ch_Attempt (part_challenges parts) (vi_ChallengeID input) w = (Ok c, w0) ->
  VerifyLogin service input w = (Ok pair, w') ->
  exists uuid row s s' step hash, parseUUID (ch_UserID c) = Ok uuid /\
    users (pg_tables w) !! uuid = Some row /\ u_IsActive row = true /\
    security (pg_tables w) !! uuid = Some s /\ security (pg_tables w') !! uuid = Some s' /\
    s_Mode s = "totp" /\ s_Version s = ch_Version c /\ spent step hash s s' /\
    if is_empty (vi_Code input)
    then hash = RecoveryHash (part_crypto parts) (vi_RecoveryCode input)
    else hash = "" /\ exists secret w1, Decrypt (part_crypto parts) (default "" (s_TotpSecret s)) (uuid_text uuid) = Ok secret /\
         Verify (part_crypto parts) secret (vi_Code input) (clock w1) (s_LastTotpStep s) = Ok step.
Proof.
  intros Hwf Hatt E. unfold VerifyLogin in E.
  match type of E with (if ?b then _ else _) _ = _ => destruct b; [done|] end.
  simpl in E. rewrite M_bind_run, Hatt in E. cbn beta iota in E.
  pose proof (part_run _ _ _ _ (ch_Attempt_tables _) Hatt) as Ht0.
  apply M_bind_Ok_inv in E as (r & w1 & Er & E).
  apply try_inv in Er as [[? _]|(x & [= <-] & _ & Er)]; [done|].
  destruct r as [user|e|]; [|done..].
  apply store_FindByID_Ok in Er as (uuid & row & Hparse & Hrow & -> & Ht1). rewrite Ht0 in *.
  simpl in E. destruct (u_IsActive row) eqn:Ha; [|done]. simpl in E.
  apply M_bind_Ok_inv in E as (state & w2 & (Ht2 & _)%store_Authentication_Ok & E). rewrite Ht1 in *.
  go_inv_step E; [done|]. clear Hb.
  apply M_bind_Ok_inv in E as (v & w3 & (uuid' & s & Hp & -> & Hs & _ & _ & Hold & Hnew)%store_Security_Ok & E).
  assert (uuid' = uuid) as ->.
  { assert (@Ok string uuid' = Ok uuid) as [= ->]; [|done]. rewrite <- Hp. by apply (parse_text (pg_tables w)). }
  simpl in E. go_inv_step E; [done|].
  apply orb_false_elim in Hb as [[Hm Ht]%orb_false_elim Hv]. bool_prop. apply String.eqb_eq in Hm.
  rewrite Ht2 in Hold, Hnew.
  assert (security (pg_tables w) !! uuid = Some s) as Hs0.
  { destruct (security (pg_tables w) !! uuid) as [s0|] eqn:Es; [by destruct (Hold s0 eq_refl) as [_ ->]|].
    by rewrite (Hnew eq_refl) in Hm. }
  apply M_bind_Ok_inv in E as ([] & w4 & Hproof & E).
  apply M_bind_Ok_inv in E as ([] & w5 & Hconsume & E).
  apply (issuePair_Ok clock sha256 parts recoveryTTL) in E.
  apply (part_run _ _ _ _ (ch_Consume_tables _)) in Hconsume.
  assert (uuid_text (u_ID row) = uuid_text uuid) as Htext by by rewrite (wf_user_id _ Hwf _ _ Hrow).
  eapply (consumeProof_Ok clock sha256 parts recoveryTTL _ uuid) in Hproof
    as (step & hash & s' & Hs' & Hsp & Hh); [|by apply (parse_text (pg_tables w) uuid row)|exact Hs|done].
  exists uuid, row, s, s', step, hash. rewrite E, Hconsume. split_and!; try done.
  destruct (is_empty (vi_Code input)); [done|]. destruct Hh as (? & secret & Hd & Hver).
  rewrite Htext in Hd. split; [done|]. by exists secret, w3.
Qed.

(** C4: a second factor challenge buys one pair of tokens.  A [VerifyLogin]
    that succeeds was for an active user whose policy is [totp] at the very
    version the challenge was issued at, and spent a factor: a code whose
    step the cryptography accepted as later than the last one, or the hash of
    an unused recovery code.  After any further history of the services, no
    [VerifyLogin] for a challenge of that user and version succeeds. *)
Theorem VerifyLogin_once input (w w' : W) pair c w0 :
  wf (pg_tables w) ->
  ch_Attempt (part_challenges parts) (vi_ChallengeID input) w = (Ok c, w0) ->
  VerifyLogin service input w = (Ok pair, w') ->
  (exists uuid row s s' step hash, parseUUID (ch_UserID c) = Ok uuid /\
     users (pg_tables w) !! uuid = Some row /\ u_IsActive row = true /\
     security (pg_tables w) !! uuid = Some s /\ security (pg_tables w') !! uuid = Some s' /\
     s_Mode s = "totp" /\ s_Version s = ch_Version c /\ spent step hash s s' /\
     if is_empty (vi_Code input)
     then hash = RecoveryHash (part_crypto parts) (vi_RecoveryCode input)
     else hash = "" /\ exists secret w1,
          Decrypt (part_crypto parts) (default "" (s_TotpSecret s)) (uuid_text uuid) = Ok secret /\
          Verify (part_crypto parts) secret (vi_Code input) (clock w1) (s_LastTotpStep s) = Ok step) /\
  forall ops input2 c2 w3,
    let w2 := run ops w' in
    ch_Attempt (part_challenges parts) (vi_ChallengeID input2) w2 = (Ok c2, w3) ->
    ch_UserID c2 = ch_UserID c -> ch_Version c2 = ch_Version c ->
    is_ok (VerifyLogin service input2 w2).1 = false.
Proof.
  intros Hwf Hatt E. pose proof E as Hinv.
  apply (VerifyLogin_Ok_inv _ _ _ _ _ _ Hwf Hatt) in Hinv. split; [exact Hinv|].
  destruct Hinv as (uuid & row & s & s' & step & hash & Hp & _ & _ & Hs & Hs' & _ & Hv & Hsp & _).
  intros ops input2 c2 w3 w2 Hatt2 Hu2 Hv2.
  destruct (VerifyLogin service input2 w2) as [[pair2|e|] w4] eqn:E2; [exfalso|done|done].
  assert (wf (pg_tables w2)) as Hwf2.
  { apply svcs_wf. pose proof (svcs_wf [do_VerifyLogin input] w Hwf) as Hw'. simpl in Hw'.
    by rewrite forget_world, E in Hw'. }
  destruct (VerifyLogin_Ok_inv _ _ _ _ _ _ Hwf2 Hatt2 E2) as (uuid2 & _ & t & _ & _ & _ & Hp2 & _ & _ & Ht & _ & _ & Htv & _).
  rewrite Hu2, Hp in Hp2. injection Hp2 as <-.
  destruct (svcs_versions ops w' _ _ Hs') as (t' & Ht' & Hle).
  destruct Hsp as (_ & Hbump & _). fold w2 in Ht'. rewrite Ht in Ht'. injection Ht' as <-. lia.
Qed.
(** What [Authorize] proves on the PostgreSQL stores: the system is
    initialised, the user exists and is active, one of the roles assigned to
    it carries a permission that grants the required one, and nothing is
    written. *)
Theorem Authorize_sound id required (w w' : W) :
  Authorize (base service) id required w = (Ok tt, w') ->
  pg_tables w' = pg_tables w /\
  a_InitializedAt (authentication_settings (pg_tables w)) <> None /\
  exists uuid row role key p, parseUUID id = Ok uuid /\
    users (pg_tables w) !! uuid = Some row /\ u_IsActive row = true /\
    (uuid, role) ∈ user_roles (pg_tables w) /\ (role, p_ID p) ∈ role_permissions (pg_tables w) /\
    permissions (pg_tables w) !! key = Some p /\ HasPermission [p_Name p] required = true.
Proof.
  unfold Authorize. intros E. simpl in E.
  apply M_bind_Ok_inv in E as ([] & w1 & Eactive & E).
  unfold requireActiveUser in Eactive.
  apply M_bind_Ok_inv in Eactive as ([] & w2 & Einit & Eactive).
  unfold requireInitialized in Einit. simpl in Einit.
  apply M_bind_Ok_inv in Einit as (st & w3 & (Ht3 & Hi & _)%store_Authentication_Ok & Einit).
  go_inv_step Einit; [done|]. injection Einit as <-. bool_prop.
  unfold find_user in Eactive. simpl in Eactive.
  apply M_bind_Ok_inv in Eactive as (user & w4 & Efind & Eactive).
  apply M_bind_Ok_inv in Efind as (r & w5 & Er & Efind).
  apply try_inv in Er as [[? _]|(x & [= <-] & _ & Er)]; [done|].
  destruct r as [u|e|]; [|by destruct (errors_is _ _)|done]. injection Efind as <- <-.
  apply store_FindByID_Ok in Er as (uuid & row & Hp & Hrow & -> & Ht5).
  simpl in Eactive. destruct (u_IsActive row) eqn:Ha; [|done]. injection Eactive as <-.
  apply M_bind_Ok_inv in E as (l & w6 & (uuid' & Hp' & Ht6 & Hl)%PermissionsForUser_Ok & E).
  rewrite Hp in Hp'. injection Hp' as <-. rewrite Ht5, Ht3 in *.
  destruct (HasPermission l required) eqn:Hperm; [|done]. injection E as <-.
  split; [done|]. split; [by rewrite <- Hi|].
  unfold HasPermission in Hperm. destruct (is_empty required) eqn:He; [done|].
  destruct (Cut required ":") as [[m a] f] eqn:Hcut.
  apply existsb_exists in Hperm as (name & Hname%list_elem_of_In & Hg).
  apply Hl in Hname as (key & p & Hkey & Hgr & <-). unfold granted in Hgr. rewrite Hrow in Hgr.
  apply andb_prop in Hgr as [_ Hgr].
  apply existsb_exists in Hgr as ([v role] & Hin%list_elem_of_In & Hvr). simpl in Hvr.
  apply andb_prop in Hvr as [->%String.eqb_eq Hrp%bool_decide_eq_true].
  exists uuid, row, role, key, p. split_and!; try done; [by apply elem_of_elements in Hin|].
  unfold HasPermission. rewrite He, Hcut. simpl. by rewrite Hg.
Qed.

(** *** The second factor *)
Definition second_factor (u : string) (d : IamDB) : Prop :=
  exists s, security d !! u = Some s /\ s_Mode s = "totp" /\ default "" (s_TotpSecret s) <> "".

Definition sticks (u : string) (d d' : IamDB) : Prop := second_factor u d -> second_factor u d'.

#[local] Instance sticks_preorder u : PreOrder (sticks u).
Proof. split; unfold sticks; repeat intro; eauto. Qed.

Lemma change_sticks u k d d' : iam_change k d d' -> k <> sets_mode -> sticks u d d'.
Proof.
  intros Hc Hk (t & Ht & Hm & Hsec).
  destruct Hc as [| | | | | | |id s Hu Hn Hms|id s s' Hs Hv Hms|d' _ _ _ Hs _]; simpl;
    try by exists t.
  - exists t. simpl. rewrite lookup_insert_ne by congruence. done.
  - destruct (decide (id = u)) as [<-|Hne].
    + exists s'. simpl. rewrite lookup_insert_eq. simplify_eq. destruct Hms as [?|[-> ->]]; [done|]. done.
    + exists t. simpl. by rewrite lookup_insert_ne.
  - exists t. by rewrite Hs.
Qed.

Lemma stores_stick u op (w : W) : (whole_security op -> False) ->
  sticks u (pg_tables w) (pg_tables (run_op true clock sha256 op w).2).
Proof.
  intros Hop. apply (op_along (sticks u) (fun k => k <> sets_mode)); [done| |].
  - intros k d d' Hk Hc. by eapply change_sticks.
  - destruct op as [| | |? []| | | | | | | | | | | | | | |]; simpl; try done. by intros _; apply Hop.
Qed.

Lemma svc_sticks u op (w : W) : (sets_security op -> False) ->
  sticks u (pg_tables w) (pg_tables (run_svc clock sha256 parts recoveryTTL op w).2).
Proof. intros Hop. by apply (svc_along clock sha256 parts recoveryTTL (sticks u) False (stores_stick u)). Qed.

(** Saving a row keeps the second factor of [u] when the row is another
    user's, or has one. *)
Lemma save_sticks u id v version (w : W) :
  (second_factor u (pg_tables w) -> parseUUID id = Ok u ->
   Mode (sec_Settings v) = "totp" /\ default "" (Secret v) <> "") ->
  sticks u (pg_tables w) (pg_tables (store_SaveSecurity true id v version w).2).
Proof.
  intros Hv Hsf. destruct (SaveSecurity_point true id v version w) as [->|(j & s & s' & Hj & _ & _ & Hm & Ht & ->)]; [done|].
  destruct (decide (j = u)) as [->|Hne].
  - exists s'. simpl. rewrite lookup_insert_eq, Hm, Ht. split; [done|by apply Hv].
  - destruct Hsf as (t & Hts & Htm & Htt). exists t. simpl. by rewrite lookup_insert_ne.
Qed.

(** One step of an operation, with the world it starts in. *)
Lemma bind_sticks {A B} u (m : M W A) (k : A -> M W B) w :
  within (along (sticks u)) m ->
  (forall a w', m w = (Ok a, w') -> sticks u (pg_tables w') (pg_tables (k a w').2)) ->
  sticks u (pg_tables w) (pg_tables ((m ≫= k) w).2).
Proof.
  intros Hm Hk Hsf. rewrite M_bind_run. specialize (Hm w Hsf).
  destruct (m w) as [[a|e|] w1]; simpl in *; [by apply (Hk a w1)|done|done].
Qed.

Lemma part_sticks {A B} u (m : M W A) (k : A -> M W B) w :
  within (same pg_tables) m ->
  (forall a w', m w = (Ok a, w') -> pg_tables w' = pg_tables w ->
     sticks u (pg_tables w') (pg_tables (k a w').2)) ->
  sticks u (pg_tables w) (pg_tables ((m ≫= k) w).2).
Proof.
  intros Hm Hk. apply bind_sticks; [exact (same_along (sticks u) m Hm)|]. intros a w' E. apply Hk; [done|].
  by eapply part_run.
Qed.

Lemma requireInitialized_tables : within (same pg_tables) (requireInitialized (base service)).
Proof. unfold requireInitialized. simpl. apply within_bind; [apply _|apply Authentication_tables|solve_within]. Qed.

Lemma requireActiveUser_tables id : within (same pg_tables) (requireActiveUser (base service) id).
Proof.
  unfold requireActiveUser, find_user. apply within_bind; [apply _|apply requireInitialized_tables|intros []].
  apply within_bind; [apply _| |solve_within]. apply within_bind; [apply _| |solve_within].
  apply within_try, FindByID_tables.
Qed.

(** The row the policy operations start from: enabled when [u] has a second
    factor. *)
Lemma security_sticks {B} u id (k : SecurityState -> M W B) w :
  (forall s w', (parseUUID id = Ok u -> security (pg_tables w') !! u = Some s) ->
     sticks u (pg_tables w') (pg_tables (k (securityFromDB s) w').2)) ->
  sticks u (pg_tables w) (pg_tables ((store_Security id ≫= k) w).2).
Proof.
  intros Hk. apply bind_sticks.
  { apply (op_forget_along clock sha256 (sticks u) False (stores_stick u) (op_Security id)); [by intros []|done]. }
  intros v w' (j & s & Hj & -> & Hs & _)%store_Security_Ok. apply Hk.
  intros Hu. rewrite Hj in Hu. by injection Hu as <-.
Qed.
Lemma enabled_iff s : TOTPEnabled (sec_Settings (securityFromDB s)) = true <-> default "" (s_TotpSecret s) <> "".
Proof.
  simpl. rewrite Z.ltb_lt. destruct (default "" (s_TotpSecret s)) as [|a l]; unfold len; simpl; [|by split; [|lia]].
  by split; [lia|].
Qed.

Lemma PutSecurity_sticks u id mode (w : W) :
  sticks u (pg_tables w) (pg_tables (PutSecurity service id mode w).2).
Proof.
  unfold PutSecurity. apply part_sticks; [apply requireInitialized_tables|intros [] w1 _ _].
  apply part_sticks; [apply FindByID_tables|intros user w2 _ _]. destruct (negb _); [done|].
  apply security_sticks. intros s w3 Hs. repeat (case_match; [by intros ?|]).
  rewrite bind_pure_world by done. apply save_sticks. intros (t & Ht & Hm & Hsec) Hu.
  rewrite (Hs Hu) in Ht. injection Ht as <-.
  rewrite (proj2 (enabled_iff s) Hsec) in H8. simpl in *. by apply negb_false_iff, String.eqb_eq in H8 as ->.
Qed.

(** A row that has no second factor is nobody's who has one. *)
Lemma disabled_row u id s (w : W) :
  TOTPEnabled (sec_Settings (securityFromDB s)) = false ->
  (parseUUID id = Ok u -> security (pg_tables w) !! u = Some s) ->
  second_factor u (pg_tables w) -> parseUUID id = Ok u -> False.
Proof.
  intros He Hs (t & Ht & _ & Hsec) Hu. rewrite (Hs Hu) in Ht. injection Ht as <-.
  apply enabled_iff in Hsec. congruence.
Qed.

Lemma Enroll_sticks u id proof (w : W) : sticks u (pg_tables w) (pg_tables (Enroll service id proof w).2).
Proof.
  unfold Enroll. apply part_sticks; [apply requireInitialized_tables|intros [] w1 _ _].
  apply part_sticks; [apply FindByID_tables|intros user w2 _ _]. destruct (negb _); [done|].
  apply part_sticks; [unfold verify_password; solve_within|intros [] w3 _ _].
  apply security_sticks. intros s w4 Hs. destruct (TOTPEnabled _) eqn:He; [done|].
  apply part_sticks; [apply NewSecret_tables|intros [secret uri] w5 _ Ht5].
  apply part_sticks; [apply Encrypt_tables|intros encrypted w6 _ Ht6].
  apply part_sticks; [by intros ?|intros w7 w8 _ Ht8].
  rewrite bind_pure_world by done. apply save_sticks. intros Hsf Hu. exfalso.
  rewrite Ht8, Ht6, Ht5 in Hsf. by eapply disabled_row.
Qed.

Lemma Confirm_sticks u id code (w : W) : sticks u (pg_tables w) (pg_tables (Confirm service id code w).2).
Proof.
  unfold Confirm. apply part_sticks; [apply requireActiveUser_tables|intros [] w1 _ _].
  apply security_sticks. intros s w4 Hs.
  apply part_sticks; [by intros ?|intros w5 w6 _ Ht6].
  destruct (TOTPEnabled _) eqn:He; [done|]. simpl. destruct (negb _); [done|].
  apply part_sticks; [solve_within|intros secret w7 _ Ht7].
  apply part_sticks; [solve_within|intros step w8 _ Ht8].
  apply part_sticks; [apply RecoveryCodes_tables|intros [codes hashes] w9 _ Ht9].
  apply part_sticks; [by intros ?|intros w10 w11 _ Ht11].
  rewrite bind_pure_world by done. apply save_sticks. intros Hsf Hu. exfalso.
  rewrite Ht11, Ht9, Ht8, Ht7, Ht6 in Hsf. by eapply disabled_row.
Qed.

Lemma Disable_sticks u id proof (w : W) :
  parseUUID id <> Ok u -> sticks u (pg_tables w) (pg_tables (Disable service id proof w).2).
Proof.
  intros Hne. unfold Disable. apply part_sticks; [apply requireInitialized_tables|intros [] w1 _ _].
  apply part_sticks; [apply FindByID_tables|intros user w2 _ _]. destruct (negb _); [done|].
  apply part_sticks; [unfold verify_password; solve_within|intros [] w3 _ _].
  apply security_sticks. intros s w4 _. destruct (negb _).
  { intros Hsf. change (second_factor u (pg_tables (sess_RevokeAll (part_refresh parts) id w4).2)).
    by rewrite (RevokeAll_tables id w4). }
  apply bind_sticks.
  { apply (consumeProof_along clock sha256 parts recoveryTTL (sticks u) False (stores_stick u)). }
  intros [] w5 _. intros Hsf. rewrite M_bind_run.
  assert (second_factor u (pg_tables (store_SaveSecurity true id (disabled (securityFromDB s))
            (Version (disabled (securityFromDB s))) w5).2)) as Hsf' by by apply save_sticks.
  change (repo_SaveSecurity (repo service) id) with (store_SaveSecurity true id).
  destruct (store_SaveSecurity _ _ _ _ w5) as [[x|e|] w6]; simpl in *; [|done|done].
  change (second_factor u (pg_tables (sess_RevokeAll (part_refresh parts) id w6).2)).
  by rewrite (RevokeAll_tables id w6).
Qed.
End Promises.

(** C12: a second factor is only turned off by [Disable].  Once a user's
    policy is [totp] with a secret, it stays so through every history of
    operations of the services that holds no [Disable] for that user: the
    policy, enrolment and confirmation operations, password resets and
    profile edits cannot remove it. *)
Theorem second_factor_sticks {W} `{PgLaws W IamDB, UuidScanLaws, Ilike, Collation, Unicode, MailParser}
    (clock : W -> Z) (sha256 : string -> string) (parts : Parts W) `{!PartsLaws parts} (recoveryTTL : Z)
    (u : string) ops (w : W) :
  (forall id proof, do_Disable id proof ∈ ops -> parseUUID id <> Ok u) ->
  second_factor u (pg_tables w) ->
  second_factor u (pg_tables (run_svcs clock sha256 parts recoveryTTL ops w)).
Proof.
  intros Hops. revert w. induction ops as [|op ops IH]; intros w Hw; simpl; [done|].
  apply IH; [intros id proof Hin; eapply Hops; by right|].
  destruct op; try (refine (svc_sticks clock sha256 parts recoveryTTL u _ w _ Hw); intros F; exact F); simpl;
    rewrite ?forget_world.
  - by apply PutSecurity_sticks.
  - by apply Enroll_sticks.
  - by apply Confirm_sticks.
  - refine (Disable_sticks clock sha256 parts recoveryTTL u id proof w _ Hw). apply (Hops _ proof). left.
Qed.

(** ** The services on a database *)
Module Example.
Import IamStore.Example.

#[global] Instance ascii_only : Unicode := {| unicode_lower s := s; unicode_equal_fold := String.eqb |}.
#[global] Instance any_address : MailParser := fun s => Some s.
#[global] Instance exact_ilike : Ilike := String.eqb.
#[global] Instance byte_order : Collation := String.leb.
#[global] Instance canonical_laws : UuidScanLaws.
Proof.
  split; unfold uuid_scan, canonical_scan.
  - intros v id. destruct (hex_decode _) as [l|]; [|done]. destruct (length l =? 16)%nat eqn:E; [|done].
    intros [= <-]. apply Nat.eqb_eq in E. unfold uuid_ok. pose proof (len_bytes (of_bytes l)) as Hl.
    rewrite bytes_of_bytes in Hl. unfold len in Hl. lia.
  - intros id Hid. unfold uuid_text. rewrite bytes_of_bytes.
    assert (length (bytes id) = 16%nat) as Hl
      by (unfold uuid_ok in Hid; pose proof (len_bytes id); unfold len in *; lia).
    rewrite remove_dashes_format; [|rewrite length_hex_encode; lia|apply hex_encode_no_dash].
    by rewrite hex_decode_encode, Hl, of_bytes_bytes.
Qed.

(** A password is its own hash, every code is 123456, and every challenge is
    the administrator's at version 7. *)
Definition example_parts : Parts (Conn IamDB) := mkParts _
  (mkPasswordService _ mret (fun password hash => Ok (String.eqb password hash)))
  (mkTokens _ (fun u => mret ("access " +:+ u)) 900)
  (mkSessions _ (fun u => mret ("refresh " +:+ u)) mret (fun t u => mret t) (fun _ => mret tt) (fun _ => mret tt))
  (mkVerificationCodeStore _ (fun _ _ _ => mret "123456") (fun _ _ _ => mret (mkCodeReceipt "code" Hour))
     (fun _ _ c => if String.eqb c "123456" then mret tt else throw ErrInvalidCode) (fun _ _ _ => mret tt))
  (fun _ _ _ => mret tt)
  (mkSecondFactorCrypto _ (fun _ => mret ("secret", "uri")) (fun _ _ => mret "sealed") (fun s _ => Ok s)
     (fun _ c _ last => if String.eqb c "123456" then Ok (last + 1) else Err ErrInvalidCode)
     (mret (["r1"], ["h1"])) (fun r => "h" +:+ r))
  (mkChallenges _ (fun _ => mret "challenge") (fun _ => mret (mkChallenge (uuid_text admin_id) 7)) (fun _ => mret tt)).

#[global] Instance example_laws : PartsLaws example_parts.
Proof. split; intros; intros w; simpl; try reflexivity. by case_match. Qed.

Definition identity : AuthenticationService (Conn IamDB) := svc clock (fun s => s) example_parts Hour.
Definition admin_login : LoginInput := mkLoginInput " ROOT@example.com" "hash" "".
Definition admin_code : VerifyInput := mkVerifyInput "challenge" "123456" "".
End Example.

(** The administrator's right password is answered with a challenge, a wrong
    one and an unknown address with the same error. *)
Lemma Login_requires_factors_witness :
  exists r w', Login Example.identity Example.admin_login IamStore.Example.world = (Ok r, w') /\
    a_PasswordLoginEnabled (authentication_settings (pg_tables IamStore.Example.world)) = true /\
    lr_Status r = "totp_required" /\
    (Login Example.identity (mkLoginInput "root@example.com" "wrong" "") IamStore.Example.world).1 =
      Err ErrInvalidCredentials /\
    (Login Example.identity (mkLoginInput "nobody@example.com" "hash" "") IamStore.Example.world).1 =
      Err ErrInvalidCredentials.
Proof.
  destruct (Login Example.identity Example.admin_login IamStore.Example.world) as [r w'] eqn:E.
  destruct r as [r|e|]; [|vm_compute in E; discriminate E..].
  exists r, w'. split; [reflexivity|]. split_and!; [|vm_compute in E; by injection E as <- _|vm_compute; reflexivity..].
  destruct (Login_requires_factors IamStore.Example.clock (fun s => s) Example.example_parts Hour
    Example.admin_login IamStore.Example.world w' r) as [Hlogin _];
    [exact IamStore.Example.db_wf|discriminate|exact E|exact Hlogin].
Defined.

(** A second factor answers one challenge. *)
Lemma VerifyLogin_once_witness :
  exists pair w', VerifyLogin Example.identity Example.admin_code IamStore.Example.world = (Ok pair, w') /\
    is_ok (VerifyLogin Example.identity Example.admin_code w').1 = false.
Proof.
  destruct (VerifyLogin Example.identity Example.admin_code IamStore.Example.world) as [r w'] eqn:E.
  destruct r as [pair|e|]; [|vm_compute in E; discriminate E..].
  exists pair, w'. split; [reflexivity|].
  destruct (VerifyLogin_once IamStore.Example.clock (fun s => s) Example.example_parts Hour
    Example.admin_code IamStore.Example.world w' pair
    (mkChallenge (uuid_text IamStore.Example.admin_id) 7) IamStore.Example.world) as [_ Hdead];
    [exact IamStore.Example.db_wf|reflexivity|exact E|].
  exact (Hdead [] Example.admin_code _ _ eq_refl eq_refl eq_refl).
Defined.

(** A history in which the last administrator is attacked from several sides. *)
Definition attacks : list svc_op :=
  [do_SetUserActive "" (uuid_text IamStore.Example.admin_id) false;
   do_ReplaceUserRoles (uuid_text IamStore.Example.admin_id) [uuid_text IamStore.Example.user_role];
   do_DeleteRole (uuid_text IamStore.Example.admin_role);
   do_ReplaceRolePermissions (uuid_text IamStore.Example.admin_role) [];
   do_PutSecurity (uuid_text IamStore.Example.member_id) "email"].

Lemma services_keep_guards_witness :
  let w' := run_svcs IamStore.Example.clock (fun s => s) Example.example_parts Hour attacks IamStore.Example.world in
  has_admin (pg_tables w') /\ email_verified (pg_tables w').
Proof.
  intros w'.
  destruct (services_keep_guards IamStore.Example.clock (fun s => s) Example.example_parts Hour attacks
    IamStore.Example.world) as (_ & Ha & He & _); [exact IamStore.Example.db_wf|].
  exact (conj (Ha IamStore.Example.db_has_admin) (He IamStore.Example.db_email)).
Defined.

(** The administrator may read users; the ordinary user may not. *)
Lemma Authorize_sound_witness :
  exists w', Authorize (base Example.identity) (uuid_text IamStore.Example.admin_id) "users:read"
      IamStore.Example.world = (Ok tt, w') /\
    pg_tables w' = pg_tables IamStore.Example.world /\
    (Authorize (base Example.identity) (uuid_text IamStore.Example.member_id) "users:read"
       IamStore.Example.world).1 = Err ErrPermissionDenied.
Proof.
  destruct (Authorize (base Example.identity) (uuid_text IamStore.Example.admin_id) "users:read"
      IamStore.Example.world) as [r w'] eqn:E.
  destruct r as [[]|e|]; [|vm_compute in E; discriminate E..].
  exists w'. split; [reflexivity|]. split; [|vm_compute; reflexivity].
  destruct (Authorize_sound IamStore.Example.clock (fun s => s) Example.example_parts Hour
    (uuid_text IamStore.Example.admin_id) "users:read" IamStore.Example.world w' E) as [Ht _].
  exact Ht.
Defined.


(** Switching the policy away and enrolling again are refused. *)
Lemma second_factor_sticks_witness :
  let id := uuid_text IamStore.Example.admin_id in
  let ops := [do_PutSecurity id "default"; do_Enroll id (mkSecurityProof "hash" "" "");
              do_Disable (uuid_text IamStore.Example.member_id) (mkSecurityProof "hash" "" "")] in
  second_factor IamStore.Example.admin_id
    (pg_tables (run_svcs IamStore.Example.clock (fun s => s) Example.example_parts Hour ops IamStore.Example.world)).
Proof.
  intros id ops.
  apply (second_factor_sticks IamStore.Example.clock (fun s => s) Example.example_parts Hour).
  - intros id' proof Hin. unfold ops in Hin. rewrite !elem_of_cons, elem_of_nil in Hin.
    destruct Hin as [?|[?|[[= -> ->]|[]]]]; [discriminate..|]. vm_compute. discriminate.
  - eexists. split; [reflexivity|]. split; [reflexivity|discriminate].
Defined.
