(* ===== verification/Application.v ===== *)
(** * The applications behind the HTTP handlers
    ([pkg/modules/iam/application.go], [internal/app/audited_iam.go],
    [internal/app/audited_authentication.go])

    The two interfaces the handlers call are signatures of calls; an
    implementation answers every call.  The services of the identity module
    implement them, and the audited wrappers turn an implementation into one
    that records events. *)
From S2P Require Import Prelude GoStrings Netip Pagination Postgres Iam IamService AuthenticationService AuditTrail.

(** ** What a request carries in its context

    The subject, the request identifier and the request metadata; the zero
    value is what an empty context yields. *)
Record Ctx := mkCtx { ctx_Subject : string; ctx_RequestID : string; ctx_Metadata : RequestMetadata }.
Definition Background : Ctx := mkCtx "" "" (mkRequestMetadata None "").

(** @src pkg/modules/iam/application.go:36-38 WithSubject *)
Definition WithSubject (ctx : Ctx) (subject : string) : Ctx := mkCtx subject (ctx_RequestID ctx) (ctx_Metadata ctx).
(** @src pkg/httpkit/middleware.go:32-34 WithRequestID *)
Definition WithRequestID (ctx : Ctx) (id : string) : Ctx := mkCtx (ctx_Subject ctx) id (ctx_Metadata ctx).
(** @src pkg/modules/audit/audit.go:30-32 WithRequestMetadata *)
Definition WithRequestMetadata (ctx : Ctx) (m : RequestMetadata) : Ctx := mkCtx (ctx_Subject ctx) (ctx_RequestID ctx) m.

(** ** The interfaces *)

(** @src pkg/modules/iam/application.go:9-32 Application *)
Inductive app_call : Type -> Type :=
  | app_Login (email password : string) : app_call TokenPair
  | app_Refresh (token : string) : app_call TokenPair
  | app_Logout (token : string) : app_call unit
  | app_CurrentUser (id : string) : app_call AuthenticatedUser
  | app_Preferences (id : string) : app_call Preferences
  | app_PutPreferences (id : string) (p : Preferences) : app_call unit
  | app_Users (query : UserQuery) : app_call (PageOf User)
  | app_CreateUser (input : CreateUserInput) : app_call User
  | app_UpdateUser (id : string) (input : UpdateUserInput) : app_call User
  | app_ResetUserPassword (id password : string) : app_call unit
  | app_SetUserActive (id : string) (active : bool) : app_call unit
  | app_ReplaceUserRoles (userID : string) (roleIDs : list string) : app_call unit
  | app_Roles : app_call (list Role)
  | app_Role (id : string) : app_call RoleDetail
  | app_CreateRole (input : RoleInput) : app_call Role
  | app_UpdateRole (id : string) (input : RoleInput) : app_call Role
  | app_DeleteRole (id : string) : app_call unit
  | app_ReplaceRolePermissions (roleID : string) (permissionIDs : list string) : app_call unit
  | app_Permissions : app_call (list Permission)
  | app_AssignRole (userID roleID : string) : app_call unit
  | app_GrantPermission (roleID permissionID : string) : app_call unit
  | app_Authorize (userID required : string) : app_call unit.

(** @src pkg/modules/iam/authentication.go:168-182 AuthenticationApplication *)
Inductive auth_call : Type -> Type :=
  | auth_Login (input : LoginInput) : auth_call LoginResult
  | auth_VerifyLogin (input : VerifyInput) : auth_call TokenPair
  | auth_RequestEmailCode (email purpose ip : string) : auth_call unit
  | auth_RequestEmailVerification (id ip : string) : auth_call unit
  | auth_VerifyEmail (id code : string) : auth_call User
  | auth_Register (input : RegisterInput) : auth_call User
  | auth_Settings : auth_call AuthenticationSettings
  | auth_PutSettings (v : AuthenticationSettings) : auth_call unit
  | auth_Security (id : string) : auth_call SecuritySettings
  | auth_PutSecurity (id mode : string) : auth_call SecuritySettings
  | auth_Enroll (id : string) (proof : SecurityProof) : auth_call Enrollment
  | auth_Confirm (id code : string) : auth_call (list string)
  | auth_Disable (id : string) (proof : SecurityProof) : auth_call unit.

(** An implementation of a signature. *)
Definition handles (W : Type) (call : Type -> Type) : Type := forall A, call A -> Ctx -> M W A.
Abbreviation Application W := (handles W app_call).
Abbreviation AuthenticationApplication W := (handles W auth_call).

(** ** The services as implementations *)
Section Services.
Context {W : Type} `{Unicode} `{MailParser}.
Variable s : AuthenticationService W.

Definition iam_application : Application W := fun A c ctx =>
  match c in app_call A return M W A with
  | app_Login email password => Service_Login (base s) (Some s) email password
  | app_Refresh token => Refresh (base s) token
  | app_Logout token => Logout (base s) token
  | app_CurrentUser id => CurrentUser (base s) id
  | app_Preferences id => Service_Preferences (base s) id
  | app_PutPreferences id p => Service_PutPreferences (base s) id p
  | app_Users q => Users (base s) q
  | app_CreateUser input => Service_CreateUser (base s) input
  | app_UpdateUser id input => UpdateUser (base s) id input
  | app_ResetUserPassword id password => ResetUserPassword (base s) id password
  | app_SetUserActive id active => Service_SetUserActive (base s) (ctx_Subject ctx) id active
  | app_ReplaceUserRoles id roleIDs => ReplaceUserRoles (base s) id roleIDs
  | app_Roles => Service_Roles (base s)
  | app_Role id => Service_Role (base s) id
  | app_CreateRole input => Service_CreateRole (base s) input
  | app_UpdateRole id input => Service_UpdateRole (base s) id input
  | app_DeleteRole id => Service_DeleteRole (base s) id
  | app_ReplaceRolePermissions id permissionIDs => ReplaceRolePermissions (base s) id permissionIDs
  | app_Permissions => Service_Permissions (base s)
  | app_AssignRole userID roleID => Service_AssignRole (base s) userID roleID
  | app_GrantPermission roleID permissionID => Service_GrantPermission (base s) roleID permissionID
  | app_Authorize userID required => Authorize (base s) userID required
  end.

Definition authentication_application : AuthenticationApplication W := fun A c ctx =>
  match c in auth_call A return M W A with
  | auth_Login input => Login s input
  | auth_VerifyLogin input => VerifyLogin s input
  | auth_RequestEmailCode email purpose ip => RequestEmailCode s email purpose ip
  | auth_RequestEmailVerification id ip => RequestEmailVerification s id ip
  | auth_VerifyEmail id code => VerifyEmail s id code
  | auth_Register input => Register s input
  | auth_Settings => Settings s
  | auth_PutSettings v => PutSettings s v
  | auth_Security id => Security s id
  | auth_PutSecurity id mode => PutSecurity s id mode
  | auth_Enroll id proof => Enroll s id proof
  | auth_Confirm id code => Confirm s id code
  | auth_Disable id proof => Disable s id proof
  end.
End Services.

(** ** The audited wrappers *)
Definition err_of {A} (r : res A) : option error := match r with Err e => Some e | _ => None end.
Definition id_of {A} (f : A -> string) (r : res A) : string := match r with Ok a => f a | _ => "" end.

Section Audited.
Context {W J : Type}.
Variable recorder : BestEffortRecorder W J.

(** The event [record] builds.
    @src internal/app/audited_iam.go:101-116 record *)
Definition record_event (ctx : Ctx) (action resourceType resourceID : string) (actorID : option string)
    (primary : option error) : NewEvent J :=
  let result := match primary with Some _ => ResultFailure | None => ResultSuccess end in
  let actorID := match actorID with
                 | Some _ => actorID
                 | None => if is_empty (ctx_Subject ctx) then None else Some (ctx_Subject ctx)
                 end in
  mkNewEvent (ctx_RequestID ctx) actorID action result resourceType resourceID
    (rm_IPAddress (ctx_Metadata ctx)) (rm_UserAgent (ctx_Metadata ctx)) None.

Definition record (ctx : Ctx) (action resourceType resourceID : string) (actorID : option string)
    (primary : option error) : M W (option error) :=
  Preserve recorder (record_event ctx action resourceType resourceID actorID primary) primary.

(** [value, err := next(...); return value, a.record(..., err)]: the caller
    gets the error [record] returns.  The last case, an error that the
    recorder swallowed, would hand out a value no callee returned; the
    recorder returns the error it is given. *)
Definition audited {A} (ctx : Ctx) (describe : res A -> string * string * string * option string) (next : M W A) :
    M W A :=
  r ← try next;
  let '(action, resourceType, resourceID, actorID) := describe r in
  err ← record ctx action resourceType resourceID actorID (err_of r);
  match err, r with
  | Some e, _ => throw e
  | None, Ok value => mret value
  | None, _ => panic
  end.

(** Action, resource type, resource and actor of the audited calls.
    @src internal/app/audited_iam.go:22-100 (auditedIAM) Login to Authorize *)
Definition describe_iam {A} (c : app_call A) : option (res A -> string * string * string * option string) :=
  match c in app_call A return option (res A -> string * string * string * option string) with
  | app_Login _ _ => Some (fun _ => ("auth.login", "session", "", None))
  | app_Refresh _ => Some (fun _ => ("auth.refresh", "session", "", None))
  | app_Logout _ => Some (fun _ => ("auth.logout", "session", "", None))
  | app_CreateUser _ => Some (fun r => ("administration.user.create", "user", id_of user_ID r, None))
  | app_UpdateUser id _ => Some (fun _ => ("administration.user.update", "user", id, None))
  | app_ResetUserPassword id _ => Some (fun _ => ("administration.user.password.reset", "user", id, None))
  | app_SetUserActive id _ => Some (fun _ => ("administration.user.active", "user", id, None))
  | app_ReplaceUserRoles userID _ => Some (fun _ => ("administration.user.roles.replace", "user", userID, None))
  | app_CreateRole _ => Some (fun r => ("administration.role.create", "role", id_of role_ID r, None))
  | app_UpdateRole id _ => Some (fun _ => ("administration.role.update", "role", id, None))
  | app_DeleteRole id => Some (fun _ => ("administration.role.delete", "role", id, None))
  | app_ReplaceRolePermissions roleID _ => Some (fun _ => ("administration.role.permissions.replace", "role", roleID, None))
  | app_AssignRole userID _ => Some (fun _ => ("administration.role.assign", "user", userID, None))
  | app_GrantPermission roleID _ => Some (fun _ => ("administration.permission.grant", "role", roleID, None))
  | app_Authorize userID required => Some (fun _ => ("authorization.check", "permission", required, Some userID))
  | app_CurrentUser _ | app_Preferences _ | app_PutPreferences _ _ | app_Users _ | app_Roles | app_Role _
  | app_Permissions => None
  end.

(** @src internal/app/audited_authentication.go:14-53 (auditedAuthentication) Login to Disable *)
Definition describe_authentication {A} (c : auth_call A) : option (res A -> string * string * string * option string) :=
  match c in auth_call A return option (res A -> string * string * string * option string) with
  | auth_Login _ => Some (fun r =>
      let action := match r with
                    | Ok v => if String.eqb (lr_Status v) "totp_required" then "auth.login.challenge" else "auth.login"
                    | _ => "auth.login"
                    end in
      (action, "session", "", None))
  | auth_VerifyLogin _ => Some (fun _ => ("auth.login.totp.verify", "session", "", None))
  | auth_RequestEmailCode _ _ _ => Some (fun _ => ("auth.email_code.request", "authentication", "", None))
  | auth_Register _ => Some (fun r => ("auth.register", "user", id_of user_ID r, None))
  | auth_PutSettings _ => Some (fun _ => ("authentication.settings.update", "authentication", "", None))
  | auth_PutSecurity id _ => Some (fun _ => ("auth.security.update", "user", id, None))
  | auth_Enroll id _ => Some (fun _ => ("auth.totp.enroll", "user", id, None))
  | auth_Confirm id _ => Some (fun _ => ("auth.totp.confirm", "user", id, None))
  | auth_Disable id _ => Some (fun _ => ("auth.totp.disable", "user", id, None))
  | auth_RequestEmailVerification _ _ | auth_VerifyEmail _ _ | auth_Settings | auth_Security _ => None
  end.

Definition audit_with {call : Type -> Type}
    (describe : forall A, call A -> option (res A -> string * string * string * option string))
    (next : handles W call) : handles W call := fun A c ctx =>
  match describe A c with
  | Some d => audited ctx d (next A c ctx)
  | None => next A c ctx
  end.

Definition auditedIAM : Application W -> Application W := audit_with (@describe_iam).
Definition auditedAuthentication : AuthenticationApplication W -> AuthenticationApplication W :=
  audit_with (@describe_authentication).

(** ** The wrappers are transparent *)

(** Recording, logging and observing do not panic. *)
Definition quiet : Prop :=
  (forall f event w, be_Record recorder = Some f -> (f event w).1 <> Panic) /\
  (forall e w, (be_log recorder e w).1 = Ok tt) /\
  (forall f a w, be_AuditWriteFailed recorder = Some f -> (f a w).1 = Ok tt) /\
  (forall f a b w, be_ObserveAudit recorder = Some f -> (f a b w).1 = Ok tt).

Lemma Preserve_primary event primary w : quiet -> (Preserve recorder event primary w).1 = Ok primary.
Proof.
  intros (Hr & Hl & Hf & Ho). unfold Preserve. destruct (be_Record recorder) as [f|] eqn:Ef; [|done].
  rewrite M_bind_run. unfold try. specialize (Hr f event w eq_refl).
  destruct (f event w) as [[a|e|] w1]; [| |done]; rewrite M_bind_run.
  - destruct (be_ObserveAudit recorder) as [o|] eqn:Eo; [|done].
    specialize (Ho o (ne_Action event) (ne_Result event) w1 eq_refl). by destruct (o _ _ w1) as [[] ?]; simplify_eq/=.
  - rewrite M_bind_run. specialize (Hl e w1). destruct (be_log recorder e w1) as [[] w2]; simplify_eq/=.
    destruct (be_AuditWriteFailed recorder) as [o|] eqn:Eo; [|done].
    specialize (Hf o (ne_Action event) w2 eq_refl). by destruct (o _ w2) as [[] ?]; simplify_eq/=.
Qed.

Lemma audited_run {A} ctx describe (next : M W A) w r w1 :
  quiet -> next w = (r, w1) -> r <> Panic ->
  audited ctx describe next w =
    let '(action, resourceType, resourceID, actorID) := describe r in
    (r, (Preserve recorder (record_event ctx action resourceType resourceID actorID (err_of r)) (err_of r) w1).2).
Proof.
  intros Hq E Hr. unfold audited. rewrite M_bind_run, (try_run _ _ _ _ E Hr).
  destruct (describe r) as [[[action resourceType] resourceID] actorID]. unfold record. rewrite M_bind_run.
  pose proof (Preserve_primary (record_event ctx action resourceType resourceID actorID (err_of r)) (err_of r) w1 Hq) as Hp.
  destruct (Preserve _ _ _ w1) as [p w2]. simpl in Hp. subst p. by destruct r.
Qed.

Lemma audited_panic {A} ctx describe (next : M W A) w w1 :
  next w = (Panic, w1) -> audited ctx describe next w = (Panic, w1).
Proof. intros E. unfold audited. rewrite M_bind_run. unfold try. by rewrite E. Qed.

(** The result of an audited call is the one of the call, whatever becomes of
    the event; a call that panics panics and records nothing. *)
Lemma audit_with_run {call} describe (next : handles W call) A (c : call A) ctx w r w1 :
  quiet -> next A c ctx w = (r, w1) ->
  audit_with describe next A c ctx w =
    match describe A c, r with
    | Some d, Ok _ | Some d, Err _ =>
        let '(action, resourceType, resourceID, actorID) := d r in
        (r, (Preserve recorder (record_event ctx action resourceType resourceID actorID (err_of r)) (err_of r) w1).2)
    | _, _ => (r, w1)
    end.
Proof.
  intros Hq E. unfold audit_with. destruct (describe A c) as [d|]; [|by destruct r].
  destruct r as [a|e|]; [by apply (audited_run _ _ _ _ _ _ Hq E)..|by apply audited_panic].
Qed.
End Audited.

(** C36: the audited applications are transparent.  For every call of the two
    interfaces they return exactly what the wrapped application returns, and
    the world is left as the wrapped call and the recording of one event leave
    it: a success event when the call succeeded, a failure event when it
    failed, and no event for the calls the wrappers pass on. *)
Theorem audited_transparent {W J : Type} (recorder : BestEffortRecorder W J) (app : Application W)
    (auth : AuthenticationApplication W) (ctx : Ctx) (w : W) :
  quiet recorder ->
  (forall A (c : app_call A), (auditedIAM recorder app A c ctx w).1 = (app A c ctx w).1) /\
  (forall A (c : auth_call A), (auditedAuthentication recorder auth A c ctx w).1 = (auth A c ctx w).1) /\
  (forall A (c : app_call A) r w1, app A c ctx w = (r, w1) -> r <> Panic ->
     match describe_iam c with
     | None => auditedIAM recorder app A c ctx w = (r, w1)
     | Some d => exists event, ne_Result event = (if is_ok r then ResultSuccess else ResultFailure) /\
         (ne_Action event, ne_ResourceType event, ne_ResourceID event) = (d r).1 /\
         auditedIAM recorder app A c ctx w = (r, (Preserve recorder event (err_of r) w1).2)
     end).
Proof.
  intros Hq. split_and!.
  - intros A c. destruct (app A c ctx w) as [r w1] eqn:E. unfold auditedIAM. rewrite (audit_with_run _ _ _ _ _ _ _ _ _ Hq E).
    destruct (describe_iam c) as [d|]; [|done]. by destruct r; [destruct (d _) as [[[] ?] ?]..|].
  - intros A c. destruct (auth A c ctx w) as [r w1] eqn:E. unfold auditedAuthentication.
    rewrite (audit_with_run _ _ _ _ _ _ _ _ _ Hq E).
    destruct (describe_authentication c) as [d|]; [|done]. by destruct r; [destruct (d _) as [[[] ?] ?]..|].
  - intros A c r w1 E Hr. unfold auditedIAM. rewrite (audit_with_run _ _ _ _ _ _ _ _ _ Hq E).
    destruct (describe_iam c) as [d|]; [|done]. destruct (d r) as [[[action rtype] rid] actor] eqn:Ed.
    exists (record_event ctx action rtype rid actor (err_of r)). split_and!; [by destruct r|done|].
    by destruct r.
Qed.

(** ** The theorem at a concrete input *)
Module Example.
(** The trail is the world. *)
Definition trail : BestEffortRecorder (list (NewEvent unit)) unit :=
  mkBestEffort (Some (fun e w => (Err (EText "audit backend unavailable"), w ++ [e]))) (fun _ => mret tt) None None.
Definition refuses : Application (list (NewEvent unit)) := fun A c ctx => throw ErrPermissionDenied.
Definition no_auth : AuthenticationApplication (list (NewEvent unit)) := fun A c ctx => throw ErrInvalidCode.
Definition ctx : Ctx := mkCtx "user" "request-1" (mkRequestMetadata None "curl").
Lemma trail_quiet : quiet trail.
Proof. split_and!; [by intros f e w [= <-]|done..]. Qed.
End Example.

Lemma audited_transparent_witness :
  (auditedIAM Example.trail Example.refuses unit (app_DeleteRole "admin") Example.ctx []).1 = Err ErrPermissionDenied /\
  exists event, ne_Result event = ResultFailure /\
    (ne_Action event, ne_ResourceType event, ne_ResourceID event) = ("administration.role.delete", "role", "admin") /\
    auditedIAM Example.trail Example.refuses unit (app_DeleteRole "admin") Example.ctx [] =
      (Err ErrPermissionDenied, [event]).
Proof.
  destruct (audited_transparent Example.trail Example.refuses Example.no_auth Example.ctx [] Example.trail_quiet)
    as (Hres & _ & Hev).
  split; [exact (Hres unit (app_DeleteRole "admin"))|].
  exact (Hev unit (app_DeleteRole "admin") (Err ErrPermissionDenied) [] eq_refl ltac:(discriminate)).
Defined.
