(* ===== verification/Scheduling.v ===== *)
(** * Running the schedules ([internal/app/tasks.go])

    The scheduler process registers a broker task for every schedule
    ([buildScheduledTask]); when it is due the worker hands it to
    [scheduledAsynqHandler], which submits an execution.  [schedulerRuntime.Run]
    refreshes the schedules on a ticker and records each refresh in the audit
    trail.  The broker's scheduler and [encoding/json] are parameters. *)
From S2P Require Import Prelude GoStrings Postgres Task Queue Dispatch Scheduler AuditTrail Application.

(** ** The task of a schedule *)

(** [json_compact] is what [json.Marshal] makes of a raw message: the same
    JSON without insignificant space, [None] when it is not JSON. *)
Class SubmissionJson := {
  json_marshal_submission : ScheduledSubmission -> res string;
  json_unmarshal_submission : string -> res ScheduledSubmission;
  json_compact : string -> option string;
}.

(** The texts and numbers of a submission that JSON carries unchanged. *)
Record portable (s : ScheduledSubmission) : Prop := {
  portable_definition : valid_utf8 (bytes (ss_DefinitionID s)) = true;
  portable_type : valid_utf8 (bytes (ss_TaskType s)) = true;
  portable_retries : in_int64 (ss_MaxRetries s);
  portable_timeout : in_int64 (ss_Timeout s);
}.

(** Marshalling fails on a payload that is not JSON and on nothing else, and
    decoding gives back what was encoded. *)
Class SubmissionJsonLaws `{SubmissionJson} := {
  submission_marshal : forall s, match json_compact (ss_Payload s) with
    | Some _ => is_ok (json_marshal_submission s) = true
    | None => is_err (json_marshal_submission s) = true
    end;
  submission_unmarshal : forall s payload text, portable s -> json_compact (ss_Payload s) = Some payload ->
    json_marshal_submission s = Ok text ->
    json_unmarshal_submission text =
      Ok (mkScheduledSubmission (ss_DefinitionID s) (ss_TaskType s) payload (ss_MaxRetries s) (ss_Timeout s));
}.

(** @src pkg/modules/task/scheduled_submission.go:10-10 ScheduledDispatchTaskType *)
Definition ScheduledDispatchTaskType : string := "system.schedule.dispatch".

Definition submission_of (s : Schedule) : ScheduledSubmission :=
  mkScheduledSubmission (sch_DefinitionID s) (sch_TaskType s) (sch_Payload s) (sch_MaxRetries s) (sch_Timeout s).

(** @src internal/app/tasks.go:319-325 buildScheduledTask *)
Definition buildScheduledTask `{SubmissionJson} (schedule : Schedule) (queue : string) : res (Queue.Task * list Option) :=
  payload ← json_marshal_submission (submission_of schedule);
  Ok (Queue.mkTask ScheduledDispatchTaskType payload, [Queue queue; MaxRetry 3; Timeout (30 * Second)]).

Section Handler.
Context {W : Type} `{ErrorText} `{SubmissionJson}.

(** @src internal/app/tasks.go:313-318 (scheduledAsynqHandler) ProcessTask *)
Definition scheduledAsynqHandler (handler : Handler W) (ctx : Context) (queued : Queue.Task) : M W unit :=
  _ ← handler ctx (task_Payload queued); mret tt.

(** The submission a schedule stands for: no idempotency key, no uniqueness
    window and no delay. *)
Definition due (s : Schedule) (payload : string) : Submission :=
  mkSubmission (sch_DefinitionID s) (sch_TaskType s) payload "" (sch_MaxRetries s) (sch_Timeout s) 0 0.

(** C40: a schedule survives the broker.  A task is built for a schedule exactly
    when its payload is JSON; it goes to the configured queue with three
    retries and thirty seconds, and processing it submits the definition, the
    task type, the payload, the retries and the timeout of the schedule, and
    nothing else, provided it has a definition and a task type. *)
Theorem schedule_roundtrip `{!SubmissionJsonLaws} (s : Schedule) (queue : string) (service : SubmissionService W) :
  portable (submission_of s) ->
  match json_compact (sch_Payload s), buildScheduledTask s queue with
  | None, Err _ => True
  | Some payload, Ok (task, options) =>
      options = [Queue queue; MaxRetry 3; Timeout (30 * Second)] /\ task_Type task = ScheduledDispatchTaskType /\
      forall ctx w, scheduledAsynqHandler (ScheduledSubmissionHandler_Handle json_unmarshal_submission service) ctx task w =
        if is_empty (sch_DefinitionID s) || is_empty (sch_TaskType s)
        then (Err (EText "scheduled submission requires definition and task type"), w)
        else (_ ← Submit service ctx (due s payload); mret tt) w
  | _, _ => False
  end.
Proof.
  intros Hp. unfold buildScheduledTask. pose proof (submission_marshal (submission_of s)) as Hm.
  pose proof (submission_unmarshal (submission_of s)) as Hu. simpl in Hm, Hu.
  destruct (json_compact (sch_Payload s)) as [payload|]; destruct (json_marshal_submission (submission_of s)) as [text|e|]; try done.
  specialize (Hu _ _ Hp eq_refl eq_refl). simpl. split_and!; [done..|]. intros ctx w.
  unfold scheduledAsynqHandler, ScheduledSubmissionHandler_Handle. cbn [task_Payload]. rewrite Hu.
  cbn [ss_DefinitionID ss_TaskType ss_Payload ss_MaxRetries ss_Timeout]. rewrite !M_bind_run. cbn [of_res].
  destruct (_ || _); [done|]. rewrite !M_bind_run. unfold due. by destruct (Submit _ _ _ w) as [[] ?].
Qed.
End Handler.

(** ** The scheduler process *)
Section Scheduler.
Context {W J : Type}.
Variables (refresher start : M W unit) (newUUID : M W string).

(** [None] stands for a nil recorder.
    @src internal/app/tasks.go:215-230 refreshSchedules *)
Definition refreshSchedules (recorder : option (BestEffortRecorder W J)) : M W unit :=
  r ← try refresher;
  match recorder with
  | None => of_option_error (err_of r)
  | Some recorder =>
      id ← newUUID;
      err ← Preserve recorder (mkNewEvent ("scheduler-" +:+ id) None "scheduling.refresh"
               (match err_of r with None => ResultSuccess | Some _ => ResultFailure end) "task_schedule" "" None "" None) (err_of r);
      of_option_error err
  end.

(** The [select]s are those of the loop of [Dispatch].
    @src internal/app/tasks.go:203-212 (Run) loop *)
Fixpoint schedule_loop (recorder : option (BestEffortRecorder W J)) (selects : list select) : M W unit :=
  match selects with
  | [] | Done :: _ => mret tt
  | Tick :: selects => _ ← refreshSchedules recorder; schedule_loop recorder selects
  end.

(** @src internal/app/tasks.go:194-213 Run *)
Definition schedulerRuntime_Run (recorder : option (BestEffortRecorder W J)) (selects : list select) : M W unit :=
  _ ← refreshSchedules recorder; _ ← start; schedule_loop recorder selects.

(** [R] relates worlds the schedules do not tell apart: recording an event and
    drawing an identifier stay within it, and the refresher and the broker's
    scheduler do the same on both sides of it. *)
Variable R : relation W.
Context `{!Equivalence R}.
Definition alike {A} : relation (res A * W) := fun x y => x.1 = y.1 /\ R x.2 y.2.
Hypothesis refresher_alike : Proper (R ==> alike) refresher.
Hypothesis start_alike : Proper (R ==> alike) start.
Hypothesis newUUID_ok : forall w, is_ok (newUUID w).1 = true.
Hypothesis newUUID_within : within R newUUID.

Record unseen (recorder : BestEffortRecorder W J) : Prop := {
  unseen_record : forall f event, be_Record recorder = Some f -> within R (f event);
  unseen_log : forall e, within R (be_log recorder e);
  unseen_failed : forall f a, be_AuditWriteFailed recorder = Some f -> within R (f a);
  unseen_observe : forall f a b, be_ObserveAudit recorder = Some f -> within R (f a b);
}.

Lemma Preserve_within recorder event primary : unseen recorder -> within R (Preserve recorder event primary).
Proof.
  intros [Hr Hl Hf Ho]. unfold Preserve. destruct (be_Record recorder) as [f|]; [|apply (within_ret R)].
  apply (within_bind R); [by apply (within_try R), Hr|]. intros r. apply (within_bind R); [|intros; apply (within_ret R)].
  destruct r; [|apply (within_bind R); [apply Hl|intros _]|]; case_match; first [apply (within_ret R) | by apply Ho | by apply Hf].
Qed.

Lemma alike_bind {A B} (m m' : M W A) (k k' : A -> M W B) w w' :
  alike (m w) (m' w') -> (forall a w1 w2, R w1 w2 -> alike (k a w1) (k' a w2)) -> alike ((m ≫= k) w) ((m' ≫= k') w').
Proof.
  rewrite !M_bind_run. destruct (m w) as [r w1], (m' w') as [r' w2]. intros [Hr Hw] Hk. simpl in *. subst r'.
  destruct r; [by apply Hk|by split|by split].
Qed.

Lemma refreshSchedules_alike recorder w w' : quiet recorder -> unseen recorder -> R w w' ->
  alike (refreshSchedules (Some recorder) w) (refreshSchedules None w').
Proof.
  intros Hq Hu Hw. apply alike_bind.
  - destruct (refresher_alike _ _ Hw) as [Hr Hw1]. unfold try. destruct (refresher w) as [r w1], (refresher w') as [r' w2].
    simpl in *. subst r'. by destruct r.
  - intros r w1 w2 H12. rewrite M_bind_run. specialize (newUUID_ok w1). specialize (newUUID_within w1).
    destruct (newUUID w1) as [[id| |] w3]; [|done..]. simpl in *. rewrite M_bind_run.
    match goal with |- context [Preserve recorder ?event ?primary w3] =>
      pose proof (Preserve_primary recorder event primary w3 Hq) as Hp; pose proof (Preserve_within recorder event primary Hu w3) as Hpw;
      destruct (Preserve recorder event primary w3) as [p w4] end.
    simpl in *. subst p. assert (R w4 w2) by (etransitivity; [symmetry; exact Hpw|]; etransitivity; [symmetry; exact newUUID_within|done]).
    by destruct (err_of r).
Qed.

Lemma schedule_loop_alike recorder selects w w' : quiet recorder -> unseen recorder -> R w w' ->
  alike (schedule_loop (Some recorder) selects w) (schedule_loop None selects w').
Proof.
  intros Hq Hu. revert w w'. induction selects as [|[|] selects IH]; intros w w' Hw; [by split| |by split].
  apply alike_bind; [by apply refreshSchedules_alike|]. intros _ w1 w2 H12. by apply IH.
Qed.

(** The audit trail does not schedule anything.  Whatever becomes of the
    events, the scheduler process ends with the result it would end with
    without a recorder, and leaves the schedules alike. *)
Theorem scheduler_audit_transparent (recorder : BestEffortRecorder W J) (selects : list select) (w w' : W) :
  quiet recorder -> unseen recorder -> R w w' ->
  alike (schedulerRuntime_Run (Some recorder) selects w) (schedulerRuntime_Run None selects w').
Proof.
  intros Hq Hu Hw. apply alike_bind; [by apply refreshSchedules_alike|]. intros _ w1 w2 H12.
  apply alike_bind; [by apply start_alike|]. intros _ w3 w4 H34. by apply schedule_loop_alike.
Qed.
End Scheduler.

(** ** The theorems at concrete inputs *)
Module Example.
(** An encoding of submissions: the binary digits of their code. *)
#[export] Instance submission_eq_dec : EqDecision ScheduledSubmission.
Proof. solve_decision. Defined.
#[export] Instance submission_countable : Countable ScheduledSubmission.
Proof.
  refine (inj_countable' (fun s => (ss_DefinitionID s, ss_TaskType s, ss_Payload s, ss_MaxRetries s, ss_Timeout s))
    (fun '(d, t, p, n, m) => mkScheduledSubmission d t p n m) _). by intros [].
Defined.
Import Queue.Example(digits_of, of_digits, of_digits_of).
Definition compact (payload : string) : option string := if String.eqb payload "{ }" then Some "{}" else None.
#[export] Instance json : SubmissionJson := {|
  json_marshal_submission s := match compact (ss_Payload s) with
    | Some p => Ok (digits_of (encode (mkScheduledSubmission (ss_DefinitionID s) (ss_TaskType s) p (ss_MaxRetries s) (ss_Timeout s))))
    | None => Err (EText "invalid character") end;
  json_unmarshal_submission text := match decode (of_digits text) with Some s => Ok s | None => Err (EText "syntax") end;
  json_compact := compact;
|}.
#[export] Instance json_laws : SubmissionJsonLaws.
Proof.
  split; simpl.
  - intros s. by destruct (compact (ss_Payload s)).
  - intros s payload text _ ->. intros [= <-]. by rewrite of_digits_of, decode_encode.
Qed.

Definition nightly : Schedule :=
  mkSchedule "s1" "6a1f" "0 3 * * *" "UTC" "{ }" true "system.test" 2 (5 * Minute).
(** A store that keeps what it is given. *)
Definition store : ExecutionStore (list Task.NewExecution) :=
  mkExecutionStore (list Task.NewExecution)
    (fun _ e w => (Ok (mkExecution "e1" "" "" "" "" "" StatusQueued 0 0 "" None None), w ++ [e]))
    (fun _ _ => throw ErrExecutionNotFound) (fun _ _ _ _ => mret tt) (fun _ _ => mret tt) None.
Definition service : SubmissionService (list Task.NewExecution) :=
  mkSubmissionService store (Some (fun _ _ _ => mret tt)) (mret "q1") (mret 0).

(** A refresher that fails on its third run, and a recorder that cannot write
    and logs that. *)
Definition counter : Type := nat * list error.
Definition refresher : M counter unit := fun w => ((if (w.1 <? 2)%nat then Ok tt else Err (EText "database down")), (S w.1, w.2)).
Definition recorder : BestEffortRecorder counter unit :=
  mkBestEffort (Some (fun _ => throw (EText "no table"))) (fun e w => (Ok tt, (w.1, e :: w.2))) None None.
Definition same_count : relation counter := fun w w' => w.1 = w'.1.
#[export] Instance same_count_equivalence : Equivalence same_count.
Proof. split; unfold same_count; repeat intro; congruence. Qed.
End Example.
#[local] Existing Instances Example.json Example.json_laws Example.same_count_equivalence Queue.Example.error_text.

Lemma schedule_roundtrip_witness :
  match buildScheduledTask Example.nightly "default" with
  | Ok (task, options) =>
      scheduledAsynqHandler (ScheduledSubmissionHandler_Handle json_unmarshal_submission Example.service) Caller task [] =
      (Ok tt, [mkNewExecution "6a1f" "system.test" "q1" "" "{}"])
  | _ => False
  end.
Proof.
  pose proof (schedule_roundtrip Example.nightly "default" Example.service) as H.
  destruct (buildScheduledTask Example.nightly "default") as [[task options]|e|].
  - destruct H as (_ & _ & H); [split; by vm_compute|]. rewrite H. vm_compute. reflexivity.
  - apply H. split; by vm_compute.
  - apply H. split; by vm_compute.
Defined.

Lemma scheduler_audit_transparent_witness :
  (schedulerRuntime_Run Example.refresher (mret tt) (mret "0") (Some Example.recorder) [Tick; Tick; Done] (0%nat, [])).1 = Err (EText "database down").
Proof.
  destruct (scheduler_audit_transparent (J := unit) Example.refresher (mret tt) (mret "0") Example.same_count) with
    (recorder := Example.recorder) (selects := [Tick; Tick; Done]) (w := (0%nat, []) : Example.counter) (w' := (0%nat, []) : Example.counter) as [H _].
  - intros w w' Hw. unfold Example.same_count in Hw. split; simpl; [by rewrite Hw|unfold Example.same_count; simpl; by rewrite Hw].
  - intros w w' Hw. by split.
  - done.
  - intros w. done.
  - split_and!; simpl; try done; intros; by simplify_eq/=.
  - split; simpl; try done; intros f; intros; by simplify_eq/=.
  - done.
  - rewrite H. reflexivity.
Defined.
