(* ===== verification/Http.v ===== *)
(** * HTTP: requests, responses and the envelope ([pkg/apikit], [pkg/httpkit/jsonbody.go])

    A handler is a program that works on a world and on a response writer;
    what it does to the writer is the list of calls it makes on it, in order
    ([wop]), so that the same handler can run on the server's writer
    ([serve_ops]) and on the writers the middleware puts in front of it.  A
    parsed request gives its headers, cookies and query by name. *)
From S2P Require Import Prelude GoStrings Strconv Netip Pagination Postgres Iam Task AuditTrail Application.

(** ** Requests *)
Record Request := mkRequest {
  req_Method : string;
  req_Path : string;
  (** [URL.Query().Get] *)
  req_Query : string -> string;
  (** [Header.Get] *)
  req_Header : string -> string;
  req_Cookie : string -> option string;
  req_RemoteAddr : string;
  req_Body : option string;
  (** [chi.URLParam] *)
  req_Param : string -> string;
  req_Context : Ctx;
}.

Definition with_context (r : Request) (ctx : Ctx) : Request :=
  mkRequest (req_Method r) (req_Path r) (req_Query r) (req_Header r) (req_Cookie r) (req_RemoteAddr r) (req_Body r)
    (req_Param r) ctx.

(** ** The values the handlers write *)
Inductive value :=
  | VNull | VFields (fields : list (string * string)) | VFlags (flags : list (string * bool)) | VStatus (s : string)
  | VSent (resend_after_seconds : Z)
  | VChallenge (r : LoginResult) | VTokenPair (p : TokenPair) | VCurrentUser (u : AuthenticatedUser)
  | VUser (u : User) | VUsers (p : PageOf User) | VPreferences (p : Preferences)
  | VRoles (l : list Role) | VRole (r : Role) | VRoleDetail (r : RoleDetail) | VPermissions (l : list Permission)
  | VSettings (s : AuthenticationSettings) | VSecurity (s : SecuritySettings) | VEnrollment (e : Enrollment)
  | VRecoveryCodes (l : list string)
  | VExecution (e : Execution) | VExecutions (p : PageOf Execution) | VTaskTypes (l : list string)
  | VAudits (p : PageOf (Event string)).

(** @src pkg/apikit/response.go:10-17 Envelope *)
Record Envelope := mkEnvelope { env_Code : Z; env_Msg : string; env_Data : value }.

(** ** Writers

    A cookie is written as its header; [HeaderReplace] empties the header map
    and copies the given one into it. *)
Inductive wop :=
  | HeaderSet (k v : string) | HeaderAdd (k v : string) | HeaderReplace (h : gmap string (list string))
  | WriteHeader (status : Z) | WriteBody (e : Envelope) | WriteText (s : string) | Flush.

Definition headers := gmap string (list string).

(** The writer of [net/http]: the first [WriteHeader] sends the headers as
    they are then, a write before it sends status 200. *)
Record Writer := mkWriter { wr_header : headers; wr_sent : option (Z * headers); wr_body : list wop }.
Definition new_writer : Writer := mkWriter ∅ None [].

Definition send (status : Z) (w : Writer) : Writer :=
  match wr_sent w with
  | Some _ => w
  | None => mkWriter (wr_header w) (Some (status, wr_header w)) (wr_body w)
  end.

Definition header_op (op : wop) (h : headers) : headers :=
  match op with
  | HeaderSet k v => <[k := [v]]> h
  | HeaderAdd k v => <[k := default [] (h !! k) ++ [v]]> h
  | HeaderReplace h' => h'
  | _ => h
  end.

Definition serve_op (w : Writer) (op : wop) : Writer :=
  match op with
  | HeaderSet _ _ | HeaderAdd _ _ | HeaderReplace _ => mkWriter (header_op op (wr_header w)) (wr_sent w) (wr_body w)
  | WriteHeader status => send status w
  | WriteBody _ | WriteText _ =>
      let w := send 200 w in mkWriter (wr_header w) (wr_sent w) (wr_body w ++ [op])
  | Flush => send 200 w
  end.
Definition serve_ops (ops : list wop) (w : Writer) : Writer := foldl serve_op w ops.

(** What a client sees of a finished exchange: a handler that wrote nothing
    gets status 200. *)
Definition response (ops : list wop) : Z * headers * list wop :=
  let w := send 200 (serve_ops ops new_writer) in
  (match wr_sent w with Some (s, h) => (s, h) | None => (200, ∅) end, wr_body w).
Definition status_of (ops : list wop) : Z := (response ops).1.1.

(** ** Handlers *)
Definition Handler (W : Type) : Type := Request -> M (W * list wop) unit.

(** A row of a route table. *)
Record Route (W : Type) := mkRoute { rt_Method : string; rt_Pattern : string; rt_Handler : Handler W }.
Arguments mkRoute {W}. Arguments rt_Method {W}. Arguments rt_Pattern {W}. Arguments rt_Handler {W}.

Section Write.
Context {W : Type}.

Definition emit (op : wop) : M (W * list wop) unit := modify (fun x => (x.1, x.2 ++ [op])).
(** A call of the application. *)
Definition call {A} (m : M W A) : M (W * list wop) A := on_fst m.

(** *** [pkg/apikit] *)

(** [cause] is not written.
    @src pkg/apikit/error.go:10-20 Error *)
Record AppError := mkAppError { Code : Z; Message : string; HTTPStatus : Z; Data : value }.

(** @src pkg/apikit/error.go:23-25 New *)
Definition New_ (code : Z) (message : string) (status : Z) : AppError := mkAppError code message status VNull.
(** @src pkg/apikit/error.go:48-55 Validation *)
Definition Validation (details : list (string * string)) : AppError := mkAppError 422 "validation failed" 422 (VFields details).
(** @src pkg/apikit/error.go:58-60 NotFound *)
Definition NotFound (resource : string) : AppError := New_ 404 (resource +:+ " not found") 404.
(** @src pkg/apikit/error.go:63-68 Conflict *)
Definition Conflict (message : string) : AppError := New_ 409 (if is_empty message then "conflict" else message) 409.
(** @src pkg/apikit/error.go:71-73 MethodNotAllowed *)
Definition MethodNotAllowed : AppError := New_ 405 "method not allowed" 405.
(** @src pkg/apikit/error.go:76-78 Internal *)
Definition Internal : AppError := New_ 500 "internal server error" 500.
(** @src pkg/apikit/error.go:81-83 ServiceUnavailable *)
Definition ServiceUnavailable (message : string) : AppError := New_ 503 message 503.
(** @src pkg/apikit/error.go:86-88 TooManyRequests *)
Definition TooManyRequests : AppError := New_ 429 "too many requests" 429.

(** An [apikit.Error], or any other error: none of the modelled errors holds
    an [apikit.Error].
    @src pkg/apikit/error.go:39-45 From *)
Definition From (err : AppError + error) : AppError := match err with inl e => e | inr _ => Internal end.

(** Every value of [value] has a JSON encoding.
    @src pkg/apikit/response.go:44-58 writeJSON *)
Definition writeJSON (status : Z) (e : Envelope) : M (W * list wop) unit :=
  _ ← emit (HeaderSet "Content-Type" "application/json; charset=utf-8");
  _ ← emit (WriteHeader status);
  emit (WriteBody e).

(** @src pkg/apikit/response.go:30-32 Write *)
Definition Write (status : Z) (data : value) : M (W * list wop) unit :=
  writeJSON status (mkEnvelope status "success" data).

(** @src pkg/apikit/response.go:35-42 WriteError *)
Definition WriteError (err : AppError + error) : M (W * list wop) unit :=
  let e := From err in writeJSON (HTTPStatus e) (mkEnvelope (Code e) (Message e) (Data e)).
End Write.

(** *** Decoding *)

(** The first JSON value of a text decoded into the given type, unknown
    fields refused, and the text after it. *)
Class JsonValue (A : Type) := json_value : string -> option (A * string).

(** The second [Decode] gives [io.EOF] when only white space is left.  Beyond
    the limit the reader fails instead of ending, so one of the two calls
    gives another error.
    @src pkg/httpkit/jsonbody.go:11-24 DecodeJSON *)
Definition DecodeJSON {A} `{JsonValue A} (limit : Z) (body : string) : option A :=
  if limit <? len body then None
  else
    '(v, rest) ← json_value body;
    if forallb (fun a => bool_decide (code a ∈ [32; 9; 10; 13])) (bytes rest) then Some v else None.

(** ** What a well-behaved handler writes

    Headers, then one status and one body. *)
Definition is_header (op : wop) : bool := match op with HeaderSet _ _ | HeaderAdd _ _ | HeaderReplace _ => true | _ => false end.

Definition one_response (ops : list wop) (status : Z) (e : Envelope) : Prop :=
  exists hs, forallb is_header hs = true /\ ops = hs ++ [WriteHeader status; WriteBody e].

Lemma serve_ops_app l1 l2 w : serve_ops (l1 ++ l2) w = serve_ops l2 (serve_ops l1 w).
Proof. apply foldl_app. Qed.

Lemma serve_headers hs w : forallb is_header hs = true ->
  serve_ops hs w = mkWriter (foldl (fun h op => header_op op h) (wr_header w) hs) (wr_sent w) (wr_body w).
Proof.
  revert w. induction hs as [|op hs IH]; intros w Hh; [destruct w; reflexivity|]. simpl in Hh. apply andb_prop in Hh as [Ho Hh].
  simpl. rewrite IH by done. destruct op; try discriminate Ho; reflexivity.
Qed.

Lemma one_response_status ops status e : one_response ops status e -> status_of ops = status.
Proof.
  intros (hs & Hh & ->). unfold status_of, response. rewrite serve_ops_app, (serve_headers hs) by done. reflexivity.
Qed.

(** An envelope that repeats its status, and success under 400. *)
Definition well_formed (status : Z) (e : Envelope) : Prop :=
  200 <= status < 600 /\ env_Code e = status /\ (status < 400 -> env_Msg e = "success").

Definition answers {W} (h : M (W * list wop) unit) : Prop := forall w ops,
  match h (w, ops) with
  | (Ok _, (_, ops')) => exists new status e, ops' = ops ++ new /\ one_response new status e /\ well_formed status e
  | (Err _, _) => False
  | (Panic, (_, ops')) => exists new, ops' = ops ++ new /\ forallb is_header new = true
  end.

Create HintDb answers discriminated.
#[export] Hint Constants Opaque : answers.

Section Answers.
Context {W : Type}.
Implicit Types h : M (W * list wop) unit.

Lemma answers_writeJSON status e : well_formed status e -> answers (W := W) (writeJSON status e).
Proof.
  intros He w ops. simpl. exists [HeaderSet "Content-Type" "application/json; charset=utf-8"; WriteHeader status; WriteBody e].
  exists status, e. rewrite <- !app_assoc. split_and!; [done| |done..].
  by exists [HeaderSet "Content-Type" "application/json; charset=utf-8"].
Qed.

Lemma answers_Write status v : 200 <= status < 400 -> answers (W := W) (Write status v).
Proof. intros Hs. apply answers_writeJSON. by split_and!; simpl; [lia|lia| |]. Qed.

Definition app_error_ok (e : AppError) : Prop := Code e = HTTPStatus e /\ 400 <= HTTPStatus e < 600.

Lemma answers_WriteError (e : AppError + error) :
  match e with inl e => app_error_ok e | inr _ => True end -> answers (W := W) (WriteError e).
Proof.
  intros He. apply answers_writeJSON. destruct e as [e|e]; simpl in *.
  - destruct He. split_and!; simpl; [lia|lia|done|lia].
  - split_and!; simpl; [lia|lia|done|lia].
Qed.

Lemma WriteError_calls (e : AppError + error) (w : W) ops :
  WriteError e (w, ops) = (Ok tt, (w, ops ++ [HeaderSet "Content-Type" "application/json; charset=utf-8";
    WriteHeader (HTTPStatus (From e)); WriteBody (mkEnvelope (Code (From e)) (Message (From e)) (Data (From e)))])).
Proof.
  transitivity (@Ok unit tt, (w, ((ops ++ [HeaderSet "Content-Type" "application/json; charset=utf-8"]) ++
    [WriteHeader (HTTPStatus (From e))]) ++ [WriteBody (mkEnvelope (Code (From e)) (Message (From e)) (Data (From e)))]));
    [reflexivity|by rewrite <- !app_assoc].
Qed.

Lemma answers_panic : answers (W := W) panic.
Proof. intros w ops. exists []. by rewrite app_nil_r. Qed.

Lemma answers_header op h : is_header op = true -> answers h -> answers (emit op ≫= fun _ => h).
Proof.
  intros Hop Hh w ops. rewrite M_bind_run. simpl. specialize (Hh w (ops ++ [op])).
  destruct (h (w, ops ++ [op])) as [[u|e|] [w' ops']]; [|done|].
  2:{ destruct Hh as (new & -> & Hn). exists (op :: new). rewrite <- app_assoc. simpl. by rewrite Hop. }
  destruct Hh as (new & status & e & -> & (hs & Hhs & ->) & He).
  exists (op :: hs ++ [WriteHeader status; WriteBody e]), status, e. rewrite <- app_assoc. split_and!; [done| |done].
  exists (op :: hs). simpl. by rewrite Hop.
Qed.
(** A call of the application and what is made of its outcome. *)
Lemma answers_call {A} (m : M W A) (k : res A -> M (W * list wop) unit) :
  (forall a, answers (k (Ok a))) -> (forall e, answers (k (Err e))) -> answers (try (call m) ≫= k).
Proof.
  intros Ha He w ops. rewrite M_bind_run. unfold try, call, on_fst.
  destruct (m (w, ops).1) as [[a|e|] w1]; [apply Ha|apply He|exists []; by rewrite app_nil_r].
Qed.
End Answers.
