(* ===== verification/RequestMeta.v ===== *)
(** * The address of a client
    ([pkg/platform/httpserver/requestmeta], [auditClientKey] of
    [internal/app/api.go])

    The metadata every audit event and rate limit key is built from: the
    peer of the connection, or the nearest hop of [X-Forwarded-For] that is
    not a trusted proxy when the peer is one. *)
From S2P Require Import Prelude GoStrings Strconv Netip Pagination Postgres Iam Task AuditTrail Application Http.

(** [Config] holds one field, the trusted prefixes. *)
Section Extract.
Variable TrustedProxies : list Prefix.

(** @src pkg/platform/httpserver/requestmeta/requestmeta.go:50-57 parseAddress *)
Definition parseAddress (value : string) : option Addr :=
  let value := match SplitHostPort value with Some (host, _) => host | None => value end in
  Unmap <$> ParseAddr (TrimSpace value).

(** The address of one entry of the list.
    @src pkg/platform/httpserver/requestmeta/requestmeta.go:66-70 (forwardedChain) part *)
Definition forwardedPart (part : string) : option Addr := Unmap <$> ParseAddr (TrimSpace part).

(** @src pkg/platform/httpserver/requestmeta/requestmeta.go:59-73 forwardedChain *)
Definition forwardedChain (value : string) : option (list Addr) :=
  if is_empty (TrimSpace value) then None else mapM forwardedPart (Split value ",").

(** @src pkg/platform/httpserver/requestmeta/requestmeta.go:75-82 trusted *)
Definition trusted (address : Addr) : bool := existsb (fun p => Netip.Contains p address) TrustedProxies.

(** The loop over the chain from its end, [back] being what is left of the
    chain, the last hop first.
    @src pkg/platform/httpserver/requestmeta/requestmeta.go:38-43 (Extract) loop *)
Fixpoint nearest_client (client : Addr) (back : list Addr) : Addr :=
  match back with
  | [] => client
  | hop :: back => if trusted hop then nearest_client hop back else hop
  end.

(** @src pkg/platform/httpserver/requestmeta/requestmeta.go:26-48 Extract *)
Definition Extract (r : Request) : RequestMetadata :=
  match parseAddress (req_RemoteAddr r) with
  | None => mkRequestMetadata None (req_Header r "User-Agent")
  | Some peer =>
      let client :=
        if trusted peer then
          match forwardedChain (req_Header r "X-Forwarded-For") with
          | Some forwarded => nearest_client peer (rev forwarded)
          | None => peer
          end
        else peer in
      mkRequestMetadata (Some client) (req_Header r "User-Agent")
  end.

(** @src pkg/platform/httpserver/requestmeta/requestmeta.go:16-24 Middleware *)
Definition RequestMetadataMiddleware {W} (next : Handler W) : Handler W := fun r =>
  next (with_context r (WithRequestMetadata (req_Context r) (Extract r))).
End Extract.

(** @src internal/app/api.go:242-248 auditClientKey *)
Definition auditClientKey (r : Request) : string :=
  match rm_IPAddress (ctx_Metadata (req_Context r)) with
  | Some address => Addr_String address
  | None => req_RemoteAddr r
  end.

(** ** The nearest hop that is not a proxy *)
Section Chain.
Variable TrustedProxies : list Prefix.
Abbreviation is_trusted := (trusted TrustedProxies).

Lemma nearest_client_skip client proxies back :
  Forall (fun a => is_trusted a = true) proxies ->
  nearest_client TrustedProxies client (proxies ++ back) = nearest_client TrustedProxies (default client (last proxies)) back.
Proof.
  intros Hp. revert client. induction Hp as [|a proxies Ha Hp IH]; intros client; [done|].
  simpl. rewrite Ha, IH, last_cons. by destruct (last proxies).
Qed.

End Chain.

(** A blank header has no comma, so that it has one part, which is blank. *)
Lemma drop_spaces_without (s2 : ascii -> ascii -> bool) s3 (c : ascii) l :
  (forall a b, s2 a b = true -> a <> c /\ b <> c) -> (forall a b d, s3 a b d = true -> a <> c /\ b <> c /\ d <> c) ->
  space1 c = false -> Forall (fun a => a <> c) (drop_spaces s2 s3 l) -> Forall (fun a => a <> c) l.
Proof.
  intros H2 H3 H1. induction l as [l IH] using (induction_ltof1 _ (@length ascii)). unfold ltof in IH.
  destruct l as [|a l1]; [done|]. simpl. destruct (space1 a) eqn:Ea.
  { intros E. constructor; [congruence|]. apply IH; [simpl; lia|done]. }
  destruct l1 as [|b l2]; [done|]. destruct (s2 a b) eqn:Eb.
  { intros E. destruct (H2 _ _ Eb). repeat constructor; [done..|]. apply IH; [simpl; lia|done]. }
  destruct l2 as [|d l3]; [done|]. destruct (s3 a b d) eqn:Ec; [|done].
  intros E. destruct (H3 _ _ _ Ec) as (? & ? & ?). repeat constructor; [done..|]. apply IH; [simpl; lia|done].
Qed.

Lemma space2_comma a b : space2 a b = true -> a <> ","%char /\ b <> ","%char.
Proof. intros H. unfold space2 in H. split; intros ->; change (code ",") with 44 in H; lia. Qed.

Lemma space3_comma a b d : space3 a b d = true -> a <> ","%char /\ b <> ","%char /\ d <> ","%char.
Proof.
  intros H. unfold space3, in_range in H. split_and!; intros ->; change (code ",") with 44 in H; lia.
Qed.

Lemma blank_no_comma s : TrimSpace s = "" -> Split s "," = [s].
Proof.
  intros H. unfold Split. rewrite split_on_no_sep; [simpl; by rewrite of_bytes_bytes|].
  unfold TrimSpace in H. apply (f_equal bytes) in H. rewrite bytes_of_bytes in H. change (bytes "") with (@nil ascii) in H.
  unfold trim_right in H. apply (f_equal (@rev ascii)) in H. rewrite rev_involutive in H.
  pose proof space2_comma. pose proof space3_comma.
  apply (drop_spaces_without space2 space3); [done..|].
  rewrite <- (rev_involutive (drop_spaces _ _ _)). apply Forall_rev.
  apply (drop_spaces_without (fun a b => space2 b a) (fun a b c => space3 c b a)); [naive_solver..|].
  fold trim_left. rewrite H. constructor.
Qed.

(** ** What a client cannot do *)
Section Client.
Variable TrustedProxies : list Prefix.
Abbreviation is_trusted := (trusted TrustedProxies).
Abbreviation extract := (Extract TrustedProxies).

Lemma forwardedChain_parts value : forwardedChain value =
  if is_empty (TrimSpace value) then None else mapM forwardedPart (Split value ",").
Proof. done. Qed.

Lemma forwardedChain_Some value l : mapM forwardedPart (Split value ",") = Some l -> forwardedChain value = Some l.
Proof.
  intros Hm. rewrite forwardedChain_parts, Hm. destruct (is_empty (TrimSpace value)) eqn:Eb; [|done].
  apply is_empty_true in Eb. rewrite (blank_no_comma _ Eb) in Hm. simpl in Hm. unfold forwardedPart in Hm.
  rewrite Eb in Hm. discriminate Hm.
Qed.

End Client.

(** ** The theorem at concrete inputs *)
Module Example.
Definition internal : list Prefix := match Netip.ParsePrefix "10.0.0.0/8" with Some p => [p] | None => [] end.
Definition request (forwarded : string) : Request :=
  mkRequest "GET" "/" (fun _ => "") (fun h => if String.eqb h "X-Forwarded-For" then forwarded else "") (fun _ => None)
    "10.0.0.1:443" None (fun _ => "") Background.
Definition address (s : string) : Addr := default (V4 0) (forwardedPart s).
End Example.

Example spoofed_by_malformed :
  auditClientKey (with_context (Example.request "nonsense, 203.0.113.7, 10.0.0.9")
    (WithRequestMetadata Background (Extract Example.internal (Example.request "nonsense, 203.0.113.7, 10.0.0.9")))) = "10.0.0.1".
Proof. vm_compute. reflexivity. Qed.

