(* ===== verification/Middleware.v ===== *)
(** * The middleware of the servers ([pkg/httpkit/middleware.go])

    A middleware runs the handler it wraps, directly or on a writer of its
    own.  Such a writer is a machine that turns each call made on it into the
    calls it makes on the writer behind it ([behind]).  A handler that panics
    with an error value gives that error as its result, any other panic is
    [Panic].  Header names are written as the code writes them. *)
From S2P Require Import Prelude GoStrings Strconv Netip Pagination Postgres Iam Task AuditTrail Application Http Redis RedisKeys RateLimit.

(** ** Writers that stand before another *)
Section Feed.
Context {S : Type} (step : S -> wop -> S * list wop).

(** The calls made on the writer behind for a sequence of calls. *)
Fixpoint feed (s : S) (calls : list wop) : S * list wop :=
  match calls with
  | [] => (s, [])
  | op :: calls =>
      let '(s1, out) := step s op in
      let '(s2, out') := feed s1 calls in
      (s2, out ++ out')
  end.

(** The calls a handler makes are those it adds to the trace. *)
Definition behind {W} (s : S) (h : M (W * list wop) unit) (x : W * list wop) : res unit * W * S * list wop :=
  let '(r, (w, ops)) := h x in
  let '(s', out) := feed s (drop (length x.2) ops) in
  (r, w, s', x.2 ++ out).
End Feed.

(** The bytes of a value written as JSON, of a text, and 0 for the other
    calls. *)
Class BodySize := body_len : wop -> Z.

(** ** Request identifiers *)

(** [^\[A-Za-z0-9._:-\]{1,128}$]
    @src pkg/httpkit/middleware.go:27-27 validRequestID *)
Definition validRequestID (s : string) : bool :=
  (1 <=? len s) && (len s <=? 128) &&
  forallb (fun a => is_alnum a || bool_decide (a ∈ [".";"_";":";"-"]%char)) (bytes s).

(** [strconv.FormatInt(n, 36)]; 13 digits are enough for 64 bits. *)
Definition digit36 (d : Z) : ascii := of_code (if d <? 10 then 48 + d else 87 + d).
Fixpoint digits36 (fuel : nat) (n : Z) (acc : list ascii) : list ascii :=
  match fuel with
  | O => acc
  | S fuel => let acc := digit36 (n mod 36) :: acc in if n <? 36 then acc else digits36 fuel (n / 36) acc
  end.
Definition FormatInt36 (n : Z) : string :=
  of_bytes (if n <? 0 then "-"%char :: digits36 13 (- n) [] else digits36 13 n []).

Section Server.
Context {W : Type}.
(** [time.Now] and [rand.Read]. *)
Variable clock : W -> Z.
Variable rand_read : Z -> M W string.

(** @src pkg/httpkit/middleware.go:55-61 newRequestID *)
Definition newRequestID : M W string :=
  r ← try (rand_read 16);
  match r with
  | Ok value => mret (hex_EncodeToString value)
  | _ => gets (fun w => FormatInt36 (clock w))
  end.

Definition RequestIDHeader : string := "X-Request-ID".

(** @src pkg/httpkit/middleware.go:43-53 RequestID *)
Definition RequestID (next : Handler W) : Handler W := fun r =>
  let given := req_Header r RequestIDHeader in
  requestID ← (if validRequestID given then mret given else call newRequestID);
  _ ← emit (HeaderSet RequestIDHeader requestID);
  next (with_context r (WithRequestID (req_Context r) requestID)).

(** ** Recovery *)
Context `{BodySize}.

(** @src pkg/httpkit/middleware.go:63-63 recoveryBufferLimit *)
Definition recoveryBufferLimit : Z := 65536.

(** The panic value [http.ErrAbortHandler], which the server answers by
    closing the connection. *)
Definition ErrAbortHandler : error := EText "net/http: abort Handler".

(** The buffered bytes are kept as the calls that wrote them.
    @src pkg/httpkit/middleware.go:97-104 recoveryWriter *)
Record recoveryWriter := mkRecoveryWriter {
  rw_header : headers; rw_body : list wop; rw_status : Z; rw_wroteHeader : bool; rw_committed : bool;
}.

(** @src pkg/httpkit/middleware.go:106-108 newRecoveryWriter *)
Definition newRecoveryWriter (destination : headers) : recoveryWriter := mkRecoveryWriter destination [] 0 false false.

Definition total (body : list wop) : Z := foldr (fun op n => body_len op + n) 0 body.

(** The calls made on the destination; one [Write] of the whole buffer is
    the calls that filled it.
    @src pkg/httpkit/middleware.go:163-183 commit *)
Definition rw_commit (rw : recoveryWriter) : recoveryWriter * list wop :=
  if rw_committed rw then (rw, [])
  else
    (mkRecoveryWriter (rw_header rw) [] (rw_status rw) (rw_wroteHeader rw) true,
     HeaderReplace (rw_header rw) :: (if rw_wroteHeader rw then [WriteHeader (rw_status rw)] else []) ++ rw_body rw).

(** @src pkg/httpkit/middleware.go:117-127 (recoveryWriter) WriteHeader *)
Definition rw_WriteHeader (status : Z) (rw : recoveryWriter) : recoveryWriter :=
  if rw_wroteHeader rw then rw else mkRecoveryWriter (rw_header rw) (rw_body rw) status true (rw_committed rw).

(** @src pkg/httpkit/middleware.go:129-143 (recoveryWriter) Write *)
Definition rw_Write (op : wop) (rw : recoveryWriter) : recoveryWriter * list wop :=
  let rw := rw_WriteHeader 200 rw in
  if body_len op <=? recoveryBufferLimit - total (rw_body rw) then
    (mkRecoveryWriter (rw_header rw) (rw_body rw ++ [op]) (rw_status rw) (rw_wroteHeader rw) (rw_committed rw), [])
  else let '(rw, out) := rw_commit rw in (rw, out ++ [op]).

(** A call on the writer.  Once it is committed every call goes to the
    destination.
    @src pkg/httpkit/middleware.go:110-161 (recoveryWriter) Header to Unwrap *)
Definition rw_step (rw : recoveryWriter) (op : wop) : recoveryWriter * list wop :=
  if rw_committed rw then (rw, [op])
  else
    match op with
    | HeaderSet _ _ | HeaderAdd _ _ | HeaderReplace _ =>
        (mkRecoveryWriter (header_op op (rw_header rw)) (rw_body rw) (rw_status rw) (rw_wroteHeader rw) false, [])
    | WriteHeader status => (rw_WriteHeader status rw, [])
    | WriteBody _ | WriteText _ => rw_Write op rw
    | Flush => let '(rw, out) := rw_commit rw in (rw, out ++ [Flush])
    end.

(** [logger.ErrorContext] of a recovered panic, with the request identifier. *)
Variable log_panic : string -> W -> W.

Definition recovered_envelope : Envelope := mkEnvelope 500 "internal server error" VNull.

(** @src pkg/httpkit/middleware.go:68-95 Recovery *)
Definition Recovery (next : Handler W) : Handler W := fun r '(w, ops) =>
  let '(result, w, buffered, ops) := behind rw_step (newRecoveryWriter (wr_header (serve_ops ops new_writer))) (next r) (w, ops) in
  match result with
  | Ok _ => (Ok tt, (w, ops ++ (rw_commit buffered).2))
  | _ =>
      if decide (result = Err ErrAbortHandler) then (Err ErrAbortHandler, (w, ops))
      else
        let w := log_panic (ctx_RequestID (req_Context r)) w in
        if rw_committed buffered then (Err ErrAbortHandler, (w, ops))
        else WriteError (inl (New_ 500 "internal server error" 500)) (w, ops)
  end.

(** ** Cross-origin requests *)

(** @src pkg/httpkit/middleware.go:186-199 CORSConfig *)
Record CORSConfig := mkCORS {
  AllowedOrigins : list string; AllowedMethods : list string; AllowedHeaders : list string; ExposedHeaders : list string;
  AllowCredentials : bool; MaxAge : Z;
}.

(** @src pkg/httpkit/middleware.go:202-211 (CORSConfig) Validate *)
Definition CORSConfig_Validate (config : CORSConfig) : option error :=
  if AllowCredentials config && existsb (String.eqb "*") (AllowedOrigins config)
  then Some (EText "CORS wildcard origin cannot be combined with credentials") else None.

(** [strings.Join] with a comma and a space. *)
Definition join_list (l : list string) : string := String.concat ", " l.

(** The set of the strings of a list, as its membership test.
    @src pkg/httpkit/middleware.go:260-266 stringSet *)
Definition stringSet (values : list string) (value : string) : bool := existsb (String.eqb value) values.

(** The header of a request for an allowed origin.
    @src pkg/httpkit/middleware.go:233-243 (CORS) response headers *)
Definition cors_allow (config : CORSConfig) (origin : string) : M (W * list wop) unit :=
  _ ← emit (HeaderSet "Access-Control-Allow-Origin"
              (if stringSet (AllowedOrigins config) "*" && negb (AllowCredentials config) then "*" else origin));
  _ ← when (AllowCredentials config) (emit (HeaderSet "Access-Control-Allow-Credentials" "true"));
  when (negb (is_empty (join_list (ExposedHeaders config))))
    (emit (HeaderSet "Access-Control-Expose-Headers" (join_list (ExposedHeaders config)))).

(** The answer to a preflight.
    @src pkg/httpkit/middleware.go:244-254 (CORS) preflight *)
Definition cors_preflight (config : CORSConfig) : M (W * list wop) unit :=
  _ ← emit (HeaderAdd "Vary" "Access-Control-Request-Method");
  _ ← emit (HeaderAdd "Vary" "Access-Control-Request-Headers");
  _ ← emit (HeaderSet "Access-Control-Allow-Methods" (join_list (AllowedMethods config)));
  _ ← emit (HeaderSet "Access-Control-Allow-Headers" (join_list (AllowedHeaders config)));
  _ ← when (0 <? MaxAge config) (emit (HeaderSet "Access-Control-Max-Age" (FormatInt (Z.quot (MaxAge config) Second))));
  emit (WriteHeader 204).

(** @src pkg/httpkit/middleware.go:215-258 CORS *)
Definition CORS (config : CORSConfig) (next : Handler W) : Handler W := fun r =>
  match CORSConfig_Validate config with
  | Some _ => next r
  | None =>
      let origin := req_Header r "Origin" in
      _ ← emit (HeaderAdd "Vary" "Origin");
      if is_empty origin || (negb (stringSet (AllowedOrigins config) origin) && negb (stringSet (AllowedOrigins config) "*"))
      then next r
      else
        _ ← cors_allow config origin;
        if String.eqb (req_Method r) "OPTIONS" && negb (is_empty (req_Header r "Access-Control-Request-Method"))
        then cors_preflight config else next r
  end.

(** ** The access log *)

(** The writer keeps the status and the size of what it passes on; [Flush]
    goes to the writer it unwraps to.
    @src pkg/httpkit/middleware.go:288-293 statusWriter *)
Record statusWriter := mkStatusWriter { sw_status : Z; sw_bytes : Z; sw_wroteHeader : bool }.

(** @src pkg/httpkit/middleware.go:295-323 (statusWriter) Unwrap to Write *)
Definition sw_step (sw : statusWriter) (op : wop) : statusWriter * list wop :=
  match op with
  | WriteHeader status =>
      if sw_wroteHeader sw then (sw, []) else (mkStatusWriter status (sw_bytes sw) true, [WriteHeader status])
  | WriteBody _ | WriteText _ =>
      if sw_wroteHeader sw then (mkStatusWriter (sw_status sw) (sw_bytes sw + body_len op) true, [op])
      else (mkStatusWriter 200 (sw_bytes sw + body_len op) true, [WriteHeader 200; op])
  | _ => (sw, [op])
  end.

(** The pattern the router matched, which it leaves in the context. *)
Variable chi_route_pattern : Request -> string.

(** @src pkg/httpkit/middleware.go:326-333 RoutePattern *)
Definition RoutePattern (r : Request) : string :=
  if is_empty (chi_route_pattern r) then "/unmatched" else chi_route_pattern r.

(** A line of the log; the duration in microseconds.
    @src pkg/httpkit/middleware.go:276-283 (AccessLog) entry *)
Record AccessEntry := mkAccessEntry {
  le_request_id : string; le_method : string; le_route : string; le_status : Z; le_bytes : Z; le_duration : Z;
}.
Variable log_access : AccessEntry -> W -> W.

(** @src pkg/httpkit/middleware.go:269-286 AccessLog *)
Definition AccessLog (next : Handler W) : Handler W := fun r x =>
  let started := clock x.1 in
  let '(result, w, wrapped, ops) := behind sw_step (mkStatusWriter 200 0 false) (next r) x in
  match result with
  | Ok _ =>
      (Ok tt, (log_access (mkAccessEntry (ctx_RequestID (req_Context r)) (req_Method r) (RoutePattern r)
                 (sw_status wrapped) (sw_bytes wrapped) (Z.quot (time_sub (clock w) started) 1000)) w, ops))
  | _ => (result, (w, ops))
  end.

(** ** Rate limits *)

(** @src pkg/httpkit/middleware.go:352-363 RateLimitConfig *)
Record RateLimitConfig := mkRateLimitConfig {
  rl_Limiter : option (Ctx -> string -> Z -> Z -> M W RateLimitDecision);
  rl_Limit : Z; rl_Window : Z; rl_Key : option (Request -> string); rl_Critical : option (Request -> bool);
}.

(** @src pkg/httpkit/middleware.go:366-377 (RateLimitConfig) Validate *)
Definition RateLimitConfig_Validate (config : RateLimitConfig) : option error :=
  match rl_Limiter config with
  | None => Some (EText "rate limiter is required")
  | Some _ =>
      if rl_Limit config <=? 0 then Some (EText "rate limit must be positive")
      else if rl_Window config <=? 0 then Some (EText "rate limit window must be positive") else None
  end.

(** @src pkg/httpkit/middleware.go:420-426 clientKey *)
Definition clientKey (r : Request) : string :=
  match SplitHostPort (req_RemoteAddr r) with Some (host, _) => host | None => req_RemoteAddr r end.

(** The seconds of [Retry-After]: [math.Ceil] of the delay in seconds, whose
    floating point value is close enough for delays below 2^23 seconds.
    @src pkg/httpkit/middleware.go:407-410 (RateLimit) retrySeconds *)
Definition retrySeconds (retryAfter : Z) : Z := Z.max 1 ((retryAfter + (Second - 1)) / Second).

(** The limiter cannot be asked.
    @src pkg/httpkit/middleware.go:388-393 (RateLimit) unavailable *)
Definition rate_unavailable (config : RateLimitConfig) (next : Handler W) : Handler W := fun r =>
  if match rl_Critical config with Some critical => critical r | None => false end
  then WriteError (inl (ServiceUnavailable "rate limiter unavailable")) else next r.

(** @src pkg/httpkit/middleware.go:380-418 RateLimit *)
Definition RateLimit (config : RateLimitConfig) (next : Handler W) : Handler W := fun r =>
  let key := default clientKey (rl_Key config) in
  match rl_Limiter config with
  | Some limiter =>
      if (rl_Limit config <=? 0) || (rl_Window config <=? 0) then rate_unavailable config next r
      else
        answer ← try (call (limiter (req_Context r) (key r) (rl_Limit config) (rl_Window config)));
        match answer with
        | Ok decision =>
            _ ← emit (HeaderSet "X-RateLimit-Limit" (FormatInt (rl_Limit config)));
            _ ← emit (HeaderSet "X-RateLimit-Remaining" (FormatInt (Remaining decision)));
            if negb (Allowed decision) then
              _ ← emit (HeaderSet "Retry-After" (FormatInt (retrySeconds (RetryAfter decision))));
              WriteError (inl TooManyRequests)
            else next r
        | _ => rate_unavailable config next r
        end
  | None => rate_unavailable config next r
  end.
End Server.
Arguments RateLimitConfig : clear implicits.

(** ** Handlers that only add to the trace *)
Definition appends {W} (h : M (W * list wop) unit) : Prop := forall w ops,
  exists r w' new, h (w, ops) = (r, (w', ops ++ new)).

Lemma behind_run {S W} (step : S -> wop -> S * list wop) s (h : M (W * list wop) unit) w ops r w' new :
  h (w, ops) = (r, (w', ops ++ new)) ->
  behind step s h (w, ops) = (r, w', (feed step s new).1, ops ++ (feed step s new).2).
Proof. intros E. unfold behind. rewrite E. simpl. rewrite drop_app_length. by destruct (feed step s new). Qed.

Lemma feed_app {S} (step : S -> wop -> S * list wop) s l1 l2 :
  feed step s (l1 ++ l2) =
    ((feed step (feed step s l1).1 l2).1, (feed step s l1).2 ++ (feed step (feed step s l1).1 l2).2).
Proof.
  revert s. induction l1 as [|op l1 IH]; intros s; simpl; [by destruct (feed step s l2)|].
  destruct (step s op) as [s1 out]. rewrite IH. destruct (feed step s1 l1) as [s2 out2]. simpl. by rewrite app_assoc.
Qed.

(** ** The buffer of [Recovery] *)
Definition is_body (op : wop) : bool := match op with WriteBody _ | WriteText _ => true | _ => false end.
Definition is_flush (op : wop) : bool := match op with Flush => true | _ => false end.

Class BodySizeLaws `{BodySize} : Prop := {
  body_len_nonneg op : 0 <= body_len op;
  body_len_other op : is_body op = false -> body_len op = 0;
}.

(** The headers are set before the answer starts. *)
Fixpoint headers_first (calls : list wop) : bool :=
  match calls with
  | [] => true
  | op :: calls => if is_header op then headers_first calls else forallb (fun op => negb (is_header op)) calls
  end.

(** An answer that a buffer cannot hold back. *)
Definition streams `{BodySize} (calls : list wop) : bool :=
  existsb is_flush calls || (recoveryBufferLimit <? total calls).

Section Buffer.
Context `{BodySizeLaws}.
Implicit Types rw : recoveryWriter.

Record buffering rw : Prop := {
  buffer_open : rw_committed rw = false;
  buffer_bodies : forallb is_body (rw_body rw) = true;
  buffer_status : rw_wroteHeader rw = false -> rw_body rw = [];
  buffer_fits : total (rw_body rw) <= recoveryBufferLimit;
}.

Lemma total_app l1 l2 : total (l1 ++ l2) = total l1 + total l2.
Proof. unfold total. induction l1 as [|op l1 IH]; simpl; [lia|]. rewrite IH. lia. Qed.

Lemma total_nonneg l : 0 <= total l.
Proof. induction l as [|op l IH]; simpl; [lia|]. pose proof (body_len_nonneg op). lia. Qed.

Lemma new_buffering h : buffering (newRecoveryWriter h).
Proof. by split. Qed.

(** What the destination would be if the buffer were written now. *)
Definition flushed (w : Writer) rw : Writer :=
  mkWriter (rw_header rw) (if rw_wroteHeader rw then Some (rw_status rw, rw_header rw) else None) (wr_body w ++ rw_body rw).

Lemma serve_bodies l w s : wr_sent w = Some s -> forallb is_body l = true ->
  serve_ops l w = mkWriter (wr_header w) (Some s) (wr_body w ++ l).
Proof.
  revert w. induction l as [|op l IH]; intros w Hs Hl; [simpl; rewrite app_nil_r, <- Hs; by destruct w|].
  simpl in Hl. apply andb_prop in Hl as [Ho Hl]. simpl.
  assert (serve_op w op = mkWriter (wr_header w) (Some s) (wr_body w ++ [op])) as ->
    by (destruct op; try discriminate Ho; unfold serve_op, send; rewrite Hs; simpl; rewrite ?Hs; done).
  rewrite IH by done. simpl. by rewrite <- app_assoc.
Qed.

Lemma serve_commit rw w : buffering rw -> wr_sent w = None -> serve_ops (rw_commit rw).2 w = flushed w rw.
Proof.
  intros [Ho Hb Hs _] Hw. unfold rw_commit. rewrite Ho. simpl. unfold flushed.
  destruct (rw_wroteHeader rw) eqn:Ew; simpl.
  - unfold send. rewrite Hw. simpl. by rewrite (serve_bodies _ _ (rw_status rw, rw_header rw)).
  - rewrite Hs by done. simpl. by rewrite Hw, app_nil_r.
Qed.

Lemma feed_committed rw calls : rw_committed rw = true -> feed rw_step rw calls = (rw, calls).
Proof. intros Hc. induction calls as [|op calls IH]; [done|]. simpl. unfold rw_step at 1. by rewrite Hc, IH. Qed.

Lemma commit_committed rw : rw_committed (rw_commit rw).1 = true.
Proof. unfold rw_commit. by destruct (rw_committed rw) eqn:E. Qed.

(** One call keeps the buffer, or commits it and is passed on. *)
Definition kept rw op : Prop :=
  is_flush op = false /\ total (rw_body rw) + body_len op <= recoveryBufferLimit /\
  exists rw', rw_step rw op = (rw', []) /\ buffering rw' /\ total (rw_body rw') = total (rw_body rw) + body_len op /\
    (is_header op = true -> rw_wroteHeader rw' = rw_wroteHeader rw) /\
    forall w, (is_header op = true -> rw_wroteHeader rw = false) -> serve_op (flushed w rw) op = flushed w rw'.
Definition passed rw op : Prop :=
  is_flush op || (recoveryBufferLimit <? total (rw_body rw) + body_len op) = true /\
  exists rw' rw1, rw_step rw op = (rw', (rw_commit rw1).2 ++ [op]) /\ rw_committed rw' = true /\ buffering rw1 /\
    forall w, serve_op (flushed w rw1) op = serve_op (flushed w rw) op.

Lemma header_kept rw op : buffering rw -> is_header op = true -> kept rw op.
Proof.
  intros [Ho Hbs Hst Hf] Hop. unfold kept.
  rewrite (body_len_other op) by (by destruct op). split; [by destruct op|]. split; [lia|].
  exists (mkRecoveryWriter (header_op op (rw_header rw)) (rw_body rw) (rw_status rw) (rw_wroteHeader rw) false).
  split; [unfold rw_step; rewrite Ho; by destruct op|]. split; [by split|]. split; [simpl; lia|]. split; [done|].
  intros w Hw. specialize (Hw Hop). unfold flushed. simpl. rewrite Hw. by destruct op.
Qed.

Lemma status_kept rw status : buffering rw -> kept rw (WriteHeader status).
Proof.
  intros Hb. pose proof Hb as [Ho Hbs Hst Hf]. unfold kept. rewrite body_len_other by done. split; [done|]. split; [lia|].
  exists (rw_WriteHeader status rw). split; [unfold rw_step; by rewrite Ho|].
  unfold rw_WriteHeader, flushed. destruct (rw_wroteHeader rw) eqn:Ew; simpl.
  - split; [done|]. split; [lia|]. split; [done|]. intros w _. by rewrite Ew.
  - split; [split; simpl; try done; by rewrite Hst|]. split; [lia|]. done.
Qed.

Lemma body_step rw op : buffering rw -> is_body op = true -> kept rw op \/ passed rw op.
Proof.
  intros [Ho Hbs Hst Hf] Hop. set (rw1 := rw_WriteHeader 200 rw).
  assert (rw_body rw1 = rw_body rw /\ rw_committed rw1 = false /\ rw_wroteHeader rw1 = true) as (E1 & E2 & E3)
    by (subst rw1; unfold rw_WriteHeader; destruct (rw_wroteHeader rw) eqn:?; done).
  assert (forall w, serve_op (flushed w rw1) op = serve_op (flushed w rw) op) as Hs.
  { intros w. subst rw1. unfold rw_WriteHeader, flushed. destruct (rw_wroteHeader rw) eqn:E; [by rewrite E|].
    destruct op; try discriminate Hop; unfold serve_op, send; simpl; done. }
  assert (rw_step rw op = rw_Write op rw) as Hw by (unfold rw_step; rewrite Ho; by destruct op).
  unfold kept, passed. rewrite Hw. unfold rw_Write. fold rw1. rewrite E1, E2.
  destruct (_ <=? _) eqn:El.
  - left. split; [by destruct op|]. split; [lia|]. eexists. split; [done|]. split; [|split].
    + split; simpl; [done| |by rewrite E3|].
      * rewrite forallb_app. simpl. by rewrite Hbs, Hop.
      * rewrite total_app. simpl. lia.
    + simpl. rewrite total_app. simpl. lia.
    + split; [by destruct op|]. intros w _. rewrite <- Hs. unfold flushed. simpl. rewrite E1, E3.
      destruct op; try discriminate Hop; unfold serve_op, send; simpl; by rewrite <- app_assoc.
  - right. split; [apply orb_true_iff; right; lia|].
    destruct (rw_commit rw1) as [rw' out] eqn:Ec. exists rw', rw1. rewrite Ec. split_and!; [done| | |done].
    + change rw' with (rw', out).1. rewrite <- Ec. apply commit_committed.
    + split; [done|by rewrite E1|by rewrite E3|by rewrite E1].
Qed.

Lemma rw_step_cases rw op : buffering rw -> kept rw op \/ passed rw op.
Proof.
  intros Hb. destruct op; try (by left; apply header_kept); try (by apply body_step); [left; by apply status_kept|].
  right. split; [done|]. unfold rw_step. rewrite (buffer_open _ Hb).
  destruct (rw_commit rw) as [rw' out] eqn:Ec. exists rw', rw. rewrite Ec. split_and!; try done.
  change rw' with (rw', out).1. rewrite <- Ec. apply commit_committed.
Qed.

(** The buffer is written early exactly when it has to be, and until then the
    destination sees nothing. *)
Lemma feed_committed_iff rw calls : buffering rw ->
  rw_committed (feed rw_step rw calls).1 = existsb is_flush calls || (recoveryBufferLimit <? total (rw_body rw) + total calls) /\
  (rw_committed (feed rw_step rw calls).1 = false -> (feed rw_step rw calls).2 = []).
Proof.
  revert rw. induction calls as [|op calls IH]; intros rw Hb; simpl.
  { split; [|done]. rewrite (buffer_open _ Hb). pose proof (buffer_fits _ Hb). symmetry. apply Z.ltb_ge. lia. }
  pose proof (total_nonneg calls). destruct (rw_step_cases rw op Hb) as
    [(Hn & Hf & rw' & Hs & Hb' & Ht & _)|(Hc & rw' & rw1 & Hs & Hc' & _)]; rewrite Hs.
  - destruct (IH rw' Hb') as [IH1 IH2]. destruct (feed rw_step rw' calls) as [rw2 out]. simpl in *.
    rewrite Ht in IH1. split; [|done]. rewrite IH1, Hn. simpl. by rewrite Z.add_assoc.
  - rewrite feed_committed by done. simpl. rewrite Hc'. split; [|done]. symmetry.
    apply orb_true_iff in Hc as [->|Hc]; [done|]. apply orb_true_iff. right. apply Z.ltb_lt in Hc. lia.
Qed.

(** What the destination gets in the end is what the handler wrote. *)
Lemma feed_transparent rw calls w : buffering rw -> wr_sent w = None -> headers_first calls = true ->
  (rw_wroteHeader rw = true -> forallb (fun op => negb (is_header op)) calls = true) ->
  serve_ops ((feed rw_step rw calls).2 ++ (rw_commit (feed rw_step rw calls).1).2) w = serve_ops calls (flushed w rw).
Proof.
  intros Hb Hw. revert rw Hb. induction calls as [|op calls IH]; intros rw Hb Hf Hh; simpl; [by apply serve_commit|].
  assert (is_header op = true -> rw_wroteHeader rw = false) as Hop.
  { intros Ho. destruct (rw_wroteHeader rw); [|done]. specialize (Hh eq_refl). simpl in Hh. by rewrite Ho in Hh. }
  destruct (rw_step_cases rw op Hb) as
    [(_ & _ & rw' & Hs & Hb' & _ & Hkeep & Hserve)|(_ & rw' & rw1 & Hs & Hc' & Hb1 & Hserve)]; rewrite Hs.
  - rewrite (Hserve w Hop). destruct (feed rw_step rw' calls) as [rw2 out] eqn:E.
    simpl. specialize (IH rw' Hb'). rewrite E in IH. apply IH; simpl in Hf; destruct (is_header op) eqn:Eo.
    + done.
    + clear -Hf. destruct calls as [|c calls]; [done|]. simpl in *. apply andb_prop in Hf as [Hc Hf]. by destruct (is_header c).
    + rewrite Hkeep, Hop by done. done.
    + done.
  - rewrite feed_committed by done. simpl. assert ((rw_commit rw').2 = []) as -> by (unfold rw_commit; by rewrite Hc').
    rewrite app_nil_r, <- app_assoc. simpl. rewrite serve_ops_app, serve_commit by done. simpl. by rewrite Hserve.
Qed.
End Buffer.

(** ** What the middleware does *)
Section Theorems.
Context {W : Type} `{BodySizeLaws}.
Variable log_panic : string -> W -> W.
Abbreviation recovery := (Recovery log_panic).

(** The answer has not started. *)
Definition unsent (ops : list wop) : Prop := wr_sent (serve_ops ops new_writer) = None /\ wr_body (serve_ops ops new_writer) = [].

Lemma unsent_headers ops : forallb is_header ops = true -> unsent ops.
Proof. intros Ho. unfold unsent. by rewrite serve_headers. Qed.

Lemma flushed_new ops : unsent ops ->
  flushed (serve_ops ops new_writer) (newRecoveryWriter (wr_header (serve_ops ops new_writer))) = serve_ops ops new_writer.
Proof. intros [Hs Hb]. unfold flushed. simpl. rewrite Hb, <- Hs. rewrite <- Hb at 1. rewrite app_nil_r. by destruct (serve_ops ops new_writer). Qed.

Lemma response_envelope ops status e : unsent ops ->
  response (((ops ++ [HeaderSet "Content-Type" "application/json; charset=utf-8"]) ++ [WriteHeader status]) ++ [WriteBody e]) =
    (status, <["Content-Type" := ["application/json; charset=utf-8"]]> (wr_header (serve_ops ops new_writer)), [WriteBody e]).
Proof.
  intros [Hs Hb]. unfold response. rewrite !serve_ops_app. simpl. unfold send at 2. simpl. by rewrite Hs, Hb.
Qed.

(** C24: a panic never leaves a half-written answer.  When the handler returns,
    the client gets exactly what the handler wrote, the headers it set before
    it started its answer included.  When it panics before its answer had to
    be streamed, the client gets the 500 envelope alone: nothing the handler
    wrote, only the headers set before it ran.  When it panics later, or with
    [http.ErrAbortHandler], the connection is aborted. *)
Theorem Recovery_contains_panics (next : Handler W) (r : Request) (w w' : W) (ops calls : list wop) result :
  unsent ops -> next r (w, ops) = (result, (w', ops ++ calls)) ->
  exists result' w1 ops', recovery next r (w, ops) = (result', (w1, ops')) /\
    match result with
    | Ok _ => result' = Ok tt /\ w1 = w' /\
        (headers_first calls = true -> serve_ops ops' new_writer = serve_ops (ops ++ calls) new_writer)
    | _ =>
        if decide (result = Err ErrAbortHandler) then result' = Err ErrAbortHandler /\ w1 = w'
        else
          w1 = log_panic (ctx_RequestID (req_Context r)) w' /\
          if streams calls then result' = Err ErrAbortHandler
          else result' = Ok tt /\ response ops' =
            (500, <["Content-Type" := ["application/json; charset=utf-8"]]> (wr_header (serve_ops ops new_writer)),
             [WriteBody recovered_envelope])
    end.
Proof.
  intros Hu E. set (rw := newRecoveryWriter (wr_header (serve_ops ops new_writer))).
  pose proof (new_buffering (wr_header (serve_ops ops new_writer))) as Hb. fold rw in Hb.
  destruct (feed_committed_iff rw calls Hb) as [Hc Hn]. change (rw_body rw) with (@nil wop) in Hc.
  pose proof (fun Hf => feed_transparent rw calls (serve_ops ops new_writer) Hb (proj1 Hu) Hf ltac:(done)) as Ht.
  unfold rw in Ht at 3. rewrite flushed_new in Ht by done.
  unfold recovery. fold rw. rewrite (behind_run rw_step rw _ _ _ _ _ _ E). destruct (feed rw_step rw calls) as [rw' out]. simpl in *.
  assert ((0 + total calls) = total calls) as Hz by done. rewrite Hz in Hc. fold (streams calls) in Hc.
  destruct result as [[]|e|].
  - do 3 eexists. split; [done|]. split_and!; [done..|]. intros Hf. by rewrite <- app_assoc, serve_ops_app, Ht, <- serve_ops_app.
  - case_decide as Ha; [by do 3 eexists|]. rewrite Hc. destruct (streams calls); [by do 3 eexists|].
    rewrite (Hn Hc), app_nil_r. do 3 eexists. split; [done|]. split_and!; [done..|].
    by apply response_envelope.
  - rewrite Hc. destruct (streams calls); [by do 3 eexists|].
    rewrite (Hn Hc), app_nil_r. do 3 eexists. split; [done|]. split_and!; [done..|].
    by apply response_envelope.
Qed.

(** *** Handlers that answer

    A handler that returns has set headers and then sent one status with an
    envelope that repeats it, a page of text, or nothing for a preflight; one
    that panics has set headers at most. *)
Inductive answer_body : Z -> list wop -> Prop :=
  | envelope_body status e : well_formed status e -> answer_body status [WriteBody e]
  | page_body s : answer_body 200 [WriteText s]
  | preflight_body : answer_body 204 [].

Definition reply (new : list wop) (status : Z) (body : list wop) : Prop :=
  answer_body status body /\ exists hs, forallb is_header hs = true /\ new = hs ++ WriteHeader status :: body.

Definition replies (h : M (W * list wop) unit) : Prop := forall w ops,
  match h (w, ops) with
  | (Ok _, (_, ops')) => exists new status body, ops' = ops ++ new /\ reply new status body
  | (Err _, _) => False
  | (Panic, (_, ops')) => exists new, ops' = ops ++ new /\ forallb is_header new = true
  end.

(** One that also never panics. *)
Definition always_replies (h : M (W * list wop) unit) : Prop := forall w ops,
  exists w' new status body, h (w, ops) = (Ok tt, (w', ops ++ new)) /\ reply new status body.

Lemma answers_replies h : answers h -> replies h.
Proof.
  intros Ha w ops. specialize (Ha w ops). destruct (h (w, ops)) as [[u|e|] [w' ops']]; [|done..].
  destruct Ha as (new & status & e & -> & (hs & Hh & ->) & He). exists (hs ++ [WriteHeader status; WriteBody e]), status, [WriteBody e].
  split; [done|]. split; [by constructor|]. by exists hs.
Qed.

Lemma reply_header op new status body : is_header op = true -> reply new status body -> reply (op :: new) status body.
Proof. intros Ho (Hb & hs & Hh & ->). split; [done|]. exists (op :: hs). simpl. by rewrite Ho. Qed.

Lemma replies_header op h : is_header op = true -> replies h -> replies (emit op ≫= fun _ => h).
Proof.
  intros Ho Hh w ops. rewrite M_bind_run. simpl. specialize (Hh w (ops ++ [op])).
  destruct (h (w, ops ++ [op])) as [[u|e|] [w' ops']]; [|done|].
  - destruct Hh as (new & status & body & -> & Hr). exists (op :: new), status, body.
    rewrite <- app_assoc. split; [done|by apply reply_header].
  - destruct Hh as (new & -> & Hn). exists (op :: new). rewrite <- app_assoc. simpl. by rewrite Ho.
Qed.

Lemma replies_WriteError e : app_error_ok e -> replies (WriteError (inl e)).
Proof. intros He. apply answers_replies. by apply answers_WriteError. Qed.

Lemma reply_status ops new status body : unsent ops -> reply new status body -> status_of (ops ++ new) = status.
Proof.
  intros [Hs Hb] (Ha & hs & Hh & ->). unfold status_of, response. rewrite !serve_ops_app, (serve_headers hs) by done.
  simpl. unfold send. simpl. rewrite Hs. by destruct Ha.
Qed.

Lemma reply_headers_first new status body : reply new status body -> headers_first new = true.
Proof.
  intros (Ha & hs & Hh & ->). induction hs as [|op hs IH]; simpl in *; [by destruct Ha|].
  apply andb_prop in Hh as [-> Hh]. by apply IH.
Qed.

(** *** The chain of [NewRouter] *)
Lemma replies_call {A} (m : M W A) (k : res A -> M (W * list wop) unit) :
  (forall a, replies (k (Ok a))) -> (forall e, replies (k (Err e))) -> replies (try (call m) ≫= k).
Proof.
  intros Ha He w ops. rewrite M_bind_run. unfold try, call, on_fst.
  destruct (m (w, ops).1) as [[a|e|] w1]; [apply Ha|apply He|exists []; by rewrite app_nil_r].
Qed.

Lemma RateLimit_replies config (next : Handler W) r : (forall r, replies (next r)) -> replies (RateLimit config next r).
Proof.
  intros Hn. assert (replies (rate_unavailable config next r)) as Hu.
  { unfold rate_unavailable. destruct (match rl_Critical config with Some _ => _ | None => _ end); [|apply Hn].
    by apply replies_WriteError. }
  unfold RateLimit. destruct (rl_Limiter config) as [limiter|]; [|done]. case_match; [done|].
  apply replies_call; [intros d|done]. do 2 (apply replies_header; [done|]). case_match; [|apply Hn].
  apply replies_header; [done|]. by apply replies_WriteError.
Qed.

Lemma replies_when b op (h : M (W * list wop) unit) : is_header op = true -> replies h -> replies (when b (emit op) ≫= fun _ => h).
Proof. intros Ho Hh. destruct b; [by apply replies_header|exact Hh]. Qed.

Lemma replies_no_content : replies (emit (WriteHeader 204)).
Proof.
  intros w ops. exists [WriteHeader 204], 204, []. split; [done|]. split; [constructor|]. by exists [].
Qed.

Lemma CORS_replies config (next : Handler W) r : (forall r, replies (next r)) -> replies (CORS config next r).
Proof.
  intros Hn. unfold CORS. case_match; [apply Hn|]. apply replies_header; [done|]. case_match; [apply Hn|].
  assert (forall h, replies h -> replies (cors_allow config (req_Header r "Origin") ≫= fun _ => h)) as Hallow.
  { intros h Hh w ops.
    assert (replies (emit (HeaderSet "Access-Control-Allow-Origin"
              (if stringSet (AllowedOrigins config) "*" && negb (AllowCredentials config) then "*" else req_Header r "Origin")) ≫=
      fun _ => when (AllowCredentials config) (emit (HeaderSet "Access-Control-Allow-Credentials" "true")) ≫=
      fun _ => when (negb (is_empty (join_list (ExposedHeaders config))))
                 (emit (HeaderSet "Access-Control-Expose-Headers" (join_list (ExposedHeaders config)))) ≫= fun _ => h)) as Hr
      by (apply replies_header; [done|]; do 2 (apply replies_when; [done|]); exact Hh).
    specialize (Hr w ops). unfold cors_allow. rewrite !M_bind_run in *. simpl in *. rewrite !M_bind_run in *.
    destruct (AllowCredentials config), (negb (is_empty _)); exact Hr. }
  apply Hallow. case_match; [|apply Hn]. unfold cors_preflight. do 4 (apply replies_header; [done|]).
  apply replies_when; [done|]. apply replies_no_content.
Qed.

(** The buffered trace of an answer is the header map, the status and the
    body, written at once or in two parts. *)
Lemma feed_headers rw hs : forallb is_header hs = true -> rw_committed rw = false ->
  feed rw_step rw hs =
    (mkRecoveryWriter (foldl (fun h op => header_op op h) (rw_header rw) hs) (rw_body rw) (rw_status rw) (rw_wroteHeader rw) false, []).
Proof.
  revert rw. induction hs as [|op hs IH]; intros rw Hh Hc; [destruct rw; simpl in *; by subst|].
  simpl in Hh. apply andb_prop in Hh as [Ho Hh]. simpl. unfold rw_step at 1. rewrite Hc.
  destruct op; try discriminate Ho; rewrite IH by done; done.
Qed.

Lemma feed_reply h new status body : reply new status body ->
  exists h', (feed rw_step (newRecoveryWriter h) new).2 ++ (rw_commit (feed rw_step (newRecoveryWriter h) new).1).2 =
    HeaderReplace h' :: WriteHeader status :: body.
Proof.
  intros (Ha & hs & Hh & ->). exists (foldl (fun h op => header_op op h) h hs).
  rewrite feed_app, (feed_headers _ hs) by done. simpl.
  destruct Ha as [status e He|s|]; simpl; [| |done]; unfold rw_step, rw_Write, rw_WriteHeader; simpl; by destruct (_ <=? _).
Qed.

Lemma Recovery_replies (next : Handler W) r : replies (next r) -> always_replies (recovery next r).
Proof.
  intros Hn w ops. specialize (Hn w ops). destruct (next r (w, ops)) as [[[]|e|] [w' ops']] eqn:E; [|done|].
  - destruct Hn as (new & status & body & -> & Hr). unfold recovery.
    rewrite (behind_run rw_step _ _ _ _ _ _ _ E), <- app_assoc.
    destruct (feed_reply (wr_header (serve_ops ops new_writer)) _ _ _ Hr) as [h' Hf]. rewrite Hf.
    do 4 eexists. split; [done|]. split; [apply Hr|]. by exists [HeaderReplace h'].
  - destruct Hn as (new & -> & Hh). unfold recovery. rewrite (behind_run rw_step _ _ _ _ _ _ _ E).
    rewrite feed_headers by done. simpl. rewrite app_nil_r.
    exists (log_panic (ctx_RequestID (req_Context r)) w'), [HeaderSet "Content-Type" "application/json; charset=utf-8"; WriteHeader 500;
      WriteBody recovered_envelope], 500, [WriteBody recovered_envelope].
    split; [by rewrite WriteError_calls|]. split; [by repeat constructor|]. by exists [HeaderSet "Content-Type" "application/json; charset=utf-8"].
Qed.

Lemma feed_status hs status body sw : forallb is_header hs = true -> sw_wroteHeader sw = false -> answer_body status body ->
  feed sw_step sw (hs ++ WriteHeader status :: body) =
    (mkStatusWriter status (sw_bytes sw + total body) true, hs ++ WriteHeader status :: body).
Proof.
  intros Hh Hs Ha. induction hs as [|op hs IH]; simpl in *.
  - rewrite Hs. destruct Ha; simpl; rewrite ?Z.add_0_r; done.
  - apply andb_prop in Hh as [Ho Hh]. destruct op; try discriminate Ho; simpl; by rewrite IH.
Qed.

Variable clock : W -> Z.
Variable chi_route_pattern : Request -> string.
Variable log_access : AccessEntry -> W -> W.

Lemma AccessLog_logs (next : Handler W) r w ops : always_replies (next r) ->
  exists w1 entry new status body,
    AccessLog clock chi_route_pattern log_access next r (w, ops) = (Ok tt, (log_access entry w1, ops ++ new)) /\ reply new status body /\
    le_request_id entry = ctx_RequestID (req_Context r) /\ le_method entry = req_Method r /\
    le_status entry = status /\ le_bytes entry = total body.
Proof.
  intros Hn. destruct (Hn w ops) as (w' & new & status & body & E & Hr). unfold AccessLog.
  rewrite (behind_run sw_step _ _ _ _ _ _ _ E). pose proof Hr as (Ha & hs & Hh & ->). rewrite feed_status by done. simpl.
  do 5 eexists. split; [done|]. split; [exact Hr|]. done.
Qed.
End Theorems.

(** ** Request identifiers *)
Class RandLaws {W} (rand_read : Z -> M W string) : Prop := {
  rand_returns n w : (rand_read n w).1 <> Panic;
  rand_length n w s w' : 0 <= n -> rand_read n w = (Ok s, w') -> len s = n;
}.

Definition id_byte (a : ascii) : bool := is_alnum a || bool_decide (a ∈ [".";"_";":";"-"]%char).

Lemma valid_id l : (0 < length l <= 128)%nat -> Forall (fun a => id_byte a = true) l -> validRequestID (of_bytes l) = true.
Proof.
  intros Hl Hf. unfold validRequestID. rewrite len_bytes, bytes_of_bytes. rewrite !andb_true_iff. split_and!; [lia..|].
  apply forallb_forall. intros a Ha%list_elem_of_In. rewrite Forall_forall in Hf. by apply Hf.
Qed.

Lemma hex_digit_id z : 0 <= z < 16 -> id_byte (hex_digit z) = true.
Proof. intros Hz. assert (z ∈ seqZ 0 16) as Hin by (apply elem_of_seqZ; lia). revert Hin. vm_compute (seqZ 0 16).
  rewrite !elem_of_cons, elem_of_nil. intros. destruct_or!; try done; subst; reflexivity. Qed.

Lemma hex_encode_id l : Forall (fun a => id_byte a = true) (hex_encode l).
Proof.
  induction l as [|a l IH]; [constructor|]. simpl. pose proof (code_range a). constructor; [|constructor; [|done]].
  - apply hex_digit_id. split; [apply Z.div_pos; lia|apply Z.div_lt_upper_bound; lia].
  - apply hex_digit_id. apply Z.mod_pos_bound. lia.
Qed.

Lemma digit36_id d : 0 <= d < 36 -> id_byte (digit36 d) = true.
Proof. intros Hz. assert (d ∈ seqZ 0 36) as Hin by (apply elem_of_seqZ; lia). revert Hin. vm_compute (seqZ 0 36).
  rewrite !elem_of_cons, elem_of_nil. intros. destruct_or!; try done; subst; reflexivity. Qed.

Lemma digits36_id fuel n acc : 0 <= n -> Forall (fun a => id_byte a = true) acc ->
  Forall (fun a => id_byte a = true) (digits36 fuel n acc) /\
  (length acc + (if fuel is O then 0 else 1) <= length (digits36 fuel n acc) <= length acc + fuel)%nat.
Proof.
  revert n acc. induction fuel as [|fuel IH]; intros n acc Hn Ha; simpl; [split; [done|lia]|].
  assert (Forall (fun a => id_byte a = true) (digit36 (n mod 36) :: acc)) as Hd.
  { constructor; [|done]. apply digit36_id. apply Z.mod_pos_bound. lia. }
  destruct (n <? 36); [split; [exact Hd|simpl; lia]|]. destruct (IH (n / 36) _ ltac:(apply Z.div_pos; lia) Hd) as [H1 H2].
  split; [exact H1|]. simpl in H2 |- *. destruct fuel; lia.
Qed.

Lemma FormatInt36_id n : validRequestID (FormatInt36 n) = true.
Proof.
  unfold FormatInt36. apply valid_id; destruct (n <? 0) eqn:E.
  - destruct (digits36_id 13 (- n) [] ltac:(lia) ltac:(done)) as [_ Hl]. simpl in *. lia.
  - destruct (digits36_id 13 n [] ltac:(lia) ltac:(done)) as [_ Hl]. simpl in *. lia.
  - constructor; [done|]. by apply digits36_id; [lia|].
  - by apply digits36_id; [lia|].
Qed.

Section RequestIDs.
Context {W : Type} (clock : W -> Z) (rand_read : Z -> M W string) `{!RandLaws rand_read}.

Lemma newRequestID_run w : exists id w', newRequestID clock rand_read w = (Ok id, w') /\ validRequestID id = true.
Proof.
  unfold newRequestID. rewrite M_bind_run. unfold try. pose proof (rand_returns 16 w) as Hp.
  destruct (rand_read 16 w) as [[s|e|] w'] eqn:E; [| |done].
  - exists (hex_EncodeToString s), w'. split; [done|]. unfold hex_EncodeToString. apply valid_id; [|apply hex_encode_id].
    apply rand_length in E; [|lia]. rewrite length_hex_encode. rewrite len_bytes in E. lia.
  - exists (FormatInt36 (clock w')), w'. split; [done|apply FormatInt36_id].
Qed.

(** The handler runs with a valid identifier, the client's own when it sent
    one, which the response carries. *)
Lemma RequestID_run (next : Handler W) r w ops : exists id w',
  RequestID clock rand_read next r (w, ops) =
    next (with_context r (WithRequestID (req_Context r) id)) (w', ops ++ [HeaderSet RequestIDHeader id]) /\
  validRequestID id = true /\ (validRequestID (req_Header r RequestIDHeader) = true -> id = req_Header r RequestIDHeader).
Proof.
  unfold RequestID. rewrite M_bind_run. destruct (validRequestID (req_Header r RequestIDHeader)) eqn:Ev.
  - by exists (req_Header r RequestIDHeader), w.
  - destruct (newRequestID_run w) as (id & w' & E & Hv). exists id, w'. unfold call, on_fst. simpl. by rewrite E.
Qed.
End RequestIDs.

(** ** Who may read an answer from another origin *)

(** The origin a response is shared with: the request's own when it is listed,
    any when the wildcard is, and none under settings that would share
    credentials with any. *)
Definition shared_with (config : CORSConfig) (origin : string) : option string :=
  if is_empty origin then None
  else if decide ("*" ∈ AllowedOrigins config) then (if AllowCredentials config then None else Some "*")
  else if decide (origin ∈ AllowedOrigins config) then Some origin else None.

Lemma stringSet_elem values value : stringSet values value = true <-> value ∈ values.
Proof. unfold stringSet. rewrite existsb_exists. setoid_rewrite String.eqb_eq. setoid_rewrite <- list_elem_of_In. naive_solver. Qed.

Lemma CORS_Validate_spec config :
  CORSConfig_Validate config = None <-> ~ (AllowCredentials config = true /\ "*" ∈ AllowedOrigins config).
Proof.
  unfold CORSConfig_Validate. change (existsb (String.eqb "*") (AllowedOrigins config)) with (stringSet (AllowedOrigins config) "*").
  rewrite <- stringSet_elem. destruct (AllowCredentials config), (stringSet _ _); simpl; naive_solver.
Qed.

(** The headers a list of calls sets. *)
Definition set_headers (calls : list wop) : headers := foldl (fun h op => header_op op h) ∅ calls.

(** The calls the two parts make. *)
Definition allow_calls (config : CORSConfig) (allowed : string) : list wop :=
  HeaderSet "Access-Control-Allow-Origin" allowed ::
  (if AllowCredentials config then [HeaderSet "Access-Control-Allow-Credentials" "true"] else []) ++
  (if is_empty (join_list (ExposedHeaders config)) then []
   else [HeaderSet "Access-Control-Expose-Headers" (join_list (ExposedHeaders config))]).
Definition preflight_calls (config : CORSConfig) : list wop :=
  [HeaderAdd "Vary" "Access-Control-Request-Method"; HeaderAdd "Vary" "Access-Control-Request-Headers";
   HeaderSet "Access-Control-Allow-Methods" (join_list (AllowedMethods config));
   HeaderSet "Access-Control-Allow-Headers" (join_list (AllowedHeaders config))] ++
  (if 0 <? MaxAge config then [HeaderSet "Access-Control-Max-Age" (FormatInt (Z.quot (MaxAge config) Second))] else []).

Lemma emit_run {W} op (k : M (W * list wop) unit) w ops : (emit op ≫= fun _ => k) (w, ops) = k (w, ops ++ [op]).
Proof. reflexivity. Qed.

Lemma when_emit_run {W} b op (k : M (W * list wop) unit) w ops :
  (when b (emit op) ≫= fun _ => k) (w, ops) = k (w, ops ++ (if b then [op] else [])).
Proof. destruct b; [reflexivity|]. by rewrite app_nil_r. Qed.

Lemma cors_allow_run {W} config origin (k : M (W * list wop) unit) w ops :
  (cors_allow config origin ≫= fun _ => k) (w, ops) =
  k (w, ops ++ allow_calls config (if stringSet (AllowedOrigins config) "*" && negb (AllowCredentials config) then "*" else origin)).
Proof.
  unfold cors_allow, allow_calls. rewrite M_bind_run, emit_run, when_emit_run.
  destruct (is_empty _); simpl; rewrite <- ?app_assoc, ?app_nil_r; reflexivity.
Qed.

Lemma cors_preflight_run {W} config (w : W) ops :
  cors_preflight config (w, ops) = (Ok tt, (w, ops ++ preflight_calls config ++ [WriteHeader 204])).
Proof.
  unfold cors_preflight, preflight_calls. rewrite !emit_run, when_emit_run. unfold emit, modify. simpl.
  by rewrite <- !app_assoc.
Qed.

Definition is_preflight (r : Request) : bool :=
  String.eqb (req_Method r) "OPTIONS" && negb (is_empty (req_Header r "Access-Control-Request-Method")).

(** The headers [CORS] sets. *)
Definition cors_calls (config : CORSConfig) (r : Request) : list wop :=
  match CORSConfig_Validate config with
  | Some _ => []
  | None =>
      HeaderAdd "Vary" "Origin" ::
      match shared_with config (req_Header r "Origin") with
      | Some allowed => allow_calls config allowed ++ (if is_preflight r then preflight_calls config else [])
      | None => []
      end
  end.

Lemma invalid_unshared config origin e : CORSConfig_Validate config = Some e -> shared_with config origin = None.
Proof.
  intros Ev. destruct (decide (AllowCredentials config = true /\ "*" ∈ AllowedOrigins config)) as [[Hc Hs]|Hn].
  - unfold shared_with. rewrite decide_True, Hc by done. by destruct (is_empty origin).
  - apply CORS_Validate_spec in Hn. congruence.
Qed.

Lemma shared_with_test config origin : CORSConfig_Validate config = None ->
  shared_with config origin =
    if is_empty origin || (negb (stringSet (AllowedOrigins config) origin) && negb (stringSet (AllowedOrigins config) "*"))
    then None else Some (if stringSet (AllowedOrigins config) "*" && negb (AllowCredentials config) then "*" else origin).
Proof.
  intros Ev%CORS_Validate_spec. unfold shared_with. destruct (is_empty origin); [done|].
  rewrite <- stringSet_elem in Ev.
  destruct (decide ("*" ∈ AllowedOrigins config)) as [Hs|Hs]; rewrite <- stringSet_elem in Hs.
  - rewrite Hs in *. destruct (AllowCredentials config); [naive_solver|]. by rewrite andb_false_r.
  - apply not_true_iff_false in Hs. rewrite Hs.
    destruct (decide (origin ∈ AllowedOrigins config)) as [Ho|Ho]; rewrite <- stringSet_elem in Ho; [by rewrite Ho|].
    apply not_true_iff_false in Ho. by rewrite Ho.
Qed.

Lemma CORS_run {W} config (next : Handler W) r w ops :
  CORS config next r (w, ops) =
    if bool_decide (is_Some (shared_with config (req_Header r "Origin"))) && is_preflight r
    then (Ok tt, (w, ops ++ cors_calls config r ++ [WriteHeader 204])) else next r (w, ops ++ cors_calls config r).
Proof.
  unfold CORS, cors_calls. destruct (CORSConfig_Validate config) as [e|] eqn:Ev.
  { rewrite (invalid_unshared _ _ _ Ev). by rewrite app_nil_r. }
  rewrite emit_run, (shared_with_test _ _ Ev). destruct (is_empty _ || _) eqn:E; [done|].
  rewrite cors_allow_run, bool_decide_true by done. change (true && is_preflight r) with (is_preflight r).
  destruct (is_preflight r) eqn:Ep; unfold is_preflight in Ep; rewrite Ep; [rewrite cors_preflight_run|];
    generalize (preflight_calls config), (allow_calls config); intros; simpl; rewrite <- !app_assoc; simpl;
    by rewrite <- ?app_assoc, ?app_nil_r.
Qed.

Lemma cors_headers config r :
  set_headers (cors_calls config r) !! "Access-Control-Allow-Origin" =
    (fun origin => [origin]) <$> shared_with config (req_Header r "Origin") /\
  set_headers (cors_calls config r) !! "Access-Control-Allow-Credentials" =
    (if bool_decide (is_Some (shared_with config (req_Header r "Origin"))) && AllowCredentials config then Some ["true"] else None).
Proof.
  unfold cors_calls. destruct (CORSConfig_Validate config) as [e|] eqn:Ev; [by rewrite (invalid_unshared _ _ _ Ev)|].
  destruct (shared_with _ _) as [origin|]; [|by vm_compute]. unfold allow_calls, preflight_calls.
  generalize (join_list (ExposedHeaders config)) (join_list (AllowedMethods config)) (join_list (AllowedHeaders config)).
  intros exposed methods names. generalize (FormatInt (Z.quot (MaxAge config) Second)). intros age. rewrite bool_decide_true by done.
  destruct (AllowCredentials config), (is_empty exposed), (is_preflight r), (0 <? MaxAge config); by vm_compute.
Qed.

(** An answer is shared with listed origins only.  Under any settings the
    response allows an origin exactly when the specification shares it, and
    allows credentials only together with an origin that is itself in the
    list, never with the wildcard.  A preflight of a shared origin is answered
    with 204 and does not reach the handler; every other request does. *)
Theorem CORS_shares {W} (config : CORSConfig) (next : Handler W) (r : Request) (w : W) (ops : list wop) :
  let shared := shared_with config (req_Header r "Origin") in
  let preflight := is_preflight r in
  exists hs, forallb is_header hs = true /\
    CORS config next r (w, ops) =
      (if bool_decide (is_Some shared) && preflight then (Ok tt, (w, ops ++ hs ++ [WriteHeader 204])) else next r (w, ops ++ hs)) /\
    set_headers hs !! "Access-Control-Allow-Origin" = (fun origin => [origin]) <$> shared /\
    set_headers hs !! "Access-Control-Allow-Credentials" =
      (if bool_decide (is_Some shared) && AllowCredentials config then Some ["true"] else None) /\
    (is_Some (set_headers hs !! "Access-Control-Allow-Credentials") ->
       req_Header r "Origin" ∈ AllowedOrigins config /\ "*" ∉ AllowedOrigins config).
Proof.
  intros shared preflight. exists (cors_calls config r). split; [|split; [apply CORS_run|]].
  - unfold cors_calls, allow_calls, preflight_calls. destruct (CORSConfig_Validate config); [done|]. simpl.
    destruct (shared_with _ _); [|done]. simpl.
    destruct (AllowCredentials config), (is_empty (join_list (ExposedHeaders config))), (is_preflight r), (0 <? MaxAge config); done.
  - destruct (cors_headers config r) as [H1 H2]. fold shared in H1, H2. split; [exact H1|]. split; [exact H2|]. rewrite H2.
    subst shared. unfold shared_with. intros [x Hx].
    destruct (is_empty _); [done|]. destruct (decide ("*" ∈ _)) as [Hs|Hs].
    + destruct (AllowCredentials config); [done|]. by rewrite andb_false_r in Hx.
    + by destruct (decide (_ ∈ _)).
Qed.

(** ** The theorem at concrete inputs *)
Module Example.
#[export] Instance sizes : BodySize := fun op =>
  match op with WriteText s => len s | WriteBody e => len (env_Msg e) + 20 | _ => 0 end.
#[export] Instance sizes_laws : BodySizeLaws.
Proof. split; intros op; destruct op; unfold body_len, sizes, len; simpl; (done || lia). Defined.

(** It sets a header, starts its answer and panics. *)
Definition panics : Handler nat := fun r =>
  _ ← emit (HeaderSet "X-Secret" "1"); _ ← emit (WriteHeader 200); _ ← emit (WriteText "half an answ"); panic.
Definition request : Request :=
  mkRequest "GET" "/" (fun _ => "") (fun _ => "") (fun _ => None) "192.0.2.1:4242" None (fun _ => "") Background.
End Example.
#[local] Existing Instances Example.sizes Example.sizes_laws.

Lemma Recovery_contains_panics_witness :
  exists ops', Recovery (fun _ n => S n) Example.panics Example.request (O, [HeaderSet "X-Request-ID" "a"]) = (Ok tt, (1%nat, ops')) /\
    response ops' =
      (500, <["Content-Type" := ["application/json; charset=utf-8"]]> {["X-Request-ID" := ["a"]]}, [WriteBody recovered_envelope]).
Proof.
  destruct (Recovery_contains_panics (fun _ n => S n) Example.panics Example.request O O [HeaderSet "X-Request-ID" "a"]
    [HeaderSet "X-Secret" "1"; WriteHeader 200; WriteText "half an answ"] Panic (unsent_headers [HeaderSet "X-Request-ID" "a"] eq_refl) eq_refl)
    as (result & w1 & ops' & E & Hr).
  exists ops'. rewrite decide_False in Hr by discriminate. destruct Hr as [-> [-> Hr]]. split; [exact E|exact Hr].
Defined.
