(* ===== verification/Metrics.v ===== *)
(** * Metrics ([pkg/platform/observability/metrics.go])

    What the server counts, and under which labels.  A labelled counter and
    the histogram beside it are observed together; a family is the number of
    observations per combination of label values, its durations are not kept
    and exposing it over HTTP is the Prometheus client's. *)
From S2P Require Import Prelude GoStrings Strconv Pagination Postgres Iam Task AuditTrail Application Http Redis RedisKeys RateLimit Middleware.

Abbreviation family := (gmap (list string) nat).

(** [WithLabelValues(...).Inc()] *)
Definition inc (labels : list string) (f : family) : family := <[labels := S (default O (f !! labels))]> f.

(** ** Labels *)

(** [(?i)] and the anchors are part of the three expressions.
    @src pkg/platform/observability/metrics.go:136-140 (regular expressions) numericID uuidID hexID *)
Definition numericID (s : string) : bool := negb (is_empty s) && forallb is_digit (bytes s).
Definition hex_run (n : nat) (l : list ascii) : bool := (length l =? n)%nat && forallb is_hex_digit l.
Definition uuidID (s : string) : bool :=
  match Split s "-" with
  | [a; b; c; d; e] =>
      hex_run 8 (bytes a) && hex_run 4 (bytes b) && hex_run 4 (bytes c) && hex_run 4 (bytes d) && hex_run 12 (bytes e) &&
      match bytes c with v :: _ => in_range 49 56 v | [] => false end &&
      match bytes d with v :: _ => bool_decide (v ∈ ["8";"9";"a";"b";"A";"B"]%char) | [] => false end
  | _ => false
  end.
Definition hexID (s : string) : bool := (16 <=? length (bytes s))%nat && forallb is_hex_digit (bytes s).

(** [strings.Trim(s, "/")] *)
Fixpoint drop_slashes (l : list ascii) : list ascii :=
  match l with "/"%char :: l => drop_slashes l | _ => l end.
Definition trim_slashes (s : string) : string := of_bytes (rev (drop_slashes (rev (drop_slashes (bytes s))))).

Definition normal_segment (segment : string) : string :=
  if (HasPrefix segment "{" && HasSuffix segment "}") || numericID segment || uuidID segment || hexID segment
  then "{id}" else segment.

(** @src pkg/platform/observability/metrics.go:142-157 NormalizePath *)
Definition NormalizePath (path : string) : string :=
  let path := TrimSpace (let '(before, _, _) := Cut path "?" in before) in
  if negb (HasPrefix path "/") then "/unmatched"
  else
    match Split (trim_slashes path) "/" with
    | [""] => "/"
    | segments => "/" +:+ String.concat "/" (map normal_segment segments)
    end.

(** [strings.ToUpper] of an HTTP method, which is an ASCII token. *)
Definition upper_byte (a : ascii) : ascii := if in_range 97 122 a then of_code (code a - 32) else a.

Definition known_methods : list string := ["GET"; "HEAD"; "POST"; "PUT"; "PATCH"; "DELETE"; "OPTIONS"].

(** @src pkg/platform/observability/metrics.go:159-167 normalizeMethod *)
Definition normalizeMethod (method : string) : string :=
  let method := of_bytes (map upper_byte (bytes method)) in
  if bool_decide (method ∈ known_methods) then method else "OTHER".

(** @src pkg/platform/observability/metrics.go:169-174 statusClass *)
Definition statusClass (status : Z) : string :=
  if (status <? 100) || (599 <? status) then "other" else FormatInt (Z.quot status 100) +:+ "xx".

Definition categories : list string := ["auth"; "authorization"; "administration"; "task"; "scheduling"].

(** @src pkg/platform/observability/metrics.go:176-184 actionCategory *)
Definition actionCategory `{Unicode} (action : string) : string :=
  let '(prefix, _, _) := Cut (ToLower action) "." in
  if bool_decide (prefix ∈ categories) then prefix else "other".

(** @src pkg/platform/observability/metrics.go:186-193 enum *)
Definition enum (value : string) (allowed : list string) : string :=
  if bool_decide (value ∈ allowed) then value else "other".

(** @src pkg/platform/observability/metrics.go:195-200 knownOrOther *)
Definition knownOrOther (value : string) (known : list string) : string :=
  if bool_decide (value ∈ known) then value else "other".

(** @src pkg/platform/observability/metrics.go:210-216 routeSet *)
Definition routeSet (values : list string) : list string := map NormalizePath values.

(** ** The registry *)

(** @src pkg/platform/observability/metrics.go:15-20 Config *)
Record MetricsConfig := mkMetricsConfig {
  KnownRoutes : list string; KnownDependencies : list string; KnownTaskTypes : list string;
}.

(** The sets of known values, and the four families.
    @src pkg/platform/observability/metrics.go:22-35 Metrics *)
Record Metrics := mkMetrics {
  mt_routes : list string; mt_dependencies : list string; mt_taskTypes : list string;
  httpRequests : family; dependencyOps : family; auditRecords : family; auditFailures : family; taskExecutions : family;
}.

(** @src pkg/platform/observability/metrics.go:37-58 New *)
Definition New (config : MetricsConfig) : Metrics :=
  mkMetrics (routeSet (KnownRoutes config)) (KnownDependencies config) (KnownTaskTypes config) ∅ ∅ ∅ ∅ ∅.

(** @src pkg/platform/observability/metrics.go:103-112 ObserveHTTP *)
Definition ObserveHTTP (method path : string) (status : Z) (m : Metrics) : Metrics :=
  let route := NormalizePath path in
  let route := if bool_decide (route ∈ mt_routes m) then route else "/unmatched" in
  mkMetrics (mt_routes m) (mt_dependencies m) (mt_taskTypes m)
    (inc [normalizeMethod method; route; statusClass status] (httpRequests m))
    (dependencyOps m) (auditRecords m) (auditFailures m) (taskExecutions m).

(** @src pkg/platform/observability/metrics.go:114-119 ObserveDependency *)
Definition ObserveDependency (dependency outcome : string) (m : Metrics) : Metrics :=
  mkMetrics (mt_routes m) (mt_dependencies m) (mt_taskTypes m) (httpRequests m)
    (inc [knownOrOther dependency (mt_dependencies m); enum outcome ["success"; "failure"; "timeout"]] (dependencyOps m))
    (auditRecords m) (auditFailures m) (taskExecutions m).

(** @src pkg/platform/observability/metrics.go:121-123 ObserveAudit *)
Definition ObserveAudit `{Unicode} (action result : string) (m : Metrics) : Metrics :=
  mkMetrics (mt_routes m) (mt_dependencies m) (mt_taskTypes m) (httpRequests m) (dependencyOps m)
    (inc [actionCategory action; enum result ["success"; "failure"]] (auditRecords m)) (auditFailures m) (taskExecutions m).

(** @src pkg/platform/observability/metrics.go:125-127 AuditWriteFailed *)
Definition AuditWriteFailed `{Unicode} (action : string) (m : Metrics) : Metrics :=
  mkMetrics (mt_routes m) (mt_dependencies m) (mt_taskTypes m) (httpRequests m) (dependencyOps m) (auditRecords m)
    (inc [actionCategory action] (auditFailures m)) (taskExecutions m).

Definition task_statuses : list string := ["queued"; "running"; "succeeded"; "failed"; "cancelled"].

(** @src pkg/platform/observability/metrics.go:129-134 ObserveTask *)
Definition ObserveTask (taskType status : string) (m : Metrics) : Metrics :=
  mkMetrics (mt_routes m) (mt_dependencies m) (mt_taskTypes m) (httpRequests m) (dependencyOps m) (auditRecords m) (auditFailures m)
    (inc [knownOrOther taskType (mt_taskTypes m); enum status task_statuses] (taskExecutions m)).

(** *** The middleware *)
Section Middleware.
Context {W : Type}.

(** The writer that remembers the status.
    @src pkg/platform/observability/metrics.go:79-101 (statusWriter) Unwrap to Write *)
Definition status_step (s : Z * bool) (op : wop) : (Z * bool) * list wop :=
  match op with
  | WriteHeader status => if s.2 then (s, []) else ((status, true), [WriteHeader status])
  | WriteBody _ | WriteText _ => if s.2 then (s, [op]) else ((200, true), [WriteHeader 200; op])
  | _ => (s, [op])
  end.

(** The pattern of the route in the context of the request it was given,
    empty without one. *)
Variable route_pattern : Request -> string.
Variable observe : (Metrics -> Metrics) -> W -> W.

(** @src pkg/platform/observability/metrics.go:64-77 HTTPMiddleware *)
Definition HTTPMiddleware (next : Handler W) : Handler W := fun r x =>
  let '(result, w, wrapped, ops) := behind status_step (200, false) (next r) x in
  match result with
  | Ok _ =>
      let route := if is_empty (route_pattern r) then NormalizePath (req_Path r) else route_pattern r in
      (Ok tt, (observe (ObserveHTTP (req_Method r) route wrapped.1) w, ops))
  | _ => (result, (w, ops))
  end.
End Middleware.

(** ** The labels are bounded

    A label never takes a value the server has not chosen, whatever requests,
    actions and task types arrive, so that the number of series is fixed by
    the configuration; and every observation is counted. *)
Inductive observation :=
  | SeeHTTP (method path : string) (status : Z)
  | SeeDependency (dependency outcome : string)
  | SeeAudit (action result : string)
  | SeeAuditLost (action : string)
  | SeeTask (taskType status : string).

Definition see `{Unicode} (m : Metrics) (o : observation) : Metrics :=
  match o with
  | SeeHTTP method path status => ObserveHTTP method path status m
  | SeeDependency dependency outcome => ObserveDependency dependency outcome m
  | SeeAudit action result => ObserveAudit action result m
  | SeeAuditLost action => AuditWriteFailed action m
  | SeeTask taskType status => ObserveTask taskType status m
  end.

Fixpoint combinations (values : list (list string)) : list (list string) :=
  match values with
  | [] => [[]]
  | l :: values => flat_map (fun v => map (cons v) (combinations values)) l
  end.

Lemma combinations_length values : length (combinations values) = foldr (fun l n => (length l * n)%nat) 1%nat values.
Proof.
  induction values as [|l values IH]; [done|]. simpl. rewrite <- IH.
  rewrite (flat_map_constant_length (c := length (combinations values))); [done|]. intros v _. apply length_map.
Qed.

Lemma elem_of_combinations values labels : Forall2 (fun v l => v ∈ l) labels values -> labels ∈ combinations values.
Proof.
  induction 1 as [|v l labels values Hv _ IH]; [by constructor|]. simpl. apply list_elem_of_In, in_flat_map. exists v.
  split; [by apply list_elem_of_In|]. by apply in_map, list_elem_of_In.
Qed.

(** The family has its labels among the combinations. *)
Definition labelled (values : list (list string)) (f : family) : Prop := forall labels, is_Some (f !! labels) -> labels ∈ combinations values.

Lemma labelled_inc values labels f : labelled values f -> Forall2 (fun v l => v ∈ l) labels values -> labelled values (inc labels f).
Proof.
  intros Hf Hl k. unfold inc. destruct (decide (labels = k)) as [<-|Hne].
  - intros _. by apply elem_of_combinations.
  - rewrite lookup_insert_ne by done. apply Hf.
Qed.

Lemma labelled_size values f : labelled values f -> (size f <= foldr (fun l n => (length l * n)%nat) 1%nat values)%nat.
Proof.
  intros Hf. rewrite <- combinations_length, <- (size_dom (D := gset (list string)) f).
  apply submseteq_length, NoDup_submseteq; [apply NoDup_elements|].
  intros k Hk%elem_of_elements%elem_of_dom. by apply Hf.
Qed.

(** The number of observations of a family. *)
Definition observed (f : family) : nat := map_fold (fun _ n total => (n + total)%nat) O f.

Lemma observed_inc labels f : observed (inc labels f) = S (observed f).
Proof.
  assert (forall n g, g !! labels = None -> observed (<[labels := n]> g) = (n + observed g)%nat) as Hi.
  { intros n g Hg. unfold observed. rewrite map_fold_insert_L; [done| |done]. intros. lia. }
  unfold inc. destruct (f !! labels) as [n|] eqn:E; simpl; [|by rewrite Hi].
  pose proof (Hi (S n) (delete labels f) (lookup_delete_eq _ _)) as H1. rewrite insert_delete_eq in H1.
  pose proof (Hi n (delete labels f) (lookup_delete_eq _ _)) as H2. rewrite insert_delete_id in H2 by done. lia.
Qed.

Definition methods : list string := "OTHER" :: known_methods.
Definition classes : list string := ["other"; "1xx"; "2xx"; "3xx"; "4xx"; "5xx"].

Lemma statusClass_in status : statusClass status ∈ classes.
Proof.
  unfold statusClass. destruct ((status <? 100) || (599 <? status)) eqn:E; [by left|].
  assert (Z.quot status 100 ∈ [1;2;3;4;5]) as Hq.
  { rewrite Z.quot_div_nonneg by lia. assert (1 <= status / 100 < 6) by (split; [apply Z.div_le_lower_bound|apply Z.div_lt_upper_bound]; lia).
    rewrite !elem_of_cons. lia. }
  rewrite !elem_of_cons in Hq. destruct Hq as [->|[->|[->|[->|[->|Hq]]]]]; [vm_compute; set_solver ..|]. by apply elem_of_nil in Hq.
Qed.

Lemma normalizeMethod_in method : normalizeMethod method ∈ methods.
Proof. unfold normalizeMethod. case_bool_decide; [by right|by left]. Qed.

Lemma actionCategory_in `{Unicode} action : actionCategory action ∈ "other" :: categories.
Proof. unfold actionCategory. destruct (Cut _ _) as [[prefix after] found]. case_bool_decide; [by right|by left]. Qed.

Lemma enum_in value allowed : enum value allowed ∈ "other" :: allowed.
Proof. unfold enum. case_bool_decide; [by right|by left]. Qed.

Lemma knownOrOther_in value known : knownOrOther value known ∈ "other" :: known.
Proof. unfold knownOrOther. case_bool_decide; [by right|by left]. Qed.

Section Bounded.
Context `{Unicode} (config : MetricsConfig).

Definition http_values : list (list string) := [methods; "/unmatched" :: routeSet (KnownRoutes config); classes].
Definition dependency_values : list (list string) := ["other" :: KnownDependencies config; ["other"; "success"; "failure"; "timeout"]].
Definition audit_values : list (list string) := ["other" :: categories; ["other"; "success"; "failure"]].
Definition task_values : list (list string) := ["other" :: KnownTaskTypes config; "other" :: task_statuses].

Record bounded (m : Metrics) : Prop := {
  b_routes : mt_routes m = routeSet (KnownRoutes config);
  b_dependencies : mt_dependencies m = KnownDependencies config;
  b_taskTypes : mt_taskTypes m = KnownTaskTypes config;
  b_http : labelled http_values (httpRequests m);
  b_dependency : labelled dependency_values (dependencyOps m);
  b_audit : labelled audit_values (auditRecords m);
  b_lost : labelled ["other" :: categories] (auditFailures m);
  b_task : labelled task_values (taskExecutions m);
}.

Lemma bounded_new : bounded (New config).
Proof. by split; try done; intros labels [n Hn]. Qed.

Lemma bounded_see m o : bounded m -> bounded (see m o).
Proof.
  intros [Hr Hd Ht Hh Hdo Ha Hl Hx]. destruct o; split; try done; simpl; apply labelled_inc; try done.
  all: unfold http_values, dependency_values, audit_values, task_values;
    rewrite ?Hr, ?Hd, ?Ht, ?Forall2_cons, Forall2_nil; split_and!; try done.
  - apply normalizeMethod_in.
  - case_bool_decide; [by right|by left].
  - apply statusClass_in.
  - apply knownOrOther_in.
  - apply enum_in.
  - apply actionCategory_in.
  - apply enum_in.
  - apply actionCategory_in.
  - apply knownOrOther_in.
  - apply enum_in.
Qed.

Lemma bounded_run obs m : bounded m -> bounded (foldl see m obs).
Proof. revert m. induction obs as [|o obs IH]; intros m Hm; [done|]. by apply IH, bounded_see. Qed.

(** The observations of each family. *)
Definition counted (m : Metrics) : nat :=
  (observed (httpRequests m) + observed (dependencyOps m) + observed (auditRecords m) + observed (auditFailures m) +
   observed (taskExecutions m))%nat.

Lemma counted_see m o : counted (see m o) = S (counted m).
Proof. unfold counted. destruct o; simpl; rewrite observed_inc; lia. Qed.

Lemma counted_run obs m : counted (foldl see m obs) = (counted m + length obs)%nat.
Proof. revert m. induction obs as [|o obs IH]; intros m; simpl; [lia|]. rewrite IH, counted_see. lia. Qed.

(** C38: what a client sends cannot grow the metrics.  After any sequence of
    requests, dependency checks, audit events and task executions, the number
    of series of each family is bounded by the configuration alone, and
    no observation is lost. *)
Theorem metrics_bounded (obs : list observation) :
  let m := foldl see (New config) obs in
  (size (httpRequests m) <= 48 * (length (KnownRoutes config) + 1))%nat /\
  (size (dependencyOps m) <= 4 * (length (KnownDependencies config) + 1))%nat /\
  (size (auditRecords m) <= 18)%nat /\ (size (auditFailures m) <= 6)%nat /\
  (size (taskExecutions m) <= 6 * (length (KnownTaskTypes config) + 1))%nat /\
  counted m = length obs.
Proof.
  intros m. destruct (bounded_run obs (New config) bounded_new) as [_ _ _ Hh Hd Ha Hl Ht]. fold m in Hh, Hd, Ha, Hl, Ht.
  apply labelled_size in Hh, Hd, Ha, Hl, Ht. simpl in *. unfold routeSet in Hh. rewrite length_map in Hh.
  split_and!; [lia..|]. unfold m. by rewrite counted_run.
Qed.
End Bounded.
