(* ===== verification/Router.v ===== *)
(** * The router of a server ([pkg/httpkit/router.go], [internal/app/api.go])

    Chi dispatches a request to one of the routes, or to the handlers for an
    unknown path and an unsupported method; the middleware wraps all three. *)
From S2P Require Import Prelude GoStrings Strconv Netip Pagination Postgres Iam Task AuditTrail Application Http Redis RedisKeys RateLimit RequestMeta Middleware Metrics.

Definition with_params (r : Request) (params : string -> string) : Request :=
  mkRequest (req_Method r) (req_Path r) (req_Query r) (req_Header r) (req_Cookie r) (req_RemoteAddr r) (req_Body r)
    params (req_Context r).

(** ** Chi

    The route of a request with the parameters of its path, when one matches;
    whether only the method is unsupported when none does. *)
Class Chi := {
  chi_match : list (string * string) -> Request -> option (nat * (string -> string));
  chi_method_unsupported : list (string * string) -> Request -> bool;
}.

(** A match is a route registered for the method of the request, or for all
    methods. *)
Class ChiLaws `{Chi} : Prop := {
  chi_match_route patterns r i params : chi_match patterns r = Some (i, params) ->
    exists method pattern, patterns !! i = Some (method, pattern) /\ (method = "" \/ method = req_Method r);
}.

Section Router.
Context {W : Type} `{Chi}.

Definition patterns (routes : list (Route W)) : list (string * string) := map (fun route => (rt_Method route, rt_Pattern route)) routes.

Definition dispatch (routes : list (Route W)) (notFound methodNotAllowed : Handler W) : Handler W := fun r =>
  match chi_match (patterns routes) r with
  | Some (i, params) =>
      match routes !! i with
      | Some route => rt_Handler route (with_params r params)
      | None => notFound r
      end
  | None => if chi_method_unsupported (patterns routes) r then methodNotAllowed r else notFound r
  end.

(** ** [NewRouter] *)

(** @src pkg/httpkit/router.go:20-33 RouterOptions *)
Record RouterOptions := mkRouterOptions {
  opt_Readiness : option (Ctx -> M W unit);
  opt_Metrics : option (Handler W);
  opt_CORS : CORSConfig;
  opt_RateLimit : option (RateLimitConfig W);
  opt_Register : list (Route W);
}.

(** The three routes every server has; [router.Handle] takes any method.
    @src pkg/httpkit/router.go:70-80 (NewRouter) standard routes *)
Definition standard_routes (readiness : Ctx -> M W unit) (metrics : Handler W) : list (Route W) :=
  [mkRoute "GET" "/health/live" (fun _ => Write 200 (VFields [("status", "ok")]));
   mkRoute "GET" "/health/ready" (fun r =>
     answer ← try (call (readiness (req_Context r)));
     match answer with
     | Err _ => WriteError (inl (ServiceUnavailable "service not ready"))
     | _ => Write 200 (VFields [("status", "ok")])
     end);
   mkRoute "" "/metrics" metrics].

Context `{BodySize} (clock : W -> Z) (rand_read : Z -> M W string) (chi_route_pattern : Request -> string).
Context (log_panic : string -> W -> W) (log_access : AccessEntry -> W -> W).

(** The middleware in the order it is registered.
    @src pkg/httpkit/router.go:51-60 (NewRouter) middleware *)
Definition router_chain (options : RouterOptions) (next : Handler W) : Handler W :=
  let next := match opt_RateLimit options with Some config => RateLimit config next | None => next end in
  let next := match AllowedOrigins (opt_CORS options) with [] => next | _ :: _ => CORS (opt_CORS options) next end in
  RequestID clock rand_read (AccessLog clock chi_route_pattern log_access (Recovery log_panic next)).

(** @src pkg/httpkit/router.go:36-86 NewRouter *)
Definition NewRouter (options : RouterOptions) : res (Handler W) :=
  match opt_Readiness options, opt_Metrics options with
  | None, _ => Err (EText "readiness checker is required")
  | _, None => Err (EText "metrics handler is required")
  | Some readiness, Some metrics =>
      match CORSConfig_Validate (opt_CORS options) with
      | Some err => Err err
      | None =>
          match opt_RateLimit options ≫= RateLimitConfig_Validate with
          | Some err => Err err
          | None =>
              let notFound r := WriteError (inl (NotFound "resource")) in
              let methodNotAllowed r := WriteError (inl MethodNotAllowed) in
              Ok (router_chain options (dispatch (standard_routes readiness metrics ++ opt_Register options) notFound methodNotAllowed))
          end
      end
  end.

(** ** [NewAPIRouter] *)

(** @src internal/app/api.go:48-61 NewAPIRouter *)
Definition NewAPIRouter (options : RouterOptions) (requestMetadata metrics : option (Handler W -> Handler W)) : res (Handler W) :=
  router ← NewRouter options;
  let handler := match requestMetadata with Some middleware => middleware router | None => router end in
  Ok (match metrics with Some middleware => middleware handler | None => handler end).

(** @src internal/app/api.go:235-240 isCriticalRateLimitPath *)
Definition isCriticalRateLimitPath (path : string) : bool :=
  HasPrefix path "/api/v1/auth" || HasPrefix path "/api/v1/users/me/security" ||
  String.eqb path "/api/v1/audit-logs" || String.eqb path "/api/v1/task-executions".

(** ** Readiness *)

(** @src internal/app/api.go:198-203 dependencyReadiness *)
Record dependencyReadiness := mkReadiness {
  postgresPing : Ctx -> M W unit; redisPing : Ctx -> M W unit; ready_observer : option (string -> string -> Z -> M W unit);
}.

(** @src internal/app/api.go:216-234 check *)
Definition check (rd : dependencyReadiness) (ctx : Ctx) (name : string) (ping : Ctx -> M W unit) : M W unit :=
  started ← gets clock;
  err ← try (ping ctx);
  _ ← match ready_observer rd with
      | Some observer =>
          let outcome :=
            match err with
            | Err e => if errors_is ContextDeadlineExceeded e then "timeout" else "failure"
            | _ => "success"
            end in
          finished ← gets clock;
          observer name outcome (time_sub finished started)
      | None => mret tt
      end;
  of_res err.

(** @src internal/app/api.go:209-214 Ready *)
Definition Ready (rd : dependencyReadiness) (ctx : Ctx) : M W unit :=
  _ ← check rd ctx "postgres" (postgresPing rd); check rd ctx "redis" (redisPing rd).
End Router.
Arguments RouterOptions : clear implicits.
Arguments dependencyReadiness : clear implicits.

(** ** Every request is answered *)
Section Answers.
Context {W : Type} `{Chi} `{BodySizeLaws}.
Context (clock : W -> Z) (rand_read : Z -> M W string) `{!RandLaws rand_read} (chi_route_pattern : Request -> string).
Context (log_panic : string -> W -> W) (log_access : AccessEntry -> W -> W).
Abbreviation new_router := (NewRouter clock rand_read chi_route_pattern log_panic log_access).
Abbreviation new_api_router := (NewAPIRouter clock rand_read chi_route_pattern log_panic log_access).

Lemma dispatch_replies routes (notFound methodNotAllowed : Handler W) r :
  Forall (fun route => forall r, replies (rt_Handler route r)) routes ->
  (forall r, replies (notFound r)) -> (forall r, replies (methodNotAllowed r)) -> replies (dispatch routes notFound methodNotAllowed r).
Proof.
  intros Hr Hn Hm. unfold dispatch. destruct (chi_match _ r) as [[i params]|].
  - destruct (routes !! i) as [route|] eqn:Ei; [|apply Hn]. rewrite Forall_lookup in Hr. by apply (Hr i).
  - case_match; [apply Hm|apply Hn].
Qed.

Lemma standard_replies readiness (metrics : Handler W) : (forall r, replies (metrics r)) ->
  Forall (fun route => forall r, replies (rt_Handler route r)) (standard_routes readiness metrics).
Proof.
  intros Hm. unfold standard_routes. rewrite !Forall_cons, Forall_nil. split_and!; try done; simpl; intros r.
  - apply answers_replies. by apply answers_Write.
  - apply replies_call; intros; [apply answers_replies; by apply answers_Write|by apply replies_WriteError].
Qed.

(** The answer of the router and the line of the access log about it. *)
Definition logged (r : Request) (h : M (W * list wop) unit) : Prop := forall w, exists w1 entry id new status body,
  h (w, []) = (Ok tt, (log_access entry w1, HeaderSet RequestIDHeader id :: new)) /\ reply new status body /\
  validRequestID id = true /\ (validRequestID (req_Header r RequestIDHeader) = true -> id = req_Header r RequestIDHeader) /\
  le_request_id entry = id /\ le_method entry = req_Method r /\ le_status entry = status /\ le_bytes entry = total body.

Lemma outer_logged (next : Handler W) r : (forall r, replies (next r)) ->
  logged r (RequestID clock rand_read (AccessLog clock chi_route_pattern log_access (Recovery log_panic next)) r).
Proof.
  intros Hn w. destruct (RequestID_run clock rand_read (AccessLog clock chi_route_pattern log_access (Recovery log_panic next)) r w [])
    as (id & w' & -> & Hv & Hg).
  destruct (AccessLog_logs clock chi_route_pattern log_access (Recovery log_panic next)
    (with_context r (WithRequestID (req_Context r) id)) w' [HeaderSet RequestIDHeader id])
    as (w1 & entry & new & status & body & E & Hr & Hlog); [by apply Recovery_replies|].
  exists w1, entry, id, new, status, body. simpl in E |- *. rewrite E. by destruct Hlog as (? & ? & ? & ?); split_and!.
Qed.

Lemma chain_logged options (next : Handler W) r : (forall r, replies (next r)) ->
  logged r (router_chain clock rand_read chi_route_pattern log_panic log_access options next r).
Proof.
  intros Hn. apply outer_logged. intros r'.
  assert (forall r, replies ((match opt_RateLimit options with Some config => RateLimit config next | None => next end) r)) as Hl.
  { intros r0. destruct (opt_RateLimit options); [by apply RateLimit_replies|apply Hn]. }
  destruct (AllowedOrigins (opt_CORS options)); [apply Hl|by apply CORS_replies].
Qed.

(** The handlers of the options answer. *)
Definition options_reply (options : RouterOptions W) : Prop :=
  (forall metrics, opt_Metrics options = Some metrics -> forall r, replies (metrics r)) /\
  Forall (fun route => forall r, replies (rt_Handler route r)) (opt_Register options).

Lemma router_logged options handler r : new_router options = Ok handler -> options_reply options -> logged r (handler r).
Proof.
  intros Hn [Hm Hroutes]. unfold NewRouter in Hn.
  destruct (opt_Readiness options) as [readiness|]; [|done]. destruct (opt_Metrics options) as [metrics|]; [|done].
  destruct (CORSConfig_Validate _); [done|]. destruct (_ ≫= _); [done|]. injection Hn as <-.
  apply chain_logged. intros r0.
  apply dispatch_replies; [|intros; by apply replies_WriteError..].
  exact (proj2 (Forall_app _ _ _) (conj (standard_replies readiness metrics (Hm _ eq_refl)) Hroutes)).
Qed.

Lemma status_feed hs status body s : forallb is_header hs = true -> s.2 = false -> answer_body status body ->
  feed status_step s (hs ++ WriteHeader status :: body) = ((status, true), hs ++ WriteHeader status :: body).
Proof.
  intros Hh Hs Ha. induction hs as [|op hs IH]; simpl in *.
  - rewrite Hs. by destruct Ha.
  - apply andb_prop in Hh as [Ho Hh]. destruct op; try discriminate Ho; simpl; by rewrite IH.
Qed.

(** The answer, the line of the log and the observation of a request. *)
Lemma router_answers (options : RouterOptions W) (TrustedProxies : list Prefix)
    (observe : (Metrics -> Metrics) -> W -> W) (handler : Handler W) (r : Request) (w : W) :
  new_api_router options (Some (RequestMetadataMiddleware TrustedProxies))
    (Some (HTTPMiddleware (fun _ => "") observe)) = Ok handler ->
  options_reply options ->
  exists w1 entry id new status body,
    handler r (w, []) =
      (Ok tt, (observe (ObserveHTTP (req_Method r) (NormalizePath (req_Path r)) status) (log_access entry w1),
               HeaderSet RequestIDHeader id :: new)) /\
    reply new status body /\ status_of (HeaderSet RequestIDHeader id :: new) = status /\
    validRequestID id = true /\ (validRequestID (req_Header r RequestIDHeader) = true -> id = req_Header r RequestIDHeader) /\
    le_request_id entry = id /\ le_method entry = req_Method r /\ le_status entry = status /\ le_bytes entry = total body.
Proof.
  unfold NewAPIRouter. destruct (new_router options) as [router|e|] eqn:E; [|done..]. intros [= <-] Ho.
  set (r' := with_context r (WithRequestMetadata (req_Context r) (Extract TrustedProxies r))).
  destruct (router_logged options router r' E Ho w) as (w1 & entry & id & new & status & body & Er & Hr & Hv & Hg & Hid & Hme & Hst & Hby).
  exists w1, entry, id, new, status, body. change (req_Header r' RequestIDHeader) with (req_Header r RequestIDHeader) in Hg.
  split_and!; try done.
  - unfold HTTPMiddleware.
    rewrite (behind_run status_step _ (RequestMetadataMiddleware TrustedProxies router r) w [] _ _ _ Er).
    pose proof Hr as (Ha & hs & Hh & ->).
    rewrite (app_comm_cons hs), (status_feed (HeaderSet RequestIDHeader id :: hs)) by done. done.
  - by apply (reply_status [HeaderSet RequestIDHeader id] new status body).
Qed.
End Answers.
