(* ===== verification/IamHttp.v ===== *)
(** * The HTTP interface of the identity module ([pkg/platform/httpserver/iamhttp])

    The handlers, the authentication and permission middleware, and the route
    table.  A route is its method, its pattern and its handler with the
    middleware around it; matching a path against the patterns and the URL
    parameters are the router's, a third-party package. *)
From S2P Require Import Prelude GoStrings Strconv Netip Pagination Postgres Iam Token AuditTrail Application Http.

Definition AccessCookieName : string := "access_token".
Definition RefreshCookieName : string := "refresh_token".
Definition maxJSONBodyBytes : Z := 2 ^ 20.

(** ** Request bodies

    The handlers' anonymous structures; a pointer field is an option. *)
Record emailCode_in := mkEmailCodeIn { ec_Email : string; ec_Purpose : string }.
Record refresh_in := mkRefreshIn { rf_RefreshToken : string }.
Record newPassword_in := mkNewPasswordIn { np_NewPassword : string }.
Record active_in := mkActiveIn { ai_Active : option bool }.
Record roleIDs_in := mkRoleIDsIn { ri_RoleIDs : option (list string) }.
Record permissionIDs_in := mkPermissionIDsIn { pi_PermissionIDs : option (list string) }.
Record settings_in := mkSettingsIn {
  si_Password : option bool; si_Registration : option bool; si_Verification : option bool;
  si_Domains : option (list string) }.
Record mode_in := mkModeIn { mi_Mode : string }.
Record code_in := mkCodeIn { ci_Code : string }.
Record verifyEmail_in := mkVerifyEmailIn { ve_EmailCode : string }.

Class IamJson := {
  #[global] json_login :: JsonValue LoginInput;
  #[global] json_register :: JsonValue RegisterInput;
  #[global] json_verify :: JsonValue VerifyInput;
  #[global] json_proof :: JsonValue SecurityProof;
  #[global] json_preferences :: JsonValue Preferences;
  #[global] json_create_user :: JsonValue CreateUserInput;
  #[global] json_update_user :: JsonValue UpdateUserInput;
  #[global] json_role :: JsonValue RoleInput;
  #[global] json_email_code :: JsonValue emailCode_in;
  #[global] json_refresh :: JsonValue refresh_in;
  #[global] json_new_password :: JsonValue newPassword_in;
  #[global] json_active :: JsonValue active_in;
  #[global] json_role_ids :: JsonValue roleIDs_in;
  #[global] json_permission_ids :: JsonValue permissionIDs_in;
  #[global] json_settings :: JsonValue settings_in;
  #[global] json_mode :: JsonValue mode_in;
  #[global] json_code :: JsonValue code_in;
  #[global] json_verify_email :: JsonValue verifyEmail_in;
}.

(** ** Cookies *)

(** [http.Cookie.String] for the cookies of the handlers. *)
Definition quote : ascii := of_code 34.
Definition cookie_byte (a : ascii) : bool :=
  in_range 32 126 a && negb (Ascii.eqb a quote) && negb (Ascii.eqb a ";") && negb (Ascii.eqb a "\").
Definition cookie_value (v : string) : string :=
  let l := List.filter cookie_byte (bytes v) in
  of_bytes (if existsb (fun a => Ascii.eqb a " " || Ascii.eqb a ",") l then quote :: l ++ [quote] else l).
Definition cookie (name v path : string) (secure : bool) (maxAge : Z) : string :=
  name +:+ "=" +:+ cookie_value v +:+ "; Path=" +:+ path +:+
  (if 0 <? maxAge then "; Max-Age=" +:+ FormatInt maxAge else if maxAge <? 0 then "; Max-Age=0" else "") +:+
  "; HttpOnly" +:+ (if secure then "; Secure" else "") +:+ "; SameSite=Strict".

(** ** Errors *)

(** [errors.As] for the two structured errors of the module *)
Fixpoint as_fields (e : error) : option (list (string * string)) :=
  match e with
  | EFields fields => Some fields
  | EWrap _ cause => as_fields cause
  | EJoin e1 e2 => match as_fields e1 with Some f => Some f | None => as_fields e2 end
  | _ => None
  end.
Fixpoint as_rate_limit (e : error) : option Z :=
  match e with
  | ERateLimit n => Some n
  | EWrap _ cause => as_rate_limit cause
  | EJoin e1 e2 => match as_rate_limit e1 with Some n => Some n | None => as_rate_limit e2 end
  | _ => None
  end.

(** [strconv.ParseBool] *)
Definition ParseBool (s : string) : option bool :=
  if bool_decide (s ∈ ["1"; "t"; "T"; "TRUE"; "true"; "True"]) then Some true
  else if bool_decide (s ∈ ["0"; "f"; "F"; "FALSE"; "false"; "False"]) then Some false
  else None.

(** @src pkg/platform/httpserver/iamhttp/http.go:462-468 queryInt *)
Definition queryInt (r : Request) (name : string) (fallback : Z) : Z :=
  match ParseInt (req_Query r name) with
  | Some v => if v <=? 0 then fallback else v
  | None => fallback
  end.

Section Handlers.
Context {W : Type} `{Unicode} `{ErrorText} `{IamJson}.
Abbreviation act := (M (W * list wop) unit).

(** @src pkg/platform/httpserver/iamhttp/http.go:470-506 writeIAMError *)
Definition writeIAMError (err : error) : act :=
  match as_fields err with
  | Some fields => WriteError (inl (Validation fields))
  | None =>
  match as_rate_limit err with
  | Some n =>
      _ ← emit (HeaderSet "Retry-After" (FormatInt n));
      WriteError (inl (New_ 429 "too many requests" 429))
  | None =>
    let has (e : sentinel) := errors_is e err in
    if has ErrEmailNotVerified then WriteError (inl (New_ 403 "email not verified" 403))
    else if has ErrAuthenticationUnavailable then WriteError (inl (ServiceUnavailable "authentication service unavailable"))
    else if has ErrDuplicateIdentity then WriteError (inl (Conflict "identity conflict"))
    else if has ErrEmailCodeRequired then WriteError (inl (Validation [("email_code", "required")]))
    else if has ErrInvalidCode || has ErrInvalidCredentials || has ErrInvalidRefreshToken
    then WriteError (inl (New_ 401 "invalid credentials" 401))
    else if has ErrAuthenticationForbidden then WriteError (inl (New_ 403 "operation not permitted" 403))
    else if has ErrInactiveUser || has ErrPermissionDenied then WriteError (inl (New_ 403 (Error err) 403))
    else if has ErrSecurityConflict || has ErrDuplicateIdentity || has ErrCannotDeactivateSelf ||
            has ErrLastActiveAdministrator || has ErrSystemRoleProtected
    then WriteError (inl (New_ 409 (Error err) 409))
    else if has ErrInvalidUserInput then WriteError (inl (Validation [("user", Error err)]))
    else if has ErrNotFound then WriteError (inl (NotFound "resource"))
    else WriteError (inr err)
  end
  end.

(** @src pkg/platform/httpserver/iamhttp/authentication.go:157-163 writeSecurityProofError *)
Definition writeSecurityProofError (err : error) : act :=
  if errors_is ErrInvalidCode err || errors_is ErrInvalidCredentials err
  then WriteError (inl (Validation [("proof", "invalid or expired credential")]))
  else writeIAMError err.

(** [v, err := m; if err != nil { fail(err); return }; k(v)] *)
Definition respond_with {A} (fail : error -> act) (m : M W A) (k : A -> act) : act :=
  r ← try (call m);
  match r with Ok a => k a | Err e => fail e | Panic => panic end.
Definition respond {A} (m : M W A) (k : A -> act) : act := respond_with writeIAMError m k.

(** [if !decode(w, r, &in) { return }]; a request without a body has an empty one.
    @src pkg/platform/httpserver/iamhttp/http.go:454-460 decode *)
Definition decode {A} `{JsonValue A} (r : Request) (k : A -> act) : act :=
  match DecodeJSON maxJSONBodyBytes (default "" (req_Body r)) with
  | Some v => k v
  | None => WriteError (inl (Validation [("body", "invalid JSON body")]))
  end.

(** @src pkg/platform/httpserver/iamhttp/http.go:435-438 setNoStore *)
Definition setNoStore : act :=
  _ ← emit (HeaderSet "Cache-Control" "no-store"); emit (HeaderSet "Pragma" "no-cache").

(** @src pkg/platform/httpserver/iamhttp/http.go:440-452 refreshToken *)
Definition refreshToken (r : Request) : res string :=
  let from_body :=
    match req_Body r with
    | Some body =>
        match DecodeJSON maxJSONBodyBytes body with
        | Some v => if is_empty (rf_RefreshToken v) then Err (ESentinel ErrInvalidRefreshToken) else Ok (rf_RefreshToken v)
        | None => Err (ESentinel ErrInvalidRefreshToken)
        end
    | None => Err (ESentinel ErrInvalidRefreshToken)
    end in
  match req_Cookie r RefreshCookieName with
  | Some v => if is_empty v then from_body else Ok v
  | None => from_body
  end.

(** [strings.Fields] gives two words: the text split at white space. *)
Definition two_words (s : string) : option (string * string) :=
  let l := trim_right (trim_left (bytes s)) in
  let fix word (l acc : list ascii) : option (list ascii * list ascii) :=
    match l with
    | [] => None
    | a :: rest =>
        if space1 a then Some (rev acc, l)
        else match rest with
             | b :: rest2 =>
                 if space2 a b then Some (rev acc, l)
                 else match rest2 with
                      | c :: _ => if space3 a b c then Some (rev acc, l) else word rest (a :: acc)
                      | [] => word rest (a :: acc)
                      end
             | [] => word rest (a :: acc)
             end
    end in
  match word l [] with
  | None => None
  | Some (w1, rest) =>
      let rest := trim_left rest in
      match word rest [] with
      | None => Some (of_bytes w1, of_bytes rest)
      | Some _ => None
      end
  end.

(** @src pkg/platform/httpserver/iamhttp/http.go:81-94 ExtractAccessToken *)
Definition ExtractAccessToken (r : Request) : res string :=
  let value := req_Header r "Authorization" in
  if negb (is_empty value) then
    match two_words value with
    | Some (scheme, token) => if EqualFold scheme "Bearer" then Ok token else Err (ESentinel ErrInvalidCredentials)
    | None => Err (ESentinel ErrInvalidCredentials)
    end
  else
    match req_Cookie r AccessCookieName with
    | Some v => if is_empty v then Err (ESentinel ErrInvalidCredentials) else Ok v
    | None => Err (ESentinel ErrInvalidCredentials)
    end.

(** [jwt.Parse] at the instant of the request *)
Variable parse : string -> M W AccessClaims.

(** @src pkg/platform/httpserver/iamhttp/http.go:96-112 Authenticate *)
Definition Authenticate (next : Handler W) : Handler W := fun r =>
  match ExtractAccessToken r with
  | Ok raw =>
      c ← try (call (parse raw));
      match c with
      | Ok claims => next (with_context r (WithSubject (req_Context r) (Subject claims)))
      | _ => writeIAMError ErrInvalidCredentials
      end
  | _ => writeIAMError ErrInvalidCredentials
  end.

Variable app : Application W.

(** @src pkg/platform/httpserver/iamhttp/http.go:118-133 RequirePermission *)
Definition RequirePermission (permission : string) (next : Handler W) : Handler W := fun r =>
  let subject := ctx_Subject (req_Context r) in
  if is_empty subject then writeIAMError ErrInvalidCredentials
  else respond (app unit (app_Authorize subject permission) (req_Context r)) (fun _ => next r).

(** @src pkg/platform/httpserver/iamhttp/http.go:24-28 HTTPConfig *)
Record HTTPConfig := mkHTTPConfig {
  cfg_Authentication : option (AuthenticationApplication W); cfg_SecureCookies : bool; cfg_RefreshTTL : Z }.
Variable cfg : HTTPConfig.

Abbreviation app_ c r := (app _ c (req_Context r)).

(** @src pkg/platform/httpserver/iamhttp/http.go:415-417 setRefreshCookie *)
Definition setRefreshCookie (v : string) : act :=
  emit (HeaderAdd "Set-Cookie"
    (cookie RefreshCookieName v "/api/v1/auth" (cfg_SecureCookies cfg) (Z.quot (cfg_RefreshTTL cfg) Second))).
(** @src pkg/platform/httpserver/iamhttp/http.go:419-421 setAccessCookie *)
Definition setAccessCookie (v : string) (expiresIn : Z) : act :=
  emit (HeaderAdd "Set-Cookie" (cookie AccessCookieName v "/api/v1" (cfg_SecureCookies cfg) expiresIn)).
(** @src pkg/platform/httpserver/iamhttp/http.go:423-426 clearAuthCookies *)
Definition clearAuthCookies : act :=
  _ ← emit (HeaderAdd "Set-Cookie" (cookie AccessCookieName "" "/api/v1" (cfg_SecureCookies cfg) (-1)));
  emit (HeaderAdd "Set-Cookie" (cookie RefreshCookieName "" "/api/v1/auth" (cfg_SecureCookies cfg) (-1))).
(** @src pkg/platform/httpserver/iamhttp/http.go:428-433 writeTokenPair *)
Definition writeTokenPair (pair : TokenPair) : act :=
  _ ← setNoStore;
  _ ← setAccessCookie (AccessToken pair) (ExpiresIn pair);
  _ ← setRefreshCookie (RefreshToken pair);
  Write 200 (VTokenPair pair).

Definition flag (name : string) : value := VFlags [(name, true)].

(** *** Authentication without a session *)

(** @src pkg/platform/httpserver/iamhttp/http.go:140-165 login *)
Definition login : Handler W := fun r =>
  _ ← setNoStore;
  decode r (fun input : LoginInput =>
    match cfg_Authentication cfg with
    | Some auth =>
        respond (auth _ (auth_Login input) (req_Context r)) (fun result =>
          if String.eqb (lr_Status result) "totp_required" then Write 202 (VChallenge result)
          else writeTokenPair (lr_TokenPair result))
    | None => respond (app_ (app_Login (li_Email input) (li_Password input)) r) writeTokenPair
    end).

(** @src pkg/platform/httpserver/iamhttp/http.go:167-179 refresh *)
Definition refresh : Handler W := fun r =>
  match refreshToken r with
  | Ok raw => respond (app_ (app_Refresh raw) r) writeTokenPair
  | Err e => writeIAMError e
  | Panic => panic
  end.

(** @src pkg/platform/httpserver/iamhttp/http.go:181-190 logout *)
Definition logout : Handler W := fun r =>
  let raw := match refreshToken r with Ok raw => raw | _ => "" end in
  respond (app_ (app_Logout raw) r) (fun _ =>
    _ ← setNoStore; _ ← clearAuthCookies; Write 200 (flag "logged_out")).

(** *** The session's own account *)
Abbreviation subject r := (ctx_Subject (req_Context r)).

(** @src pkg/platform/httpserver/iamhttp/http.go:192-199 me *)
Definition me : Handler W := fun r =>
  respond (app_ (app_CurrentUser (subject r)) r) (fun u => Write 200 (VCurrentUser u)).
(** @src pkg/platform/httpserver/iamhttp/http.go:201-208 preferences *)
Definition preferences : Handler W := fun r =>
  respond (app_ (app_Preferences (subject r)) r) (fun p => Write 200 (VPreferences p)).
(** @src pkg/platform/httpserver/iamhttp/http.go:210-220 putPreferences *)
Definition putPreferences : Handler W := fun r =>
  decode r (fun p : Preferences =>
    respond (app_ (app_PutPreferences (subject r) p) r) (fun _ => Write 200 (VPreferences p))).

(** *** Administration *)

(** @src pkg/platform/httpserver/iamhttp/http.go:222-242 users *)
Definition users : Handler W := fun r =>
  let query := TrimSpace (req_Query r "query") in
  let list_users (active : option bool) :=
    respond (app_ (app_Users (mkUserQuery query active (queryInt r "page" 1) (queryInt r "size" DefaultSize))) r)
      (fun items => Write 200 (VUsers items)) in
  let value := req_Query r "is_active" in
  if is_empty value then list_users None
  else match ParseBool value with
       | Some active => list_users (Some active)
       | None => WriteError (inl (Validation [("is_active", "must be true or false")]))
       end.

(** @src pkg/platform/httpserver/iamhttp/http.go:244-255 createUser *)
Definition createUser : Handler W := fun r =>
  decode r (fun input : CreateUserInput =>
    respond (app_ (app_CreateUser input) r) (fun u => Write 201 (VUser u))).
(** @src pkg/platform/httpserver/iamhttp/http.go:257-268 updateUser *)
Definition updateUser : Handler W := fun r =>
  decode r (fun input : UpdateUserInput =>
    respond (app_ (app_UpdateUser (req_Param r "userID") input) r) (fun u => Write 200 (VUser u))).
(** @src pkg/platform/httpserver/iamhttp/http.go:270-282 resetUserPassword *)
Definition resetUserPassword : Handler W := fun r =>
  decode r (fun input : newPassword_in =>
    respond (app_ (app_ResetUserPassword (req_Param r "userID") (np_NewPassword input)) r)
      (fun _ => Write 200 (flag "reset"))).
(** @src pkg/platform/httpserver/iamhttp/http.go:284-300 setUserActive *)
Definition setUserActive : Handler W := fun r =>
  decode r (fun input : active_in =>
    match ai_Active input with
    | None => WriteError (inl (Validation [("is_active", "is required")]))
    | Some active =>
        respond (app_ (app_SetUserActive (req_Param r "userID") active) r)
          (fun _ => Write 200 (VFlags [("is_active", active)]))
    end).
(** @src pkg/platform/httpserver/iamhttp/http.go:302-309 roles *)
Definition roles : Handler W := fun r => respond (app_ app_Roles r) (fun l => Write 200 (VRoles l)).
(** @src pkg/platform/httpserver/iamhttp/http.go:311-318 role *)
Definition role : Handler W := fun r =>
  respond (app_ (app_Role (req_Param r "roleID")) r) (fun v => Write 200 (VRoleDetail v)).
(** @src pkg/platform/httpserver/iamhttp/http.go:320-331 createRole *)
Definition createRole : Handler W := fun r =>
  decode r (fun input : RoleInput => respond (app_ (app_CreateRole input) r) (fun v => Write 201 (VRole v))).
(** @src pkg/platform/httpserver/iamhttp/http.go:333-344 updateRole *)
Definition updateRole : Handler W := fun r =>
  decode r (fun input : RoleInput =>
    respond (app_ (app_UpdateRole (req_Param r "roleID") input) r) (fun v => Write 200 (VRole v))).
(** @src pkg/platform/httpserver/iamhttp/http.go:346-352 deleteRole *)
Definition deleteRole : Handler W := fun r =>
  respond (app_ (app_DeleteRole (req_Param r "roleID")) r) (fun _ => Write 200 (flag "deleted")).
(** @src pkg/platform/httpserver/iamhttp/http.go:354-361 permissions *)
Definition permissions : Handler W := fun r => respond (app_ app_Permissions r) (fun l => Write 200 (VPermissions l)).
(** @src pkg/platform/httpserver/iamhttp/http.go:363-369 assignRole *)
Definition assignRole : Handler W := fun r =>
  respond (app_ (app_AssignRole (req_Param r "userID") (req_Param r "roleID")) r) (fun _ => Write 200 (flag "assigned")).
(** @src pkg/platform/httpserver/iamhttp/http.go:371-387 replaceUserRoles *)
Definition replaceUserRoles : Handler W := fun r =>
  decode r (fun input : roleIDs_in =>
    match ri_RoleIDs input with
    | None => WriteError (inl (Validation [("role_ids", "is required")]))
    | Some ids =>
        respond (app_ (app_ReplaceUserRoles (req_Param r "userID") ids) r) (fun _ => Write 200 (flag "replaced"))
    end).
(** @src pkg/platform/httpserver/iamhttp/http.go:389-395 grantPermission *)
Definition grantPermission : Handler W := fun r =>
  respond (app_ (app_GrantPermission (req_Param r "roleID") (req_Param r "permissionID")) r)
    (fun _ => Write 200 (flag "granted")).
(** @src pkg/platform/httpserver/iamhttp/http.go:397-413 replaceRolePermissions *)
Definition replaceRolePermissions : Handler W := fun r =>
  decode r (fun input : permissionIDs_in =>
    match pi_PermissionIDs input with
    | None => WriteError (inl (Validation [("permission_ids", "is required")]))
    | Some ids =>
        respond (app_ (app_ReplaceRolePermissions (req_Param r "roleID") ids) r) (fun _ => Write 200 (flag "replaced"))
    end).

(** *** Authentication policy and second factor *)
Variable auth : AuthenticationApplication W.
Abbreviation auth_ c r := (auth _ c (req_Context r)).

(** The host of the remote address, or the address of the metadata. *)
Definition client_ip (r : Request) : string :=
  match rm_IPAddress (ctx_Metadata (req_Context r)) with
  | Some address => Addr_String address
  | None => match SplitHostPort (req_RemoteAddr r) with Some (host, _) => host | None => "" end
  end.

Definition sent : value := VSent 60.

(** @src pkg/platform/httpserver/iamhttp/authentication.go:13-31 emailCode *)
Definition emailCode : Handler W := fun r =>
  _ ← setNoStore;
  decode r (fun input : emailCode_in =>
    respond (auth_ (auth_RequestEmailCode (ec_Email input) (ec_Purpose input) (client_ip r)) r)
      (fun _ => Write 202 sent)).
(** @src pkg/platform/httpserver/iamhttp/authentication.go:32-44 register *)
Definition register : Handler W := fun r =>
  _ ← setNoStore;
  decode r (fun input : RegisterInput => respond (auth_ (auth_Register input) r) (fun u => Write 201 (VUser u))).
(** @src pkg/platform/httpserver/iamhttp/authentication.go:45-57 verifyLogin *)
Definition verifyLogin : Handler W := fun r =>
  _ ← setNoStore;
  decode r (fun input : VerifyInput => respond (auth_ (auth_VerifyLogin input) r) writeTokenPair).
(** @src pkg/platform/httpserver/iamhttp/authentication.go:58-66 settings *)
Definition settings : Handler W := fun r =>
  _ ← setNoStore; respond (auth_ auth_Settings r) (fun v => Write 200 (VSettings v)).
(** @src pkg/platform/httpserver/iamhttp/authentication.go:67-88 putSettings *)
Definition putSettings : Handler W := fun r =>
  _ ← setNoStore;
  decode r (fun input : settings_in =>
    match si_Password input, si_Registration input, si_Verification input, si_Domains input with
    | Some password, Some registration, Some verification, Some domains =>
        let v := mkAuthenticationSettings password registration verification domains in
        respond (auth_ (auth_PutSettings v) r) (fun _ => Write 200 (VSettings v))
    | _, _, _, _ => writeIAMError ErrInvalidUserInput
    end).
(** @src pkg/platform/httpserver/iamhttp/authentication.go:89-97 security *)
Definition security : Handler W := fun r =>
  _ ← setNoStore; respond (auth_ (auth_Security (subject r)) r) (fun v => Write 200 (VSecurity v)).
(** @src pkg/platform/httpserver/iamhttp/authentication.go:98-112 putSecurity *)
Definition putSecurity : Handler W := fun r =>
  _ ← setNoStore;
  decode r (fun input : mode_in =>
    respond (auth_ (auth_PutSecurity (subject r) (mi_Mode input)) r) (fun v => Write 200 (VSecurity v))).
(** @src pkg/platform/httpserver/iamhttp/authentication.go:113-125 enroll *)
Definition enroll : Handler W := fun r =>
  _ ← setNoStore;
  decode r (fun input : SecurityProof =>
    respond_with writeSecurityProofError (auth_ (auth_Enroll (subject r) input) r) (fun v => Write 200 (VEnrollment v))).
(** @src pkg/platform/httpserver/iamhttp/authentication.go:126-140 confirm *)
Definition confirm : Handler W := fun r =>
  _ ← setNoStore;
  decode r (fun input : code_in =>
    respond_with writeSecurityProofError (auth_ (auth_Confirm (subject r) (ci_Code input)) r)
      (fun v => Write 200 (VRecoveryCodes v))).
(** @src pkg/platform/httpserver/iamhttp/authentication.go:141-152 disable *)
Definition disable : Handler W := fun r =>
  _ ← setNoStore;
  decode r (fun input : SecurityProof =>
    respond_with writeSecurityProofError (auth_ (auth_Disable (subject r) input) r) (fun _ => Write 200 (flag "disabled"))).
(** @src pkg/platform/httpserver/iamhttp/authentication.go:165-176 requestEmailVerification *)
Definition requestEmailVerification : Handler W := fun r =>
  _ ← setNoStore;
  respond (auth_ (auth_RequestEmailVerification (subject r) (client_ip r)) r) (fun _ => Write 202 sent).
(** @src pkg/platform/httpserver/iamhttp/authentication.go:178-196 verifyEmail *)
Definition verifyEmail : Handler W := fun r =>
  _ ← setNoStore;
  decode r (fun input : verifyEmail_in =>
    respond_with
      (fun err => if errors_is ErrInvalidCode err
                  then WriteError (inl (Validation [("email_code", "invalid or expired credential")]))
                  else writeIAMError err)
      (auth_ (auth_VerifyEmail (subject r) (ve_EmailCode input)) r) (fun u => Write 200 (VUser u))).
End Handlers.
Arguments cfg_Authentication {W}. Arguments cfg_SecureCookies {W}. Arguments cfg_RefreshTTL {W}.
Arguments mkHTTPConfig {W}.

(** ** The route table *)
Section Routes.
Context {W : Type} `{Unicode} `{ErrorText} `{IamJson}.

(** A nil token manager registers the public routes only.
    @src pkg/platform/httpserver/iamhttp/http.go:30-79 RegisterRoutes *)
Definition RegisterRoutes (app : Application W) (jwt : option (string -> M W AccessClaims)) (cfg : HTTPConfig) :
    list (Route W) :=
  let post p h := mkRoute "POST" ("/api/v1" +:+ p) h in
  let get p h := mkRoute "GET" ("/api/v1" +:+ p) h in
  let put p h := mkRoute "PUT" ("/api/v1" +:+ p) h in
  let patch p h := mkRoute "PATCH" ("/api/v1" +:+ p) h in
  let delete_ p h := mkRoute "DELETE" ("/api/v1" +:+ p) h in
  let with_auth (f : AuthenticationApplication W -> list (Route W)) :=
    match cfg_Authentication cfg with Some auth => f auth | None => [] end in
  [post "/auth/login" (login app cfg)] ++
  with_auth (fun auth =>
    [post "/auth/email-code" (emailCode auth);
     post "/auth/register" (register auth);
     post "/auth/login/totp/verify" (verifyLogin cfg auth)]) ++
  [post "/auth/refresh" (refresh app cfg);
   post "/auth/logout" (logout app cfg)] ++
  match jwt with
  | None => []
  | Some parse =>
      let signed (h : Handler W) : Handler W := Authenticate parse h in
      let allowed (permission : string) (h : Handler W) : Handler W :=
        Authenticate parse (RequirePermission app permission h) in
      [get "/users/me" (signed (me app))] ++
      with_auth (fun auth =>
        [post "/users/me/email/verification-code" (signed (requestEmailVerification auth));
         post "/users/me/email/verify" (signed (verifyEmail auth));
         get "/users/me/security" (signed (security auth));
         put "/users/me/security" (signed (putSecurity auth));
         post "/users/me/security/totp/enroll" (signed (enroll auth));
         post "/users/me/security/totp/confirm" (signed (confirm auth));
         post "/users/me/security/totp/disable" (signed (disable auth));
         get "/system-settings/basic-auth" (allowed "system-settings:read" (settings auth));
         put "/system-settings/basic-auth" (allowed "system-settings:write" (putSettings auth))]) ++
      [get "/users/me/preferences" (signed (preferences app));
       put "/users/me/preferences" (signed (putPreferences app));
       get "/users" (allowed "users:read" (users app));
       post "/users" (allowed "users:write" (createUser app));
       patch "/users/{userID}" (allowed "users:write" (updateUser app));
       post "/users/{userID}/password/reset" (allowed "users:write" (resetUserPassword app));
       patch "/users/{userID}/active" (allowed "users:write" (setUserActive app));
       get "/roles" (allowed "roles:read" (roles app));
       get "/roles/{roleID}" (allowed "roles:read" (role app));
       post "/roles" (allowed "roles:write" (createRole app));
       patch "/roles/{roleID}" (allowed "roles:write" (updateRole app));
       delete_ "/roles/{roleID}" (allowed "roles:write" (deleteRole app));
       get "/permissions" (allowed "roles:read" (permissions app));
       post "/users/{userID}/roles/{roleID}" (allowed "roles:write" (assignRole app));
       put "/users/{userID}/roles" (allowed "roles:write" (replaceUserRoles app));
       post "/roles/{roleID}/permissions/{permissionID}" (allowed "roles:write" (grantPermission app));
       put "/roles/{roleID}/permissions" (allowed "roles:write" (replaceRolePermissions app))]
  end.
End Routes.

(** ** Every handler answers once *)

Section Answers.
Context {W : Type} `{Unicode} `{ErrorText} `{IamJson}.
Implicit Types h : M (W * list wop) unit.

Lemma answers_setNoStore h : answers h -> answers (setNoStore ≫= fun _ => h).
Proof.
  intros Hh. enough (answers (emit (HeaderSet "Cache-Control" "no-store") ≫= fun _ => emit (HeaderSet "Pragma" "no-cache") ≫= fun _ => h)) as Ha
    by exact Ha.
  by repeat apply answers_header.
Qed.

Lemma answers_clearAuthCookies cfg h : answers h -> answers (clearAuthCookies cfg ≫= fun _ => h).
Proof.
  intros Hh. enough (forall a b, answers (emit (HeaderAdd "Set-Cookie" a) ≫= fun _ => emit (HeaderAdd "Set-Cookie" b) ≫= fun _ => h)) as Ha
    by apply Ha.
  intros a b. by repeat apply answers_header.
Qed.

Lemma answers_writeIAMError err : answers (W := W) (writeIAMError err).
Proof.
  unfold writeIAMError. repeat case_match;
    try lazymatch goal with |- answers (_ ≫= _) => apply answers_header; [done|] end;
    apply answers_WriteError; try done; by split_and!.
Qed.

Lemma answers_writeSecurityProofError err : answers (W := W) (writeSecurityProofError err).
Proof.
  unfold writeSecurityProofError. case_match; [|apply answers_writeIAMError]. apply answers_WriteError. by split_and!.
Qed.

Lemma answers_respond_with {A} fail (m : M W A) k :
  (forall e, answers (fail e)) -> (forall a, answers (k a)) -> answers (respond_with fail m k).
Proof.
  intros Hf Hk. by apply answers_call.
Qed.

Lemma answers_respond {A} (m : M W A) k : (forall a, answers (k a)) -> answers (respond m k).
Proof. intros Hk. apply answers_respond_with; [apply answers_writeIAMError|done]. Qed.

Lemma answers_decode {A} `{JsonValue A} r (k : A -> M (W * list wop) unit) :
  (forall v, answers (k v)) -> answers (decode r k).
Proof. intros Hk. unfold decode. case_match; [apply Hk|]. apply answers_WriteError. by split_and!. Qed.

Lemma answers_writeTokenPair cfg pair : answers (W := W) (writeTokenPair cfg pair).
Proof.
  unfold writeTokenPair. apply answers_setNoStore. unfold setAccessCookie, setRefreshCookie.
  do 2 (apply answers_header; [done|]). by apply answers_Write.
Qed.

Lemma answers_Authenticate parse (next : Handler W) r : (forall r, answers (next r)) -> answers (Authenticate parse next r).
Proof.
  intros Hn. unfold Authenticate. case_match; [|apply answers_writeIAMError..].
  apply answers_call; intros; [apply Hn|apply answers_writeIAMError].
Qed.

Lemma answers_RequirePermission app permission (next : Handler W) r :
  (forall r, answers (next r)) -> answers (RequirePermission app permission next r).
Proof. intros Hn. unfold RequirePermission. case_match; [apply answers_writeIAMError|]. by apply answers_respond. Qed.
End Answers.

(** One step of a handler, chosen by its head. *)
Ltac answer_step :=
  lazymatch goal with
  | |- forall _, _ => intro
  | |- answers (Authenticate _ _ _) => apply answers_Authenticate
  | |- answers (RequirePermission _ _ _ _) => apply answers_RequirePermission
  | |- answers (setNoStore ≫= _) => apply answers_setNoStore
  | |- answers (clearAuthCookies _ ≫= _) => apply answers_clearAuthCookies
  | |- answers (emit _ ≫= _) => apply answers_header; [reflexivity|]
  | |- answers (writeTokenPair _ _) => apply answers_writeTokenPair
  | |- answers (writeIAMError _) => apply answers_writeIAMError
  | |- answers (writeSecurityProofError _) => apply answers_writeSecurityProofError
  | |- answers (respond _ _) => apply answers_respond
  | |- answers (respond_with _ _ _) => apply answers_respond_with
  | |- answers (decode _ _) => apply answers_decode
  | |- answers panic => apply answers_panic
  | |- answers (Write _ _) => apply answers_Write; lia
  | |- answers (WriteError _) => apply answers_WriteError; split_and!; simpl; done
  | |- answers (match ?x with _ => _ end) => destruct x
  end.

Section Theorems.
Context {W : Type} `{Unicode} `{ErrorText} `{IamJson}.

(** Every route answers exactly once.  Whatever the request and whatever
    the applications do short of panicking, a handler sets headers, then one
    status and one envelope that repeats it, with the success message below
    400; it returns normally. *)
Theorem routes_answer_once (app : Application W) (jwt : option (string -> M W AccessClaims)) (cfg : HTTPConfig)
    (route : Route W) (r : Request) :
  route ∈ RegisterRoutes app jwt cfg -> answers (rt_Handler route r).
Proof.
  enough (Forall (fun route => forall r, answers (rt_Handler route r)) (RegisterRoutes app jwt cfg)) as Hall.
  { intros Hin. rewrite Forall_forall in Hall. by apply Hall. }
  clear route r. unfold RegisterRoutes.
  destruct cfg as [[auth|] secure ttl], jwt as [parse|]; simpl;
    rewrite ?Forall_cons, ?Forall_nil; split_and!; try done; simpl; intros r;
    unfold login, emailCode, register, verifyLogin, refresh, logout, me, requestEmailVerification, verifyEmail, security,
      putSecurity, enroll, confirm, disable, settings, putSettings, preferences, putPreferences, users, createUser,
      updateUser, resetUserPassword, setUserActive, roles, role, createRole, updateRole, deleteRole, permissions,
      assignRole, replaceUserRoles, grantPermission, replaceRolePermissions; repeat answer_step.
Qed.

(** *** Errors *)

(** The statuses of the sentinels, the first that the error matches first. *)
Definition error_statuses : list (sentinel * Z) :=
  [(SAuth ErrEmailNotVerified, 403); (SAuth ErrAuthenticationUnavailable, 503); (SIam ErrDuplicateIdentity, 409);
   (SAuth ErrEmailCodeRequired, 422); (SAuth ErrInvalidCode, 401); (SIam ErrInvalidCredentials, 401);
   (SIam ErrInvalidRefreshToken, 401); (SAuth ErrAuthenticationForbidden, 403); (SIam ErrInactiveUser, 403);
   (SIam ErrPermissionDenied, 403); (SAuth ErrSecurityConflict, 409); (SIam ErrCannotDeactivateSelf, 409);
   (SIam ErrLastActiveAdministrator, 409); (SIam ErrSystemRoleProtected, 409); (SIam ErrInvalidUserInput, 422);
   (SIam ErrNotFound, 404)].

Definition first_status (err : error) : Z :=
  foldr (fun '(s, status) rest => if errors_is s err then status else rest) 500 error_statuses.

Definition expected_status (err : error) : Z :=
  match as_fields err, as_rate_limit err with
  | Some _, _ => 422
  | None, Some _ => 429
  | None, None => first_status err
  end.

Definition run_writer (h : M (W * list wop) unit) (w : W) : res unit * list wop := let '(r, (_, ops)) := h (w, []) in (r, ops).

Lemma WriteError_run e (w : W) :
  run_writer (WriteError e) w =
    (Ok tt, [HeaderSet "Content-Type" "application/json; charset=utf-8"; WriteHeader (HTTPStatus (From e));
             WriteBody (mkEnvelope (Code (From e)) (Message (From e)) (Data (From e)))]).
Proof. reflexivity. Qed.

Lemma response_error e :
  response [HeaderSet "Content-Type" "application/json; charset=utf-8"; WriteHeader (HTTPStatus (From e));
            WriteBody (mkEnvelope (Code (From e)) (Message (From e)) (Data (From e)))] =
    (HTTPStatus (From e), {[ "Content-Type" := ["application/json; charset=utf-8"] ]},
     [WriteBody (mkEnvelope (Code (From e)) (Message (From e)) (Data (From e)))]).
Proof. reflexivity. Qed.

End Theorems.

(** ** What a route may ask of the applications *)

Inductive policy := Public | Session | Needs (permission : string).
#[global] Instance policy_eq_dec : EqDecision policy.
Proof. solve_decision. Defined.

(** The policy of every route, in the order of the table. *)
Definition access_matrix : list (string * string * policy) :=
  [("POST", "/api/v1/auth/login", Public); ("POST", "/api/v1/auth/email-code", Public);
   ("POST", "/api/v1/auth/register", Public); ("POST", "/api/v1/auth/login/totp/verify", Public);
   ("POST", "/api/v1/auth/refresh", Public); ("POST", "/api/v1/auth/logout", Public);
   ("GET", "/api/v1/users/me", Session);
   ("POST", "/api/v1/users/me/email/verification-code", Session); ("POST", "/api/v1/users/me/email/verify", Session);
   ("GET", "/api/v1/users/me/security", Session); ("PUT", "/api/v1/users/me/security", Session);
   ("POST", "/api/v1/users/me/security/totp/enroll", Session); ("POST", "/api/v1/users/me/security/totp/confirm", Session);
   ("POST", "/api/v1/users/me/security/totp/disable", Session);
   ("GET", "/api/v1/system-settings/basic-auth", Needs "system-settings:read");
   ("PUT", "/api/v1/system-settings/basic-auth", Needs "system-settings:write");
   ("GET", "/api/v1/users/me/preferences", Session); ("PUT", "/api/v1/users/me/preferences", Session);
   ("GET", "/api/v1/users", Needs "users:read"); ("POST", "/api/v1/users", Needs "users:write");
   ("PATCH", "/api/v1/users/{userID}", Needs "users:write");
   ("POST", "/api/v1/users/{userID}/password/reset", Needs "users:write");
   ("PATCH", "/api/v1/users/{userID}/active", Needs "users:write");
   ("GET", "/api/v1/roles", Needs "roles:read"); ("GET", "/api/v1/roles/{roleID}", Needs "roles:read");
   ("POST", "/api/v1/roles", Needs "roles:write"); ("PATCH", "/api/v1/roles/{roleID}", Needs "roles:write");
   ("DELETE", "/api/v1/roles/{roleID}", Needs "roles:write"); ("GET", "/api/v1/permissions", Needs "roles:read");
   ("POST", "/api/v1/users/{userID}/roles/{roleID}", Needs "roles:write");
   ("PUT", "/api/v1/users/{userID}/roles", Needs "roles:write");
   ("POST", "/api/v1/roles/{roleID}/permissions/{permissionID}", Needs "roles:write");
   ("PUT", "/api/v1/roles/{roleID}/permissions", Needs "roles:write")].

Definition is_needs (pol : policy) (permission : string) : bool := bool_decide (pol = Needs permission).
Definition own (pol : policy) (subject id : string) : bool := bool_decide (pol = Session) && String.eqb id subject.

(** The calls a policy allows to a subject: signing in to anyone, the own
    account to a session, and what a permission is for to who needs it. *)
Definition may_call (pol : policy) (subject : string) {A} (c : app_call A) : bool :=
  match c with
  | app_Login _ _ | app_Refresh _ | app_Logout _ => bool_decide (pol = Public)
  | app_CurrentUser id | app_Preferences id | app_PutPreferences id _ => own pol subject id
  | app_Authorize id permission => is_needs pol permission && String.eqb id subject
  | app_Users _ => is_needs pol "users:read"
  | app_CreateUser _ | app_UpdateUser _ _ | app_ResetUserPassword _ _ | app_SetUserActive _ _ => is_needs pol "users:write"
  | app_Roles | app_Role _ | app_Permissions => is_needs pol "roles:read"
  | app_CreateRole _ | app_UpdateRole _ _ | app_DeleteRole _ | app_ReplaceRolePermissions _ _ | app_AssignRole _ _
  | app_GrantPermission _ _ | app_ReplaceUserRoles _ _ => is_needs pol "roles:write"
  end.
Definition may_authenticate (pol : policy) (subject : string) {A} (c : auth_call A) : bool :=
  match c with
  | auth_Login _ | auth_VerifyLogin _ | auth_RequestEmailCode _ _ _ | auth_Register _ => bool_decide (pol = Public)
  | auth_RequestEmailVerification id _ | auth_VerifyEmail id _ | auth_Security id | auth_PutSecurity id _
  | auth_Enroll id _ | auth_Confirm id _ | auth_Disable id _ => own pol subject id
  | auth_Settings => is_needs pol "system-settings:read"
  | auth_PutSettings _ => is_needs pol "system-settings:write"
  end.

Section Privilege.
Context {W : Type} `{Unicode} `{ErrorText} `{IamJson}.

(** The application that panics on any call the policy does not allow. *)
Definition confined {call : Type -> Type} (allowed : string -> forall A, call A -> bool) (next : handles W call) :
    handles W call := fun A c ctx => if allowed (ctx_Subject ctx) A c then next A c ctx else panic.
Definition confine pol (app : Application W) : Application W := confined (fun subject A c => may_call pol subject c) app.
Definition confine_auth pol (auth : AuthenticationApplication W) : AuthenticationApplication W :=
  confined (fun subject A c => may_authenticate pol subject c) auth.

(** Two handlers that behave alike. *)
Definition alike (h h' : Handler W) : Prop := forall r s, h r s = h' r s.

Lemma bind_alike {B} (m : M (W * list wop) B) (k k' : B -> M (W * list wop) unit) s :
  (forall b s, k b s = k' b s) -> (m ≫= k) s = (m ≫= k') s.
Proof. intros Hk. rewrite !M_bind_run. by destruct (m s) as [[b|e|] s1]; [apply Hk|..]. Qed.

Lemma Authenticate_alike parse (h h' : Handler W) : alike h h' -> alike (Authenticate parse h) (Authenticate parse h').
Proof.
  intros Hh r s. unfold Authenticate. case_match; [|done..]. apply bind_alike. intros c s'. by case_match; [apply Hh|..].
Qed.

Lemma allowed_alike app parse permission (h h' : Handler W) : alike h h' ->
  alike (Authenticate parse (RequirePermission app permission h))
        (Authenticate parse (RequirePermission (confine (Needs permission) app) permission h')).
Proof.
  intros Hh. apply Authenticate_alike. intros r s. unfold RequirePermission. case_match; [done|].
  unfold respond, respond_with, confine, confined, may_call, is_needs.
  rewrite bool_decide_true, String.eqb_refl by done. apply bind_alike. intros c s'. by case_match; [apply Hh|..].
Qed.

Lemma decode_alike {A} `{JsonValue A} r (k k' : A -> M (W * list wop) unit) s :
  (forall v s, k v s = k' v s) -> decode r k s = decode r k' s.
Proof. intros Hk. unfold decode. by case_match; [apply Hk|]. Qed.

Lemma own_session subject : own Session subject subject = true.
Proof. unfold own. by rewrite String.eqb_refl. Qed.

(** A handler whose calls the policy allows by computation, or whose calls
    are for the subject of the session. *)
Ltac route_alike :=
  first
    [ intros ? ?; reflexivity
    | apply allowed_alike; intros ? ?; reflexivity
    | apply Authenticate_alike; intros r s;
      unfold me, requestEmailVerification, verifyEmail, security, putSecurity, enroll, confirm, disable, preferences,
        putPreferences, confine, confine_auth, confined, may_call, may_authenticate;
      repeat first [apply bind_alike; intros ? ? | apply decode_alike; intros ? ? | rewrite own_session; reflexivity] ].

(** C20: least privilege.  On every route the applications only get calls its
    policy allows, on behalf of the subject of the session: replacing them by
    ones that panic on any other call changes nothing.  The table of policies
    is the table of the registered routes, in order. *)
Theorem routes_least_privilege (app : Application W) (parse : string -> M W AccessClaims)
    (auth : AuthenticationApplication W) (secure : bool) (ttl : Z) :
  let routes pol := RegisterRoutes (confine pol app) (Some parse) (mkHTTPConfig (Some (confine_auth pol auth)) secure ttl) in
  let registered := RegisterRoutes app (Some parse) (mkHTTPConfig (Some auth) secure ttl) in
  map (fun route => (rt_Method route, rt_Pattern route)) registered = map fst access_matrix /\
  forall i m p pol, access_matrix !! i = Some (m, p, pol) ->
    exists route route', registered !! i = Some route /\ routes pol !! i = Some route' /\
      alike (rt_Handler route) (rt_Handler route').
Proof.
  intros routes registered. split; [reflexivity|]. intros i m p pol Hi.
  do 33 (destruct i as [|i];
    [injection Hi as <- <- <-; do 2 eexists; split; [reflexivity|split; [reflexivity|cbn [rt_Handler]]]; route_alike|]).
  done.
Qed.
End Privilege.

(** *** A refused request *)
Section Refused.
Context {W : Type} `{Unicode} `{ErrorText} `{IamJson}.

(** An error answers with a status of 400 or more and does nothing else. *)
Definition fails (h : M (W * list wop) unit) : Prop := forall w, exists ops, h (w, []) = (Ok tt, (w, ops)) /\ 400 <= status_of ops.

Lemma fails_WriteError e : 400 <= HTTPStatus (From e) -> fails (WriteError e).
Proof. intros He w. eexists. split; [reflexivity|]. exact He. Qed.

Lemma writeIAMError_fails err : fails (writeIAMError err).
Proof.
  unfold writeIAMError. repeat case_match; try (apply fails_WriteError; simpl; lia).
  intros w. eexists. split; [reflexivity|]. done.
Qed.

(** What gets past [Authenticate]. *)
Lemma Authenticate_gate parse (next : Handler W) r (w : W) res w' ops :
  (forall raw w, (parse raw w).2 = w) ->
  Authenticate parse next r (w, []) = (res, (w', ops)) ->
  (w' = w /\ (res = Ok tt -> 400 <= status_of ops)) \/
  exists raw claims, ExtractAccessToken r = Ok raw /\ (parse raw w).1 = Ok claims /\
    next (with_context r (WithSubject (req_Context r) (Subject claims))) (w, []) = (res, (w', ops)).
Proof.
  intros Hp. unfold Authenticate. destruct (ExtractAccessToken r) as [raw|e|].
  2,3: destruct (writeIAMError_fails ErrInvalidCredentials w) as (ops' & -> & Hs); intros [= <- <- <-]; by left.
  rewrite M_bind_run. unfold try, call, on_fst. simpl. pose proof (Hp raw w) as Hw.
  destruct (parse raw w) as [[claims|e|] w1] eqn:E; simpl in Hw; subst w1.
  - intros Hn. right. exists raw, claims. by rewrite E.
  - destruct (writeIAMError_fails ErrInvalidCredentials w) as (ops' & -> & Hs). intros [= <- <- <-]. by left.
  - intros [= <- <- <-]. by left.
Qed.

(** What gets past [RequirePermission]. *)
Lemma RequirePermission_gate app permission (next : Handler W) r (w : W) res w' ops :
  RequirePermission app permission next r (w, []) = (res, (w', ops)) ->
  let m := app unit (app_Authorize (ctx_Subject (req_Context r)) permission) (req_Context r) in
  (res = Ok tt /\ w' = w /\ 400 <= status_of ops) \/
  (is_ok (m w).1 = false /\ w' = (m w).2 /\ (res = Ok tt -> 400 <= status_of ops)) \/
  ((m w).1 = Ok tt /\ next r ((m w).2, []) = (res, (w', ops))).
Proof.
  unfold RequirePermission. destruct (is_empty _).
  { destruct (writeIAMError_fails ErrInvalidCredentials w) as (ops' & -> & Hs). intros [= <- <- <-]. by left. }
  unfold respond, respond_with. rewrite M_bind_run. unfold try, call, on_fst. cbv zeta. simpl.
  destruct (app _ _ _ w) as [[[]|e|] w1]; simpl.
  - intros Hn. right. right. done.
  - destruct (writeIAMError_fails e w1) as (ops' & -> & Hs). intros [= <- <- <-]. right. left. done.
  - intros [= <- <- <-]. right. left. done.
Qed.
End Refused.

(** ** The theorems at concrete inputs *)
Module Example.
Definition ascii_only : Unicode := {| unicode_lower s := s; unicode_equal_fold := String.eqb |}.
Definition texts : ErrorText := fun _ => "".
Definition no_bodies : IamJson.
Proof. split; exact (fun _ => None). Defined.
#[export] Existing Instances ascii_only texts no_bodies.

(** The world counts the calls; nobody is known. *)
Definition app : Application nat := fun A c ctx w => (Err ErrPermissionDenied, S w).
Definition auth : AuthenticationApplication nat := fun A c ctx w => (Err ErrEmailNotVerified, S w).
Definition parse (raw : string) : M nat AccessClaims := mret (mkAccessClaims "backend" raw 0 0).
Definition config : HTTPConfig := mkHTTPConfig (Some auth) true Hour.
Definition table : list (Route nat) := RegisterRoutes app (Some parse) config.
Definition request : Request :=
  mkRequest "GET" "/" (fun _ => "") (fun h => if String.eqb h "Authorization" then "Bearer user" else "") (fun _ => None)
    "192.0.2.1:4242" None (fun _ => "") Background.
Definition route : Route nat := default (mkRoute "" "" (fun _ => panic)) (table !! 6%nat).
End Example.
Import Example.

Lemma routes_answer_once_witness :
  exists new status e, rt_Handler route request (O, []) = (Ok tt, (1%nat, new)) /\
    one_response new status e /\ well_formed status e /\ status_of new = 403.
Proof.
  assert (route ∈ table) as Hin by (apply list_elem_of_lookup; exists 6%nat; reflexivity).
  pose proof (routes_answer_once app (Some parse) config route request Hin O []) as Ha.
  destruct (rt_Handler route request (O, [])) as [r [w' ops]] eqn:E.
  destruct r as [[]|e|]; [|vm_compute in E; discriminate E..].
  destruct Ha as (new & status & e & -> & Ho & He). exists new, status, e.
  assert (w' = 1%nat) as -> by (vm_compute in E; injection E as <- _; reflexivity).
  split; [reflexivity|]. split; [exact Ho|]. split; [exact He|].
  vm_compute in E. injection E as <-. reflexivity.
Defined.


(** The call of [GET /users/me] passes the guard of its policy. *)
Lemma routes_least_privilege_witness :
  exists route', RegisterRoutes (confine Session app) (Some parse)
      (mkHTTPConfig (Some (confine_auth Session auth)) true Hour) !! 6%nat = Some route' /\
    rt_Handler route request (O, []) = rt_Handler route' request (O, []).
Proof.
  destruct (routes_least_privilege app parse auth true Hour) as [_ Hall].
  destruct (Hall 6%nat "GET" "/api/v1/users/me" Session eq_refl) as (route1 & route' & E1 & E2 & Ha).
  exists route'. split; [exact E2|]. assert (route1 = route) as -> by (injection E1 as <-; reflexivity). apply Ha.
Defined.
