(* ===== verification/Platform.v ===== *)
(** * The platform routes ([internal/app/platform_http.go])

    The audit log, the task executions and the task types over HTTP.  The
    handlers call the audit, task and recorder interfaces they are given. *)
From S2P Require Import Prelude GoStrings Strconv Netip Pagination Postgres Iam Task Token AuditTrail Application Http IamHttp.

(** ** The dependencies *)

(** [Audits], [Tasks] and [Executions] are the interfaces auditLister,
    taskSubmitter and taskReader, and a catalog is what taskCatalog asks of
    it.
    @src internal/app/platform_http.go:40-49 PlatformRoutes *)
Record catalog := mkTaskCatalog { cat_Contains : string -> bool; cat_Types : list string }.
Record PlatformRoutes (W J : Type) := mkPlatformRoutes {
  pr_IAM : Application W;
  pr_JWT : string -> M W AccessClaims;
  pr_List : Ctx -> Query -> M W (PageOf (Event J));
  pr_Submit : Ctx -> Submission -> M W Execution;
  pr_GetExecution : Ctx -> string -> M W Execution;
  pr_ListExecutions : Ctx -> ExecutionQuery -> M W (PageOf Execution);
  pr_Recorder : option (Ctx -> NewEvent J -> option error -> M W (option error));
  pr_TaskObserver : option (string -> string -> Z -> M W unit);
  pr_TaskCatalog : option catalog;
}.
Arguments pr_IAM {W J}. Arguments pr_JWT {W J}. Arguments pr_List {W J}. Arguments pr_Submit {W J}.
Arguments pr_GetExecution {W J}. Arguments pr_ListExecutions {W J}. Arguments pr_Recorder {W J}.
Arguments pr_TaskObserver {W J}. Arguments pr_TaskCatalog {W J}.

(** ** JSON

    The body of a submission with its optional fields as the raw text of
    their values, empty when absent; and [json.Unmarshal] of a raw value into
    a string, an integer, and a map, of which only whether it is a non-nil
    map is used. *)
Record SubmitBody := mkSubmitBody {
  sb_DefinitionID : string; sb_TaskType : string; sb_Payload : string; sb_IdempotencyKey : string; sb_MaxRetries : string;
  sb_TimeoutSeconds : string; sb_UniqueForSeconds : string; sb_ProcessAfterSeconds : string;
}.
Class RawJson := {
  submit_body : JsonValue SubmitBody;
  raw_string : string -> option string;
  raw_int : string -> option Z;
  raw_object : string -> bool;
}.
#[export] Existing Instance submit_body.

(** [uuid.Validate] *)
Class UuidValidate := uuid_valid : string -> bool.
(** [time.Parse(time.RFC3339, value)] *)
Class TimeParse := time_rfc3339 : string -> option Z.

Section Handlers.
Context {W J : Type} `{JsonMap J} `{RawJson} `{UuidValidate} `{TimeParse} `{Unicode} `{ErrorText}.
Variable deps : PlatformRoutes W J.
Abbreviation act := (M (W * list wop) unit).

(** *** Fields

    The errors of the fields are kept in the order they are found; a field
    has one at most. *)
Definition errors := list (string * string).

(** @src internal/app/platform_http.go:181-191 optionalString *)
Definition optionalString (raw field : string) (validationErrors : errors) : string * errors :=
  if is_empty raw then ("", validationErrors)
  else
    match raw_string raw with
    | Some value => if is_empty value then ("", validationErrors ++ [(field, "must be a non-empty string")]) else (value, validationErrors)
    | None => ("", validationErrors ++ [(field, "must be a non-empty string")])
    end.

(** @src internal/app/platform_http.go:193-208 optionalInt *)
Definition optionalInt (raw : string) (fallback minimum maximum : Z) (field : string) (validationErrors : errors) : Z * errors :=
  if is_empty raw then (fallback, validationErrors)
  else
    match (if String.eqb raw "null" then None else raw_int raw) with
    | None => (fallback, validationErrors ++ [(field, "must be an integer")])
    | Some value =>
        (value,
         validationErrors ++
           if value <? minimum then [(field, "must be greater than or equal to " +:+ FormatInt minimum)]
           else if maximum <? value then [(field, "must be less than or equal to " +:+ FormatInt maximum)] else [])
    end.

(** @src internal/app/platform_http.go:250-256 queryInt *)
Definition platform_queryInt (r : Request) (name : string) (fallback : Z) : Z :=
  match ParseInt (req_Query r name) with
  | Some value => if value <=? 0 then fallback else value
  | None => fallback
  end.

(** @src internal/app/platform_http.go:257-266 queryTime *)
Definition queryTime (value : string) : option Z := if is_empty value then None else time_rfc3339 value.

(** *** Handlers *)

(** @src internal/app/platform_http.go:232-249 audit *)
Definition audit (ctx : Ctx) (action resourceType resourceID : string) (primary : option error) : M W unit :=
  match pr_Recorder deps with
  | None => mret tt
  | Some preserve =>
      let result := match primary with Some _ => ResultFailure | None => ResultSuccess end in
      let actorID := if is_empty (ctx_Subject ctx) then None else Some (ctx_Subject ctx) in
      let metadata := ctx_Metadata ctx in
      ignore (preserve ctx (mkNewEvent (ctx_RequestID ctx) actorID action result resourceType resourceID
            (rm_IPAddress metadata) (rm_UserAgent metadata) None) primary)
  end.

(** An event as it is written: its metadata, which was read from JSON, has a
    JSON text. *)
Definition event_text (e : Event J) : Event string :=
  mkEvent (ev_ID e) (ev_RequestID e) (ev_ActorID e) (ev_Action e) (ev_Result e) (ev_ResourceType e) (ev_ResourceID e)
    (ev_IPAddress e) (ev_UserAgent e) (match json_Marshal (ev_Metadata e) with Ok text => text | _ => "" end) (ev_CreatedAt e).

(** A call whose errors are answered by [apperror.WriteError]. *)
Definition answer {A} (m : M W A) (k : A -> act) : act := respond_with (fun e => WriteError (inr e)) m k.

(** @src internal/app/platform_http.go:68-82 auditLogs *)
Definition auditLogs : Handler W := fun r =>
  let query := req_Query r in
  let filter := mkFilter (query "request_id") (query "actor_id") (query "action") (query "result") (query "resource_type")
    (query "resource_id") (queryTime (query "from")) (queryTime (query "to")) in
  answer (pr_List deps (req_Context r) (mkQuery filter (platform_queryInt r "page" 1) (platform_queryInt r "size" 20)))
    (fun result => Write 200 (VAudits (mkPage (map event_text (Items result)) (PageMeta result)))).

Variable runtimeTaskCatalog : catalog.
Definition task_catalog : catalog := default runtimeTaskCatalog (pr_TaskCatalog deps).

(** The submission a body describes, and the errors of its fields.
    @src internal/app/platform_http.go:104-122 (submitTask) validation *)
Definition submission_of (body : SubmitBody) : Submission * errors :=
  let taskTypeErrors :=
    if is_empty (sb_TaskType body) then [("task_type", "is required")]
    else if negb (cat_Contains task_catalog (sb_TaskType body)) then [("task_type", "is not a registered task type")] else [] in
  let payloadErrors :=
    if is_empty (sb_Payload body) || negb (raw_object (sb_Payload body)) then [("payload", "must be a JSON object")] else [] in
  let '(definitionID, errs) := optionalString (sb_DefinitionID body) "definition_id" (taskTypeErrors ++ payloadErrors) in
  let errs := if negb (is_empty definitionID) && negb (uuid_valid definitionID)
              then errs ++ [("definition_id", "must be a UUID")] else errs in
  let '(idempotencyKey, errs) := optionalString (sb_IdempotencyKey body) "idempotency_key" errs in
  let '(maxRetries, errs) := optionalInt (sb_MaxRetries body) 3 0 MaxSubmissionRetries "max_retries" errs in
  let '(timeoutSeconds, errs) :=
    optionalInt (sb_TimeoutSeconds body) 300 1 (MaxSubmissionTimeout / Second) "timeout_seconds" errs in
  let '(uniqueForSeconds, errs) :=
    optionalInt (sb_UniqueForSeconds body) 0 0 (MaxSubmissionUniqueFor / Second) "unique_for_seconds" errs in
  let '(processAfterSeconds, errs) :=
    optionalInt (sb_ProcessAfterSeconds body) 0 0 (MaxSubmissionProcessAfter / Second) "process_after_seconds" errs in
  (mkSubmission definitionID (sb_TaskType body) (sb_Payload body) idempotencyKey maxRetries
     (int64 (timeoutSeconds * Second)) (int64 (uniqueForSeconds * Second)) (int64 (processAfterSeconds * Second)), errs).

(** @src internal/app/platform_http.go:140-154 (submitTask) errors *)
Definition submit_error (err : error) : AppError + error :=
  if errors_is ErrDefinitionNotFound err then inl (NotFound "task definition")
  else if errors_is ErrDuplicateSubmission err then inl (New_ 409 "duplicate task submission" 409)
  else if errors_is ErrInvalidSubmission err then inl (Validation [("body", "invalid task submission")])
  else inr err.

(** The status that is observed and the identifier that is recorded of a
    submission: those of the zero execution when it failed.
    @src internal/app/platform_http.go:83-157 submitTask *)
Definition submitTask : Handler W := fun r =>
  match req_Body r ≫= DecodeJSON (A := SubmitBody) (2 ^ 20) with
  | None => WriteError (inl (Validation [("body", "invalid JSON body")]))
  | Some body =>
      let '(submission, validationErrors) := submission_of body in
      match validationErrors with
      | _ :: _ => WriteError (inl (Validation validationErrors))
      | [] =>
          answer ← try (call (pr_Submit deps (req_Context r) submission));
          _ ← call (match pr_TaskObserver deps with
                    | Some observer => ignore (observer (sub_TaskType submission) (if is_ok answer then StatusQueued else StatusFailed) 0)
                    | None => mret tt
                    end);
          _ ← call (audit (req_Context r) "task.submit" "task_execution"
                      (match answer with Ok execution => ex_ID execution | _ => "" end) (err_of answer));
          match answer with
          | Ok execution => Write 202 (VExecution execution)
          | Err err => WriteError (submit_error err)
          | Panic => panic
          end
      end
  end.

(** @src internal/app/platform_http.go:159-179 listExecutions *)
Definition listExecutions : Handler W := fun r =>
  let list_with status :=
    answer (pr_ListExecutions deps (req_Context r)
      (mkExecutionQuery (req_Query r "task_type") status (platform_queryInt r "page" 1) (platform_queryInt r "size" DefaultSize)))
      (fun items => Write 200 (VExecutions items)) in
  let value := req_Query r "status" in
  if is_empty value then list_with ""
  else
    let '(status, ok) := ParseStatus value in
    if negb ok then
      WriteError (inl (Validation [("status", "must be one of queued, running, succeeded, failed, cancelled")]))
    else list_with status.

(** @src internal/app/platform_http.go:209-220 getExecution *)
Definition getExecution : Handler W := fun r =>
  respond_with
    (fun err => WriteError (if errors_is ErrExecutionNotFound err then inl (NotFound "task execution") else inr err))
    (pr_GetExecution deps (req_Context r) (req_Param r "executionID"))
    (fun execution => Write 200 (VExecution execution)).

(** @src internal/app/platform_http.go:222-231 listTaskTypes *)
Definition listTaskTypes : Handler W := fun _ => Write 200 (VTaskTypes (cat_Types task_catalog)).

(** @src internal/app/platform_http.go:51-64 RegisterPlatformRoutes *)
Definition RegisterPlatformRoutes : list (Route W) :=
  let allowed (permission : string) (h : Handler W) : Handler W :=
    Authenticate (pr_JWT deps) (RequirePermission (pr_IAM deps) permission h) in
  [mkRoute "GET" "/api/v1/audit-logs" (allowed "audit:read" auditLogs);
   mkRoute "POST" "/api/v1/task-executions" (allowed "tasks:write" submitTask);
   mkRoute "GET" "/api/v1/task-executions" (allowed "tasks:read" listExecutions);
   mkRoute "GET" "/api/v1/task-executions/{executionID}" (allowed "tasks:read" getExecution);
   mkRoute "GET" "/api/v1/task-types" (allowed "tasks:read" listTaskTypes)].
End Handlers.

(** ** What the routes accept and answer *)
Section Theorems.
Context {W J : Type} `{JsonMap J} `{RawJson} `{UuidValidate} `{TimeParse} `{Unicode} `{ErrorText}.
Variable deps : PlatformRoutes W J.
Variable runtimeTaskCatalog : catalog.

Lemma optionalString_ok raw field errs v : optionalString raw field errs = (v, []) -> errs = [] /\ (raw = "" \/ v <> "").
Proof.
  unfold optionalString. destruct (is_empty raw) eqn:E; [intros [= <- ->]; split; [done|left; by apply is_empty_true]|].
  destruct (raw_string raw) as [value|].
  - destruct (is_empty value) eqn:Ev; [by intros [= _ []%app_eq_nil]|]. intros [= <- ->]. split; [done|]. right. by apply is_empty_false.
  - by intros [= _ []%app_eq_nil].
Qed.

Lemma optionalInt_ok raw fallback minimum maximum field errs v :
  optionalInt raw fallback minimum maximum field errs = (v, []) -> minimum <= fallback <= maximum ->
  errs = [] /\ minimum <= v <= maximum.
Proof.
  unfold optionalInt. destruct (is_empty raw); [intros [= <- ->]; done|].
  destruct (if String.eqb raw "null" then None else raw_int raw) as [value|]; [|by intros [= _ []%app_eq_nil]].
  intros [= <- [-> Hv]%app_eq_nil] Hf. split; [done|].
  destruct (value <? minimum) eqn:E1; [done|]. destruct (maximum <? value) eqn:E2; [done|]. lia.
Qed.

(** The API accepts exactly what the task service and its tables take.  A
    body without errors names a registered type, carries a JSON object and
    describes a submission that [ValidateSubmission] accepts, so that the
    service never refuses it; its durations are whole seconds, so that the
    outbox stores them as they are. *)
Theorem submission_of_valid (body : SubmitBody) (s : Submission) :
  submission_of deps runtimeTaskCatalog body = (s, []) ->
  ValidateSubmission s = None /\ cat_Contains (task_catalog deps runtimeTaskCatalog) (sub_TaskType s) = true /\ sub_TaskType s <> "" /\
  sub_TaskType s = sb_TaskType body /\ sub_Payload s = sb_Payload body /\ raw_object (sub_Payload s) = true /\
  (sub_DefinitionID s = "" \/ uuid_valid (sub_DefinitionID s) = true) /\
  sub_Timeout s mod Second = 0 /\ sub_UniqueFor s mod Second = 0 /\ sub_ProcessAfter s mod Second = 0.
Proof.
  unfold submission_of. intros E.
  destruct (optionalString (sb_DefinitionID body) _ _) as [definitionID e1] eqn:E1.
  destruct (optionalString (sb_IdempotencyKey body) _ _) as [idempotencyKey e2] eqn:E2.
  destruct (optionalInt (sb_MaxRetries body) _ _ _ _ _) as [maxRetries e3] eqn:E3.
  destruct (optionalInt (sb_TimeoutSeconds body) _ _ _ _ _) as [timeoutSeconds e4] eqn:E4.
  destruct (optionalInt (sb_UniqueForSeconds body) _ _ _ _ _) as [uniqueForSeconds e5] eqn:E5.
  destruct (optionalInt (sb_ProcessAfterSeconds body) _ _ _ _ _) as [processAfterSeconds e6] eqn:E6.
  injection E as <- ->.
  apply optionalInt_ok in E6 as [-> Hpa]; [|vm_compute; done]. apply optionalInt_ok in E5 as [-> Huf]; [|vm_compute; done].
  apply optionalInt_ok in E4 as [-> Hto]; [|vm_compute; done]. apply optionalInt_ok in E3 as [-> Hmr]; [|vm_compute; done].
  apply optionalString_ok in E2 as [E2 _].
  assert (e1 = [] /\ (definitionID = "" \/ uuid_valid definitionID = true)) as [-> Hid].
  { destruct (is_empty definitionID) eqn:Ed; [apply is_empty_true in Ed; simpl in E2; naive_solver|].
    destruct (uuid_valid definitionID); simpl in E2; [naive_solver|]. by apply app_eq_nil in E2 as [_ ?]. }
  apply optionalString_ok in E1 as [[Htt Hpl]%app_eq_nil _].
  destruct (is_empty (sb_TaskType body)) eqn:Ett; [done|]. apply is_empty_false in Ett.
  destruct (cat_Contains _ (sb_TaskType body)) eqn:Ec; [|done].
  destruct (is_empty (sb_Payload body)); [done|]. destruct (raw_object (sb_Payload body)) eqn:Ero; [|done].
  change (MaxSubmissionTimeout / Second) with 86400 in Hto. change (MaxSubmissionUniqueFor / Second) with 604800 in Huf.
  change (MaxSubmissionProcessAfter / Second) with 2592000 in Hpa. unfold MaxSubmissionRetries in Hmr.
  simpl. rewrite !int64_id by (unfold in_int64, min_int64, max_int64, Second; lia).
  split; [|split_and!; try done; apply Z.mod_mul; done].
  unfold ValidateSubmission. simpl.
  change MaxSubmissionTimeout with (86400 * Second). change MaxSubmissionUniqueFor with (604800 * Second).
  change MaxSubmissionProcessAfter with (2592000 * Second). unfold Second, MaxSubmissionRetries. repeat case_match; try done; lia.
Qed.

(** A call without a result. *)
Lemma answers_effect (m : M W unit) (h : M (W * list wop) unit) :
  (forall w, is_err (m w).1 = false) -> answers h -> answers (call m ≫= fun _ => h).
Proof.
  intros Hm Hh w ops. rewrite M_bind_run. unfold call, on_fst. specialize (Hm w).
  simpl. destruct (m w) as [[[]|e|] w1]; [apply Hh|done|exists []; by rewrite app_nil_r].
Qed.

Lemma ignore_no_err {A} (m : M W A) w : is_err (ignore m w).1 = false.
Proof. unfold ignore. by destruct (m w) as [[] ?]. Qed.

Lemma answers_WriteError_any err : answers (W := W) (WriteError (inr err)).
Proof. by apply answers_WriteError. Qed.

Lemma submit_error_answers err : answers (W := W) (WriteError (submit_error err)).
Proof. unfold submit_error. repeat case_match; apply answers_WriteError; try done; by split_and!. Qed.

Lemma submitTask_answers r : answers (submitTask deps runtimeTaskCatalog r).
Proof.
  unfold submitTask. destruct (req_Body r ≫= _) as [body|]; [|apply answers_WriteError; by split_and!].
  destruct (submission_of deps runtimeTaskCatalog body) as [s errs]. destruct errs; [|apply answers_WriteError; by split_and!].
  assert (forall (a : res Execution) h, answers h ->
    answers (call (match pr_TaskObserver deps with
                    | Some observer => ignore (observer (sub_TaskType s) (if is_ok a then StatusQueued else StatusFailed) 0)
                    | None => mret tt end) ≫= fun _ =>
             call (audit deps (req_Context r) "task.submit" "task_execution" (match a with Ok execution => ex_ID execution | _ => "" end) (err_of a))
               ≫= fun _ => h)) as He.
  { intros a h Hh. apply answers_effect; [intros w; destruct (pr_TaskObserver deps); [apply ignore_no_err|done]|].
    apply answers_effect; [intros w; unfold audit; destruct (pr_Recorder deps); [apply ignore_no_err|done]|done]. }
  apply answers_call; intros; apply He; [by apply answers_Write|apply submit_error_answers].
Qed.

Lemma platform_answers : Forall (fun route => forall r, answers (rt_Handler route r)) (RegisterPlatformRoutes deps runtimeTaskCatalog).
Proof.
  unfold RegisterPlatformRoutes. rewrite !Forall_cons, Forall_nil.
  split_and!; try done; simpl; intros r; apply answers_Authenticate; intros r1; apply answers_RequirePermission; intros r2.
  - apply answers_respond_with; intros; [apply answers_WriteError_any|by apply answers_Write].
  - apply submitTask_answers.
  - unfold listExecutions. assert (forall status, answers (answer (pr_ListExecutions deps (req_Context r2)
      (mkExecutionQuery (req_Query r2 "task_type") status (platform_queryInt r2 "page" 1) (platform_queryInt r2 "size" DefaultSize)))
      (fun items => Write 200 (VExecutions items)))) as Hl
      by (intros status; apply answers_respond_with; intros; [apply answers_WriteError_any|by apply answers_Write]).
    destruct (is_empty _); [apply Hl|]. destruct (ParseStatus _) as [status ok]. destruct ok; [apply Hl|]. apply answers_WriteError. by split_and!.
  - apply answers_respond_with; intros; [|by apply answers_Write].
    case_match; [apply answers_WriteError; by split_and!|apply answers_WriteError_any].
  - by apply answers_Write.
Qed.
End Theorems.

(** ** The theorem at a concrete input *)
Module Example.
Definition raw : RawJson :=
  {| submit_body _ := None; raw_string s := Some s; raw_int := ParseInt; raw_object s := HasPrefix s "{" |}.
Definition any_uuid : UuidValidate := fun _ => true.
Definition tasks : catalog := mkTaskCatalog (String.eqb "system.test") ["system.test"].
Definition none {A} : M unit A := throw (EText "none").
Definition deps : PlatformRoutes unit string :=
  mkPlatformRoutes unit string (fun A c ctx => none) (fun raw => none) (fun ctx q => none) (fun ctx s => none) (fun ctx id => none)
    (fun ctx q => none) None None None.
Definition body : SubmitBody := mkSubmitBody "" "system.test" "{}" "" "" "60" "" "".
Definition submission : Submission := mkSubmission "" "system.test" "{}" "" 3 (60 * Second) 0 0.
End Example.
#[local] Existing Instances Example.raw Example.any_uuid.

Lemma submission_of_valid_witness :
  submission_of Example.deps Example.tasks Example.body = (Example.submission, []) /\ ValidateSubmission Example.submission = None.
Proof.
  split; [vm_compute; reflexivity|].
  apply (submission_of_valid Example.deps Example.tasks Example.body Example.submission). vm_compute. reflexivity.
Defined.
