(* ===== verification/Journey.v ===== *)
(** * From a request to the end of its task

    A POST to /api/v1/task-executions on the API server, the loop of the worker,
    and the delivery of the task: [Platform], the catalog of [Task], and
    [Delivery], composed the way the processes share the catalog and the
    tables. *)
From S2P Require Import Prelude GoStrings Postgres TaskSQL Iam Task TaskStore Queue Dispatch Worker Delivery AuditTrail Application Http IamHttp Platform.

Section Journey.
Context {W : Type} `{PgLaws W TaskDB} `{Jsonb} `{Collation} `{ErrorText} `{MessageJsonLaws}.
Context {J : Type} `{JsonMap J} `{RawJson} `{UuidValidate} `{TimeParse} `{Unicode}.
Variable ctx_err : Context -> W -> option LibErr.
Variable EnqueueContext : Context -> Queue.Task -> list Option -> M W unit.
Variable sent : W -> gset (string * Queue.Task).
Hypothesis exec_ctx : forall A (s : stmt TaskDB A) c w, ctx_err c (pg_exec s w).2 = ctx_err c w.
Hypothesis exec_sent : forall A (s : stmt TaskDB A) w, sent (pg_exec s w).2 = sent w.
Hypothesis jsonb_json : forall raw text, jsonb_in raw = Some text -> is_Some (json_raw text).
Hypothesis enqueue_accepts : forall ctx t options w, healthy ctx_err w -> exists w',
  EnqueueContext ctx t options w = (Ok tt, w') /\ pg_tables w' = pg_tables w /\ healthy ctx_err w' /\ sent w ⊆ sent w' /\
  forall id, TaskID id ∈ options -> (id, t) ∈ sent w'.

(** What is done beside the tasks: it leaves the server up, and neither
    touches their tables nor takes a task back. *)
Definition aside (w w' : W) : Prop :=
  (healthy ctx_err w -> healthy ctx_err w') /\ pg_tables w' = pg_tables w /\ sent w ⊆ sent w'.
#[local] Instance aside_preorder : PreOrder aside.
Proof.
  split; [by intros w|]. intros w1 w2 w3 (Ha1 & Et1 & Hs1) (Ha2 & Et2 & Hs2). split_and!; [auto|congruence|by etransitivity].
Qed.

Lemma submitted_aside s ex w w' : aside w w' -> submitted ctx_err sent s ex w -> submitted ctx_err sent s ex w'.
Proof.
  intros (Hh & Ht & Hs) (Hw & Hwf & id & e & Hid & Hrow & Hout). unfold submitted. rewrite Ht. split_and!; [auto|done|].
  exists id, e. split_and!; [done|done|]. destruct Hout as [Hwaits|(m & Hm & Henq)].
  - left. unfold waits. by rewrite Ht.
  - right. exists m. split; [done|]. by eapply enqueued_mono.
Qed.

Variable deps : PlatformRoutes W J.
Variable runtimeTaskCatalog : catalog.

(** The metrics and the audit trail of the routes. *)
Record routes_aside : Prop := {
  ra_observer : forall f, pr_TaskObserver deps = Some f -> forall t st d, within aside (f t st d);
  ra_recorder : forall f, pr_Recorder deps = Some f -> forall ctx e primary, within aside (f ctx e primary);
}.

Lemma submit_error_status err : HTTPStatus (From (submit_error err)) <> 202.
Proof. unfold submit_error. by repeat case_match. Qed.

Lemma WriteError_not_202 e (x : W * list wop) r w' ops' :
  HTTPStatus (From e) <> 202 -> x.2 = [] -> WriteError e x = (r, (w', ops')) -> status_of ops' <> 202.
Proof. destruct x as [w ops]. cbn [snd]. intros He -> E. rewrite WriteError_calls in E. injection E as _ _ <-. exact He. Qed.

Lemma call_aside (m : M W unit) (k : M (W * list wop) unit) w ops x :
  within aside m -> (call m ≫= fun _ => k) (w, ops) = (Ok tt, x) -> exists w', aside w w' /\ k (w', ops) = (Ok tt, x).
Proof.
  intros Hm E. rewrite M_bind_run in E. unfold call, on_fst in E. cbn [fst snd] in E. specialize (Hm w).
  destruct (m w) as [[a|e|] w']; try discriminate E. by exists w'.
Qed.

Lemma ignore_aside {A} (m : M W A) : within aside m -> within aside (ignore m).
Proof. intros Hm w. rewrite ignore_run. apply Hm. Qed.

(** An answer of 202 is that of a submission which was accepted. *)
Lemma submitTask_accepted r w w1 ops :
  routes_aside -> submitTask deps runtimeTaskCatalog r (w, []) = (Ok tt, (w1, ops)) -> status_of ops = 202 ->
  exists body s ex w0, req_Body r ≫= DecodeJSON (A := SubmitBody) (2 ^ 20) = Some body /\
    Platform.submission_of deps runtimeTaskCatalog body = (s, []) /\
    pr_Submit deps (req_Context r) s w = (Ok ex, w0) /\ aside w0 w1 /\
    (response ops).2 = [WriteBody (mkEnvelope 202 "success" (VExecution ex))].
Proof.
  intros [Hobs Hrec]. unfold submitTask. destruct (req_Body r ≫= _) as [body|]; [|intros E Hst; by eapply WriteError_not_202 in E].
  destruct (Platform.submission_of deps runtimeTaskCatalog body) as [s errs] eqn:Es.
  destruct errs; [|intros E Hst; by eapply WriteError_not_202 in E].
  intros (a & [w0 ops0] & E0 & E)%M_bind_Ok_inv Hst. unfold try, call, on_fst in E0. cbn [fst snd] in E0.
  apply call_aside in E as (w2 & Ha2 & E).
  2: { destruct (pr_TaskObserver deps) as [f|]; [|apply within_ret, _]. by apply ignore_aside, Hobs. }
  apply call_aside in E as (w3 & Ha3 & E).
  2: { unfold audit. destruct (pr_Recorder deps) as [f|]; [|apply within_ret, _]. by apply ignore_aside, Hrec. }
  destruct (pr_Submit deps (req_Context r) s w) as [answer w4] eqn:Esub. destruct answer as [ex|e|]; [| |discriminate E0]; injection E0 as <- <- <-.
  - exists body, s, ex, w4. injection E as <- <-. split_and!; [done|done|done|by etransitivity|done].
  - by eapply (WriteError_not_202 _ (w3, [])) in E; [|apply submit_error_status|].
Qed.

(** The worker: its registry is the one built from the catalog. *)
Record worker_runs (ctx : Context) (p : Processor W) (c : TaskCatalog (Task.Handler W)) : Prop := {
  wk_detached : forall d w, ctx_err (Detached d) w = None;
  wk_store : proc_store p = PostgresExecutionStore ctx_err;
  wk_now : calm ctx_err ctx (proc_now p);
  wk_observe : forall t s d, calm ctx_err ctx (observe p t s d);
  wk_registry : newTaskRegistry (Some c) = Ok (proc_registry p);
}.

(** A handler that succeeds on the payload of a submission. *)
Definition succeeds (ctx : Context) (h : Task.Handler W) (s : Submission) (result : string -> Task.Result) : Prop :=
  forall payload, delivered s payload -> 0 <= result_ProcessedRows (result payload) /\
    forall w, pg_up w -> ctx_err ctx w = None -> exists w',
      h ctx payload w = (Ok (result payload), w') /\ pg_tables w' = pg_tables w /\ pg_up w' /\ ctx_err ctx w' = None.

(** The types the API accepts are those the worker has a handler for. *)
Lemma catalog_serves ctx p rs c s result :
  NewTaskCatalog rs = Ok c -> worker_runs ctx p c -> Contains (Some c) (sub_TaskType s) = true ->
  (forall h, proc_registry p !! sub_TaskType s = Some (Some h) -> succeeds ctx h s result) ->
  serves ctx_err ctx p s result.
Proof.
  intros Hc [Hd Hs Hn Ho Hreg] Hin Hh. destruct (catalog_registers rs c Hc) as (_ & _ & registry & Er & Hres).
  rewrite Hreg in Er. injection Er as <-. destruct (Hres (sub_TaskType s)) as (_ & Hiff & _). apply Hiff in Hin as [h Eh].
  assert (proc_registry p !! sub_TaskType s = Some (Some h)) as El
    by (unfold Resolve in Eh; destruct (proc_registry p !! sub_TaskType s); congruence).
  split; try done. exists h. split; [done|]. by apply Hh.
Qed.

End Journey.

(** ** A request to the catalog of the repository, behind a backlog of two *)
Module Example.
#[local] Existing Instances Queue.Example.jsonb Queue.Example.collation Queue.Example.error_text
  Queue.Example.message_json Queue.Example.message_json_laws.
Definition World : Type := Dispatch.Example.World.
Definition no_ctx (_ : Context) (_ : World) : option LibErr := None.
(** The payload of a test task: three rows, no failure. *)
Definition test_payload (_ : string) : res (Z * bool) := Ok (3, false).
Definition test_handler : Task.Handler World := SystemTestHandler_Handle no_ctx test_payload.
Definition runtime_catalog : TaskCatalog (Task.Handler World) :=
  mkCatalog [mkRegistration SystemTestTaskType (Some test_handler)] {[ SystemTestTaskType ]}.
Definition tasks : catalog := mkTaskCatalog (Contains (Some runtime_catalog)) (RuntimeTaskTypes runtime_catalog).

(** A body of one text, read as a submission of the test task. *)
Definition body : SubmitBody := mkSubmitBody "" "system.test" "{}" "" "" "60" "" "".
#[export] Instance raw : RawJson := {|
  submit_body text := if String.eqb text "task" then Some (body, "") else None;
  raw_string s := Some s; raw_int _ := Some 60; raw_object s := HasPrefix s "{" |}.
#[export] Instance any_uuid : UuidValidate := fun _ => true.

Definition nothing {A} : M World A := throw (EText "none").
(** A server that cannot publish itself, observes the task and records an
    event that fails. *)
Definition service : SubmissionService World := mkSubmissionService (PostgresExecutionStore no_ctx) None (mret "job-3") (mret 0).
Definition deps : PlatformRoutes World unit :=
  mkPlatformRoutes World unit (fun A c ctx => nothing) (fun raw => nothing) (fun ctx q => nothing) (fun _ s => Submit service Caller s)
    (fun ctx id => nothing) (fun ctx q => nothing) (Some (fun ctx e primary => nothing)) (Some (fun t st d => mret tt)) (Some tasks).
Definition request : Request :=
  mkRequest "POST" "/api/v1/task-executions" (fun _ => "") (fun _ => "") (fun _ => None) "192.0.2.1:4242" (Some "task") (fun _ => "") Background.
Definition exchange : res unit * (World * list wop) := submitTask deps tasks request (Dispatch.Example.backlog, []).
Definition registry : Registry (Task.Handler World) :=
  match newTaskRegistry (Some runtime_catalog) with Ok r => r | _ => NewRegistry end.
Definition processor : Processor World := mkProcessor (PostgresExecutionStore no_ctx) registry (mret 5000) None.

Lemma runtime_catalog_built : runtimeTaskCatalog no_ctx test_payload = Ok runtime_catalog.
Proof. reflexivity. Qed.

Lemma calm_mret {A} (a : A) : calm no_ctx Caller (mret a).
Proof. intros w. exists a, w. auto. Qed.

Lemma processor_runs : worker_runs no_ctx Caller processor runtime_catalog.
Proof. split; [done|done|apply calm_mret|intros; apply calm_mret|vm_compute; reflexivity]. Qed.

Lemma deps_aside : routes_aside no_ctx (fun w => w.2) deps.
Proof. by split; intros f [= <-] a b c w; split_and!. Qed.

Lemma posting_registered t h : proc_registry processor !! t = Some (Some h) -> h = test_handler.
Proof.
  intros E. change ((<["system.test" := Some test_handler]> (∅ : gmap string (option (Task.Handler World)))) !! t = Some (Some h)) in E.
  apply lookup_insert_Some in E as [[_ E]|[_ E]]; [by injection E|]. by rewrite lookup_empty in E.
Qed.

Lemma posting_service_ok : service_ok no_ctx Dispatch.Example.enqueue (fun w => w.2) Queue.Example.publisher service.
Proof. split; [done|by left|]. by intros w id w' Hw [= <- <-]. Qed.

Lemma exchange_run : exchange.1 = Ok tt ->
  submitTask deps tasks request (Dispatch.Example.backlog, []) = (Ok tt, (exchange.2.1, exchange.2.2)).
Proof. unfold exchange. generalize (submitTask deps tasks request (Dispatch.Example.backlog, [])). intros [r [w ops]]. cbn. by intros ->. Qed.

Lemma exchange_ok : exchange.1 = Ok tt.
Proof. vm_compute. reflexivity. Qed.
Lemma exchange_status : status_of exchange.2.2 = 202.
Proof. vm_compute. reflexivity. Qed.
Lemma exchange_backlog : length (waiting (pg_tables exchange.2.1)) = 3%nat.
Proof. vm_compute. reflexivity. Qed.

Lemma handler_succeeds s : succeeds no_ctx Caller test_handler s (fun _ => mkResult 3).
Proof. intros payload _. split; [done|]. intros w Hup Hc. exists w. by split_and!. Qed.
End Example.
Import Example.
#[local] Opaque exchange.
#[local] Existing Instances Queue.Example.jsonb Queue.Example.collation Queue.Example.error_text
  Queue.Example.message_json Queue.Example.message_json_laws.

