(* ===== verification/Runtime.v ===== *)
(** * Building and running the processes
    ([internal/app/tasks.go], [internal/app/api.go], [internal/app/run.go],
    [internal/app/migrate.go], [pkg/logging])

    What a process opens before it runs, and what it releases when the build
    fails or when it is shut down.  The drivers, the broker and the servers are
    parameters: a client is a handle the world keeps open, and [held] is the
    set of them.  The worker installs the processor of [Task] behind the
    handlers of [Queue] and [Scheduling]; the API serves the handler of [Api].
    The file also holds the identifiers, the log levels and the commands. *)
From stdpp Require Import propset.
From S2P Require Import Prelude GoStrings Postgres Task Queue Dispatch Lifecycle Pool Cache Scheduling AuditTrail Iam Admin Config.

Import Lifecycle.Stack.

(** ** Identifiers *)

(** The bytes with the version and the variant of a random UUID.
    @src internal/app/tasks.go:331-332 (newUUID) version *)
Definition masked (keep set_ : Z) (a : ascii) : ascii := of_code (Z.lor (Z.land (code a) keep) set_).
Definition stamp (value : list ascii) : list ascii := alter (masked 0x3f 0x80) 8%nat (alter (masked 0x0f 0x40) 6%nat value).

(** [rand] fills the sixteen bytes, or fails; [now] is the text of the time.
    @src internal/app/tasks.go:326-335 newUUID *)
Definition newUUID {W} (rand : M W string) (now : M W string) : M W string :=
  r ← try rand;
  match r with
  | Ok value => mret (of_bytes (format_bytes (hex_encode (stamp (bytes value)))))
  | _ => text ← now; mret (hex_EncodeToString text)
  end.

Lemma length_stamp l : length (stamp l) = length l.
Proof. unfold stamp. by rewrite !length_alter. Qed.

Lemma masked_bits keep set_ a i : 0 <= keep < 256 -> 0 <= set_ < 256 -> 0 <= i ->
  Z.testbit (code (masked keep set_ a)) i = (Z.testbit (code a) i && Z.testbit keep i) || Z.testbit set_ i.
Proof.
  intros Hk Hs Hi. unfold masked. rewrite code_of_code; [by rewrite Z.lor_spec, Z.land_spec|].
  assert (forall z, 0 <= z < 256 <-> 0 <= z /\ Z.shiftr z 8 = 0) as Hr.
  { intros z. rewrite Z.shiftr_div_pow2 by lia. change (2 ^ 8) with 256. split; intros; split; try lia.
    - by apply Z.div_small.
    - pose proof (Z.div_mod z 256). pose proof (Z.mod_pos_bound z 256). lia. }
  rewrite Hr, Z.lor_nonneg, Z.land_nonneg, Z.shiftr_lor, Z.shiftr_land. split; [lia|].
  rewrite (proj2 (proj1 (Hr keep) Hk)), (proj2 (proj1 (Hr set_) Hs)), Z.land_0_r. done.
Qed.

(** Identifiers are random UUIDs.  When sixteen random bytes are there the
    identifier is their hexadecimal text with dashes, which decodes to the
    bytes drawn with only the six bits of the version and the variant set; so
    two identifiers are equal exactly when the draws agree on the other 122
    bits. *)
Theorem newUUID_random {W} (rand now : M W string) (w w' : W) (value : string) :
  rand w = (Ok value, w') -> len value = 16 ->
  exists id, newUUID rand now w = (Ok id, w') /\ len id = 36 /\
    hex_decode (remove_dashes (bytes id)) = Some (stamp (bytes value)) /\
    (forall n a, bytes value !! n = Some a -> exists b, stamp (bytes value) !! n = Some b /\
       forall i, 0 <= i < 8 -> Z.testbit (code b) i =
         if bool_decide (n = 6%nat /\ 4 <= i) then (i =? 6) else if bool_decide (n = 8%nat /\ 6 <= i) then (i =? 7) else Z.testbit (code a) i).
Proof.
  intros E Hl. rewrite len_bytes in Hl. assert (length (hex_encode (stamp (bytes value))) = 32%nat) as Hh
    by (rewrite length_hex_encode, length_stamp; lia).
  eexists. split; [unfold newUUID; by rewrite M_bind_run, (try_run _ _ _ _ E)|]. rewrite bytes_of_bytes.
  split_and!.
  - rewrite len_bytes, bytes_of_bytes. unfold format_bytes, slice. rewrite !length_app. simpl. rewrite !length_app. simpl. rewrite !length_app. simpl.
    rewrite !length_app. simpl. rewrite !length_take, !length_drop, Hh. done.
  - rewrite remove_dashes_format by (done || apply hex_encode_no_dash). apply hex_decode_encode.
  - intros n a Ha. unfold stamp.
    destruct (decide (n = 8%nat)) as [->|H8]; [|destruct (decide (n = 6%nat)) as [->|H6]].
    + rewrite list_lookup_alter, list_lookup_alter_ne, Ha by done. eexists. split; [done|]. intros i Hi.
      rewrite masked_bits by lia. assert (i ∈ [0;1;2;3;4;5;6;7]) as Hin by (rewrite !elem_of_cons; lia).
      repeat (apply elem_of_cons in Hin as [->|Hin]; [simpl; by rewrite ?andb_true_r, ?orb_false_r, ?andb_false_r, ?orb_true_r|]). by apply elem_of_nil in Hin.
    + rewrite list_lookup_alter_ne, list_lookup_alter, Ha by done. eexists. split; [done|]. intros i Hi.
      rewrite masked_bits by lia. assert (i ∈ [0;1;2;3;4;5;6;7]) as Hin by (rewrite !elem_of_cons; lia).
      repeat (apply elem_of_cons in Hin as [->|Hin]; [simpl; by rewrite ?andb_true_r, ?orb_false_r, ?andb_false_r, ?orb_true_r|]). by apply elem_of_nil in Hin.
    + rewrite !list_lookup_alter_ne by done. exists a. split; [done|]. intros i Hi. rewrite !bool_decide_eq_false_2 by naive_solver. done.
Qed.

Lemma newUUID_random_witness :
  newUUID (mret "0123456789abcdef") (mret "now") tt = (Ok "30313233-3435-4637-b839-616263646566", tt).
Proof.
  destruct (newUUID_random (mret "0123456789abcdef") (mret "now") tt tt "0123456789abcdef" eq_refl eq_refl) as (id & E & _).
  rewrite E. assert (newUUID (mret "0123456789abcdef") (mret "now") tt = (Ok "30313233-3435-4637-b839-616263646566", tt)) as E'
    by (vm_compute; reflexivity). rewrite E in E'. exact E'.
Defined.

(** ** Logging *)

(** [slog.Level] *)
Inductive Level := LevelDebug | LevelInfo | LevelWarn | LevelError.

(** @src pkg/logging/logging.go:16-29 ParseLevel *)
Definition ParseLevel (value : string) : res Level :=
  if String.eqb value "debug" then Ok LevelDebug
  else if String.eqb value "info" then Ok LevelInfo
  else if String.eqb value "warn" then Ok LevelWarn
  else if String.eqb value "error" then Ok LevelError
  else Err (EText ("unknown log level " +:+ value)).

(** ** What the processes are made of *)

(** @src internal/app/tasks.go:296-296 (openTaskDependencies) options *)
Record RedisOptions (Pool : Type) := mkRedisOptions {
  ro_Addr : string; ro_Password : string; ro_DB : Z; ro_TLSConfig : option (Tls.TLSConfig Pool) }.
Arguments mkRedisOptions {Pool}.

(** The clients of Redis, and the servers: the broker's worker server and its
    scheduler, and the HTTP servers.  [W] is the world, [P] the pools, [C] the
    Redis clients, [K] the certificate pools. *)
Class Redis (W C K : Type) := {
  redis_NewClient : RedisOptions K -> M W C;
  redis_Ping : C -> M W unit;
  redis_Close : C -> M W unit;
}.

(** @src internal/app/tasks.go:168-178 newWorkerMetricsServer *)
Record HttpServer (H : Type) := mkHttpServer {
  hs_Addr : string; hs_Handler : H; hs_ReadHeaderTimeout : Z; hs_ReadTimeout : Z; hs_WriteTimeout : Z; hs_IdleTimeout : Z;
  hs_MaxHeaderBytes : Z }.
Arguments mkHttpServer {H}.

(** @src internal/app/tasks.go:143-143 (BuildWorker) server settings *)
Record WorkerSettings := mkWorkerSettings { ws_Concurrency : Z; ws_Queues : list (string * Z); ws_ShutdownTimeout : Z }.

Class Servers (W C K H : Type) := {
  Server : Type;
  server_New : C -> WorkerSettings -> Server;
  server_Shutdown : Server -> M W unit;
  AsynqScheduler : Type;
  scheduler_New : RedisOptions K -> M W AsynqScheduler;
  scheduler_Shutdown : AsynqScheduler -> M W unit;
  http_Shutdown : HttpServer H -> M W unit;
}.

Section Build.
Context {W P C K H : Type} `{Pool.Driver W P} `{Pool.SchemeParser} `{Tls.Certificates W K} `{Redis W C K} `{!Servers W C K H}.

(** @src internal/app/tasks.go:287-287 (openTaskDependencies) database *)
Definition database_config (cfg : Config) : Pool.Config :=
  Pool.mkConfig (c_DatabaseURL cfg) (c_DatabaseMinConns cfg) (c_DatabaseMaxConns cfg) 0 0 (30 * Second).
Definition redis_options (cfg : Config) (tls : option (Tls.TLSConfig K)) : RedisOptions K :=
  mkRedisOptions (c_RedisAddr cfg) (c_RedisPassword cfg) (c_RedisDB cfg) tls.
Definition redis_tls (cfg : Config) : M W (option (Tls.TLSConfig K)) :=
  Tls.NewTLSConfig (c_RedisTLS cfg) (c_RedisTLSServerName cfg) (c_RedisTLSCAFile cfg).

(** @src internal/app/tasks.go:286-303 openTaskDependencies *)
Definition openTaskDependencies (cfg : Config) : M W (P * C) :=
  pool ← Pool.Open (database_config cfg);
  r ← try (redis_tls cfg);
  match r with
  | Ok tls =>
      client ← redis_NewClient (redis_options cfg tls);
      pinged ← try (redis_Ping client);
      match pinged with
      | Err err => _ ← Pool.drv_Close pool; _ ← ignore (redis_Close client); throw err
      | _ => mret (pool, client)
      end
  | Err err => _ ← Pool.drv_Close pool; throw err
  | Panic => panic
  end.

(** A build that fails closes its stack; [closeBuildResources] always
    throws. *)
Definition fail_build {A} (resources : Stack W) (err : error) : M W A := _ ← closeBuildResources (Some resources) err; throw err.

(** *** The worker *)

(** @src internal/app/tasks.go:168-178 newWorkerMetricsServer *)
Definition newWorkerMetricsServer (cfg : Config) (handler : H) : HttpServer H :=
  mkHttpServer (c_WorkerMetricsAddr cfg) handler (5 * Second) (10 * Second) (10 * Second) (30 * Second) (Z.shiftl 1 16).

(** What the process is given: its catalog, its metrics, the stores that sit
    on the pool, the broker's client that sits on Redis, the clock and the
    identifiers. *)
Context `{ErrorText} `{MessageJson} `{SubmissionJson}.
Variables (catalog : option (TaskCatalog (Handler W))) (metrics : H) (observer : string -> string -> Z -> M W unit).
Variables (ctx_err : Context -> W -> option LibErr) (now : M W Z) (new_id : M W string).
Variables (execution_store : P -> ExecutionStore W) (outbox_store : P -> OutboxStore W).
Variable enqueue : C -> Context -> Queue.Task -> list Option -> M W unit.

(** [NewPostgresExecutionStore]: a store that also is an outbox. *)
Definition task_store (pool : P) : ExecutionStore W :=
  let store := execution_store pool in
  mkExecutionStore W (CreateExecution store) (GetExecution store) (ClaimExecution store) (UpdateExecution store) (Some (outbox_store pool)).

(** The parts on the two clients: the processor of tasks with the handler of
    its failures, the publisher, the dispatcher of the outbox, and the handler
    of schedules.
    @src internal/app/tasks.go:134-142 (BuildWorker) processor to dispatcher *)
Definition worker_processor (pool : P) (registry : Registry (Handler W)) : QProcessor W :=
  as_QProcessor ctx_err (mkProcessor (task_store pool) registry now (Some observer)).
Definition worker_publisher (client : C) (queue : string) : Publisher W := Publish (enqueue client) (mkAsynqPublisher queue).
Definition worker_outbox (pool : P) (client : C) (queue : string) : Context -> Z -> M W unit :=
  DispatchPending (mkOutboxDispatcher (ListPendingPublishes (outbox_store pool)) (MarkPublishSucceeded (outbox_store pool))
    (worker_publisher client queue)).
Definition worker_dispatcher (pool : P) (client : C) (queue : string) : Handler W :=
  ScheduledSubmissionHandler_Handle json_unmarshal_submission
    (mkSubmissionService (task_store pool) (Some (worker_publisher client queue)) new_id now).

(** A delivery carries its retry count and its limit in its context. *)
Record delivery := mkDelivery { dl_retryCount : option Z; dl_maxRetry : option Z; dl_Context : Context; dl_Task : Queue.Task }.
Definition worker_handler (pool : P) (registry : Registry (Handler W)) (d : delivery) : M W unit :=
  ProcessTask (dl_retryCount d) (worker_processor pool registry) (dl_Context d) (dl_Task d).
Definition worker_failures (pool : P) (registry : Registry (Handler W)) (d : delivery) (err : error) : M W unit :=
  HandleError (dl_retryCount d) (dl_maxRetry d) (worker_processor pool registry) (dl_Context d) (dl_Task d) err.
Definition worker_schedules (pool : P) (client : C) (queue : string) (d : delivery) : M W unit :=
  scheduledAsynqHandler (worker_dispatcher pool client queue) (dl_Context d) (dl_Task d).

(** @src internal/app/tasks.go:29-39 workerRuntime *)
Record workerRuntime := mkWorkerRuntime {
  wr_server : Server; wr_failures : delivery -> error -> M W unit; wr_mux : list (string * (delivery -> M W unit)); wr_pool : option P; wr_redis : option C;
  wr_metrics : option (HttpServer H); wr_outbox : Context -> Z -> M W unit; wr_outboxInterval : Z; wr_resources : option (Stack W) }.

(** The handlers the multiplexer is given.
    @src internal/app/tasks.go:150-154 (BuildWorker) mux *)
Definition worker_mux (handle dispatch : delivery -> M W unit) : list (string * (delivery -> M W unit)) :=
  map (fun taskType => (taskType, handle)) (Types catalog) ++ [(ScheduledDispatchTaskType, dispatch)].

(** @src internal/app/tasks.go:117-166 BuildWorker *)
Definition BuildWorker (cfg : Config) : M W workerRuntime :=
  '(pool, redisClient) ← openTaskDependencies cfg;
  let resources := app_Add (Closes (redis_Close redisClient)) (app_Add (Closes (Pool.drv_Close pool)) NewStack) in
  match newTaskRegistry catalog with
  | Ok registry =>
      let server := server_New redisClient
        (mkWorkerSettings (c_AsynqConcurrency cfg) [(c_AsynqQueue cfg, 1)] (c_ShutdownTimeout cfg)) in
      let metricsServer := newWorkerMetricsServer cfg metrics in
      let resources := app_Add (Closes (server_Shutdown server)) (app_Add (Closes (http_Shutdown metricsServer)) resources) in
      mret (mkWorkerRuntime server (worker_failures pool registry)
        (worker_mux (worker_handler pool registry) (worker_schedules pool redisClient (c_AsynqQueue cfg)))
        (Some pool) (Some redisClient) (Some metricsServer) (worker_outbox pool redisClient (c_AsynqQueue cfg))
        outboxDispatchInterval (Some resources))
  | Err err => fail_build resources err
  | Panic => panic
  end.

(** Joining the results of releases. *)
Definition joining (acc : option error) (m : M W unit) : M W (option error) :=
  r ← try m; mret (errors_join acc (match r with Err e => Some e | _ => None end)).
Definition release_option {A} (acc : option error) (a : option A) (f : A -> M W unit) : M W (option error) :=
  match a with Some a => joining acc (f a) | None => mret acc end.
Definition close_pool (pool : option P) : M W unit := match pool with Some p => Pool.drv_Close p | None => mret tt end.

(** @src internal/app/tasks.go:99-115 Shutdown *)
Definition workerRuntime_Shutdown (r : workerRuntime) : M W unit :=
  match wr_resources r with
  | Some resources => (app_Close resources).2
  | None =>
      _ ← server_Shutdown (wr_server r);
      err ← release_option None (wr_metrics r) http_Shutdown;
      err ← release_option err (wr_redis r) redis_Close;
      _ ← close_pool (wr_pool r);
      of_option_error err
  end.

(** The first of the three events of the [select]; a server that was shut down
    returns nil.
    @src internal/app/tasks.go:51-74 Run *)
Inductive first_event := ContextDone | ServerReturned (err : option error) | MetricsReturned (err : option error).
Variable ErrServerClosed : error -> bool.
Definition served (err : option error) : option error :=
  match err with Some e => if ErrServerClosed e then None else Some e | None => None end.
Definition workerRuntime_Run (first : first_event) : option error :=
  match first with ContextDone => None | ServerReturned err => err | MetricsReturned err => served err end.

(** *** The API *)

(** @src internal/app/api.go:173-183 newHTTPServer *)
Definition newHTTPServer (cfg : Config) (handler : H) : HttpServer H :=
  mkHttpServer (c_HTTPAddr cfg) handler (5 * Second) (15 * Second) (30 * Second) (60 * Second) (Z.shiftl 1 20).

(** @src internal/app/api.go:77-82 apiRuntime *)
Record apiRuntime := mkApiRuntime {
  ar_server : option (HttpServer H); ar_pool : option P; ar_redis : option C; ar_resources : option (Stack W) }.

(** @src internal/app/api.go:84-90 Run *)
Definition apiRuntime_Run (listened : option error) : option error := served listened.

(** @src internal/app/api.go:91-106 Shutdown *)
Definition apiRuntime_Shutdown (r : apiRuntime) : M W unit :=
  match ar_resources r with
  | Some resources => (app_Close resources).2
  | None =>
      err ← release_option None (ar_server r) http_Shutdown;
      err ← release_option err (ar_redis r) redis_Close;
      _ ← close_pool (ar_pool r);
      of_option_error err
  end.

(** [assemble] is [Api.BuildAPI], which makes the handler out of the
    configuration once the two clients are open.
    @src internal/app/api.go:108-171 (BuildAPI) resources *)
Definition build_api (validateAPI : Config -> option error) (assemble : P -> C -> Config -> res H) (cfg : Config) : M W apiRuntime :=
  match validateAPI cfg with
  | Some err => throw err
  | None =>
      pool ← Pool.Open (database_config cfg);
      let resources := app_Add (Closes (Pool.drv_Close pool)) NewStack in
      r ← try (redis_tls cfg);
      match r with
      | Err err => fail_build resources err
      | Panic => panic
      | Ok tls =>
          redisClient ← redis_NewClient (redis_options cfg tls);
          let resources := app_Add (Closes (redis_Close redisClient)) resources in
          pinged ← try (redis_Ping redisClient);
          match pinged, assemble pool redisClient cfg with
          | Err err, _ => fail_build resources err
          | _, Err err => fail_build resources err
          | _, Panic => panic
          | _, Ok handler =>
              let server := newHTTPServer cfg handler in
              let resources := app_Add (Closes (http_Shutdown server)) resources in
              mret (mkApiRuntime (Some server) (Some pool) (Some redisClient) (Some resources))
          end
      end
  end.

(** *** The scheduler *)

(** @src internal/app/tasks.go:273-284 newAsynqScheduler *)
Definition newAsynqScheduler (cfg : Config) : M W AsynqScheduler :=
  redisTLS ← redis_tls cfg; scheduler_New (redis_options cfg redisTLS).

(** @src internal/app/tasks.go:180-188 schedulerRuntime *)
Record schedulerRuntime := mkSchedulerRuntime {
  sr_scheduler : AsynqScheduler; sr_interval : Z; sr_pool : option P; sr_redis : option C; sr_resources : option (Stack W) }.

(** @src internal/app/tasks.go:246-271 BuildScheduler *)
Definition BuildScheduler (cfg : Config) : M W schedulerRuntime :=
  pool ← Pool.Open (database_config cfg);
  let resources := app_Add (Closes (Pool.drv_Close pool)) NewStack in
  r ← try (newAsynqScheduler cfg);
  match r with
  | Err err => fail_build resources err
  | Panic => panic
  | Ok scheduler =>
      let resources := app_Add (Closes (scheduler_Shutdown scheduler)) resources in
      mret (mkSchedulerRuntime scheduler (c_SchedulerRefreshInterval cfg) (Some pool) None (Some resources))
  end.

(** @src internal/app/tasks.go:231-244 Shutdown *)
Definition schedulerRuntime_Shutdown (r : schedulerRuntime) : M W unit :=
  match sr_resources r with
  | Some resources => (app_Close resources).2
  | None =>
      _ ← scheduler_Shutdown (sr_scheduler r);
      err ← release_option None (sr_redis r) redis_Close;
      _ ← close_pool (sr_pool r);
      of_option_error err
  end.
End Build.

(** *** Seeding the administrator *)
Section Seed.
Context {W P : Type} `{Pool.Driver W P} `{Pool.SchemeParser} `{Unicode} `{MailParser} `{DurationParser} `{UrlParser}.
(** [seed] is [Admin.SeedBootstrapAdmin] on the pool. *)
Variable seed : P -> AdminBootstrap -> M W unit.

(** A deferred call runs whatever the outcome is. *)
Definition deferred {A} (m : M W A) (last : M W unit) : M W A := fun w =>
  let '(r, w) := m w in let '(_, w) := last w in (r, w).

(** @src cmd/seed-admin/main.go:27-55 run *)
Definition seed_admin (env : gmap string string) : M W unit :=
  cfg ← wrap "load configuration" (of_res (Load env));
  _ ← wrap "validate administrator bootstrap" (of_option_error (ValidateAdminBootstrap cfg));
  _ ← wrap "configure logging" (of_res (ParseLevel (c_LogLevel cfg)));
  pool ← wrap "open database" (Pool.Open (database_config cfg));
  deferred (seed pool (mkAdminBootstrap (c_AdminEmail cfg) (c_AdminUsername cfg) (c_AdminPassword cfg))) (Pool.drv_Close pool).
End Seed.

(** ** What a build leaves open *)
Section Resources.
Context {W P C K H : Type} `{Pool.Driver W P} `{Pool.SchemeParser} `{Tls.Certificates W K} `{Redis W C K} `{!Servers W C K H}.

(** What the processes open: pools and Redis clients. *)
Inductive handle := HPool (p : P) | HRedis (c : C).
Variable held : W -> propset handle.

(** An action that opens nothing and closes [X], and one that opens a handle
    that was not open. *)
Definition releases {A} (m : M W A) (X : propset handle) : Prop := forall w, (m w).1 <> Panic /\ held (m w).2 ≡ held w ∖ X.
Definition opens {A} (m : M W A) (h : A -> handle) : Prop := forall w,
  match m w with
  | (Ok a, w') => h a ∉ held w /\ held w' ≡ {[h a]} ∪ held w
  | (Err _, w') => held w' ≡ held w
  | (Panic, _) => False
  end.
Abbreviation frame m := (releases m ∅).

(** The drivers and the servers open and close what they say they do, and do
    not panic. *)
Class ResourceLaws := {
  parse_ok : forall url, Pool.drv_ParseConfig url <> Panic;
  pool_opens : forall pc, opens (Pool.drv_NewWithConfig pc) HPool;
  pool_pings : forall p, frame (Pool.drv_Ping p);
  pool_closes : forall p, releases (Pool.drv_Close p) {[HPool p]} /\ forall w, (Pool.drv_Close p w).1 = Ok tt;
  redis_opens : forall o w, exists c w', redis_NewClient o w = (Ok c, w') /\ (HRedis c ∉ held w) /\ held w' ≡ {[HRedis c]} ∪ held w;
  redis_pings : forall c, frame (redis_Ping c);
  redis_closes : forall c, releases (redis_Close c) {[HRedis c]};
  file_reads : forall f, frame (Tls.os_ReadFile f);
  certificates_read : frame Tls.SystemCertPool;
  server_stops : forall s, frame (server_Shutdown s);
  scheduler_makes : forall o, frame (scheduler_New o);
  scheduler_stops : forall s, frame (scheduler_Shutdown s);
  http_stops : forall s, frame (http_Shutdown s);
}.
Context `{!ResourceLaws}.

(** A stack whose closers close [X]. *)
Definition tracks (s : Stack W) (X : propset handle) : Prop :=
  closed s = false /\ forall result w,
    (close_each result (reverse (closers s)) w).1 <> Panic /\ held (close_each result (reverse (closers s)) w).2 ≡ held w ∖ X.

Lemma tracks_new : tracks NewStack ∅.
Proof. split; [done|]. intros result w. simpl. split; [by destruct result|]. destruct result; set_solver. Qed.

Lemma tracks_add (m : M W unit) X s Y : releases m X -> tracks s Y -> tracks (app_Add (Closes m) s) (X ∪ Y).
Proof.
  intros Hm [Hc Ht]. unfold app_Add. rewrite Hc. split; [done|]. intros result w. simpl. rewrite reverse_app. simpl.
  destruct (Hm w) as [Hp Hh]. destruct (m w) as [[[]|e|] w1]; simpl in *; [| |done].
  - destruct (Ht (errors_join result None) w1) as [Hp' Hh']. split; [done|]. rewrite Hh', Hh. set_solver.
  - destruct (Ht (errors_join result (Some e)) w1) as [Hp' Hh']. split; [done|]. rewrite Hh', Hh. set_solver.
Qed.

Lemma tracks_close s X : tracks s X -> releases (app_Close s).2 X.
Proof. intros [Hc Ht]. unfold app_Close. rewrite Hc. intros w. apply Ht. Qed.

Lemma fail_build_releases {A} s X err w : tracks s X ->
  exists e w', fail_build (A := A) s err w = (Err e, w') /\ held w' ≡ held w ∖ X.
Proof.
  intros Ht. unfold fail_build, closeBuildResources. rewrite M_bind_run. destruct (tracks_close _ _ Ht w) as [Hp Hh].
  destruct ((app_Close s).2 w) as [[[]|e|] w1]; simpl in *; [by eexists _, _|by eexists _, _|done].
Qed.

Lemma Open_opens cfg : opens (Pool.Open cfg) HPool.
Proof.
  intros w. unfold Pool.Open. destruct (Pool.Validate cfg); [done|]. rewrite M_bind_run.
  unfold wrap at 1, of_res. pose proof (parse_ok (Pool.URL cfg)) as Hparse. destruct (Pool.drv_ParseConfig _) as [d|e|]; [|done|done].
  rewrite M_bind_run. unfold wrap at 1.
  match goal with |- context [Pool.drv_NewWithConfig ?c w] => pose proof (pool_opens c w) as Ho; destruct (Pool.drv_NewWithConfig c w) as [[p|e|] w1] end; [|done|done].
  destruct Ho as [Hn Hh]. rewrite M_bind_run. unfold try. destruct (pool_pings p w1) as [Hp Hh1].
  destruct (Pool.drv_Ping p w1) as [[[]|e|] w2]; simpl in *; [|rewrite M_bind_run|done].
  - split; [done|]. rewrite Hh1, Hh. set_solver.
  - destruct (pool_closes p) as [Hc Hok]. specialize (Hok w2). destruct (Hc w2) as [_ Hh2]. destruct (Pool.drv_Close p w2) as [[[]|?|] w3]; simpl in *; try done.
    rewrite Hh2, Hh1, Hh. set_solver.
Qed.

Lemma releases_try {A} (m : M W A) : frame m -> frame (try m).
Proof. intros Hm w. destruct (Hm w) as [Hp Hh]. unfold try. by destruct (m w) as [[] ?]. Qed.

Lemma releases_bind {A B} (m : M W A) (k : A -> M W B) : frame m -> (forall a, frame (k a)) -> frame (m ≫= k).
Proof.
  intros Hm Hk w. rewrite M_bind_run. destruct (Hm w) as [Hp Hh]. destruct (m w) as [[a|e|] w1]; simpl in *; [|done|done].
  destruct (Hk a w1) as [Hp' Hh']. split; [done|]. rewrite Hh', Hh. set_solver.
Qed.

Lemma releases_ret {A} (r : res A) : r <> Panic -> frame (fun w => (r, w)).
Proof. intros Hr w. split; [done|]. simpl. set_solver. Qed.

Lemma redis_tls_frame (cfg : Config) : frame (redis_tls cfg).
Proof.
  unfold redis_tls, Tls.NewTLSConfig. repeat case_match; try (by apply releases_ret).
  apply releases_bind; [|intros encoded; apply releases_bind; [apply releases_try, certificates_read|]].
  - intros w. destruct (file_reads (c_RedisTLSCAFile cfg) w) as [Hp Hh]. unfold wrap. by destruct (Tls.os_ReadFile _ w) as [[] ?].
  - intros r. destruct (Tls.AppendCertsFromPEM _ _); by apply releases_ret.
Qed.

(** A frame in the middle of a build. *)
Lemma frame_run {A} (m : M W A) w : frame m -> exists r w', m w = (r, w') /\ r <> Panic /\ held w' ≡ held w.
Proof. intros Hm. destruct (Hm w) as [Hp Hh]. destruct (m w) as [r w']. exists r, w'. split_and!; [done|done|]. simpl in Hh. set_solver. Qed.

Lemma openTaskDependencies_opens (cfg : Config) w :
  match openTaskDependencies cfg w with
  | (Ok (p, c), w') => HPool p ∉ held w /\ HRedis c ∉ held w /\ held w' ≡ {[HPool p]} ∪ ({[HRedis c]} ∪ held w)
  | (Err _, w') => held w' ≡ held w
  | (Panic, _) => False
  end.
Proof.
  unfold openTaskDependencies. rewrite M_bind_run. pose proof (Open_opens (database_config cfg) w) as Ho.
  destruct (Pool.Open _ w) as [[p|e|] w1]; [|done|done]. destruct Ho as [Hp Ho].
  destruct (pool_closes p) as [Hclose Hok].
  rewrite M_bind_run. destruct (frame_run (redis_tls cfg) w1 (redis_tls_frame cfg)) as (r & w2 & E & Hr & Hh).
  rewrite (try_run _ _ _ _ E Hr). destruct r as [tls|e|]; [| |done].
  - rewrite M_bind_run. destruct (redis_opens (redis_options cfg tls) w2) as (c & w3 & -> & Hn & Hh3).
    destruct (frame_run (redis_Ping c) w3 (redis_pings c)) as (r & w4 & E4 & Hr4 & Hh4). rewrite M_bind_run, (try_run _ _ _ _ E4 Hr4).
    rewrite Hh, Ho in Hn. rewrite Hh, Ho in Hh3. rewrite Hh3 in Hh4. apply not_elem_of_union in Hn as [_ Hn].
    destruct r as [[]|e|]; [split_and!; [done..|rewrite Hh4; clear; set_solver]| |done].
    rewrite M_bind_run. destruct (Hclose w4) as [_ Hc]. specialize (Hok w4).
    destruct (Pool.drv_Close p w4) as [[[]|?|] w5]; try done. rewrite M_bind_run.
    destruct (redis_closes c w5) as [Hp6 Hh6]. unfold ignore. simpl in Hc. rewrite Hc, Hh4 in Hh6.
    destruct (redis_Close c w5) as [[[]|?|] w6]; simpl in *; try done; rewrite Hh6; clear -Hp Hn; set_solver.
  - rewrite M_bind_run. destruct (Hclose w2) as [_ Hc]. specialize (Hok w2). destruct (Pool.drv_Close p w2) as [[[]|?|] w3]; try done.
    simpl in *. rewrite Hc, Hh, Ho. clear -Hp; set_solver.
Qed.

(** A process that is built and shut down leaves nothing open, and neither does
    a build that fails, whatever the process opens and closes in between. *)
Definition accounts {R} (build : M W R) (shutdown : R -> M W unit) : Prop := forall w,
  match build w with
  | (Ok r, w1) => held w ⊆ held w1 /\
      forall w2, held w2 ≡ held w1 -> (shutdown r w2).1 <> Panic /\ held (shutdown r w2).2 ≡ held w
  | (Err _, w1) => held w1 ≡ held w
  | (Panic, _) => False
  end.

Lemma fail_accounts {R} (s : Stack W) X err (shutdown : R -> M W unit) w w1 :
  tracks s X -> held w1 ∖ X ≡ held w ->
  match fail_build (A := R) s err w1 with
  | (Ok r, w1) => held w ⊆ held w1 /\
      forall w2, held w2 ≡ held w1 -> (shutdown r w2).1 <> Panic /\ held (shutdown r w2).2 ≡ held w
  | (Err _, w1) => held w1 ≡ held w
  | (Panic, _) => False
  end.
Proof. intros Ht Hh. destruct (fail_build_releases (A := R) s X err w1 Ht) as (e & w' & -> & Hh'). by rewrite Hh'. Qed.

Lemma newTaskRegistry_no_panic {A} (catalog : option (TaskCatalog A)) : newTaskRegistry catalog <> Panic.
Proof.
  unfold newTaskRegistry, RegisterHandlers. destruct catalog as [c|]; [|done].
  assert (forall l r, (for_each l (fun r => Register (H := A) (reg_TaskType r) (reg_Handler r)) r).1 <> Panic) as Hl.
  { induction l as [|x l IH]; intros r; [done|]. simpl. rewrite M_bind_run. unfold Register at 1. destruct (r !! reg_TaskType x); [done|apply IH]. }
  specialize (Hl (registrations c) NewRegistry). by destruct (for_each _ _ _) as [[] ?].
Qed.

Lemma worker_build_accounts `{ErrorText} `{MessageJson} `{SubmissionJson} catalog metrics observer ctx_err now new_id es os enqueue (cfg : Config) :
  accounts (BuildWorker catalog metrics observer ctx_err now new_id es os enqueue cfg) workerRuntime_Shutdown.
Proof.
  intros w. unfold BuildWorker. rewrite M_bind_run. pose proof (openTaskDependencies_opens cfg w) as Ho.
  destruct (openTaskDependencies cfg w) as [[[p c]|e|] w1]; [|done|done]. destruct Ho as (Hp & Hc & Hh).
  pose proof (tracks_add _ _ _ _ (redis_closes c) (tracks_add _ _ _ _ (proj1 (pool_closes p)) tracks_new)) as Ht.
  pose proof (newTaskRegistry_no_panic catalog) as Hn. destruct (newTaskRegistry catalog) as [registry|e|]; [|by eapply fail_accounts; [exact Ht|rewrite Hh; clear -Hp Hc; set_solver]|done].
  split; [rewrite Hh; clear; set_solver|]. intros w2 Hh2. unfold workerRuntime_Shutdown. cbn [wr_resources].
  match goal with |- context [app_Close (app_Add (Closes (server_Shutdown ?s)) (app_Add (Closes (http_Shutdown ?h)) _))] =>
    pose proof (tracks_add _ _ _ _ (server_stops s) (tracks_add _ _ _ _ (http_stops h) Ht)) as Ht' end.
  destruct (tracks_close _ _ Ht' w2) as [Hp2 Hh3]. split; [done|]. rewrite Hh3, Hh2, Hh. clear -Hp Hc; set_solver.
Qed.

Lemma scheduler_accounts (cfg : Config) : accounts (BuildScheduler cfg) schedulerRuntime_Shutdown.
Proof.
  intros w. unfold BuildScheduler. rewrite M_bind_run. pose proof (Open_opens (database_config cfg) w) as Ho.
  destruct (Pool.Open _ w) as [[p|e|] w1]; [|done|done]. destruct Ho as [Hp Ho].
  pose proof (tracks_add _ _ _ _ (proj1 (pool_closes p)) tracks_new) as Ht. rewrite M_bind_run.
  assert (frame (newAsynqScheduler cfg)) as Hf.
  { apply releases_bind; [apply redis_tls_frame|intros tls; apply scheduler_makes]. }
  destruct (frame_run _ w1 Hf) as (r & w2 & E & Hr & Hh). rewrite (try_run _ _ _ _ E Hr).
  destruct r as [sch|e|]; [|by eapply fail_accounts; [exact Ht|rewrite Hh, Ho; clear -Hp; set_solver]|done].
  split; [rewrite Hh, Ho; clear; set_solver|]. intros w3 Hh3. unfold schedulerRuntime_Shutdown. cbn [sr_resources].
  destruct (tracks_close _ _ (tracks_add _ _ _ _ (scheduler_stops sch) Ht) w3) as [Hp3 Hh4].
  split; [done|]. rewrite Hh4, Hh3, Hh, Ho. clear -Hp; set_solver.
Qed.

Lemma api_accounts validateAPI (assemble : P -> C -> Config -> res H) (cfg : Config) : (forall p c, assemble p c cfg <> Panic) ->
  accounts (build_api validateAPI assemble cfg) apiRuntime_Shutdown.
Proof.
  intros Ha w. unfold build_api. destruct (validateAPI cfg); [done|]. rewrite M_bind_run. pose proof (Open_opens (database_config cfg) w) as Ho.
  destruct (Pool.Open _ w) as [[p|e|] w1]; [|done|done]. destruct Ho as [Hp Ho].
  pose proof (tracks_add _ _ _ _ (proj1 (pool_closes p)) tracks_new) as Ht. rewrite M_bind_run.
  destruct (frame_run _ w1 (redis_tls_frame cfg)) as (r & w2 & E & Hr & Hh). rewrite (try_run _ _ _ _ E Hr).
  destruct r as [tls|e|]; [|by eapply fail_accounts; [exact Ht|rewrite Hh, Ho; clear -Hp; set_solver]|done].
  rewrite M_bind_run. destruct (redis_opens (redis_options cfg tls) w2) as (c & w3 & -> & Hn & Hh3).
  pose proof (tracks_add _ _ _ _ (redis_closes c) Ht) as Ht2.
  destruct (frame_run (redis_Ping c) w3 (redis_pings c)) as (r & w4 & E4 & Hr4 & Hh4). rewrite M_bind_run, (try_run _ _ _ _ E4 Hr4).
  rewrite Hh, Ho in Hn. rewrite Hh, Ho in Hh3. rewrite Hh3 in Hh4. apply not_elem_of_union in Hn as [_ Hn].
  assert (held w4 ∖ ({[HRedis c]} ∪ ({[HPool p]} ∪ ∅)) ≡ held w) as Hfail by (rewrite Hh4; clear -Hp Hn; set_solver).
  specialize (Ha p c). destruct r as [[]|e|]; [|by eapply fail_accounts|done].
  destruct (assemble p c cfg) as [h|e|]; [|by eapply fail_accounts|done].
  split; [rewrite Hh4; clear; set_solver|]. intros w5 Hh5. unfold apiRuntime_Shutdown. cbn [ar_resources].
  destruct (tracks_close _ _ (tracks_add _ _ _ _ (http_stops (newHTTPServer cfg h)) Ht2) w5) as [Hp6 Hh6].
  split; [done|]. rewrite Hh6, Hh5, Hh4. clear -Hp Hn; set_solver.
Qed.

Lemma seed_accounts `{Unicode} `{MailParser} `{DurationParser} `{UrlParser} (seed : P -> AdminBootstrap -> M W unit) env w :
  (forall p input w, held (seed p input w).2 ≡ held w) -> held (seed_admin seed env w).2 ≡ held w.
Proof.
  intros Hs. unfold seed_admin. rewrite M_bind_run. unfold wrap at 1, of_res at 1. destruct (Load env) as [cfg|e|]; [|done..].
  rewrite M_bind_run. unfold wrap at 1, of_option_error. destruct (ValidateAdminBootstrap cfg); [done|].
  cbn [mret M_ret throw]. rewrite M_bind_run. unfold wrap at 1, of_res at 1. destruct (ParseLevel _) as [level|e|]; [|done..].
  rewrite M_bind_run. unfold wrap at 1. pose proof (Open_opens (database_config cfg) w) as Ho.
  destruct (Pool.Open _ w) as [[p|e|] w1]; [|done|done]. destruct Ho as [Hp Ho]. unfold deferred.
  specialize (Hs p (mkAdminBootstrap (c_AdminEmail cfg) (c_AdminUsername cfg) (c_AdminPassword cfg)) w1).
  destruct (seed p _ w1) as [r w2]. destruct (proj1 (pool_closes p) w2) as [_ Hc]. destruct (Pool.drv_Close p w2) as [r' w3].
  simpl in *. rewrite Hc, Hs, Ho. clear -Hp. set_solver.
Qed.

End Resources.


(** ** Choosing the process *)

Section Execute.
Context {W A : Type} `{Unicode} `{MailParser} `{DurationParser} `{UrlParser}.
(** The three builders, as components of [Lifecycle.Run]. *)
Variables build_api build_worker build_scheduler : Config -> M W A.

(** The component [Execute] hands to [Run], with the timeout of its shutdown.
    @src internal/app/run.go:15-40 Execute *)
Definition Execute (env : gmap string string) (role : string) : M W (Z * A) :=
  cfg ← wrap "load configuration" (of_res (Load env));
  _ ← of_res (ParseLevel (c_LogLevel cfg));
  component ←
    (if String.eqb role "api" then wrap ("build " +:+ role) (build_api cfg)
     else if String.eqb role "worker" then wrap ("build " +:+ role) (build_worker cfg)
     else if String.eqb role "scheduler" then wrap ("build " +:+ role) (build_scheduler cfg)
     else throw (EText ("unknown role " +:+ role)));
  mret (c_ShutdownTimeout cfg, component).

Definition builder (role : string) : option (Config -> M W A) :=
  if String.eqb role "api" then Some build_api
  else if String.eqb role "worker" then Some build_worker
  else if String.eqb role "scheduler" then Some build_scheduler else None.

Lemma Validate_level c : Config.Validate c = None -> level_known (c_LogLevel c) = true.
Proof.
  unfold Config.Validate. destruct (bool_decide (c_Environment c ∉ _)); [done|].
  repeat (match goal with |- (if ?b then Some _ else _) = None -> _ => destruct b eqn:?; [done|] end).
  destruct (if String.eqb (c_Environment c) "production" then _ else _); [done|].
  repeat (match goal with |- (if ?b then Some _ else _) = None -> _ => destruct b eqn:?; [done|] end).
  intros _. by destruct (level_known (c_LogLevel c)).
Qed.

Lemma ParseLevel_known value : level_known value = true -> is_ok (ParseLevel value) = true.
Proof.
  unfold level_known, ParseLevel. intros Hv%bool_decide_eq_true. rewrite !elem_of_cons in Hv.
  destruct Hv as [->|[->|[->|[->|Hv]]]]; try done. by apply elem_of_nil in Hv.
Qed.

(** A configuration that loads runs.  Once the environment is read, the log
    level is one the logger knows, an unknown role is refused before anything
    is opened, and otherwise the process fails only when its own build does;
    the component that was built is then run with a positive timeout, which
    [Run] does not refuse. *)
Theorem Execute_runs (env : gmap string string) (cfg : Config) (role : string) (w : W) :
  Load env = Ok cfg ->
  match builder role with
  | None => Execute env role w = (Err (EText ("unknown role " +:+ role)), w)
  | Some build =>
      match build cfg w with
      | (Ok component, w') => Execute env role w = (Ok (c_ShutdownTimeout cfg, component), w') /\
          Run.refuses (c_ShutdownTimeout cfg) [Some component] = None
      | (Err err, w') => Execute env role w = (Err (EWrap ("build " +:+ role) err), w')
      | (Panic, w') => Execute env role w = (Panic, w')
      end
  end.
Proof.
  intros E. unfold Execute. rewrite E. apply Load_Ok in E as [Hv _]. pose proof (ParseLevel_known _ (Validate_level _ Hv)) as Hl.
  apply Validate_None in Hv as (_ & Ht & _). rewrite M_bind_run. cbn [wrap of_res]. rewrite M_bind_run.
  destruct (ParseLevel (c_LogLevel cfg)) as [level| |]; [|done..]. cbn [of_res]. rewrite M_bind_run. unfold builder.
  assert (forall component : A, Run.refuses (c_ShutdownTimeout cfg) [Some component] = None) as Hr.
  { intros component. unfold Run.refuses. by rewrite (proj2 (Z.leb_gt _ _)) by lia. }
  repeat (match goal with |- context [String.eqb role ?x] => destruct (String.eqb role x) end);
    try reflexivity; unfold wrap; by destruct (_ cfg w) as [[] ?].
Qed.
End Execute.

(** ** Migrations *)
Section Migrate.
Context {W : Type}.
(** The migrator of [golang-migrate], and its two constructors, from the files
    and from the migrations embedded in the program.
    @src internal/app/migrate.go:15-19 migrator *)
Record migrator := mkMigrator { mg_Up : M W unit; mg_Down : M W unit; mg_Close : W -> (option error * option error) * W }.
Variables (migrate_New : string -> string -> M W migrator) (migrations_Source : M W unit) (migrate_NewWithSourceInstance : string -> M W migrator).
Variable ErrNoChange : error -> bool.

(** @src internal/app/migrate.go:20-23 migrationRuntime *)
Record migrationRuntime := mkMigrationRuntime { mr_migrator : migrator; mr_direction : string }.

(** @src internal/app/migrate.go:25-39 Run *)
Definition migrationRuntime_Run (r : migrationRuntime) : M W unit :=
  let migrate (m : M W unit) : M W unit :=
    res ← try m; match res with Err err => if ErrNoChange err then mret tt else throw err | _ => mret tt end in
  if String.eqb (mr_direction r) "" || String.eqb (mr_direction r) "up" then migrate (mg_Up (mr_migrator r))
  else if String.eqb (mr_direction r) "down" then migrate (mg_Down (mr_migrator r))
  else throw (EText ("migration direction must be up or down: " +:+ mr_direction r)).

(** @src internal/app/migrate.go:40-43 Shutdown *)
Definition migrationRuntime_Shutdown (r : migrationRuntime) : M W unit := fun w =>
  let '((sourceErr, databaseErr), w) := mg_Close (mr_migrator r) w in of_option_error (errors_join sourceErr databaseErr) w.

(** @src internal/app/migrate.go:44-64 BuildMigrate *)
Definition BuildMigrate (cfg : Config) (direction : string) : M W migrationRuntime :=
  migrator ←
    (if negb (is_empty (c_MigrationsSource cfg))
     then wrap "create migrator" (migrate_New (c_MigrationsSource cfg) (c_DatabaseURL cfg))
     else _ ← wrap "create migration source" migrations_Source;
          wrap "create migrator" (migrate_NewWithSourceInstance (c_DatabaseURL cfg)));
  mret (mkMigrationRuntime migrator direction).

(** The runtime the command hands to [Lifecycle.Run]; its first argument is
    the direction.
    @src cmd/migrate/main.go:19-35 main *)
Definition migrate_main `{Unicode} `{MailParser} `{DurationParser} `{UrlParser} (env : gmap string string) (args : list string) :
    M W (Z * migrationRuntime) :=
  cfg ← of_res (Load env);
  _ ← of_res (ParseLevel (c_LogLevel cfg));
  runtime ← BuildMigrate cfg (default "up" (head args));
  mret (c_ShutdownTimeout cfg, runtime).

(** A migration that has nothing to do succeeds, one that fails reports its
    error, and a direction that is neither is refused before the database is
    touched. *)
Lemma migrationRuntime_Run_spec r w :
  migrationRuntime_Run r w =
    (if String.eqb (mr_direction r) "" || String.eqb (mr_direction r) "up" || String.eqb (mr_direction r) "down" then
       let '(res, w') := (if String.eqb (mr_direction r) "down" then mg_Down (mr_migrator r) else mg_Up (mr_migrator r)) w in
       (match res with Err err => if ErrNoChange err then Ok tt else Err err | _ => res end, w')
     else (Err (EText ("migration direction must be up or down: " +:+ mr_direction r)), w)).
Proof.
  unfold migrationRuntime_Run. destruct (String.eqb_spec (mr_direction r) "down") as [->|Hd].
  - simpl. unfold try. rewrite M_bind_run. destruct (mg_Down _ w) as [[[]|e|] w']; [done| |done]. by destruct (ErrNoChange e).
  - rewrite orb_false_r. destruct (_ || _); [|done]. rewrite M_bind_run. unfold try. destruct (mg_Up _ w) as [[[]|e|] w']; [done| |done]. by destruct (ErrNoChange e).
Qed.
End Migrate.

(** ** The theorems at concrete inputs *)
Module Example.
#[export] Instance ascii_only : Unicode := {| unicode_lower s := s; unicode_equal_fold := String.eqb |}.
#[export] Instance any_address : MailParser := fun s => Some s.
#[export] Instance no_durations : DurationParser := fun _ => None.
#[export] Instance no_urls : UrlParser := fun _ => None.
Definition environment : gmap string string := {["LOG_LEVEL" := "DEBUG"; "ASYNQ_QUEUE" := "jobs"]}.
Definition loaded : res Config := Eval vm_compute in Load environment.
Definition of_ok {A} (r : res A) : match r with Ok _ => A | _ => unit end :=
  match r with Ok a => a | Err _ => tt | Panic => tt end.
Definition settings : Config := of_ok loaded.

(** A world that knows whether Redis is up and which pools and clients are
    open. *)
Definition world : Type := bool * gset nat * gset nat.
Definition held (w : world) : propset (handle (P := nat) (C := nat)) :=
  {[ h | match h with HPool p => p ∈ w.1.2 | HRedis c => c ∈ w.2 end ]}.
#[export] Instance postgres_url : Pool.SchemeParser := fun _ => Some "postgres".
#[export] Instance driver : Pool.Driver world nat := {|
  Pool.drv_ParseConfig _ := Ok (Pool.mkPoolConfig 0 4 0 0 0);
  Pool.drv_NewWithConfig _ (w : world) := (Ok (fresh w.1.2), (w.1.1, {[fresh w.1.2]} ∪ w.1.2, w.2));
  Pool.drv_Ping _ := mret tt;
  Pool.drv_Close p (w : world) := (Ok tt, (w.1.1, w.1.2 ∖ {[p]}, w.2));
|}.
#[export] Instance no_files : Tls.Certificates world unit := {|
  Tls.os_ReadFile _ := throw (EText "no such file"); Tls.SystemCertPool := mret None; Tls.NewCertPool := tt; Tls.AppendCertsFromPEM _ _ := None |}.
#[export] Instance redis : Redis world nat unit := {|
  redis_NewClient _ (w : world) := (Ok (fresh w.2), (w.1, {[fresh w.2]} ∪ w.2));
  redis_Ping _ (w : world) := (if w.1.1 then Ok tt else Err (EText "connection refused"), w);
  redis_Close c (w : world) := (Ok tt, (w.1, w.2 ∖ {[c]}));
|}.
#[export] Instance servers : Servers world nat unit unit := {|
  Server := unit; server_New _ _ := tt; server_Shutdown _ := mret tt;
  AsynqScheduler := unit; scheduler_New _ := mret tt; scheduler_Shutdown _ := mret tt; http_Shutdown _ := throw (ESentinel (SLib ContextDeadlineExceeded)) |}.

Lemma unchanged {A} (m : M world A) : (forall w, (m w).1 <> Panic) -> (forall w, (m w).2 = w) -> releases held m ∅.
Proof. intros Hp Hw w. split; [done|]. rewrite Hw. set_solver. Qed.

#[export] Instance laws : ResourceLaws (W := world) (H := unit) held.
Proof.
  split; try (intros; by apply unchanged).
  - done.
  - intros pc w. simpl. pose proof (is_fresh w.1.2). split; [set_solver|]. intros [p|c]; set_solver.
  - intros p. split; [|done]. intros w. split; [done|]. intros [q|c]; set_solver.
  - intros o w. exists (fresh w.2), (w.1, {[fresh w.2]} ∪ w.2). pose proof (is_fresh w.2). split_and!; [done|set_solver|]. intros [p|c]; set_solver.
  - intros c. apply unchanged; intros w; simpl; by destruct (w.1.1).
  - intros c w. split; [done|]. intros [p|d]; set_solver.
Qed.

Lemma held_nothing up : held (up, ∅, ∅) ≡ ∅.
Proof. intros [p|c]; set_solver. Qed.

Definition tasks : option (TaskCatalog (Handler world)) := Some (mkCatalog [] ∅).
Definition store {W : Type} (_ : nat) : ExecutionStore W :=
  mkExecutionStore W (fun _ _ => throw ErrExecutionNotFound) (fun _ _ => throw ErrExecutionNotFound) (fun _ _ _ _ => mret tt) (fun _ _ => mret tt) None.
Definition outbox {W : Type} (_ : nat) : OutboxStore W :=
  mkOutboxStore W (fun _ _ _ _ => throw ErrExecutionNotFound) (fun _ _ => mret []) (fun _ _ => mret tt).
End Example.
#[local] Existing Instances Example.ascii_only Example.any_address Example.no_durations Example.no_urls Example.postgres_url
  Example.driver Example.no_files Example.redis Example.servers Example.laws
  Queue.Example.error_text Queue.Example.message_json Scheduling.Example.json.
#[local] Abbreviation worker :=
  (BuildWorker Example.tasks tt (fun _ _ _ => mret tt) (fun _ _ => None) (mret 0) (mret "id") Example.store Example.outbox
     (fun _ _ _ _ => mret tt) Example.settings).


Lemma Execute_runs_witness :
  Execute (fun _ => throw (EText "no")) (fun cfg => mret (c_AsynqQueue cfg)) (fun _ => throw (EText "no")) Example.environment "worker" tt =
    (Ok (30 * Second, "jobs"), tt) /\
  Run.refuses (30 * Second) [Some "jobs"] = None.
Proof.
  destruct (Execute_runs (fun _ => throw (EText "no")) (fun cfg => mret (c_AsynqQueue cfg)) (fun _ => throw (EText "no"))
    Example.environment Example.settings "worker" tt) as [E H]; [vm_compute; reflexivity|]. split; [exact E|exact H].
Defined.
