(* ===== verification/Api.v ===== *)
(** * The HTTP API over the identity services ([internal/app/api.go])

    The routes of [IamHttp] on the audited services of [Identity] and those of
    [Platform], as [BuildAPI] wires them, with the tokens of [Token], behind
    the router of [Router]. *)
From S2P Require Import Prelude GoStrings Strconv Pagination Postgres TaskSQL IamSQL Iam IamStore IamService AuthenticationService Identity Netip Task Token AuditTrail Application Http RateLimit Middleware RequestMeta Metrics Router IamHttp Platform Config Totp.

(** The recorder does not panic and does not write the identity tables. *)
Class RecorderLaws {W J : Type} `{Pg W IamDB} (recorder : BestEffortRecorder W J) := {
  recorder_quiet : quiet recorder;
  record_tables : forall f event, be_Record recorder = Some f -> within (same pg_tables) (f event);
  log_tables : forall e, within (same pg_tables) (be_log recorder e);
  failed_tables : forall f a, be_AuditWriteFailed recorder = Some f -> within (same pg_tables) (f a);
  observe_tables : forall f a b, be_ObserveAudit recorder = Some f -> within (same pg_tables) (f a b);
}.

Section Api.
Context {W J : Type} `{PgLaws W IamDB} `{UuidScanLaws} `{Ilike} `{Collation} `{Unicode} `{MailParser} `{ErrorText} `{IamJson}.
Context `{Json} (hmac_sha256 : string -> string -> string) (manager : JWTManager).
Context (clock : W -> Z) (sha256 : string -> string) (parts : Parts W) `{!PartsLaws parts} (recoveryTTL : Z).
Context (recorder : BestEffortRecorder W J) `{!RecorderLaws recorder} (secure : bool) (ttl : Z).
Abbreviation service := (svc clock sha256 parts recoveryTTL).
(** What the platform routes are given besides the application and the tokens. *)
Context `{JsonMap J} `{RawJson} `{UuidValidate} `{TimeParse} (platform : PlatformRoutes W J) (runtimeTaskCatalog : catalog).

(** [jwt.Parse] reads the clock. *)
Definition parse_token (raw : string) : M W AccessClaims := fun w => (Parse hmac_sha256 manager (clock w) raw, w).

(** @src internal/app/api.go:161-163 (BuildAPI) routes *)
Definition api_routes : list (Route W) :=
  let audited := auditedIAM recorder (iam_application service) in
  RegisterRoutes audited (Some parse_token)
    (mkHTTPConfig (Some (auditedAuthentication recorder (authentication_application service))) secure ttl) ++
  RegisterPlatformRoutes
    (mkPlatformRoutes W J audited parse_token (pr_List platform) (pr_Submit platform) (pr_GetExecution platform)
       (pr_ListExecutions platform) (pr_Recorder platform) (pr_TaskObserver platform) (pr_TaskCatalog platform))
    runtimeTaskCatalog.

(** The routes whose metrics are kept apart.
    @src internal/app/api.go:63-75 knownAPIRoutes *)
Definition knownAPIRoutes : list string :=
  ["/api/v1/auth/email-code"; "/api/v1/auth/register"; "/api/v1/auth/login/totp/verify";
   "/api/v1/system-settings/basic-auth"; "/api/v1/users/me/security";
   "/api/v1/users/me/security/totp/enroll"; "/api/v1/users/me/security/totp/confirm"; "/api/v1/users/me/security/totp/disable";
   "/health/live"; "/health/ready"; "/metrics";
   "/api/v1/auth/login"; "/api/v1/auth/refresh"; "/api/v1/auth/logout";
   "/api/v1/users/me"; "/api/v1/users/me/preferences"; "/api/v1/users"; "/api/v1/users/{userID}";
   "/api/v1/users/{userID}/active"; "/api/v1/users/{userID}/password/reset"; "/api/v1/users/{userID}/roles";
   "/api/v1/users/{userID}/roles/{roleID}"; "/api/v1/roles"; "/api/v1/roles/{roleID}";
   "/api/v1/permissions"; "/api/v1/roles/{roleID}/permissions"; "/api/v1/roles/{roleID}/permissions/{permissionID}";
   "/api/v1/audit-logs";
   "/api/v1/task-executions"; "/api/v1/task-executions/{executionID}"; "/api/v1/task-types"].

(** What a request to each route needs. *)
Definition api_matrix : list (string * string * policy) :=
  access_matrix ++
  [("GET", "/api/v1/audit-logs", Needs "audit:read"); ("POST", "/api/v1/task-executions", Needs "tasks:write");
   ("GET", "/api/v1/task-executions", Needs "tasks:read"); ("GET", "/api/v1/task-executions/{executionID}", Needs "tasks:read");
   ("GET", "/api/v1/task-types", Needs "tasks:read")].

Lemma Preserve_tables event primary : within (same pg_tables) (Preserve recorder event primary).
Proof.
  pose proof record_tables. pose proof log_tables. pose proof failed_tables. pose proof observe_tables.
  unfold Preserve. destruct (be_Record recorder) as [f|]; [|apply within_ret; apply _].
  apply within_bind; [apply _|apply within_try; eauto|]. intros [a|e|]; (apply within_bind; [apply _| |intros; apply within_ret; apply _]).
  - destruct (be_ObserveAudit recorder); [eauto|apply within_ret; apply _].
  - apply within_bind; [apply _|eauto|]. intros _. destruct (be_AuditWriteFailed recorder); [eauto|apply within_ret; apply _].
  - destruct (be_ObserveAudit recorder); [eauto|apply within_ret; apply _].
Qed.

Lemma requireActiveUser_reads id : within (same (pg_tables (D := IamDB))) (requireActiveUser (base service) id).
Proof.
  pose proof (Authentication_tables (W := W)) as Ha. pose proof (FindByID_tables (W := W) id) as Hf.
  unfold requireActiveUser, requireInitialized, find_user. simpl. unfold PostgresAuthentication. simpl.
  apply within_bind; [apply _| |intros _; apply within_bind; [apply _| |intros u; case_match; solve_within]].
  - apply within_bind; [apply _|exact Ha|intros st; case_match; solve_within].
  - apply within_bind; [apply _|by apply within_try|]. intros r. solve_within.
Qed.

Lemma Authorize_reads id required : within (same (pg_tables (D := IamDB))) (Authorize (base service) id required).
Proof.
  unfold Authorize. pose proof (requireActiveUser_reads id) as Hr. pose proof (PermissionsForUser_tables (W := W) id) as Hp.
  simpl. apply within_bind; [apply _|exact Hr|intros _]. apply within_bind; [apply _|exact Hp|intros l; case_match; solve_within].
Qed.

Lemma audited_reads {A} ctx describe (m : M W A) :
  within (same (pg_tables (D := IamDB))) m -> within (same (pg_tables (D := IamDB))) (audited recorder ctx describe m).
Proof.
  intros Hm. unfold audited. apply within_bind; [apply _|by apply within_try|]. intros r.
  destruct (describe r) as [[[action rtype] rid] actor].
  apply within_bind; [apply _|apply Preserve_tables|intros [e|]; destruct r; solve_within].
Qed.

(** What a subject whose request is authorised is: an active user of an
    initialised system with a role that grants the permission. *)
Definition authorised (d : IamDB) (subject permission : string) : Prop :=
  a_InitializedAt (authentication_settings d) <> None /\
  exists uuid row role key p, parseUUID subject = Ok uuid /\
    IamSQL.users d !! uuid = Some row /\ u_IsActive row = true /\
    (uuid, role) ∈ user_roles d /\ (role, p_ID p) ∈ role_permissions d /\
    IamSQL.permissions d !! key = Some p /\ HasPermission [p_Name p] permission = true.

(** A request with a valid token of the subject. *)
Definition signed_in (r : Request) (w : W) (subject : string) : Prop :=
  exists raw claims, ExtractAccessToken r = Ok raw /\
    Parse hmac_sha256 manager (clock w) raw = Ok claims /\ Subject claims = subject.

(** The request did something: it answered with success, or the identity
    tables changed. *)
Definition effective (w : W) (res : res unit) (w' : W) (ops : list wop) : Prop :=
  (res = Ok tt /\ status_of ops < 400) \/ pg_tables w' <> pg_tables w.

Lemma parse_token_pure raw (w : W) : (parse_token raw w).2 = w.
Proof. done. Qed.

Lemma session_gate next r (w : W) res w' ops :
  Authenticate parse_token next r (w, []) = (res, (w', ops)) -> effective w res w' ops ->
  exists subject, signed_in r w subject /\
    next (with_context r (WithSubject (req_Context r) subject)) (w, []) = (res, (w', ops)).
Proof.
  intros E He. apply (Authenticate_gate _ _ _ _ _ _ _ parse_token_pure) in E
    as [(-> & Hs)|(raw & claims & Hraw & Hc & E)].
  - destruct He as [[-> Hlt]|Hne]; [specialize (Hs eq_refl); lia|done].
  - exists (Subject claims). split; [|done]. by exists raw, claims.
Qed.

Lemma permission_gate permission next r (w : W) res w' ops :
  Authenticate parse_token (RequirePermission (auditedIAM recorder (iam_application service)) permission next) r (w, []) =
    (res, (w', ops)) -> effective w res w' ops ->
  exists subject, signed_in r w subject /\ authorised (pg_tables w) subject permission.
Proof.
  intros E He. destruct (session_gate _ _ _ _ _ _ E He) as (subject & Hs & E2).
  apply RequirePermission_gate in E2. cbv zeta in E2. simpl in E2.
  exists subject. split; [done|]. set (ctx := WithSubject (req_Context r) subject) in *.
  pose proof (audited_reads ctx (fun _ => ("authorization.check", "permission", permission, Some subject)) _
    (Authorize_reads subject permission) w) as Ht. unfold same in Ht.
  unfold auditedIAM, audit_with in E2. simpl in E2.
  destruct E2 as [(-> & -> & Hst)|[(Hok & -> & Hst)|(Hok & E2)]].
  - destruct He as [[_ Hlt]|Hne]; [lia|done].
  - destruct He as [[-> Hlt]|Hne]; [specialize (Hst eq_refl); lia|done].
  - destruct (Authorize (base service) subject permission w) as [ra w1] eqn:Ea.
    destruct ra as [[]|e|].
    + apply (Authorize_sound clock sha256 parts recoveryTTL) in Ea as (_ & Hi & Hrest). by split.
    + exfalso. rewrite (audited_run recorder _ _ _ _ _ _ recorder_quiet Ea) in Hok by done. done.
    + exfalso. by rewrite (audited_panic recorder _ _ _ _ _ Ea) in Hok.
Qed.

(** C3: no effect without authority.  On a route that needs a permission, a
    request that is answered with success or changes the identity tables
    carries an access token the server signed and that has not expired, whose
    subject is an active user of the initialised system with a role that
    grants the permission at that moment; on a route of the session's own
    account it carries such a token. *)
Theorem routes_authorised i m p pol route (r : Request) (w w' : W) res ops :
  api_matrix !! i = Some (m, p, pol) -> api_routes !! i = Some route ->
  rt_Handler route r (w, []) = (res, (w', ops)) -> effective w res w' ops ->
  match pol with
  | Public => True
  | Session => exists subject, signed_in r w subject
  | Needs permission => exists subject, signed_in r w subject /\ authorised (pg_tables w) subject permission
  end.
Proof.
  intros Hi Hroute E He.
  do 38 (destruct i as [|i];
    [injection Hi as <- <- <-; cbn in Hroute; injection Hroute as <-; cbn [rt_Handler] in E;
     first [exact I
           |by eapply permission_gate
           |destruct (session_gate _ _ _ _ _ _ E He) as (subject & Hs & _); by exists subject]|]).
  done.
Qed.

(** Every route is in the table. *)
Lemma api_routes_matrix : map (fun route => (rt_Method route, rt_Pattern route)) api_routes = map fst api_matrix.
Proof. reflexivity. Qed.

Lemma api_routes_answer : Forall (fun route => forall r, answers (rt_Handler route r)) api_routes.
Proof.
  apply Forall_app. split; [|apply platform_answers]. apply Forall_forall. intros route Hin r. by eapply routes_answer_once.
Qed.

(** ** The router of the API *)
Section Served.
Context `{Chi} `{BodySizeLaws} (rand_read : Z -> M W string) `{!RandLaws rand_read} (chi_route_pattern : Request -> string).
Context (log_panic : string -> W -> W) (log_access : AccessEntry -> W -> W).

(** @src internal/app/api.go:159-160 (BuildAPI) options *)
Definition api_options (cfg : Config) (readiness : dependencyReadiness W) (metrics : Handler W)
    (limiter : Ctx -> string -> Z -> Z -> M W RateLimitDecision) : RouterOptions W :=
  mkRouterOptions (Some (Ready clock readiness)) (Some metrics)
    (mkCORS (c_CORSAllowedOrigins cfg) ["GET"; "POST"; "PUT"; "PATCH"; "DELETE"; "OPTIONS"]
       ["Authorization"; "Content-Type"; "X-Request-ID"] ["X-Request-ID"; "Retry-After"] (c_CORSAllowCredentials cfg) (10 * Minute))
    (Some (mkRateLimitConfig (Some limiter) (c_RateLimit cfg) (c_RateLimitWindow cfg) (Some auditClientKey)
       (Some (fun r => isCriticalRateLimitPath (req_Path r)))))
    api_routes.

Variable observe : (Metrics -> Metrics) -> W -> W.

(** @src internal/app/api.go:160-164 (BuildAPI) handler *)
Definition api_handler (cfg : Config) readiness metrics limiter : res (Handler W) :=
  NewAPIRouter clock rand_read chi_route_pattern log_panic log_access (api_options cfg readiness metrics limiter)
    (Some (RequestMetadataMiddleware (c_TrustedProxyCIDRs cfg))) (Some (HTTPMiddleware (fun _ => "") observe)).

(** C6: every request is answered, once, and accounted for.  On the handler
    the API serves, whatever the applications, the limiter and the stores do,
    panics included, a request gets exactly one answer: a well-formed envelope, the metrics page,
    or the 204 of a preflight, never a crash and never silence.  It runs under
    a valid request identifier, the client's own when it sent one, which is
    the first header set.  Then one line goes to the access log and one
    observation to the metrics, both with the status the client was sent. *)
Theorem requests_are_answered (cfg : Config) readiness metrics limiter (handler : Handler W) (r : Request) (w : W) :
  api_handler cfg readiness metrics limiter = Ok handler -> (forall r, replies (metrics r)) ->
  exists w1 entry id new status body,
    handler r (w, []) =
      (Ok tt, (observe (ObserveHTTP (req_Method r) (NormalizePath (req_Path r)) status) (log_access entry w1),
               HeaderSet RequestIDHeader id :: new)) /\
    reply new status body /\ status_of (HeaderSet RequestIDHeader id :: new) = status /\
    validRequestID id = true /\ (validRequestID (req_Header r RequestIDHeader) = true -> id = req_Header r RequestIDHeader) /\
    le_request_id entry = id /\ le_method entry = req_Method r /\ le_status entry = status /\ le_bytes entry = total body.
Proof.
  intros Hn Hm. apply (router_answers clock rand_read chi_route_pattern log_panic log_access _ _ observe handler r w Hn).
  split; [by intros ? [= <-]|]. simpl. eapply Forall_impl; [apply api_routes_answer|]. intros route Ha r'. apply answers_replies, Ha.
Qed.
End Served.
End Api.

(** ** From a configuration to a handler *)
Section Build.
Context {W J : Type} `{PgLaws W IamDB} `{UuidScanLaws} `{Ilike} `{Collation} `{Unicode} `{MailParser} `{ErrorText} `{IamJson}.
Context `{Json} `{JsonMap J} `{RawJson} `{UuidValidate} `{TimeParse} `{Chi} `{BodySizeLaws} `{DurationParser} `{UrlParser}.
Context (hmac_sha256 : string -> string -> string) (clock : W -> Z) (sha256 : string -> string).
Context (recorder : BestEffortRecorder W J) (platform : PlatformRoutes W J) (runtimeTaskCatalog : catalog).
Context (rand_read : Z -> M W string) (chi_route_pattern : Request -> string) (pepper_first : bool).
Context (log_panic : string -> W -> W) (log_access : AccessEntry -> W -> W) (observe : (Metrics -> Metrics) -> W -> W).
Context (readiness : dependencyReadiness W) (metrics : Handler W) (limiter : Ctx -> string -> Z -> Z -> M W RateLimitDecision).
(** The rest of the services: the password hasher, the tokens, the refresh
    tokens, the mailer and the caches, given the token manager and the
    crypto. *)
Context (parts : JWTManager -> Crypto -> Parts W).

Definition decoded (value : string) : string := of_bytes (default [] (hex_decode (bytes value))).

(** What [BuildAPI] makes of a configuration once PostgreSQL and Redis answer.
    @src internal/app/api.go:108-171 BuildAPI *)
Definition BuildAPI (cfg : Config) : res (Handler W) :=
  match ValidateAPI pepper_first cfg with
  | Some err => Err err
  | None =>
      jwt ← NewJWTManager (c_JWTSecret cfg) (c_JWTIssuer cfg) (c_AccessTokenTTL cfg);
      crypto ← Totp.New (decoded (c_AuthenticationKey cfg)) (decoded (c_AuthenticationPepper cfg)) (c_JWTIssuer cfg);
      api_handler hmac_sha256 jwt clock sha256 (parts jwt crypto) (c_RecoveryCodeTTL cfg) recorder (c_SecureCookies cfg)
        (c_RefreshTokenTTL cfg) platform runtimeTaskCatalog rand_read chi_route_pattern log_panic log_access observe
        cfg readiness metrics limiter
  end.

Lemma decoded_length value : key_valid value = true -> len (decoded value) = 32.
Proof.
  unfold key_valid, decoded. destruct (hex_decode _) as [l|]; [|done]. intros Hl%Nat.eqb_eq. rewrite len_bytes, bytes_of_bytes. simpl. lia.
Qed.

End Build.

(** ** The theorem at a concrete input *)
Module Example.
#[local] Existing Instance Token.Example.json.
#[local] Existing Instance Token.Example.json_laws.
#[export] Instance no_bodies : IamJson.
Proof. split; exact (fun _ => None). Defined.
#[export] Instance texts : ErrorText := fun _ => "".
Definition silent : BestEffortRecorder (Conn IamDB) unit := mkBestEffort None (fun _ => mret tt) None None.
#[export] Instance silent_laws : RecorderLaws silent.
Proof. split; [by split_and!|done|by intros e w|done|done]. Qed.

Definition token (subject : string) : string :=
  match Issue Token.Example.hmac Token.Example.manager 0 subject with Ok raw => raw | _ => "" end.
Definition get (path subject : string) : Request :=
  mkRequest "GET" path (fun _ => "") (fun h => if String.eqb h "Authorization" then "Bearer " +:+ token subject else "")
    (fun _ => None) "192.0.2.1:4242" None (fun _ => "") Background.
#[export] Instance no_metadata : JsonMap unit := {| json_empty := tt; json_Marshal _ := Ok ""; json_Unmarshal _ := Ok tt |}.
#[export] Instance no_dates : TimeParse := fun _ => None.
#[local] Existing Instances Platform.Example.raw Platform.Example.any_uuid.
Definition no_tasks {A} : M (Conn IamDB) A := throw (EText "none").
Definition platform : PlatformRoutes (Conn IamDB) unit :=
  mkPlatformRoutes _ _ (fun A c ctx => no_tasks) (fun raw => no_tasks) (fun ctx q => no_tasks) (fun ctx s => no_tasks)
    (fun ctx id => no_tasks) (fun ctx q => no_tasks) None None None.
Definition routes : list (Route (Conn IamDB)) :=
  api_routes Token.Example.hmac Token.Example.manager IamStore.Example.clock (fun s => s) Identity.Example.example_parts
    Hour silent true Hour platform Platform.Example.tasks.
Definition list_users : Route (Conn IamDB) := default (mkRoute "" "" (fun _ => panic)) (routes !! 18%nat).
End Example.
#[local] Existing Instances Token.Example.json Token.Example.json_laws Example.no_bodies Example.texts Example.silent_laws
  Example.no_metadata Example.no_dates Platform.Example.raw Platform.Example.any_uuid.

(** The administrator may list the users; the member is refused. *)
Lemma routes_authorised_witness :
  let serve id := rt_Handler Example.list_users (Example.get "/api/v1/users" (uuid_text id)) (IamStore.Example.world, []) in
  (exists w' ops, serve IamStore.Example.admin_id = (Ok tt, (w', ops)) /\ status_of ops = 200 /\
     exists subject, authorised (pg_tables IamStore.Example.world) subject "users:read") /\
  status_of (serve IamStore.Example.member_id).2.2 = 403.
Proof.
  intros serve. split; [|vm_compute; reflexivity].
  assert (let '(r, (w', ops)) := serve IamStore.Example.admin_id in r = Ok tt /\ status_of ops = 200) as Hr
    by (vm_compute; split; reflexivity).
  destruct (serve IamStore.Example.admin_id) as [r [w' ops]] eqn:E. destruct Hr as [-> Hs].
  exists w', ops. split; [reflexivity|]. split; [exact Hs|].
  destruct (routes_authorised Token.Example.hmac Token.Example.manager IamStore.Example.clock (fun s => s)
    Identity.Example.example_parts Hour Example.silent true Hour Example.platform Platform.Example.tasks 18 "GET" "/api/v1/users" (Needs "users:read")
    Example.list_users (Example.get "/api/v1/users" (uuid_text IamStore.Example.admin_id)) IamStore.Example.world w' (Ok tt) ops
    eq_refl eq_refl E) as (subject & _ & Ha).
  - left. split; [reflexivity|]. rewrite Hs. reflexivity.
  - exists subject. exact Ha.
Defined.

(** A server whose limiter panics still answers. *)
Module Server.
Fixpoint find_route (i : nat) (l : list (string * string)) (r : Request) : option (nat * (string -> string)) :=
  match l with
  | [] => None
  | (method, pattern) :: l =>
      if (String.eqb method "" || String.eqb method (req_Method r)) && String.eqb pattern (req_Path r)
      then Some (i, fun _ => "") else find_route (S i) l r
  end.
#[export] Instance literal : Chi := {| chi_match l r := find_route 0 l r; chi_method_unsupported _ _ := false |}.
#[local] Existing Instance Middleware.Example.sizes.

Definition random (n : Z) : M (Conn IamDB) string := mret (String.string_of_list_ascii (repeat "a"%char (Z.to_nat n))).
#[export] Instance random_laws : RandLaws random.
Proof.
  split; [done|]. intros n w s w' Hn [= <- <-]. rewrite len_bytes. unfold bytes.
  rewrite String.list_ascii_of_string_of_list_ascii, repeat_length. lia.
Defined.
Definition page : Handler (Conn IamDB) := fun _ => _ ← emit (WriteHeader 200); emit (WriteText "metrics").
Definition environment : gmap string string :=
  {["AUTHENTICATION_KEY" := "0101010101010101010101010101010101010101010101010101010101010101";
    "AUTHENTICATION_PEPPER" := "0202020202020202020202020202020202020202020202020202020202020202";
    "SMTP_ENABLED" := "false"; "JWT_SECRET" := "0123456789abcdef0123456789abcdef";
    "CORS_ALLOWED_ORIGINS" := "https://app.example.com, https://admin.example.com"; "CORS_ALLOW_CREDENTIALS" := "true"]}.
#[export] Instance no_durations : DurationParser := fun _ => None.
#[export] Instance no_urls : UrlParser := fun _ => None.
Definition of_ok {A} (r : res A) : match r with Ok _ => A | _ => unit end :=
  match r with Ok a => a | Err _ => tt | Panic => tt end.
Definition loaded : res Config := Eval vm_compute in Load environment.
Definition settings : Config := of_ok loaded.
Definition up : dependencyReadiness (Conn IamDB) := mkReadiness (fun _ => mret tt) (fun _ => mret tt) None.
Definition handler : Handler (Conn IamDB) :=
  match api_handler Token.Example.hmac Token.Example.manager IamStore.Example.clock (fun s => s) Identity.Example.example_parts Hour
    Example.silent true Hour Example.platform Platform.Example.tasks random (fun _ => "") (fun _ w => w) (fun _ w => w) (fun _ w => w)
    settings up page (fun _ _ _ _ => panic) with
  | Ok h => h
  | _ => fun _ => panic
  end.
Definition request : Request :=
  mkRequest "GET" "/health/ready" (fun _ => "") (fun _ => "") (fun _ => None) "192.0.2.1:4242" None (fun _ => "") Background.
End Server.
#[local] Existing Instances Middleware.Example.sizes Middleware.Example.sizes_laws Server.literal Server.random_laws.

Lemma requests_are_answered_witness :
  exists w' ops, Server.handler Server.request (IamStore.Example.world, []) = (Ok tt, (w', ops)) /\ status_of ops = 500.
Proof.
  destruct (requests_are_answered Token.Example.hmac Token.Example.manager IamStore.Example.clock (fun s => s) Identity.Example.example_parts
    Hour Example.silent true Hour Example.platform Platform.Example.tasks Server.random (fun _ => "") (fun _ w => w) (fun _ w => w)
    (fun _ w => w) Server.settings Server.up Server.page (fun _ _ _ _ => panic) Server.handler Server.request IamStore.Example.world
    eq_refl) as (w1 & entry & id & new & status & body & E & _ & Hst & _).
  - intros r w ops. exists [WriteHeader 200; WriteText "metrics"], 200, [WriteText "metrics"].
    split; [simpl; by rewrite <- app_assoc|]. split; [constructor|]. by exists [].
  - assert (match Server.handler Server.request (IamStore.Example.world, []) with (r, (w', ops)) => status_of ops = 500 end) as Hr
      by (vm_compute; reflexivity).
    rewrite E in Hr. do 2 eexists. split; [exact E|exact Hr].
Defined.

#[local] Existing Instances Server.no_durations Server.no_urls.


(** Two routes are missing from the list of known routes: their requests are
    counted as unmatched. *)
Example routes_counted_as_unmatched :
  filter (fun pattern => NormalizePath pattern ∉ routeSet knownAPIRoutes) (map (fun row => row.1.2) api_matrix) =
    ["/api/v1/users/me/email/verification-code"; "/api/v1/users/me/email/verify"].
Proof. vm_compute. reflexivity. Qed.
