(* ===== verification/Command.v ===== *)
(** * The commands (cmd/)

    What a command does from its environment to its exit status: the three
    processes ([api], [worker], [scheduler]), [migrate] and [seed-admin].  A
    process builds its component ([Runtime]) and hands it to the machine of
    [Lifecycle.Run]; what the component, the signals and the timer do is a
    list of actions of that machine, and a command has no exit status while it
    runs. *)
From S2P Require Import Prelude GoStrings Lifecycle Pool Iam Admin Config Runtime.
Local Open Scope Z_scope.

(** ** Exit *)

(** The status of a process, and the error it has printed. *)
Record exit := mkExit { status : Z; stderr : option error }.

(** The end of a [main]: an error is printed before [os.Exit(1)], and a panic
    nobody recovers ends the program with status 2.
    @src cmd/api/main.go:16-19 main *)
Definition main_ends (result : res unit) : exit :=
  match result with
  | Ok _ => mkExit 0 None
  | Err err => mkExit 1 (Some err)
  | Panic => mkExit 2 None
  end.

Definition result_of (err : option error) : res unit := match err with Some e => Err e | None => Ok tt end.

(** ** The processes *)

(** [bootstrap.Run] on one component; [None] while it runs.
    @src internal/app/run.go:42-49 executeComponent *)
Definition executeComponent {A} (shutdownTimeout : Z) (component : A) (acts : list Run.action) : option (res unit) :=
  match Run.refuses shutdownTimeout [Some component] with
  | Some err => Some (Err err)
  | None =>
      c ← Run.run 1 acts;
      match Run.at_ c with Run.Returned err => Some (result_of err) | _ => None end
  end.

(** What [main] does with the component of a command, once it has one. *)
Definition command {A W} (launch : M W (Z * A)) (acts : list Run.action) (w : W) : option exit :=
  match (launch w).1 with
  | Ok (shutdownTimeout, component) => main_ends <$> executeComponent shutdownTimeout component acts
  | Err err => Some (main_ends (Err err))
  | Panic => Some (main_ends Panic)
  end.

Section Processes.
Context {W A : Type} `{Unicode} `{MailParser} `{DurationParser} `{UrlParser}.
Variables build_api build_worker build_scheduler : Config -> M W A.
Notation Execute := (Execute build_api build_worker build_scheduler).

(** @src cmd/api/main.go:13-20 main *)
Definition api_main (env : gmap string string) : list Run.action -> W -> option exit := command (Execute env "api").
(** @src cmd/worker/main.go:13-20 main *)
Definition worker_main (env : gmap string string) : list Run.action -> W -> option exit := command (Execute env "worker").
(** @src cmd/scheduler/main.go:13-20 main *)
Definition scheduler_main (env : gmap string string) : list Run.action -> W -> option exit := command (Execute env "scheduler").

(** The commands by the role they pass. *)
Definition main_of (role : string) : option (gmap string string -> list Run.action -> W -> option exit) :=
  if String.eqb role "api" then Some api_main
  else if String.eqb role "worker" then Some worker_main
  else if String.eqb role "scheduler" then Some scheduler_main else None.
End Processes.

(** ** The one-shot commands *)
Section OneShot.
Context {W P : Type} `{Pool.Driver W P} `{Pool.SchemeParser} `{Unicode} `{MailParser} `{DurationParser} `{UrlParser}.

(** @src cmd/seed-admin/main.go:18-25 main *)
Definition seed_admin_main (seed : P -> AdminBootstrap -> M W unit) (env : gmap string string) (w : W) : exit :=
  main_ends (seed_admin seed env w).1.

Variables (migrate_New : string -> string -> M W (migrator (W:=W))) (migrations_Source : M W unit).
Variable migrate_NewWithSourceInstance : string -> M W (migrator (W:=W)).

(** @src cmd/migrate/main.go:16-41 main *)
Definition migrate_command (env : gmap string string) (args : list string) : list Run.action -> W -> option exit :=
  command (migrate_main migrate_New migrations_Source migrate_NewWithSourceInstance env args).
End OneShot.

(** ** A run that ends without an error *)

(** [Run] returns nil only from its last [select]: every component was shut
    down, has answered and has returned. *)
Definition clean (n : nat) (c : Run.config) : Prop :=
  Run.at_ c = Run.Returned None ->
  Run.shutdowns c = reverse (seq 0 n) /\ Run.workers c = ∅ /\ Run.runErr c = None /\ Run.shutdownErr c = None /\ Run.answer c = None.

Lemma errors_join_is_None e1 e2 : errors_join e1 e2 = None -> e1 = None /\ e2 = None.
Proof. by destruct e1, e2. Qed.

Lemma step_clean n a c c' : Run.wf n c -> clean n c -> Run.step n a c = Some c' -> clean n c'.
Proof.
  intros Hwf Hc Ha. unfold clean in *.
  assert (forall index x, Run.at_ (Run.close_next index x) <> Run.Returned None) as Hnext by (by intros []).
  assert (forall err x, Run.at_ (Run.stop n err x) <> Run.Returned None) as Hstop by (intros; apply Hnext).
  Run.step_cases c a Ha; simpl in *; intros Hat; try done; try (by destruct (Hstop _ _ Hat)); try (by destruct (Hnext _ _ Hat)); try (by apply Hc).
  - destruct (Hc Hat) as (? & -> & ?). set_solver.
  - injection Hat as [-> ->]%errors_join_is_None. by destruct (Run.wf_draining _ _ Hwf eq_refl) as [? ?].
  - injection Hat as [_ Hat]%errors_join_is_None. by destruct se.
  - injection Hat as [_ Hat]%errors_join_is_None. by destruct se.
Qed.

Lemma execution_clean n acts c : Run.execution n acts c -> clean n c.
Proof. induction 1; [done|]. eauto using step_clean, Run.execution_wf. Qed.

(** What a clean run means for what the components did. *)
Lemma returned_clean n acts c : Run.execution n acts c -> Run.at_ c = Run.Returned None ->
  Run.shutdowns c = reverse (seq 0 n) /\ Run.workers c = ∅ /\ Run.joined (Run.shutdown_answers acts) = None /\
  (Run.ParentCancelled ∉ acts -> Run.first_error (Run.worker_results acts) = None).
Proof.
  intros He Hat. destruct (execution_clean _ _ _ He Hat) as (Hs & Hw & Hr & Hse & Han).
  pose proof (Run.execution_accounts _ _ _ He) as Hac. split_and!; [done..| |].
  - by rewrite (Run.ac_answers _ _ _ Hac), Hse, Han.
  - intros Hp. destruct (Run.ac_stopping _ _ _ Hac) as [<- _]; [by unfold Run.stopping; rewrite Hat|done|done].
Qed.

(** Once its context is cancelled [Run] on one component needs nothing but its
    timer to return. *)
Lemma cancelled_returns acts c : Run.run 1 acts = Some c -> Run.parentDone c = true ->
  exists rest c' err, (forall a, a ∈ rest -> Run.of_run a = true \/ a = Run.TimeoutFires) /\
    Run.run 1 (acts ++ rest) = Some c' /\ Run.at_ c' = Run.Returned err.
Proof.
  intros Hrun Hp. pose proof (Run.execution_wf _ _ _ (Run.run_execution _ _ _ Hrun)) as Hwf.
  assert (forall rest, Run.run 1 (acts ++ rest) = foldl (fun c a => c ≫= Run.step 1 a) (Some c) rest) as Hrest.
  { intros rest. unfold Run.run in *. by rewrite foldl_app, Hrun. }
  destruct c as [pd rd dl ws rs sh an re se p]. simpl in Hp. subst pd.
  destruct p as [remaining|index| |err];
    [exists [Run.TakeParent; Run.TimeoutFires; Run.TakeDeadline]|exists [Run.TimeoutFires; Run.TakeDeadline]..|exists []];
    rewrite Hrest; cbn [foldl Run.step]; simpl; do 2 eexists; (split_and!; [|reflexivity..]);
    intros a Ha; repeat (apply elem_of_cons in Ha as [->|Ha]; [simpl; auto|]); by apply elem_of_nil in Ha.
Qed.

(** The deadline passes when the timer fires, and then a failure is that of
    the components. *)
Lemma deadline_fired n acts c : Run.execution n acts c -> Run.deadline c = true -> Run.TimeoutFires ∈ acts.
Proof.
  induction 1 as [|acts a c c' _ IH Ha]; [done|]. rewrite elem_of_app, list_elem_of_singleton. intros Hd.
  revert Hd IH. Run.step_cases c a Ha; simpl; auto; unfold Run.stop;
    try (match goal with |- context [Run.close_next ?i _] => destruct i end; simpl; auto).
Qed.

Lemma returned_failed n acts c err : Run.execution n acts c -> Run.at_ c = Run.Returned (Some err) -> Run.TimeoutFires ∉ acts ->
  exists failed, Some err = errors_join failed (Run.joined (Run.shutdown_answers acts)) /\
    forall e, failed = Some e -> Some e ∈ Run.worker_results acts.
Proof.
  intros He Hat Ht. pose proof (Run.execution_accounts _ _ _ He) as Hac.
  assert (Run.deadline c = false) as Hd by (destruct (Run.deadline c) eqn:Hd; [by destruct Ht; eapply deadline_fired|done]).
  destruct (Run.ac_returned _ _ _ Hac _ Hat Hd) as [-> Han]. exists (Run.runErr c).
  rewrite (Run.ac_answers _ _ _ Hac), Han, Run.errors_join_None_r. split; [done|]. apply (Run.ac_runErr _ _ _ Hac).
Qed.

(** ** The exit status of a process *)
Section Exits.
Context {W A : Type} `{Unicode} `{MailParser} `{DurationParser} `{UrlParser}.
Variables build_api build_worker build_scheduler : Config -> M W A.
Notation main_of := (main_of build_api build_worker build_scheduler).
Notation builder := (builder build_api build_worker build_scheduler).
Notation Execute := (Execute build_api build_worker build_scheduler).

Lemma main_of_launches env role main : main_of role = Some main -> main env = command (Execute env role).
Proof.
  unfold main_of. repeat (match goal with |- context [String.eqb role ?x] => destruct (String.eqb_spec role x) as [->|_]; [by intros [= <-]|] end); done.
Qed.

(** A process with its component built ends as [Run] does. *)
Lemma main_of_runs env cfg role main build w component w' :
  Load env = Ok cfg -> main_of role = Some main -> builder role = Some build -> build cfg w = (Ok component, w') ->
  forall acts, main env acts w =
    match Run.at_ <$> Run.run 1 acts with Some (Run.Returned err) => Some (main_ends (result_of err)) | _ => None end.
Proof.
  intros Hl Hm Hb Hbuild acts. pose proof (Execute_runs build_api build_worker build_scheduler env cfg role w Hl) as Hr.
  rewrite Hb, Hbuild in Hr. destruct Hr as [Hrun Hrefuse].
  rewrite (main_of_launches _ _ _ Hm). unfold command, executeComponent. rewrite Hrun. simpl. rewrite Hrefuse. destruct (Run.run 1 acts) as [c|]; [|done]. simpl.
  by destruct (Run.at_ c).
Qed.

(** C23: a process exits with 0 only after a clean end: its component has returned,
    it was shut down once and the shutdown went well, and unless the process
    was told to stop the component had not failed either.  Any other end has
    status 1 and prints an error, and without the timer it is the component's.
    A process that cannot be built exits at once, with nothing to shut down.
    And one that is told to stop ends, whatever its component does: the steps
    of [Run] and its timer are enough. *)
Theorem process_exits (env : gmap string string) (cfg : Config) (role : string)
    (main : gmap string string -> list Run.action -> W -> option exit) (build : Config -> M W A) (acts : list Run.action) (w : W) :
  Load env = Ok cfg -> main_of role = Some main -> builder role = Some build ->
  match build cfg w with
  | (Err err, _) => main env acts w = Some (mkExit 1 (Some (EWrap ("build " +:+ role) err)))
  | (Panic, _) => main env acts w = Some (mkExit 2 None)
  | (Ok component, _) => forall c, Run.run 1 acts = Some c ->
      (forall e, main env acts w = Some e ->
         if decide (status e = 0) then
           stderr e = None /\ Run.shutdowns c = [0]%nat /\ Run.workers c = ∅ /\ Run.joined (Run.shutdown_answers acts) = None /\
           (Run.ParentCancelled ∉ acts -> Run.first_error (Run.worker_results acts) = None)
         else exists err, e = mkExit 1 (Some err) /\
           (Run.TimeoutFires ∉ acts -> exists failed, Some err = errors_join failed (Run.joined (Run.shutdown_answers acts)) /\
              forall e', failed = Some e' -> Some e' ∈ Run.worker_results acts)) /\
      (Run.parentDone c = true -> exists rest, (forall a, a ∈ rest -> Run.of_run a = true \/ a = Run.TimeoutFires) /\
         is_Some (main env (acts ++ rest) w))
  end.
Proof.
  intros Hl Hm Hb. pose proof (main_of_launches env role main Hm) as Hmain.
  pose proof (Execute_runs build_api build_worker build_scheduler env cfg role w Hl) as Hr. rewrite Hb in Hr.
  destruct (build cfg w) as [[component|err|] w'] eqn:Hbuild; [|by rewrite Hmain; unfold command; rewrite Hr..].
  pose proof (main_of_runs env cfg role main build w component w' Hl Hm Hb Hbuild) as Hruns. intros c Hc. split.
  - intros e. rewrite Hruns, Hc. simpl. pose proof (Run.run_execution _ _ _ Hc) as He.
    destruct (Run.at_ c) as [| | |[err|]] eqn:Hat; try done; intros [= <-]; simpl.
    + exists err. split; [done|]. by apply (returned_failed 1 acts c).
    + split; [done|]. by apply (returned_clean 1 acts c).
  - intros Hp. destruct (cancelled_returns _ _ Hc Hp) as (rest & c' & err & Hrest & Hc' & Hat). exists rest. split; [done|].
    rewrite Hruns, Hc'. simpl. by rewrite Hat.
Qed.
End Exits.

(** ** The one-shot commands *)

(** The run of a component that ends by itself, then answers its shutdown. *)
Definition finishes (ran closed : option error) : list Run.action :=
  [Run.WorkerReturns 0 ran; Run.TakeResult; Run.ShutdownReturns closed; Run.TakeAnswer; Run.TakeStopped].

Definition error_of (result : res unit) : option error := match result with Err e => Some e | _ => None end.

(** [Run] reports both errors of such a component, a cancelled shutdown apart. *)
Lemma finishes_reports {A} shutdownTimeout (component : A) ran closed : 0 < shutdownTimeout ->
  executeComponent shutdownTimeout component (finishes ran closed) =
    Some (result_of (errors_join ran (Run.shutdown_error closed))).
Proof.
  intros Ht. unfold executeComponent, Run.refuses. rewrite (proj2 (Z.leb_gt _ _)) by lia. simpl.
  unfold finishes, Run.run, Run.start. simpl.
  assert (∅ = ({[0%nat]} ∪ ∅) ∖ {[0%nat]} :> gset nat) as <- by set_solver. rewrite decide_True by set_solver. simpl.
  destruct ran as [err|]; simpl; [rewrite andb_false_r; simpl|]; rewrite decide_True by done; simpl; [|done].
  by destruct (Run.shutdown_error closed).
Qed.

Section Migrate.
Context {W : Type} `{Unicode} `{MailParser} `{DurationParser} `{UrlParser}.
Variables (migrate_New : string -> string -> M W (migrator (W:=W))) (migrations_Source : M W unit).
Variables (migrate_NewWithSourceInstance : string -> M W (migrator (W:=W))) (ErrNoChange : error -> bool).
Notation migrate_command := (migrate_command migrate_New migrations_Source migrate_NewWithSourceInstance).

(** [migrate] with nothing to stop it runs its migration and closes the
    migrator: its exit reports the errors of both. *)
Lemma migrate_exits env cfg args r w w1 :
  Load env = Ok cfg ->
  BuildMigrate migrate_New migrations_Source migrate_NewWithSourceInstance cfg (default "up" (head args)) w = (Ok r, w1) ->
  let '(ran, w2) := migrationRuntime_Run ErrNoChange r w1 in
  let '(closed, _) := migrationRuntime_Shutdown r w2 in
  migrate_command env args (finishes (error_of ran) (error_of closed)) w =
    Some (main_ends (result_of (errors_join (error_of ran) (Run.shutdown_error (error_of closed))))).
Proof.
  intros Hl Hb. destruct (migrationRuntime_Run ErrNoChange r w1) as [ran w2], (migrationRuntime_Shutdown r w2) as [closed w3].
  unfold Command.migrate_command, command, migrate_main. rewrite M_bind_run, Hl. simpl. rewrite M_bind_run.
  apply Load_Ok in Hl as [Hv _]. pose proof (ParseLevel_known _ (Validate_level _ Hv)) as Hp. apply Validate_None in Hv as (_ & Ht & _).
  destruct (ParseLevel (c_LogLevel cfg)); [|done..]. simpl. rewrite M_bind_run, Hb. simpl. by rewrite finishes_reports.
Qed.
End Migrate.

(** ** The theorems at concrete inputs *)

#[local] Existing Instances Runtime.Example.ascii_only Runtime.Example.any_address Runtime.Example.no_durations Runtime.Example.no_urls.

(** A worker that is told to stop, closes and returns exits with 0; one whose
    component fails exits with 1 and its error; and one whose component hangs
    still ends when it is told to. *)
Lemma process_exits_witness :
  let refuse := fun _ : Config => @throw unit string (EText "no") in
  let build := fun cfg : Config => (mret (c_AsynqQueue cfg) : M unit string) in
  let main acts := worker_main refuse build refuse Runtime.Example.environment acts tt in
  let stopped := [Run.ParentCancelled; Run.TakeParent; Run.ShutdownReturns None; Run.TakeAnswer; Run.WorkerReturns 0 None; Run.TakeStopped] in
  let failed := finishes (Some (EText "boom")) None in
  (main stopped = Some (mkExit 0 None) /\ Run.joined (Run.shutdown_answers stopped) = None) /\
  main failed = Some (mkExit 1 (Some (EText "boom"))) /\
  exists rest, is_Some (main ([Run.ParentCancelled; Run.TakeParent] ++ rest)).
Proof.
  intros refuse build main stopped failed.
  pose proof (fun acts => process_exits refuse build refuse Runtime.Example.environment Runtime.Example.settings "worker"
    (worker_main refuse build refuse) build acts tt ltac:(vm_compute; reflexivity) eq_refl eq_refl) as H.
  split; [|split].
  - assert (main stopped = Some (mkExit 0 None)) as E by (vm_compute; reflexivity). split; [done|].
    destruct (Run.run 1 stopped) as [c|] eqn:Hc; [|by vm_compute in Hc]. destruct (H stopped c Hc) as [He _].
    by destruct (He _ E) as (_ & _ & _ & ? & _).
  - vm_compute; reflexivity.
  - destruct (Run.run 1 [Run.ParentCancelled; Run.TakeParent]) as [c|] eqn:Hc; [|by vm_compute in Hc].
    destruct (H _ c Hc) as [_ Hs]. destruct Hs as (rest & _ & Hr); [by vm_compute in Hc; simplify_eq|]. by exists rest.
Defined.
