(* ===== verification/Script.v ===== *)
(** * The script of the end-to-end tests (scripts/verification)

    The command that checks its environment, looks for the root of the
    repository from the working directory upwards and runs the end-to-end
    tests there.  The parts of [path/filepath] it uses, on slash separated
    paths, come first. *)
From S2P Require Import Prelude GoStrings Config Command.
Local Open Scope Z_scope.

(** ** Paths ([path/filepath]) *)
Section Paths.
Local Open Scope char_scope.

(** A path is cut at its slashes; the elements are kept from the last one to
    the first. *)
Definition path : Type := list ascii.
Definition elements (p : path) : list path := split_on "/" p.

Fixpoint joined (l : list path) : path :=
  match l with
  | [] => []
  | [p] => p
  | p :: l => p ++ "/" :: joined l
  end.

Definition dot : path := ["."].
Definition dotdot : path := ["."; "."].

(** One element of [filepath.Clean]: [..] takes the element before it away. *)
Definition clean_element (rooted : bool) (out : list path) (p : path) : list path :=
  if decide (p = [] \/ p = dot) then out
  else if decide (p = dotdot) then
    match out with
    | top :: rest => if decide (top = dotdot) then p :: out else rest
    | [] => if rooted then [] else [p]
    end
  else p :: out.

Definition is_rooted (p : path) : bool := match p with "/" :: _ => true | _ => false end.

(** [filepath.Clean] *)
Definition Clean (p : path) : path :=
  let out := reverse (foldl (clean_element (is_rooted p)) [] (elements p)) in
  if is_rooted p then "/" :: joined out else match out with [] => dot | _ => joined out end.

(** [filepath.Dir]: all but the last element, cleaned. *)
Definition Dir (p : path) : path := Clean (joined (removelast (elements p) ++ [[]])).

(** [filepath.Join] of a directory and a name. *)
Definition Join (directory name : path) : path :=
  match directory with [] => Clean name | _ => Clean (directory ++ "/" :: name) end.
End Paths.

(** ** The script *)

(** @src scripts/verification/main.go:11-15 requiredEnvironment *)
Definition requiredEnvironment : list string := ["E2E_BASE_URL"; "E2E_ADMIN_EMAIL"; "E2E_ADMIN_PASSWORD"].

(** @src scripts/verification/main.go:41-49 missingEnvironment *)
Definition missingEnvironment (env : gmap string string) : list string :=
  filter (fun name => TrimSpace (Getenv env name) = "") requiredEnvironment.

Definition go_mod : path := bytes "go.mod".

Section Root.
(** [os.Stat] finds something at the path. *)
Variable exists_ : path -> bool.

(** @src scripts/verification/main.go:56-65 findRepositoryRoot *)
Fixpoint search (fuel : nat) (directory : path) : option (res path) :=
  match fuel with
  | O => None
  | S fuel =>
      if exists_ (Join directory go_mod) then Some (Ok directory)
      else
        let parent := Dir directory in
        if decide (parent = directory) then Some (Err (EText "go.mod not found from working directory"))
        else search fuel parent
  end.

(** A turn for the path itself, one for each of its elements and one for the
    root. *)
Definition turns (directory : path) : nat := length (elements directory) + 2.

(** @src scripts/verification/main.go:51-66 findRepositoryRoot *)
Definition findRepositoryRoot (getwd : res path) : option (res path) :=
  match getwd with
  | Err err => Some (Err (EWrap "get working directory" err))
  | Panic => Some Panic
  | Ok directory => search (turns directory) directory
  end.

(** What [exec.Command(...).Run] answers: nothing, the status of the program
    that ran, or an error of its own. *)
Inductive ran := RanWell | RanExit (code : Z) | RanError (err : error).

Inductive verdict := MissingEnvironment (names : list string) | NoRoot (err : error) | Tested (r : ran).

(** [go_test] runs the tests in a directory with an environment.
    @src scripts/verification/main.go:17-39 main *)
Definition script (go_test : path -> gmap string string -> ran) (env : gmap string string) (getwd : res path) : option (Z * verdict) :=
  match missingEnvironment env with
  | _ :: _ => Some (2, MissingEnvironment (missingEnvironment env))
  | [] =>
      root ← findRepositoryRoot getwd;
      match root with
      | Err err => Some (2, NoRoot err)
      | Panic => None
      | Ok directory =>
          let r := go_test directory (<["E2E_RUN" := "1"]> env) in
          Some (match r with RanWell => 0 | RanExit code => code | RanError _ => 1 end, Tested r)
      end
  end.
End Root.

(** ** Cleaning *)

(** An element that [Clean] keeps. *)
Definition plain (p : path) : Prop := p <> [] /\ p <> dot /\ p <> dotdot /\ Forall (fun c => c <> "/"%char) p.

Lemma clean_plain rooted out p : plain p -> clean_element rooted out p = p :: out.
Proof. intros (? & ? & ? & _). unfold clean_element. rewrite decide_False by tauto. by rewrite decide_False. Qed.

Lemma foldl_clean_plain rooted l out : Forall plain l -> foldl (clean_element rooted) out l = reverse l ++ out.
Proof.
  intros Hl. revert out. induction Hl as [|p l Hp _ IH]; intros out; [done|]. simpl.
  by rewrite clean_plain, IH, reverse_cons, <- app_assoc.
Qed.

Lemma foldl_clean_keeps l out : Forall plain out -> Forall (Forall (fun c => c <> "/"%char)) l ->
  Forall plain (foldl (clean_element true) out l).
Proof.
  intros Ho Hl. revert out Ho. induction Hl as [|p l Hp _ IH]; intros out Ho; [done|]. simpl. apply IH.
  unfold clean_element. destruct (decide _) as [|Hp1]; [done|]. destruct (decide _) as [|Hp2].
  - destruct Ho as [|top rest Ht Hr]; [done|]. destruct Ht as (_ & _ & Htop & _). by rewrite decide_False.
  - constructor; [|done]. unfold plain. tauto.
Qed.

Lemma elements_joined l : l <> [] -> Forall (Forall (fun c => c <> "/"%char)) l -> elements (joined l) = l.
Proof.
  intros Hne Hl. induction Hl as [|p l Hp Hl IH]; [done|]. destruct l as [|q l].
  - simpl. by apply split_on_no_sep.
  - change (joined (p :: q :: l)) with (p ++ "/"%char :: joined (q :: l)). unfold elements in *. rewrite split_on_app by done. by rewrite IH.
Qed.

Lemma split_on_safe sep l : Forall (Forall (fun c => c <> sep)) (split_on sep l).
Proof.
  induction l as [|a l IH]; simpl; [by repeat constructor|]. destruct (bool_decide_reflect (a = sep)); [by constructor|].
  destruct IH as [|w ws Hw Hws]; repeat constructor; done.
Qed.

Lemma length_clean_element rooted out p : (length (clean_element rooted out p) <= S (length out))%nat.
Proof. unfold clean_element. repeat case_decide; [lia| |simpl; lia]. destruct out, rooted; simpl; repeat case_decide; simpl; lia. Qed.

Lemma length_foldl_clean rooted l out : (length (foldl (clean_element rooted) out l) <= length l + length out)%nat.
Proof.
  revert out. induction l as [|p l IH]; intros out; simpl; [lia|]. specialize (IH (clean_element rooted out p)).
  pose proof (length_clean_element rooted out p). lia.
Qed.

(** A rooted path from its elements, and the directory of one. *)
Definition rooted (l : list path) : path := "/"%char :: joined l.

Lemma elements_nonempty p : elements p <> [].
Proof. unfold elements. destruct p as [|a p]; simpl; [done|]. destruct (bool_decide (a = "/"%char)); [done|]. by destruct (split_on _ p). Qed.

Lemma plain_safe l : Forall plain l -> Forall (Forall (fun c => c <> "/"%char)) l.
Proof. intros Hl. eapply Forall_impl; [exact Hl|]. by intros p (_ & _ & _ & ?). Qed.

(** [Dir] of a rooted path cleans all its elements but the last. *)
Lemma Dir_rooted x : Dir ("/"%char :: x) = rooted (reverse (foldl (clean_element true) [] (removelast (elements x)))).
Proof.
  unfold Dir. change (elements ("/"%char :: x)) with ([] :: elements x).
  pose proof (elements_nonempty x) as Hne. pose proof (split_on_safe "/"%char x) as Hs. change (split_on "/"%char x) with (elements x) in Hs.
  destruct (elements x) as [|e es] eqn:He; [done|]. change (removelast ([] :: e :: es)) with ([] :: removelast (e :: es)).
  set (m := removelast (e :: es)) in *.
  assert (Forall (Forall (fun c => c <> "/"%char)) m) as Hm.
  { unfold m. rewrite (app_removelast_last [] (l := e :: es)) in Hs by done. by apply Forall_app in Hs as [? _]. }
  assert (joined ([] :: m ++ [[]]) = rooted (m ++ [[]])) as E by (by destruct m).
  change (([] :: m) ++ [[]]) with ([] :: (m ++ [[]])). rewrite E.
  unfold Clean, rooted. cbn [is_rooted]. change (elements ("/"%char :: ?y)) with ([] :: elements y).
  rewrite elements_joined; [|by destruct m|apply Forall_app; by repeat constructor].
  change (foldl (clean_element true) [] ([] :: m ++ [[]])) with (foldl (clean_element true) [] (m ++ [[]])). by rewrite foldl_app.
Qed.

Lemma Dir_render l : Forall plain l -> Dir (rooted l) = rooted (removelast l).
Proof.
  intros Hl. unfold rooted at 1. rewrite Dir_rooted. destruct l as [|p l]; [done|]. rewrite elements_joined by (done || by apply plain_safe).
  rewrite foldl_clean_plain, app_nil_r, reverse_involutive; [done|].
  rewrite (app_removelast_last [] (l := p :: l)) in Hl by done. by apply Forall_app in Hl as [? _].
Qed.

Lemma Dir_plain x : exists l, Dir ("/"%char :: x) = rooted l /\ Forall plain l /\ (length l <= length (elements x))%nat.
Proof.
  rewrite Dir_rooted. eexists. split; [done|]. pose proof (split_on_safe "/"%char x) as Hs. change (split_on "/"%char x) with (elements x) in Hs.
  rewrite (app_removelast_last [] (elements_nonempty x)) in Hs at 1. apply Forall_app in Hs as [Hs _]. split.
  - apply Forall_reverse. by apply foldl_clean_keeps.
  - rewrite length_reverse. etrans; [apply length_foldl_clean|].
    pose proof (f_equal length (app_removelast_last [] (elements_nonempty x))) as E. rewrite length_app in E. cbn [length] in *. unfold path in *. lia.
Qed.

(** ** The search of the root *)
Section Search.
Variable exists_ : path -> bool.
Notation search := (search exists_).

Lemma search_render l fuel : Forall plain l -> (length l < fuel)%nat -> is_Some (search fuel (rooted l)).
Proof.
  revert l. induction fuel as [|fuel IH]; intros l Hl Hf; [lia|]. cbn [Script.search]. destruct (exists_ _); [by eexists|].
  rewrite Dir_render by done. case_decide as Hd; [by eexists|]. destruct l as [|p l _] using rev_ind; [done|].
  rewrite removelast_last in *. apply IH; [by apply Forall_app in Hl as [? _]|]. rewrite length_app in Hf. simpl in Hf. lia.
Qed.

(** What the search means, when it answers. *)
Definition searched (directory : path) (r : res path) : Prop :=
  match r with
  | Ok root => exists k, root = Nat.iter k Dir directory /\ exists_ (Join root go_mod) = true /\
      forall j, (j < k)%nat -> exists_ (Join (Nat.iter j Dir directory) go_mod) = false
  | Err _ => forall j, exists_ (Join (Nat.iter j Dir directory) go_mod) = false
  | Panic => False
  end.

Lemma search_spec fuel directory r : search fuel directory = Some r -> searched directory r.
Proof.
  revert directory. induction fuel as [|fuel IH]; intros directory; [done|]. cbn [Script.search].
  destruct (exists_ _) eqn:Hx; [intros [= <-]; exists 0%nat; split_and!; [done|done|lia]|].
  case_decide as Hd.
  - intros [= <-] j. assert (Nat.iter j Dir directory = directory) as -> by (induction j as [|j IHj]; [done|by simpl; rewrite IHj]). done.
  - intros Hs%IH. destruct r as [root|err|]; [|intros [|j]; [done|rewrite Nat.iter_succ_r; apply Hs]|done].
    destruct Hs as (k & -> & Hr & Hj). exists (S k). rewrite Nat.iter_succ_r. split_and!; [done..|].
    intros [|j] Hlt; [done|]. rewrite Nat.iter_succ_r. apply Hj. lia.
Qed.

(** From an absolute working directory the search always answers: with the
    nearest directory at or above it that has a [go.mod], or with an error when
    none has one. *)
Theorem findRepositoryRoot_nearest (directory : path) :
  is_rooted directory = true -> exists r, findRepositoryRoot exists_ (Ok directory) = Some r /\ searched directory r.
Proof.
  intros Hr. assert (exists x, directory = "/"%char :: x) as [x ->] by (destruct directory as [|[[] [] [] [] [] [] [] []] x]; try done; by exists x).
  assert (is_Some (findRepositoryRoot exists_ (Ok ("/"%char :: x)))) as [r E].
  { unfold findRepositoryRoot. change (turns ("/"%char :: x)) with (S (length (elements x) + 2)). cbn [Script.search].
    destruct (exists_ _); [by eexists|]. case_decide; [by eexists|].
    destruct (Dir_plain x) as (l & -> & Hl & Hlen). apply search_render; [done|]. unfold path in *. lia. }
  exists r. split; [done|]. by apply (search_spec _ _ _ E).
Qed.
End Search.

(** ** At concrete inputs *)
Example cleans :
  (fun p => of_bytes (Clean (bytes p))) <$> ["/a//b/../c/."; ""; "../x/.."; "/.."; "a/"] = ["/a/c"; "."; ".."; "/"; "a"].
Proof. vm_compute. reflexivity. Qed.

Lemma findRepositoryRoot_nearest_witness :
  findRepositoryRoot (fun p => bool_decide (p = bytes "/src/go.mod")) (Ok (bytes "/src/scripts/verification/")) = Some (Ok (bytes "/src")) /\
  searched (fun p => bool_decide (p = bytes "/src/go.mod")) (bytes "/src/scripts/verification/") (Ok (bytes "/src")).
Proof.
  destruct (findRepositoryRoot_nearest (fun p => bool_decide (p = bytes "/src/go.mod")) (bytes "/src/scripts/verification/")) as (r & E & H);
    [reflexivity|].
  assert (r = Ok (bytes "/src")) as -> by (vm_compute in E; by injection E as <-). by split.
Defined.

(** Without its environment the script stops before it looks for anything. *)
Example environment_checked :
  (fst <$> script (fun _ => true) (fun _ _ => RanWell) ∅ (Ok (bytes "/src"))) = Some 2 /\
  (fst <$> script (fun _ => true) (fun _ _ => RanExit 7)
     {["E2E_BASE_URL" := "http://api"; "E2E_ADMIN_EMAIL" := "a@b.c"; "E2E_ADMIN_PASSWORD" := "secret"]} (Ok (bytes "/src"))) = Some 7.
Proof. split; vm_compute; reflexivity. Qed.
